(* ===== verification/_CoqProject ===== *)
-Q . S2P
Prelude.v
GoLib.v
GoText.v
Json.v
JsonSpec.v
JsonText.v
Compute.v
ComputeSpec.v
Types.v
Allocator.v
AllocatorSpec.v
ComputeProps.v
AllocatorProps.v
AddressService.v
AllocatorProgress.v
K8s.v
IPPool.v
IPPoolProps.v
Cidr.v
CidrSpec.v
CidrProps.v
Network.v
Route.v
CidrHandler.v
Sync.v
OperatorProps.v
ClusterProps.v
RouteProps.v
Router.v
RouterSpec.v
RouterProps.v
HostInterface.v
HostInterfaceProps.v
Startup.v
StartupProps.v
Reconcilers.v
Config.v
Iface.v
Pci.v
Selector.v
Topology.v
SelectorProps.v
Messages.v
Backend.v
BackendProps.v
Daemon.v
Cni.v
Ipam.v
IpamProps.v
DaemonProps.v
RouteInstall.v
ConfigProps.v
Plugin.v
NetAttachDef.v
NetworkReconciler.v
NetAttachSpec.v
NetAttachProps.v
NetworkReconcilerProps.v
MultiNicConf.v
MultiNicLoad.v
MultiNic.v
MultiNicProps.v
AwsIpvlan.v
DaemonStart.v
CniNs.v
CniIp.v
CniIpam.v
Iptables.v
Logr.v
HnsPolicy.v
HnsEndpoint.v
MultiNicNet.v
DaemonStub.v
StubServer.v
CniStub.v
StubProps.v
Watchers.v
WatcherProps.v
ConnCheck.v
ConnCheckProps.v
