(* ===== verification/Prelude.v ===== *)
(** * Multi-NIC CNI: a verification library

    The program (repository multi-nic-cni) gives pods additional network
    interfaces on a Kubernetes cluster.  An operator ([src/controllers]) watches
    the network interfaces of every host, computes for each MultiNicNetwork a plan
    that divides the network's subnet into a VLAN network per interface network and
    a pod network per host, stores it as a CIDR object, keeps one IPPool object per
    pod network, and sends the hosts the routes between pod networks.  A daemon on
    each host ([src/daemon]) reports the host's interfaces, allocates addresses to
    pods from the IPPools and programs routes in the kernel.  When a pod starts, the
    CNI plugins ([src/cni]) ask the daemon for interfaces and addresses and execute
    one plugin per interface, with the configuration that the operator wrote into the
    network's NetworkAttachmentDefinition ([src/internal/plugin]).

    ** Parts, files and correspondence

    - [Prelude]: outcomes of Go code ([go]: a value or a panic; [run]: also no fuel
      left, or a wait on a channel; [result]: a value or an error), 64-bit integers,
      slices that share a backing array, sorting by a key, tactics.
    - [GoLib]: what the sources use of Go's strings, strconv, fmt, math and net
      packages, and [MapRange], an arbitrary order of iteration over a map.
    - [Types]: the structs of src/api/v1 and of the daemon's requests.
    - [Compute], [ComputeSpec], [ComputeProps]: src/internal/compute, the arithmetic
      of addresses and networks; specification lemmas; theorems.
    - [Allocator], [AllocatorSpec], [AllocatorProps]: src/daemon/src/allocator, the
      daemon's allocation service.  State: the lock, the history of deallocations,
      the cluster behind the interface [IPPoolAPI] with its laws [IPPoolLaws].
      [AllocatorProgress]: that requests are served when the cluster answers (laws
      [Available]), and the start of a daemon.
    - [K8s]: the interface [Client] of controller-runtime with its laws
      ([ClientFrame], [ClientLaws], and [DeletionLaws] for objects that wait for their
      finalizers), an in-memory instance, and src/controllers/safe_cache_handler.go.
    - [IPPool], [IPPoolProps]: src/controllers/ippool_handler.go.
    - [Cidr], [CidrSpec], [CidrProps]: the computation of a plan in
      src/controllers/cidr_handler.go ([NewCIDR], [UpdateEntries] and what they
      call).
    - [Network]: src/controllers/multinicnetwork_handler.go, the status of a network.
    - [Route], [RouteProps]: src/controllers/route_handler.go, daemon_connector.go
      and daemon_cache_handler.go.
    - [CidrHandler]: the operations of src/controllers/cidr_handler.go that change
      the operator's state: record [Operator], the caches, the queue of update
      requests and the cluster.
    - [Sync]: the synchronisation of IPPools with the running pods (same source).
    - [OperatorProps]: the operator as a transition system; cleaning of pools.
      [ClusterProps]: the operator's plan together with the daemons of all hosts.
    - [Router], [RouterSpec], [RouterProps]: src/daemon/src/router, the routing
      tables of a host.  State: the kernel behind the interface [Netlink] and the
      text of the file rt_tables.
    - [HostInterface], [HostInterfaceProps]: hostinterface_handler.go,
      hostinterface_controller.go and the pod queue of daemon_watcher.go.
    - [Watchers], [WatcherProps]: the rest of daemon_watcher.go (state
      [DaemonWatcher]: the operator and the channel of pods) and src/main.go, the
      start of the operator as a trace of calls.
    - [Startup], [StartupProps]: the synchronisation at start-up in cidr_handler.go
      and ippool_controller.go, and the body of the CIDR reconciler.
    - [Iface]: src/daemon/src/iface/iface.go, the interfaces of a host computed from
      its devices, links and routes, and their cache.
    - [Pci]: src/daemon/src/iface/pci.go, the devices of the host and of its pods.
    - [Selector], [SelectorProps]: src/daemon/src/selector, the choice of the
      interfaces a pod gets, with every strategy; [Topology]: topology.go, the NUMA
      nodes of interfaces and GPUs from the topology file or sysfs.
    - [AddressService]: the abstract address service that the daemon's allocation
      implements, and the refinement.
    - [GoText]: more of strconv and strings; [Json], [JsonSpec], [JsonText]:
      Go's encoding/json (printing, parsing, decoding into structs), that
      a printed value is read back, what replacing a member in a printed text does, and
      texts with white space.
    - [Messages]: the structs sent over HTTP, as instances of the interface [Wire]
      with its law [WireLaw].
    - [Backend], [BackendProps]: src/daemon/src/backend, the daemon's access to the
      cluster's objects as JSON, behind the interface [DynAPI].
    - [Daemon], [DaemonProps]: src/daemon/src/main.go, the HTTP server.  State
      [Server]: the allocator's, the host's routing tables, the interface cache.
      [RouteInstall]: the operator's routes sent to such servers.  [DaemonStart]: the
      start of the daemon, and the parts of its backend that it does not call.
    - [Cni]: the types of libcni and their text (interface [CniLib]); [Ipam],
      [IpamProps]: src/cni/plugins/ipam/multi-nic-ipam, the IPAM plugin, and the
      plugin together with the daemon.
    - [MultiNicConf], [MultiNicLoad], [MultiNic], [MultiNicProps]:
      src/cni/plugins/main/multi-nic, the main plugin: texts of configurations,
      loaders by device type, commands; [MultiNicNet]: its net.go.  [AwsIpvlan]:
      src/cni/plugins/main/aws-ipvlan.
    - [CniNs], [CniIp], [CniIpam], [Iptables]: src/cni/pkg, the helpers of the plugins:
      network namespaces (interface [Kernel]: threads, descriptors and namespaces);
      successors and texts of addresses and veth pairs ([Links]); the configuration of an
      interface, sysctl, routes ([HostNet]); iptables chains, masquerading and
      connection tracking ([IPTables]).  [HnsPolicy], [HnsEndpoint]: src/cni/pkg/hns, the
      policies and endpoints of the network service of Windows ([JsonParser], [Hns],
      [Hcn]).
    - [ConnCheck], [ConnCheckProps]: src/connection-check, the connectivity test; the
      cluster is the interface [CheckAPI].
    - [DaemonStub], [StubServer]: the allocator and the HTTP server of
      src/e2e-test/daemon-stub, the stub that stands for the daemon in the end-to-end
      tests; [CniStub]: src/e2e-test/cni-stub, which stands for the plugins; 
      [StubProps]: series of pods on the stub's allocator, and both stubs together.
    - [Plugin]: src/internal/plugin, the plugins' settings by device type;
      [NetAttachDef], [NetAttachSpec], [NetAttachProps]: net_attach_def.go.
    - [NetworkReconciler], [NetworkReconcilerProps]:
      src/controllers/multinicnetwork_controller.go.
    - [Reconcilers]: ippool_controller.go, cidr_controller.go and synchronizer.go;
      [Config]: config_controller.go and the variables of src/internal/vars, state
      [ConfigState]; [ConfigProps]: theorems about both.
    - [Logr]: src/internal/logr, the loggers that are connected to their sink later, and
      the loggers that src/internal/vars makes; state [Heap], sinks and promises.

    Definitions keep the names of the source.  A loop of the source is a Fixpoint
    of its own, named after the function ([addNewHost_loop]) or after what it does
    ([update_ifaces]).  Record fields carry a prefix per struct.

    ** What the theorems show

    - Addresses ([ComputeProps]): the network of an index is the one its arithmetic
      says, networks of different indexes are disjoint, an index that does not fit
      is refused, the exclusion test decides coverage, the index search terminates
      and returns the least gap.
    - Plans ([CidrProps], [OperatorProps]): computing and updating a plan ends and
      keeps it well formed; in every state the operator reaches, with networks of any
      configuration and under every interleaving of its workers, the pod networks of a
      network whose subnet has room for its blocks are disjoint and inside the subnet.
      A network without a subnet takes the networks of the hosts ([NewCIDR_plan]).
    - Pools ([IPPoolProps], [Sync]): names are unique, exclusions are exactly those
      that concern the pool, updates keep allocations, a pool is synchronised with
      exactly the running pods' addresses; end to end, no excluded address is
      allocated.
    - Allocation ([AllocatorProps], [AddressService]): a chosen address is free, in
      range and not excluded; pools stay well formed; answers are recorded; release
      undoes allocation; the lock is released.  The daemon's index search equals the
      operator's.  Every run of requests that finds room is a run of the abstract
      service, so an address stays with its pod until the pod releases it.  A request
      is answered when its pool has room ([AllocatorProgress]).  Over all hosts of a
      network no two allocations have the same address, across restarts of the daemons
      and changes of the plan ([ClusterProps]).
    - End-to-end tests ([DaemonStub], [StubProps]): the stub's allocator answers as the
      daemon's; the plugin stub, through the stub's HTTP server, gives every pod exactly
      one address of each pool and takes all of them back.
    - Storage and messages ([BackendProps], [DaemonProps]): patching a pool through
      JSON text changes its allocations and nothing else; every answer of the server
      is of the type its client decodes.
    - CNI ([IpamProps], [MultiNicProps]): every address of the IPAM plugin's result
      is recorded in a pool for the pod; ADD and then DEL leave every pool as it was,
      unless the DEL names no network namespace; the configurations of the single interfaces
      have their master and address; the result names exactly the interfaces made;
      routes are grouped without loss.
    - Definitions ([NetAttachProps]): the definitions of a network are in place in
      its namespaces, and their text is the configuration meant.
    - Configuration ([ConfigProps]): deleting it ends when the pools drain, with the
      deletion of the daemon set, and never ends with a stale pool; the daemon set it deploys connects to the operator.
    - Status and routes ([Network], [RouteProps], [RouterProps]): status updates
      settle; the routes sent to a host are exactly the plan's; reports of success
      are sound; tables are added and deleted without side effects, and routes are left
      only where the kernel refused their deletion.  When the operator
      reports the routes of a forced synchronisation as applied, they are in the kernel
      of every host that has the interface ([RouteInstall]).
    - Watching ([WatcherProps]): a daemon that becomes ready is registered and its host
      interfaces are created; the worker of the update queue does not block while the
      queue has room for the requests of the others and one per network;
      what a process starts before it holds the lease.
    - Helpers ([CniNs], [CniIp], [CniIpam], [Iptables]): code run in a namespace runs
      there, and the thread is back in its own or given up; removing the masquerading
      rules undoes adding them, and adding them twice is adding them once; the
      successor of an address has it as predecessor; applying a policy of the Windows
      service twice is applying it once, and an endpoint is added completely or not at
      all ([HnsPolicy], [HnsEndpoint]).
    - Connectivity test ([ConnCheckProps]): the clients connect to exactly the ports
      that the servers open for their address; the test ends when the clients finish; what its report counts.
    - Logging ([Logr]): a logger derived before its sink is known writes where one derived
      afterwards would, under every interleaving with the connection.
    - Host interfaces ([HostInterfaceProps]): merging settles; the cache agrees with
      the cluster whatever happens.
    - Selection ([SelectorProps]): the masters given to a pod exist on the host, are
      no more than asked for and belong to the requested device class; the topology
      strategy takes the interfaces nearest to the pod's GPUs.
    - Where the code does not do what it means to, a theorem states what it does:
      [insertAllocation_loses_allocation], [DeallocateIP_error_deadlock],
      [NewCIDR_too_many_masters_diverges], [SyncCIDRRoute_unreachable],
      [ApplyL3Config_again], [unreadable_networks_delete_pools],
      [stale_pool_blocks_config], [deleted_network_leaves_cidr],
      [cmdAdd_failure_keeps_addresses], [restart_reissues_address],
      [failed_client_hangs], [report_counts_unmeasured], [sysfs_numa_blind],
      [start_before_lease], [AddHnsEndpoint_shared_leak], [SetLog_names_lost],
      [reconciliations_leak], [full_queue_blocks_worker], [ex_del_leaks] and the lemmas and examples beside them.

    ** Fuel

    [FindAvailableIndex] runs with fuel one above the length of its list, which its
    theorem shows to be enough.  The loops of [addNewHost], [getInterfaceEntry] and
    [NewCIDR] take fuel as an argument; [UpdateEntries_preserves_plan],
    [tryAddNewHost_correct] and [NewCIDR_plan] show that a fuel above the number of
    interface and host indexes gives an answer ([fuel_for] asks that of the steps of
    the operator), and
    [NewCIDR_too_many_masters_diverges] that in its case no fuel does.  [Json.parse]
    runs with twice the length of the text and two, enough by [parse_fuel_enough].
    The waiting loop of the configuration's finalizer takes fuel, one per second:
    [config_deletion_ends] needs as much as there are pools.  So do the waiting loops
    of the connectivity test: [main_ends] shows that some fuel is enough when the pods
    and jobs come up, [failed_client_hangs] that none is when a job does not.
    A walk over the promises of loggers needs one more than there are promises
    ([loggers_reach_sink]).
    [SettleAddresses_ends] bounds the rounds of [SettleAddresses] by its timeout;
    [makeVeth] makes the ten attempts of the source.

    ** Interfaces and assumptions

    The API server, the kernel, the daemons seen from the operator and the pods'
    annotations are parameters; the laws a theorem needs are class fields or named
    hypotheses, and each main theorem with hypotheses has a lemma [_witness] that applies
    it to a concrete system.  The router of requests, github.com/gorilla/mux, is the
    parameter [Mux] with its documented behaviour on literal paths, [MuxLaws].  Methods
    that hold a lock for their whole body are one step; what other goroutines do between
    two steps is an argument ([others]) or a step of its own.  Addresses are IPv4;
    indexes are unbounded integers where the source has int, and stay below 2^32 in the
    theorems.  Log output of the other parts is left out.  A nil and an
    empty slice are one value, printed as null.  The texts of JSON theorems are ASCII.

    ** Not modelled

    Generated code and list types of src/api/v1; the
    constructors and SetupWithManager functions, which only store their arguments;
    informers, the ticker and the HTTP listener, whose events are arguments of the
    handlers.  Of src/cni/pkg: the test helpers and the functions that only forward to libcni.  Of
    src/e2e-test: the stub's copy of the daemon's backend and its connection to the API
    server.  Files, the PCI and GPU libraries, netlink, iptables and the API server
    are parameters.  The paths of the daemon's server that the operator calls are the
    default ones; [default_config_paths] shows that the default configuration has
    them. *)

From Stdlib Require Export Lia Ascii String.
From stdpp Require Export base strings gmap pretty sorting numbers list.

Global Open Scope Z_scope.

(** ** Outcomes of Go code

    A call either returns a value or panics (index out of range, nil pointer
    dereference).  A Go [error] result is a value, kept apart from panics. *)

Inductive go (A : Type) : Type :=
| Ret (a : A)
| Panic.
Arguments Ret {A} _.
Arguments Panic {A}.

#[export] Instance go_ret : MRet go := @Ret.
#[export] Instance go_bind : MBind go := fun A B f m =>
  match m with Ret a => f a | Panic => Panic end.

#[export] Instance go_fmap : FMap go := fun A B f m =>
  match m with Ret a => Ret (f a) | Panic => Panic end.

(** A loop of the program run with fuel: a value, a panic, no fuel left, or a
    send on a full channel that waits. *)

Inductive run (A : Type) : Type :=
| Fin (a : A)
| Crash
| OutOfFuel
| Stuck.
Arguments Fin {A} _.
Arguments Crash {A}.
Arguments OutOfFuel {A}.
Arguments Stuck {A}.

#[export] Instance run_ret : MRet run := @Fin.
#[export] Instance run_bind : MBind run := fun A B f m =>
  match m with Fin a => f a | Crash => Crash | OutOfFuel => OutOfFuel | Stuck => Stuck end.

Definition lift {A} (m : go A) : run A :=
  match m with Ret a => Fin a | Panic => Crash end.

(** A Go pair [(value, error)] where the value is meaningful only when the
    error is nil. *)

Inductive result (A : Type) : Type :=
| Ok (a : A)
| Err (e : string).
Arguments Ok {A} _.
Arguments Err {A} _.

#[export] Instance go_eq_dec {A} `{EqDecision A} : EqDecision (go A).
Proof. solve_decision. Defined.
#[export] Instance result_eq_dec {A} `{EqDecision A} : EqDecision (result A).
Proof. solve_decision. Defined.

(** ** Machine integers *)

(** [int] and [int64]: two's complement on 64 bits. *)
Definition i64 (z : Z) : Z := (z + 2 ^ 63) mod 2 ^ 64 - 2 ^ 63.

(** conversion to [byte] *)
Definition byte_of (z : Z) : Z := z mod 256.

(** ** Tactics *)

Ltac zbool :=
  repeat match goal with
  | H : (_ <? _) = true |- _ => apply Z.ltb_lt in H
  | H : (_ <? _) = false |- _ => apply Z.ltb_ge in H
  | H : (_ <=? _) = true |- _ => apply Z.leb_le in H
  | H : (_ <=? _) = false |- _ => apply Z.leb_gt in H
  | H : (_ =? _) = true |- _ => apply Z.eqb_eq in H
  | H : (_ =? _) = false |- _ => apply Z.eqb_neq in H
  | H : (_ && _)%bool = true |- _ => apply andb_true_iff in H as [? ?]
  | H : (_ || _)%bool = false |- _ => apply orb_false_iff in H as [? ?]
  end.

(** split the outermost boolean test on integers found in the goal *)
Ltac zcase :=
  match goal with
  | |- context [?a <? ?b] => destruct (Z.ltb_spec a b)
  | |- context [?a <=? ?b] => destruct (Z.leb_spec a b)
  | |- context [?a =? ?b] => destruct (Z.eqb_spec a b)
  end.

(** peel one monadic bind of a hypothesis [m ≫= f = Ret r] *)
Ltac go_inv H :=
  match type of H with
  | mbind _ ?m = Ret _ =>
      let E := fresh "E" in destruct m eqn:E; [|discriminate H]; cbn in H
  end.

(** close [a = b] by evaluation, without normalising the type of the equation *)
Ltac vm_refl := match goal with |- _ = ?b => vm_cast_no_check (eq_refl b) end.

Create HintDb multinic discriminated.

(** ** Lemmas on integers *)

(** in a list without duplicate keys the key determines the element *)
Lemma NoDup_fmap_inj {A B} (f : A → B) (l : list A) x y :
  NoDup (f <$> l) → x ∈ l → y ∈ l → f x = f y → x = y.
Proof.
  intros Hnd [i Hi]%list_elem_of_lookup [j Hj]%list_elem_of_lookup Heq.
  assert (i = j) as ->; [|congruence].
  eapply (NoDup_lookup _ _ _ (f x) Hnd); rewrite list_lookup_fmap; [by rewrite Hi|].
  by rewrite Hj, Heq.
Qed.

Lemma i64_small z : - 2 ^ 63 ≤ z < 2 ^ 63 → i64 z = z.
Proof. intros. unfold i64. rewrite Z.mod_small; lia. Qed.

Lemma byte_of_small z : 0 ≤ z < 256 → byte_of z = z.
Proof. intros. unfold byte_of. apply Z.mod_small; lia. Qed.

Lemma byte_of_range z : 0 ≤ byte_of z < 256.
Proof. apply Z.mod_pos_bound. lia. Qed.

Lemma pow2_pos n : 0 ≤ n → 0 < 2 ^ n.
Proof. intros. apply Z.pow_pos_nonneg; lia. Qed.

Lemma pow2_split a b : 0 ≤ a → 0 ≤ b → 2 ^ (a + b) = 2 ^ a * 2 ^ b.
Proof. intros. apply Z.pow_add_r; lia. Qed.

Lemma pow2_mono a b : 0 ≤ a ≤ b → 2 ^ a ≤ 2 ^ b.
Proof. intros. apply Z.pow_le_mono_r; lia. Qed.

#[export] Hint Resolve byte_of_range pow2_pos : multinic.

(** ** Lists: in-place updates of the backing array of a slice *)

Section slices.
Context {A : Type}.
Implicit Types (arr xs : list A) (i : nat).

(** what the elements of [arr] become when [append (arr[0:i], xs...)] finds
    enough capacity and writes [xs] into the shared backing array *)
Definition overwrite arr i xs : list A :=
  take i arr ++ xs ++ drop (i + length xs) arr.

(** the slice [append (arr[0:i], arr[i+1:]...)] *)
Definition remove_at arr i : list A := take i arr ++ drop (S i) arr.

Lemma length_overwrite arr i xs :
  (i + length xs ≤ length arr)%nat → length (overwrite arr i xs) = length arr.
Proof.
  intros. unfold overwrite. rewrite !length_app, length_take, length_drop. lia.
Qed.

Lemma length_remove_at arr i :
  (i < length arr)%nat → S (length (remove_at arr i)) = length arr.
Proof.
  intros. unfold remove_at. rewrite length_app, length_take, length_drop. lia.
Qed.

Lemma remove_at_perm arr i x :
  arr !! i = Some x → arr ≡ₚ x :: remove_at arr i.
Proof.
  intros H. unfold remove_at. rewrite <- (take_drop_middle arr i x H) at 1.
  by rewrite Permutation_middle.
Qed.
End slices.

(** ** Stable sorting by an integer key ([sort.Ints], [sort.SliceStable]) *)

Section sort_by.
Context {A : Type} (key : A → Z).

Fixpoint insert_by (x : A) (l : list A) : list A :=
  match l with
  | [] => [x]
  | y :: l' => if key x <=? key y then x :: l else y :: insert_by x l'
  end.

Definition sort_by (l : list A) : list A := foldr insert_by [] l.

Lemma insert_by_perm x l : insert_by x l ≡ₚ x :: l.
Proof.
  induction l as [|y l IH]; simpl; [done|].
  destruct (_ <=? _); [done|]. rewrite IH. apply Permutation_swap.
Qed.

Lemma sort_by_perm l : sort_by l ≡ₚ l.
Proof. induction l as [|x l IH]; simpl; [done|]. by rewrite insert_by_perm, IH. Qed.

Lemma insert_by_sorted x l :
  StronglySorted (λ a b, key a ≤ key b) l →
  StronglySorted (λ a b, key a ≤ key b) (insert_by x l).
Proof.
  induction 1 as [|y l Hl IH Hy]; simpl; [by repeat constructor|].
  destruct (Z.leb_spec (key x) (key y)).
  - constructor; [by constructor|]. constructor; [done|].
    eapply Forall_impl; [exact Hy|]. simpl; lia.
  - constructor; [done|]. rewrite insert_by_perm. constructor; [lia|done].
Qed.

Lemma sort_by_sorted l : StronglySorted (λ a b, key a ≤ key b) (sort_by l).
Proof. induction l; simpl; [constructor|]. by apply insert_by_sorted. Qed.

(** stability: the elements of any one key keep their order *)
Lemma insert_by_filter_key k x l :
  filter (λ a, key a = k) (insert_by x l) = filter (λ a, key a = k) (x :: l).
Proof.
  induction l as [|y l IH]; [done|]. cbn [insert_by].
  destruct (Z.leb_spec (key x) (key y)) as [|Hlt]; [done|].
  rewrite !filter_cons, IH, filter_cons.
  repeat case_decide; congruence || lia.
Qed.

Lemma sort_by_stable k l :
  filter (λ a, key a = k) (sort_by l) = filter (λ a, key a = k) l.
Proof.
  induction l as [|x l IH]; [done|]. cbn [sort_by foldr].
  change (foldr insert_by [] l) with (sort_by l).
  rewrite insert_by_filter_key, !filter_cons, IH. done.
Qed.

Lemma sort_by_id l :
  StronglySorted (λ a b, key a ≤ key b) l → sort_by l = l.
Proof.
  induction 1 as [|x l Hl IH Hx]; [done|]. cbn [sort_by foldr].
  change (foldr insert_by [] l) with (sort_by l). rewrite IH.
  destruct l as [|y l]; [done|]. simpl.
  apply Forall_cons in Hx as [Hxy _]. by rewrite (proj2 (Z.leb_le _ _) Hxy).
Qed.
End sort_by.

Definition sort_ints (l : list Z) : list Z := sort_by (λ z, z) l.

Lemma sort_ints_perm l : sort_ints l ≡ₚ l.
Proof. apply sort_by_perm. Qed.

Lemma sort_ints_sorted l : StronglySorted Z.le (sort_ints l).
Proof. apply sort_by_sorted. Qed.

(** sorting distinct integers gives a strictly increasing list *)
Lemma sorted_nodup_lt l :
  StronglySorted Z.le l → NoDup l → StronglySorted Z.lt l.
Proof.
  induction 1 as [|x l Hl IH Hx]; intros Hnd; [constructor|].
  apply NoDup_cons in Hnd as [Hxl Hnd]. constructor; [by apply IH|].
  rewrite Forall_forall in *. intros y Hy. specialize (Hx y Hy).
  assert (x ≠ y) by (intros ->; done). lia.
Qed.

Lemma sort_ints_lt l : NoDup l → StronglySorted Z.lt (sort_ints l).
Proof.
  intros. apply sorted_nodup_lt; [apply sort_ints_sorted|]. by rewrite sort_ints_perm.
Qed.

Lemma elem_of_sort_ints x l : x ∈ sort_ints l ↔ x ∈ l.
Proof. by rewrite sort_ints_perm. Qed.

(** the last element of a sorted list bounds it *)
Lemma sorted_last_max l x :
  StronglySorted Z.le l → last l = Some x → ∀ y, y ∈ l → y ≤ x.
Proof.
  intros Hs Hl. rewrite last_Some in Hl. destruct Hl as [l' ->].
  intros y [Hy|Hy]%elem_of_app.
  - apply StronglySorted_app in Hs as (Hs & _ & _).
    apply Hs; [done|by apply list_elem_of_singleton].
  - apply list_elem_of_singleton in Hy. lia.
Qed.

(** ** Other lemmas on lists *)

Lemma filter_id {A} (P : A → Prop) `{∀ x, Decision (P x)} l : Forall P l → filter P l = l.
Proof. induction 1 as [|x l Hx Hl IH]; [done|]. by rewrite filter_cons_True, IH. Qed.

Lemma take_subset {A} (x : A) n l : x ∈ take n l → x ∈ l.
Proof. rewrite <- (take_drop n l) at 2. intros. apply elem_of_app. by left. Qed.
