(* ===== verification/GoLib.v ===== *)
(** * The parts of the Go language and standard library the sources use

    [strings], [strconv], [math], [fmt] and [net] functions as total,
    executable Rocq functions on [string], [Z] and byte lists, with the lemmas
    the components share.  Addresses are IPv4 only (four bytes), which is what
    the program supports; text that Go would accept as IPv6 is rejected by
    [Net.ParseIP] and [Net.ParseCIDR] here. *)

From S2P Require Import Prelude.

(** [l[i]]: a panic when the index is out of range *)
Definition go_index {A} (l : list A) (i : Z) : go A :=
  if i <? 0 then Panic
  else match l !! Z.to_nat i with Some x => Ret x | None => Panic end.

(** ** strings *)

Module Strings.
Fixpoint Split (s : string) (sep : Ascii.ascii) : list string :=
  match s with
  | EmptyString => [EmptyString]
  | String c s' =>
      if Ascii.eqb c sep then EmptyString :: Split s' sep
      else match Split s' sep with
           | x :: xs => String c x :: xs
           | [] => [String c EmptyString]
           end
  end.

Fixpoint Join (l : list string) (sep : string) : string :=
  match l with
  | [] => EmptyString
  | [x] => x
  | x :: xs => x +:+ sep +:+ Join xs sep
  end.

(** [strings.ReplaceAll] for one-character patterns *)
Fixpoint ReplaceAll (s : string) (old new : Ascii.ascii) : string :=
  match s with
  | EmptyString => EmptyString
  | String c s' =>
      String (if Ascii.eqb c old then new else c) (ReplaceAll s' old new)
  end.

(** [strings.ReplaceAll] for a pattern that is not empty; the next [skip] characters
    belong to a match *)
Fixpoint replace_from (s old new : string) (skip : nat) : string :=
  match s with
  | EmptyString => EmptyString
  | String c s' =>
      match skip with
      | S k => replace_from s' old new k
      | O =>
          if String.prefix old s
          then new +:+ replace_from s' old new (String.length old - 1)
          else String c (replace_from s' old new O)
      end
  end.

Definition ReplaceText (s old new : string) : string := replace_from s old new O.

Definition HasPrefix (s p : string) : bool := String.prefix p s.

Definition TrimPrefix (s p : string) : string :=
  if HasPrefix s p then String.substring (String.length p) (String.length s) s
  else s.

(** [strings.Contains(s, sub)] *)
Fixpoint Contains (s sub : string) : bool :=
  String.prefix sub s ||
  match s with EmptyString => false | String _ s' => Contains s' sub end.

(** the characters of [s] do not include [c] *)
Fixpoint no_char (c : Ascii.ascii) (s : string) : bool :=
  match s with
  | EmptyString => true
  | String d s' => negb (Ascii.eqb d c) && no_char c s'
  end.
End Strings.

(** ** strconv and fmt *)

Module Strconv.
Definition digit (base : Z) (c : Ascii.ascii) : option Z :=
  let n := Z.of_N (Ascii.N_of_ascii c) - 48 in
  if (0 <=? n) && (n <? base) then Some n else None.

Inductive uint_res := UVal (n : Z) | USyntax | URange.

(** the digit loop of [strconv.ParseUint], bases 2 and 10, 64 bits *)
Fixpoint uint_digits (base : Z) (s : string) (n : Z) : uint_res :=
  match s with
  | EmptyString => UVal n
  | String c s' =>
      match digit base c with
      | None => USyntax
      | Some d =>
          if 2 ^ 64 <=? n * base + d then URange
          else uint_digits base s' (n * base + d)
      end
  end.

Definition ParseUint (base : Z) (s : string) : uint_res :=
  match s with EmptyString => USyntax | _ => uint_digits base s 0 end.

(** [strconv.ParseInt(s, base, 64)]: the value (0 on a syntax error, the
    nearest bound on overflow) and whether the error is non-nil *)
Definition ParseInt (s : string) (base : Z) : Z * bool :=
  let '(neg, body) :=
    match s with
    | String "+"%char s' => (false, s')
    | String "-"%char s' => (true, s')
    | _ => (false, s)
    end in
  match ParseUint base body with
  | USyntax => (0, true)
  | URange => if neg : bool then (- 2 ^ 63, true) else (2 ^ 63 - 1, true)
  | UVal un =>
      if negb neg && (2 ^ 63 <=? un) then (2 ^ 63 - 1, true)
      else if neg && (2 ^ 63 <? un) then (- 2 ^ 63, true)
      else (if neg then - un else un, false)
  end.

Definition Atoi (s : string) : Z * bool := ParseInt s 10.

(** [fmt.Sprintf("%d", n)] *)
Definition Itoa (n : Z) : string := pretty n.

(** [fmt.Sprintf("%b", n)] *)
Fixpoint pos_bin (p : positive) (acc : string) : string :=
  match p with
  | xH => String "1"%char acc
  | xO p' => pos_bin p' (String "0"%char acc)
  | xI p' => pos_bin p' (String "1"%char acc)
  end.

Definition fmt_b (n : Z) : string :=
  match n with
  | Z0 => "0"
  | Zpos p => pos_bin p ""
  | Zneg p => String "-"%char (pos_bin p "")
  end.
End Strconv.

(** ** Iteration over maps

    [for k, v := range m] visits every entry of a Go map once, in an order the
    language leaves open: an instance fixes one order, the theorems hold for
    every instance. *)

Class MapRange := {
  range_map : ∀ {A : Type}, gmap string A → list (string * A);
  range_map_perm : ∀ {A : Type} (m : gmap string A), range_map m ≡ₚ map_to_list m
}.

Definition map_to_list_range : MapRange :=
  {| range_map := λ A m, map_to_list m; range_map_perm := λ A m, reflexivity _ |}.

Lemma elem_of_range_map `{MapRange} {A} (m : gmap string A) k v :
  (k, v) ∈ range_map m ↔ m !! k = Some v.
Proof. by rewrite range_map_perm, elem_of_map_to_list. Qed.

Lemma length_range_map `{MapRange} {A} (m : gmap string A) : length (range_map m) = size m.
Proof. by rewrite range_map_perm, length_map_to_list. Qed.

Lemma range_map_keys_nodup `{MapRange} {A} (m : gmap string A) : NoDup (range_map m).*1.
Proof. rewrite range_map_perm. apply NoDup_fst_map_to_list. Qed.

(** [sort.Strings] *)
Definition string_le (a b : string) : Prop := Is_true (String.leb a b).
#[export] Instance string_le_dec : RelDecision string_le.
Proof. intros a b. unfold string_le. apply _. Defined.
Definition sort_strings (l : list string) : list string := merge_sort string_le l.

(** ** math

    [int(math.Pow(2, float64(b)) - k)] for [k] = 1 or 2, in IEEE double
    arithmetic: exact up to 2^(52+k), rounded to a power of two (or to [-k])
    beyond it, and the x86-64 out-of-range conversion from 2^63 on. *)
Definition pow2_minus (k b : Z) : Z :=
  if b <? 0 then (if b <=? k - 55 then - k else 1 - k)
  else if b <=? 52 + k then 2 ^ b - k
  else if b <=? 62 then 2 ^ b
  else - 2 ^ 63.

(** ** net *)

Module Net.
(** addresses and masks: byte lists *)
Record IPNet := mkIPNet { IP : list Z; Mask : list Z }.

(** one dotted field: decimal digits, no leading zero, at most 255 *)
Definition octet (s : string) : option Z :=
  match s with
  | EmptyString => None
  | String "0"%char (String _ _) => None
  | _ => match Strconv.uint_digits 10 s 0 with
         | Strconv.UVal n => if n <=? 255 then Some n else None
         | _ => None
         end
  end.

Definition ParseIP (s : string) : option (list Z) :=
  match Strings.Split s "."%char with
  | [a; b; c; d] =>
      a ← octet a; b ← octet b; c ← octet c; d ← octet d; Some [a; b; c; d]
  | _ => None
  end.

(** [n] leading ones, most significant byte first *)
Fixpoint mask_bytes (len : nat) (n : Z) : list Z :=
  match len with
  | O => []
  | S len' =>
      if 8 <=? n then 255 :: mask_bytes len' (n - 8)
      else (255 - Z.shiftr 255 n) :: mask_bytes len' 0
  end.

Definition CIDRMask (ones : Z) : list Z := mask_bytes 4 ones.

Definition ip_mask (ip m : list Z) : list Z := zip_with Z.land ip m.

(** the prefix length of [ParseCIDR]: decimal digits only, at most 32 *)
Definition prefix_len (s : string) : option Z :=
  match s with
  | EmptyString => None
  | _ => match Strconv.uint_digits 10 s 0 with
         | Strconv.UVal n => if n <=? 32 then Some n else None
         | _ => None
         end
  end.

(** [net.ParseCIDR]: the address and the masked network, or an error *)
Definition ParseCIDR (s : string) : option (list Z * IPNet) :=
  match Strings.Split s "/"%char with
  | [addr; m] =>
      ip ← ParseIP addr; n ← prefix_len m;
      Some (ip, mkIPNet (ip_mask ip (CIDRMask n)) (CIDRMask n))
  | _ => None
  end.

(** [IPNet.Contains]; a nil address is in no network *)
Definition Contains (n : IPNet) (ip : option (list Z)) : bool :=
  match ip with
  | None => false
  | Some ip =>
      bool_decide (length ip = length (IP n)) &&
      bool_decide (ip_mask (IP n) (Mask n) = ip_mask ip (Mask n))
  end.

Definition ip_string (ip : list Z) : string :=
  Strings.Join (Strconv.Itoa <$> ip) ".".

#[export] Instance IPNet_eq_dec : EqDecision IPNet.
Proof. solve_decision. Defined.
End Net.

(** [IPNet.String] *)
Fixpoint mask_ones (l : list Z) : option Z :=
  match l with
  | [] => Some 0
  | b :: l' =>
      if b =? 255 then n ← mask_ones l'; Some (8 + n)
      else if forallb (λ z, z =? 0) l'
           then list_find (λ k, Z.lxor 255 (Z.shiftr 255 k) = b) [0; 1; 2; 3; 4; 5; 6; 7]
                ≫= λ ik, Some ik.2
           else None
  end.

Definition hex_digit (n : Z) : string :=
  default "" (["0";"1";"2";"3";"4";"5";"6";"7";"8";"9";"a";"b";"c";"d";"e";"f"] !! Z.to_nat n).

Definition IPNet_String (n : Net.IPNet) : string :=
  Net.ip_string (Net.IP n) +:+ "/" +:+
  match mask_ones (Net.Mask n) with
  | Some l => Strconv.Itoa l
  | None => String.concat "" ((λ b, hex_digit (b / 16) +:+ hex_digit (b mod 16)) <$> Net.Mask n)
  end.

Example ParseCIDR_ex :
  Net.ParseCIDR "192.168.64.1/18"
  = Some ([192; 168; 64; 1], Net.mkIPNet [192; 168; 64; 0] [255; 255; 192; 0]).
Proof. vm_compute. reflexivity. Qed.

Example ParseCIDR_reject :
  (Net.ParseCIDR "192.168.0.0", Net.ParseCIDR "192.168.0.256/8",
   Net.ParseCIDR "192.168.00.1/8", Net.ParseCIDR "1.2.3.4/33",
   Net.ParseCIDR "1.2.3.4/8/8")
  = (None, None, None, None, None).
Proof. vm_compute. reflexivity. Qed.

Example fmt_b_ex : (Strconv.fmt_b 6, Strconv.fmt_b 0, Strconv.fmt_b (-5))
                   = ("110", "0", "-101").
Proof. reflexivity. Qed.

(** ** Lemmas: splitting and joining *)

Lemma split_no_char s sep :
  Strings.no_char sep s = true → Strings.Split s sep = [s].
Proof.
  induction s as [|c s IH]; simpl; [done|]. intros [Hc Hs]%andb_true_iff.
  destruct (Ascii.eqb c sep); [done|]. by rewrite IH.
Qed.

Lemma str_app_nil b : "" +:+ b = b.
Proof. done. Qed.

Lemma str_app_cons c a b : String c a +:+ b = String c (a +:+ b).
Proof. done. Qed.

Lemma length_substring m s : ∀ n, (n + m ≤ String.length s)%nat →
  String.length (String.substring n m s) = m.
Proof.
  revert m. induction s as [|c s IH]; intros m n Hn; simpl in *.
  { assert (n = O) as -> by lia. assert (m = O) as -> by lia. done. }
  destruct n as [|n].
  - destruct m as [|m]; [done|]. simpl. f_equal. apply (IH m O). lia.
  - apply IH. lia.
Qed.

Lemma prefix_app p s : String.prefix p (p +:+ s) = true.
Proof.
  induction p as [|a p IH]; [by destruct s|]. rewrite str_app_cons. cbn. by destruct (ascii_dec a a).
Qed.

Lemma str_app_assoc (a b c : string) : (a +:+ b) +:+ c = a +:+ b +:+ c.
Proof. induction a as [|x a IH]; [done|]. rewrite !str_app_cons. by rewrite IH. Qed.

Lemma str_app_nil_r (a : string) : a +:+ "" = a.
Proof. induction a as [|x a IH]; [done|]. rewrite str_app_cons. by rewrite IH. Qed.

Lemma split_app a b sep :
  Strings.no_char sep a = true →
  Strings.Split (a +:+ String sep b) sep = a :: Strings.Split b sep.
Proof.
  induction a as [|c a IH].
  { rewrite str_app_nil. simpl. by rewrite Ascii.eqb_refl. }
  rewrite str_app_cons. simpl. intros [Hc Ha]%andb_true_iff.
  destruct (Ascii.eqb c sep); [done|]. by rewrite IH.
Qed.

Lemma split_nonempty s sep : Strings.Split s sep ≠ [].
Proof.
  induction s as [|c s IH]; simpl; [done|].
  destruct (Ascii.eqb c sep); [done|]. by destruct (Strings.Split s sep).
Qed.

Lemma split_app_sep a b sep :
  Strings.Split (a +:+ String sep b) sep = Strings.Split a sep ++ Strings.Split b sep.
Proof.
  induction a as [|c a IH].
  { rewrite str_app_nil. simpl. by rewrite Ascii.eqb_refl. }
  rewrite str_app_cons. simpl. rewrite IH. destruct (Ascii.eqb c sep); [done|].
  destruct (Strings.Split a sep) eqn:E; [by apply split_nonempty in E|done].
Qed.

Lemma split_inj a b sep : Strings.Split a sep = Strings.Split b sep → a = b.
Proof.
  revert b. induction a as [|c a IH]; intros [|d b]; simpl; [done|..].
  - destruct (Ascii.eqb d sep); [|destruct (Strings.Split b sep); done].
    intros [= Hs]. by apply symmetry, split_nonempty in Hs.
  - destruct (Ascii.eqb c sep); [|destruct (Strings.Split a sep); done].
    intros [= Hs]. by apply split_nonempty in Hs.
  - destruct (Strings.Split a sep) as [|x xs] eqn:Ea; [by apply split_nonempty in Ea|].
    destruct (Strings.Split b sep) as [|y ys] eqn:Eb; [by apply split_nonempty in Eb|].
    destruct (Ascii.eqb_spec c sep), (Ascii.eqb_spec d sep); intros H; try done.
    + injection H as -> ->. subst. f_equal. apply IH. by rewrite Eb.
    + injection H as -> -> ->. f_equal. apply IH. by rewrite Eb.
Qed.

Lemma split_head_no_char s sep x l :
  Strings.Split s sep = x :: l → Strings.no_char sep x = true.
Proof.
  revert x l. induction s as [|c s IH]; simpl; intros x l; [by intros [= <- _]|].
  destruct (Ascii.eqb c sep) eqn:Ec; [by intros [= <- _]|].
  destruct (Strings.Split s sep) as [|y ys] eqn:E; intros [= <- _]; simpl; rewrite Ec; [done|].
  by apply (IH y ys).
Qed.

Lemma no_char_app c a b :
  Strings.no_char c (a +:+ b) = Strings.no_char c a && Strings.no_char c b.
Proof.
  induction a as [|d a IH]; [done|]. rewrite str_app_cons. simpl.
  by rewrite IH, andb_assoc.
Qed.

(** ** Lemmas: decimal octets and prefix lengths *)

Definition octet_ok (n : Z) : bool :=
  Strings.no_char "."%char (Strconv.Itoa n) && Strings.no_char "/"%char (Strconv.Itoa n) &&
  bool_decide (Net.octet (Strconv.Itoa n) = Some n) &&
  bool_decide (Strconv.ParseInt (Strconv.Itoa n) 10 = (n, false)).

Lemma octet_ok_all n : 0 ≤ n < 256 → octet_ok n = true.
Proof.
  intros Hn. assert (Forall (λ n, octet_ok n = true) (seqZ 0 256)) as H.
  { apply Forall_forall. intros x Hx. revert x Hx. apply Forall_forall.
    apply (bool_decide_eq_true_1 _). vm_compute. reflexivity. }
  rewrite Forall_forall in H. apply H, elem_of_seqZ. lia.
Qed.

Lemma octet_ok_inv n :
  0 ≤ n < 256 →
  Strings.no_char "."%char (Strconv.Itoa n) = true ∧
  Strings.no_char "/"%char (Strconv.Itoa n) = true ∧
  Net.octet (Strconv.Itoa n) = Some n ∧
  Strconv.ParseInt (Strconv.Itoa n) 10 = (n, false).
Proof.
  intros [[[? ?]%andb_true_iff ?]%andb_true_iff ?]%octet_ok_all%andb_true_iff.
  repeat case_bool_decide; done.
Qed.

Lemma uint_digits_small base s n k :
  Strconv.uint_digits base s n = Strconv.UVal k → 0 ≤ n → 0 < base → n ≤ k.
Proof.
  revert n. induction s as [|c s IH]; simpl; intros n H Hn Hb.
  { injection H. lia. }
  unfold Strconv.digit in H. destruct (_ && _) eqn:Hd; [|done]. zbool.
  destruct (2 ^ 64 <=? _); [done|]. apply IH in H; nia.
Qed.

Lemma digit_sign base c d :
  Strconv.digit base c = Some d → c ≠ "+"%char ∧ c ≠ "-"%char.
Proof. intros H. split; intros ->; revert H; unfold Strconv.digit; simpl; done. Qed.

(** a run of decimal digits is read by [ParseInt] unchanged *)
Lemma uint_digits_ParseInt s n :
  s ≠ "" → Strconv.uint_digits 10 s 0 = Strconv.UVal n → n < 2 ^ 63 →
  Strconv.ParseInt s 10 = (n, false).
Proof.
  destruct s as [|c m]; [done|]. intros _ E Hn.
  assert (c ≠ "+"%char ∧ c ≠ "-"%char) as [Hp Hm].
  { cbn in E. destruct (Strconv.digit 10 c) eqn:Hd; [|done]. by eapply digit_sign. }
  assert (Strconv.ParseUint 10 (String c m) = Strconv.UVal n) as Hu by done.
  unfold Strconv.ParseInt.
  destruct c as [[] [] [] [] [] [] [] []]; try done; rewrite Hu; simpl;
    destruct (Z.leb_spec (2 ^ 63) n); done || lia.
Qed.

(** a prefix length that [ParseCIDR] accepts is read by [ParseInt] unchanged *)
Lemma prefix_len_ParseInt m p :
  Net.prefix_len m = Some p → Strconv.ParseInt m 10 = (p, false) ∧ 0 ≤ p ≤ 32.
Proof.
  unfold Net.prefix_len. destruct m as [|c m]; [done|].
  destruct (Strconv.uint_digits 10 (String c m) 0) as [n| |] eqn:E; [|done..].
  case_match eqn:Hn; [|done]. intros [= <-]. zbool.
  pose proof (uint_digits_small _ _ _ _ E). split; [|lia].
  apply uint_digits_ParseInt; [done..|lia].
Qed.

Lemma prefix_len_Itoa p : 0 ≤ p ≤ 32 → Net.prefix_len (Strconv.Itoa p) = Some p.
Proof.
  intros Hp. assert (Forall (λ n, Net.prefix_len (Strconv.Itoa n) = Some n) (seqZ 0 33)) as H.
  { apply (bool_decide_eq_true_1 _). vm_compute. reflexivity. }
  rewrite Forall_forall in H. apply H, elem_of_seqZ. lia.
Qed.

(** ** Lemmas: big-endian byte lists *)

Definition bytes_ok (l : list Z) : Prop := Forall (λ b, 0 ≤ b < 256) l.

(** an IPv4 address as four bytes *)
Definition ip_ok (l : list Z) : Prop := length l = 4%nat ∧ bytes_ok l.

Fixpoint be (l : list Z) : Z :=
  match l with [] => 0 | b :: l' => b * 256 ^ Z.of_nat (length l') + be l' end.

Lemma pow256 n : 0 ≤ n → 256 ^ n = 2 ^ (8 * n).
Proof. intros. rewrite Z.pow_mul_r by lia. done. Qed.

Lemma be_cons b l : be (b :: l) = b * 2 ^ (8 * Z.of_nat (length l)) + be l.
Proof. simpl. rewrite pow256 by lia. done. Qed.

Lemma be_bound l : bytes_ok l → 0 ≤ be l < 2 ^ (8 * Z.of_nat (length l)).
Proof.
  induction 1 as [|b l Hb Hl IH]; [simpl; lia|]. rewrite be_cons. cbn [length].
  replace (8 * Z.of_nat (S (length l))) with (8 + 8 * Z.of_nat (length l)) by lia.
  rewrite pow2_split by lia. nia.
Qed.

Lemma be_inj l1 l2 :
  bytes_ok l1 → bytes_ok l2 → length l1 = length l2 → be l1 = be l2 → l1 = l2.
Proof.
  intros H1. revert l2. induction H1 as [|b l Hb Hl IH]; intros l2 H2 Hlen Heq.
  { by destruct l2. }
  destruct l2 as [|b2 l2]; [done|]. inversion H2; subst. simpl in Hlen.
  injection Hlen as Hlen. rewrite !be_cons in Heq. rewrite Hlen in Heq.
  pose proof (be_bound l Hl) as B1. pose proof (be_bound l2 ltac:(done)) as B2.
  rewrite Hlen in B1. assert (b = b2) by nia. subst b2. f_equal.
  apply IH; [done|done|lia].
Qed.

Lemma ip_ok_bound ip : ip_ok ip → 0 ≤ be ip < 2 ^ 32.
Proof. intros [Hl Hb]. pose proof (be_bound ip Hb) as H. rewrite Hl in H. exact H. Qed.

Lemma ip_eq a b : ip_ok a → ip_ok b → be a = be b → a = b.
Proof. intros [??] [??] ?. apply be_inj; congruence. Qed.

(** ** Lemmas: masks *)

Definition mask_byte_ok (bk : Z * Z) : bool :=
  let '(b, k) := bk in
  Z.land b (255 - Z.shiftr 255 k) =? b / 2 ^ (8 - k) * 2 ^ (8 - k).

Lemma mask_byte b k :
  0 ≤ b < 256 → 0 ≤ k ≤ 8 →
  Z.land b (255 - Z.shiftr 255 k) = b / 2 ^ (8 - k) * 2 ^ (8 - k).
Proof.
  intros Hb Hk.
  assert (forallb (λ b, forallb (λ k, mask_byte_ok (b, k)) (seqZ 0 9)) (seqZ 0 256) = true)
    as H by (vm_compute; reflexivity).
  rewrite forallb_forall in H. specialize (H b). rewrite <- list_elem_of_In in H.
  rewrite forallb_forall in H. specialize (H ltac:(apply elem_of_seqZ; lia) k).
  rewrite <- list_elem_of_In in H. apply Z.eqb_eq, H, elem_of_seqZ. lia.
Qed.

Lemma mask_bytes_length n p : length (Net.mask_bytes n p) = n.
Proof. revert p. induction n; simpl; intros; [done|]. case_match; simpl; auto. Qed.

Lemma ip_mask_length l n p :
  length l = n → length (Net.ip_mask l (Net.mask_bytes n p)) = n.
Proof. intros. unfold Net.ip_mask. rewrite length_zip_with, mask_bytes_length. lia. Qed.

Lemma be_mask_zero l n :
  length l = n → be (Net.ip_mask l (Net.mask_bytes n 0)) = 0.
Proof.
  revert n. induction l as [|b l IH]; intros [|n] Hl; try done.
  injection Hl as Hl. change (Net.mask_bytes (S n) 0) with (0 :: Net.mask_bytes n 0).
  unfold Net.ip_mask in *. cbn [zip_with]. rewrite be_cons, IH by done.
  rewrite Z.land_0_r. lia.
Qed.

(** masking with [p] leading ones clears the low bits *)
Lemma be_mask l n p :
  bytes_ok l → length l = n → 0 ≤ p ≤ 8 * Z.of_nat n →
  be (Net.ip_mask l (Net.mask_bytes n p))
  = be l / 2 ^ (8 * Z.of_nat n - p) * 2 ^ (8 * Z.of_nat n - p).
Proof.
  intros Hb. revert n p. induction Hb as [|b l Hb Hl IH]; intros [|n] p Hn Hp; try done.
  injection Hn as Hn. pose proof (be_bound l Hl) as Bl. rewrite Hn in Bl.
  cbn [Net.mask_bytes]. unfold Net.ip_mask in *. destruct (Z.leb_spec 8 p).
  - cbn [zip_with]. rewrite !be_cons, IH by lia.
    change 255 with (Z.ones 8). rewrite Z.land_ones, Z.mod_small by lia.
    rewrite length_zip_with, mask_bytes_length, Hn, Nat.min_id.
    replace (8 * Z.of_nat (S n) - p) with (8 * Z.of_nat n - (p - 8)) by lia.
    remember (8 * Z.of_nat n - (p - 8)) as q eqn:Hq.
    replace (8 * Z.of_nat n) with ((p - 8) + q) by lia.
    rewrite pow2_split by lia. pose proof (pow2_pos q ltac:(lia)).
    rewrite Z.mul_assoc, Z.div_add_l by lia. nia.
  - cbn [zip_with]. rewrite !be_cons.
    pose proof (be_mask_zero l n Hn) as Hz. unfold Net.ip_mask in Hz. rewrite Hz.
    rewrite length_zip_with, mask_bytes_length, Hn, Nat.min_id, mask_byte by lia.
    replace (8 * Z.of_nat (S n) - p) with ((8 - p) + 8 * Z.of_nat n) by lia.
    rewrite pow2_split by lia. pose proof (pow2_pos (8 - p) ltac:(lia)).
    pose proof (pow2_pos (8 * Z.of_nat n) ltac:(lia)).
    rewrite (Z.mul_comm (2 ^ (8 - p)) (2 ^ (8 * _))), <- Z.div_div by lia.
    rewrite Z.div_add_l, (Z.div_small (be l)) by lia. rewrite !Z.add_0_r. ring.
Qed.

Lemma be_mask4 ip p :
  ip_ok ip → 0 ≤ p ≤ 32 →
  be (Net.ip_mask ip (Net.CIDRMask p)) = be ip / 2 ^ (32 - p) * 2 ^ (32 - p).
Proof. intros [Hl Hb] Hp. apply (be_mask ip 4 p); [done|done|simpl; lia]. Qed.

Lemma mask_bytes_ok n p : 0 ≤ p → bytes_ok (Net.mask_bytes n p).
Proof.
  revert p. induction n as [|n IH]; intros p Hp; cbn [Net.mask_bytes]; [constructor|].
  destruct (Z.leb_spec 8 p); constructor; try (apply IH; lia); [lia|].
  rewrite Z.shiftr_div_pow2 by lia. pose proof (pow2_pos p Hp).
  split; [|pose proof (Z.div_pos 255 (2 ^ p)); lia].
  enough (255 / 2 ^ p ≤ 255) by lia. apply Z.div_le_upper_bound; nia.
Qed.

Lemma land_byte_range a b : 0 ≤ a < 256 → 0 ≤ b < 256 → 0 ≤ Z.land a b < 256.
Proof.
  intros. split; [apply Z.land_nonneg; lia|].
  assert (Z.land (Z.land a b) (Z.ones 8) = Z.land a b) as <-.
  { rewrite <- Z.land_assoc, (Z.land_ones b), (Z.mod_small b) by lia. done. }
  rewrite Z.land_ones by lia. apply Z.mod_pos_bound. lia.
Qed.

Lemma ip_mask_ok ip p : ip_ok ip → 0 ≤ p → ip_ok (Net.ip_mask ip (Net.CIDRMask p)).
Proof.
  intros [Hl Hb] Hp. split; [by apply (ip_mask_length ip 4 p)|].
  unfold Net.ip_mask. pose proof (mask_bytes_ok 4 p Hp) as Hm. revert Hb Hm.
  unfold Net.CIDRMask. generalize (Net.mask_bytes 4 p) as m. clear.
  induction ip as [|b ip IH]; intros [|m ms] Hb Hm; try constructor.
  - inversion Hb; inversion Hm; subst. by apply land_byte_range.
  - inversion Hb; inversion Hm; subst. by apply IH.
Qed.

(** ** Lemmas: networks as ranges of addresses *)

(** [v] is an address of the network of [a] with prefix length [p] *)
Definition in_net (v a p : Z) : Prop := v / 2 ^ (32 - p) = a / 2 ^ (32 - p).

#[export] Instance in_net_dec v a p : Decision (in_net v a p).
Proof. unfold in_net. apply _. Defined.

(** the address has no bit set beyond the prefix: it is a network address *)
Definition net_addr (a p : Z) : Prop := a mod 2 ^ (32 - p) = 0.

Lemma in_net_range v a p :
  0 ≤ p ≤ 32 → net_addr a p → in_net v a p ↔ a ≤ v < a + 2 ^ (32 - p).
Proof.
  unfold in_net, net_addr. intros Hp Ha. pose proof (pow2_pos (32 - p) ltac:(lia)).
  pose proof (Z.div_mod a (2 ^ (32 - p)) ltac:(lia)).
  pose proof (Z.div_mod v (2 ^ (32 - p)) ltac:(lia)).
  pose proof (Z.mod_pos_bound v (2 ^ (32 - p)) ltac:(lia)). split; nia.
Qed.

Lemma Contains_spec ip x p :
  ip_ok ip → ip_ok x → 0 ≤ p ≤ 32 →
  Net.Contains (Net.mkIPNet (Net.ip_mask ip (Net.CIDRMask p)) (Net.CIDRMask p)) (Some x)
  = bool_decide (in_net (be x) (be ip) p).
Proof.
  intros Hi Hx Hp. pose proof (ip_mask_ok ip p Hi ltac:(lia)) as Hm.
  pose proof (ip_mask_ok x p Hx ltac:(lia)) as Hxm. unfold Net.Contains. cbn [Net.IP Net.Mask].
  rewrite bool_decide_eq_true_2 by (destruct Hx, Hm; congruence). cbn [andb].
  apply bool_decide_ext. pose proof (pow2_pos (32 - p) ltac:(lia)) as Hpos.
  pose proof (be_mask4 _ _ (ip_mask_ok ip p Hi ltac:(lia)) Hp) as E1.
  pose proof (be_mask4 x p Hx Hp) as E2. rewrite (be_mask4 ip p Hi Hp) in E1.
  rewrite Z.div_mul in E1 by lia. unfold in_net. split; intros H.
  - rewrite H in E1. nia.
  - apply ip_eq; [apply ip_mask_ok; [done|lia]|done|]. rewrite E1, E2. by rewrite H.
Qed.

Lemma no_char_Contains c s : Strings.no_char c s = true → Strings.Contains s (String c "") = false.
Proof.
  induction s as [|d s IH]; [done|]. simpl. intros [Hd Hs]%andb_true_iff. rewrite IH by done.
  destruct (Ascii.ascii_dec c d) as [->|]; [|done]. by rewrite Ascii.eqb_refl in Hd.
Qed.

Lemma Contains_app_char c a b : Strings.Contains (a +:+ String c b) (String c "") = true.
Proof.
  induction a as [|d a IH].
  - rewrite str_app_nil. simpl. destruct (Ascii.ascii_dec c c); [|done]. by destruct b.
  - rewrite str_app_cons. simpl. rewrite IH. by apply orb_true_r.
Qed.

(** ** Lemmas: textual CIDRs *)

(** [s] reads as the address [ip] with prefix length [p] *)
Definition cidr_text (s : string) (ip : list Z) (p : Z) : Prop :=
  ∃ a m, Strings.Split s "/"%char = [a; m] ∧ Net.ParseIP a = Some ip ∧
         Net.prefix_len m = Some p.

(** the text the program prints for a CIDR *)
Definition cidr_str (ip : list Z) (p : Z) : string :=
  Net.ip_string ip +:+ "/" +:+ Strconv.Itoa p.

(** an exclusion as the user may write it: a CIDR, or one address *)
Definition exclude_net (e : string) (ip : list Z) (q : Z) : Prop :=
  cidr_text e ip q ∨ (Strings.Split e "/"%char = [e] ∧ Net.ParseIP e = Some ip ∧ q = 32).

Lemma octet_range s n : Net.octet s = Some n → 0 ≤ n < 256.
Proof.
  unfold Net.octet. intros H.
  assert (match Strconv.uint_digits 10 s 0 with
          | Strconv.UVal n => if n <=? 255 then Some n else None
          | _ => None end = Some n) as H'.
  { destruct s as [|c s]; [done|]. destruct c as [[] [] [] [] [] [] [] []]; try done.
    by destruct s. }
  destruct (Strconv.uint_digits 10 s 0) eqn:E; [|done..].
  case_match eqn:Hle; [|done]. injection H' as ->. zbool.
  pose proof (uint_digits_small _ _ _ _ E). lia.
Qed.

Lemma octet_ParseInt s n : Net.octet s = Some n → fst (Strconv.ParseInt s 10) = n.
Proof.
  intros H. pose proof (octet_range _ _ H). destruct s as [|c s]; [done|].
  assert (Strconv.uint_digits 10 (String c s) 0 = Strconv.UVal n) as E.
  { revert H. unfold Net.octet.
    destruct c as [[] [] [] [] [] [] [] []], s; try done;
    destruct (Strconv.uint_digits _ _ _); try done; case_match; congruence. }
  rewrite (uint_digits_ParseInt (String c s) n); [done|done|done|lia].
Qed.

Lemma ParseIP_ok s ip : Net.ParseIP s = Some ip → ip_ok ip.
Proof.
  unfold Net.ParseIP. destruct (Strings.Split s _) as [|a [|b [|c [|d [|? ?]]]]]; try done.
  intros H. destruct (Net.octet a) eqn:Ea; [|done]. destruct (Net.octet b) eqn:Eb; [|done].
  destruct (Net.octet c) eqn:Ec; [|done]. destruct (Net.octet d) eqn:Ed; [|done].
  injection H as <-. split; [done|]. repeat constructor; by eapply octet_range.
Qed.

Lemma cidr_text_ok s ip p : cidr_text s ip p → ip_ok ip ∧ 0 ≤ p ≤ 32.
Proof.
  intros (a & m & _ & Ha & Hm). split; [by eapply ParseIP_ok|].
  by apply prefix_len_ParseInt in Hm as [_ ?].
Qed.

Lemma exclude_net_ok e ip q : exclude_net e ip q → ip_ok ip ∧ 0 ≤ q ≤ 32.
Proof.
  intros [H|(_ & H & ->)]; [by eapply cidr_text_ok|]. split; [by eapply ParseIP_ok|lia].
Qed.

Lemma ParseCIDR_text s ip p :
  cidr_text s ip p →
  Net.ParseCIDR s = Some (ip, Net.mkIPNet (Net.ip_mask ip (Net.CIDRMask p)) (Net.CIDRMask p)).
Proof.
  intros (a & m & Hs & Ha & Hm). unfold Net.ParseCIDR. rewrite Hs.
  cbn [mbind option_bind]. rewrite Ha. cbn. by rewrite Hm.
Qed.

Lemma ParseCIDR_inv s ip n :
  Net.ParseCIDR s = Some (ip, n) →
  ∃ p, cidr_text s ip p ∧ n = Net.mkIPNet (Net.ip_mask ip (Net.CIDRMask p)) (Net.CIDRMask p).
Proof.
  unfold Net.ParseCIDR. destruct (Strings.Split s _) as [|a [|m [|? ?]]] eqn:Hs; try done.
  intros H. destruct (Net.ParseIP a) as [ip'|] eqn:Ha; [|done]. cbn in H.
  destruct (Net.prefix_len m) as [p|] eqn:Hm; [|done]. injection H as -> <-.
  exists p. split; [|done]. by exists a, m.
Qed.

Lemma ip_string_split ip :
  ip_ok ip → Strings.Split (Net.ip_string ip) "."%char = Strconv.Itoa <$> ip ∧
             Strings.no_char "/"%char (Net.ip_string ip) = true.
Proof.
  intros [Hl Hb]. destruct ip as [|a [|b [|c [|d [|? ?]]]]]; try done.
  inversion Hb as [|? ? Ha Hb1]; inversion Hb1 as [|? ? Hbb Hb2];
    inversion Hb2 as [|? ? Hc Hb3]; inversion Hb3 as [|? ? Hd _]; subst.
  apply octet_ok_inv in Ha as (A1 & A2 & _), Hbb as (B1 & B2 & _), Hc as (C1 & C2 & _),
    Hd as (D1 & D2 & _). unfold Net.ip_string. cbn [fmap list_fmap Strings.Join].
  split.
  - rewrite !(str_app_cons "."%char), !str_app_nil, !split_app, split_no_char by done. done.
  - rewrite !no_char_app, A2, B2, C2, D2. done.
Qed.

Lemma ParseIP_string ip : ip_ok ip → Net.ParseIP (Net.ip_string ip) = Some ip.
Proof.
  intros Hip. unfold Net.ParseIP. rewrite (proj1 (ip_string_split ip Hip)).
  destruct Hip as [Hl Hb]. destruct ip as [|a [|b [|c [|d [|? ?]]]]]; try done.
  inversion Hb as [|? ? Ha Hb1]; inversion Hb1 as [|? ? Hbb Hb2];
    inversion Hb2 as [|? ? Hc Hb3]; inversion Hb3 as [|? ? Hd _]; subst.
  cbn [fmap list_fmap]. apply octet_ok_inv in Ha as (_ & _ & -> & _), Hbb as (_ & _ & -> & _),
    Hc as (_ & _ & -> & _), Hd as (_ & _ & -> & _). done.
Qed.

Lemma Itoa_no_slash p : 0 ≤ p ≤ 32 → Strings.no_char "/"%char (Strconv.Itoa p) = true.
Proof. intros. by destruct (octet_ok_inv p ltac:(lia)) as (_ & ? & _). Qed.

Lemma cidr_str_split ip p :
  ip_ok ip → 0 ≤ p ≤ 32 →
  Strings.Split (cidr_str ip p) "/"%char = [Net.ip_string ip; Strconv.Itoa p].
Proof.
  intros Hip Hp. unfold cidr_str. rewrite (str_app_cons "/"%char), str_app_nil.
  rewrite split_app by apply (ip_string_split ip Hip).
  by rewrite split_no_char by (apply Itoa_no_slash; lia).
Qed.

(** round trip: what is printed is read back *)
Lemma cidr_str_text ip p : ip_ok ip → 0 ≤ p ≤ 32 → cidr_text (cidr_str ip p) ip p.
Proof.
  intros Hip Hp. exists (Net.ip_string ip), (Strconv.Itoa p).
  rewrite cidr_str_split, ParseIP_string, prefix_len_Itoa by done. done.
Qed.

#[export] Hint Resolve cidr_str_text ParseIP_ok ip_mask_ok : multinic.
