(* ===== verification/GoText.v ===== *)
(** * Numbers as text: printing with [%d] and reading back *)

From S2P Require Import Prelude GoLib.

(** ** Text *)

Fixpoint all_chars (p : Ascii.ascii → bool) (s : string) : bool :=
  match s with EmptyString => true | String c s' => p c && all_chars p s' end.

Definition is_digit (c : Ascii.ascii) : bool :=
  let n := Z.of_N (Ascii.N_of_ascii c) - 48 in (0 <=? n) && (n <? 10).

Lemma all_chars_impl (p q : Ascii.ascii → bool) s :
  (∀ c, p c = true → q c = true) → all_chars p s = true → all_chars q s = true.
Proof.
  intros Hpq. induction s as [|c s IH]; simpl; [done|].
  intros [Hc Hs]%andb_true_iff. by rewrite (Hpq _ Hc), IH.
Qed.

Lemma all_chars_app p a b : all_chars p (a +:+ b) = all_chars p a && all_chars p b.
Proof.
  induction a as [|c a IH]; [done|]. rewrite str_app_cons. simpl.
  by rewrite IH, andb_assoc.
Qed.

Lemma all_chars_no_char c s :
  all_chars (λ d, negb (Ascii.eqb d c)) s = Strings.no_char c s.
Proof. induction s as [|d s IH]; simpl; [done|]. by rewrite IH. Qed.

Lemma pretty_char_digit (x : N) : is_digit (pretty_N_char x) = true.
Proof. unfold pretty_N_char. by repeat case_match. Qed.

Lemma pretty_char_value (x : N) :
  (x < 10)%N → Strconv.digit 10 (pretty_N_char x) = Some (Z.of_N x).
Proof.
  intros. assert (x = 0 ∨ x = 1 ∨ x = 2 ∨ x = 3 ∨ x = 4 ∨ x = 5
          ∨ x = 6 ∨ x = 7 ∨ x = 8 ∨ x = 9)%N as Hx by lia.
  by repeat destruct Hx as [->|Hx]; [..|subst].
Qed.

Lemma pretty_go_digits x s :
  all_chars is_digit s = true → all_chars is_digit (pretty_N_go x s) = true.
Proof.
  revert s. induction (N.lt_wf_0 x) as [x _ IH]; intros s Hs.
  destruct (decide (0 < x)%N) as [Hx|]; [|by replace x with 0%N by lia].
  rewrite pretty_N_go_step by done. apply IH; [by apply N.div_lt|].
  cbn [all_chars]. by rewrite pretty_char_digit.
Qed.

Lemma pretty_go_nonempty x s : s ≠ "" → pretty_N_go x s ≠ "".
Proof.
  revert s. induction (N.lt_wf_0 x) as [x _ IH]; intros s Hs.
  destruct (decide (0 < x)%N) as [Hx|]; [|by replace x with 0%N by lia].
  rewrite pretty_N_go_step by done. apply IH; [by apply N.div_lt|done].
Qed.

Lemma pretty_go_value x s :
  (0 < x)%N → Z.of_N x < 2 ^ 64 →
  Strconv.uint_digits 10 (pretty_N_go x s) 0 = Strconv.uint_digits 10 s (Z.of_N x).
Proof.
  revert s. induction (N.lt_wf_0 x) as [x _ IH]; intros s Hx Hb.
  rewrite pretty_N_go_step by done.
  assert (Hdig : ∀ n, n = Z.of_N (x `div` 10) →
    Strconv.uint_digits 10 (String (pretty_N_char (x `mod` 10)) s) n
    = Strconv.uint_digits 10 s (Z.of_N x)).
  { intros n ->. cbn [Strconv.uint_digits].
    rewrite pretty_char_value by (apply N.mod_lt; lia).
    replace (Z.of_N (x `div` 10) * 10 + Z.of_N (x `mod` 10)) with (Z.of_N x)
      by (pose proof (N.div_mod x 10 ltac:(lia)); lia).
    zcase; [lia|done]. }
  destruct (decide (0 < x `div` 10)%N) as [H0|H0].
  - rewrite IH; [by apply Hdig|by apply N.div_lt|done|].
    pose proof (N.div_lt x 10 Hx eq_refl). lia.
  - apply N.nlt_ge, N.le_0_r in H0. rewrite H0, pretty_N_go_0. apply Hdig. by rewrite H0.
Qed.

Lemma Itoa_pos n : 0 < n → Strconv.Itoa n = pretty_N_go (Z.to_N n) "".
Proof. destruct n; try lia. intros _. reflexivity. Qed.

Lemma pretty_go_app x s : pretty_N_go x s = pretty_N_go x "" +:+ s.
Proof.
  revert s. induction (N.lt_wf_0 x) as [x _ IH]; intros s.
  destruct (decide (0 < x)%N) as [Hx|]; [|by replace x with 0%N by lia; rewrite !pretty_N_go_0].
  rewrite (pretty_N_go_step x s), (pretty_N_go_step x "") by done.
  assert ((x `div` 10 < x)%N) as Hlt by (by apply N.div_lt).
  rewrite (IH _ Hlt (String _ s)), (IH _ Hlt (String _ "")). by rewrite str_app_assoc.
Qed.

(** appending the decimal digit [d] to the digits of [n] *)
Lemma Itoa_append n d : 0 < n → 0 ≤ d < 10 → Strconv.Itoa n +:+ Strconv.Itoa d = Strconv.Itoa (10 * n + d).
Proof.
  intros Hn Hd. rewrite (Itoa_pos (10 * n + d)), pretty_N_go_step by lia.
  replace (Z.to_N (10 * n + d)) with (10 * Z.to_N n + Z.to_N d)%N by lia.
  rewrite N.mul_comm, N.div_add_l, N.div_small, N.add_0_r by lia.
  rewrite (N.add_comm (_ * _)), N.Div0.mod_add, N.mod_small by lia.
  rewrite Itoa_pos by done. rewrite (pretty_go_app _ (String _ "")). f_equal.
  assert (d = 0 ∨ d = 1 ∨ d = 2 ∨ d = 3 ∨ d = 4 ∨ d = 5 ∨ d = 6 ∨ d = 7 ∨ d = 8 ∨ d = 9) as Hc by lia.
  by repeat destruct Hc as [->|Hc]; [..|subst].
Qed.

Lemma Itoa_digits n : 0 < n → all_chars is_digit (Strconv.Itoa n) = true.
Proof. intros. rewrite Itoa_pos by done. by apply pretty_go_digits. Qed.

Lemma Itoa_nonempty n : 0 < n → Strconv.Itoa n ≠ "".
Proof.
  intros. rewrite Itoa_pos, pretty_N_go_step by lia. by apply pretty_go_nonempty.
Qed.

(** printing and reading back a positive number of 63 bits *)
Lemma ParseInt_Itoa n : 0 < n < 2 ^ 63 → Strconv.ParseInt (Strconv.Itoa n) 10 = (n, false).
Proof.
  intros Hn. pose proof (Itoa_digits n ltac:(lia)) as Hd.
  pose proof (Itoa_nonempty n ltac:(lia)) as Hne.
  assert (Hu : Strconv.uint_digits 10 (Strconv.Itoa n) 0 = Strconv.UVal n).
  { rewrite Itoa_pos, pretty_go_value by lia. simpl. f_equal. lia. }
  apply uint_digits_ParseInt; [done..|lia].
Qed.


Lemma Itoa_neg p : Strconv.Itoa (Zneg p) = String "-" (pretty_N_go (Npos p) "").
Proof. reflexivity. Qed.

Lemma Itoa_parse_nat p :
  Z.pos p < 2 ^ 64 → Strconv.ParseUint 10 (pretty_N_go (Npos p) "") = Strconv.UVal (Zpos p).
Proof.
  intros Hp. pose proof (Itoa_nonempty (Zpos p) eq_refl) as Hne. rewrite Itoa_pos in Hne by done.
  change (Z.to_N (Zpos p)) with (Npos p) in Hne. unfold Strconv.ParseUint.
  destruct (pretty_N_go (Npos p) "") eqn:E; [done|]. rewrite <- E.
  rewrite pretty_go_value; [done|done|]. exact Hp.
Qed.

(** every 64-bit number is read back *)
Lemma ParseInt_Itoa_int n :
  - 2 ^ 63 ≤ n < 2 ^ 63 → Strconv.ParseInt (Strconv.Itoa n) 10 = (n, false).
Proof.
  destruct n as [|p|p]; intros Hn; [reflexivity|apply ParseInt_Itoa; lia|].
  rewrite Itoa_neg. cbn [Strconv.ParseInt]. rewrite Itoa_parse_nat by lia.
  cbn [negb andb]. destruct (Z.ltb_spec (2 ^ 63) (Zpos p)); [lia|]. done.
Qed.

Lemma pretty_char_zero (x : N) : (0 < x < 10)%N → pretty_N_char x ≠ "0"%char.
Proof.
  intros. assert (x = 1 ∨ x = 2 ∨ x = 3 ∨ x = 4 ∨ x = 5 ∨ x = 6 ∨ x = 7 ∨ x = 8 ∨ x = 9)%N as Hx by lia.
  repeat destruct Hx as [-> | Hx]; [..|subst]; vm_compute; congruence.
Qed.

Lemma pretty_go_head x s :
  (0 < x)%N → ∃ c t, pretty_N_go x s = String c t ∧ c ≠ "0"%char.
Proof.
  revert s. induction (N.lt_wf_0 x) as [x _ IH]; intros s Hx. rewrite pretty_N_go_step by done.
  destruct (decide (0 < x `div` 10)%N) as [H0|H0]; [apply IH; [by apply N.div_lt|done]|].
  apply N.nlt_ge, N.le_0_r in H0. rewrite H0, pretty_N_go_0. eexists _, _. split; [done|].
  assert (x < 10)%N by (apply N.div_small_iff; lia). rewrite N.mod_small by done.
  by apply pretty_char_zero.
Qed.
