(* ===== verification/Json.v ===== *)
(** * encoding/json

    The text format of every configuration and message of the program: JSON values,
    [json.Marshal] and [json.Unmarshal].  [print] writes a value the way [Marshal]
    does (no spaces, HTML characters and control characters escaped), [parse] reads
    a text, and the decoders read a value into a Go variable: a decoder gets the
    variable's old value, keeps it where the text says nothing or [null], goes on
    after a value of the wrong type and reports it, as [Unmarshal] does.

    A number keeps its literal; in an [interface{}] it is a float64, whose literal
    is the one [Marshal] prints.  The limit of 10000 nested values is left out. *)

From S2P Require Import Prelude GoLib.

Module Json.

Unset Elimination Schemes.
Inductive json : Type :=
| JNull
| JBool (b : bool)
| JNum (lit : string)
| JStr (s : string)
| JArr (l : list json)
| JObj (l : list (string * json)).
Set Elimination Schemes.

Fixpoint json_ind (P : json → Prop) (Pnull : P JNull) (Pbool : ∀ b, P (JBool b))
    (Pnum : ∀ lit, P (JNum lit)) (Pstr : ∀ s, P (JStr s))
    (Parr : ∀ l, Forall P l → P (JArr l))
    (Pobj : ∀ l, Forall (λ kv, P kv.2) l → P (JObj l)) (v : json) : P v :=
  let ind := json_ind P Pnull Pbool Pnum Pstr Parr Pobj in
  match v with
  | JNull => Pnull
  | JBool b => Pbool b
  | JNum lit => Pnum lit
  | JStr s => Pstr s
  | JArr l =>
      Parr l ((fix all (l : list json) : Forall P l :=
                 match l with
                 | [] => Forall_nil_2 P
                 | x :: l' => Forall_cons_2 P x l' (ind x) (all l')
                 end) l)
  | JObj l =>
      Pobj l ((fix all (l : list (string * json)) : Forall (λ kv, P kv.2) l :=
                 match l with
                 | [] => Forall_nil_2 _
                 | x :: l' => Forall_cons_2 _ x l' (ind x.2) (all l')
                 end) l)
  end.

#[export] Instance json_eq_dec : EqDecision json.
Proof.
  refine (fix go (v w : json) : Decision (v = w) :=
    match v, w with
    | JNull, JNull => left eq_refl
    | JBool b, JBool c => cast_if (decide (b = c))
    | JNum x, JNum y => cast_if (decide (x = y))
    | JStr x, JStr y => cast_if (decide (x = y))
    | JArr l, JArr k => cast_if (@decide (l = k) (@list_eq_dec _ go l k))
    | JObj l, JObj k =>
        cast_if (@decide (l = k) (@list_eq_dec _ (@prod_eq_dec _ _ _ go) l k))
    | _, _ => right _
    end); clear go; abstract congruence.
Defined.

(** ** Characters *)

Definition code (c : Ascii.ascii) : Z := Z.of_N (Ascii.N_of_ascii c).
Definition chr (n : Z) : Ascii.ascii := Ascii.ascii_of_N (Z.to_N n).

(** the double quote and the backslash *)
Definition dq : Ascii.ascii := "034"%char.
Definition bs : Ascii.ascii := "092"%char.

Definition quoted (s : string) : string := String dq (s +:+ String dq "").

Definition between (lo hi n : Z) : bool := (lo <=? n) && (n <=? hi).

(** the length of the valid UTF-8 sequence at the head of [s], 0 if there is none *)
Definition rune_size (s : string) : nat :=
  match s with
  | EmptyString => 0%nat
  | String a s1 =>
      let x := code a in
      if x <? 128 then 1%nat
      else match s1 with
      | EmptyString => 0%nat
      | String b s2 =>
          let y := code b in
          if between 194 223 x then (if between 128 191 y then 2%nat else 0%nat)
          else match s2 with
          | EmptyString => 0%nat
          | String c s3 =>
              let z := code c in
              if between 224 239 x then
                if between (if x =? 224 then 160 else 128) (if x =? 237 then 159 else 191) y
                   && between 128 191 z
                then 3%nat else 0%nat
              else match s3 with
              | EmptyString => 0%nat
              | String d _ =>
                  if between 240 244 x
                     && between (if x =? 240 then 144 else 128) (if x =? 244 then 143 else 191) y
                     && between 128 191 z && between 128 191 (code d)
                  then 4%nat else 0%nat
              end
          end
      end
  end.

(** the UTF-8 encoding of a code point *)
Definition utf8 (r : Z) : string :=
  if r <? 128 then String (chr r) ""
  else if r <? 2048 then String (chr (192 + r / 64)) (String (chr (128 + r mod 64)) "")
  else if r <? 65536 then
    String (chr (224 + r / 4096)) (String (chr (128 + r / 64 mod 64)) (String (chr (128 + r mod 64)) ""))
  else
    String (chr (240 + r / 262144)) (String (chr (128 + r / 4096 mod 64))
      (String (chr (128 + r / 64 mod 64)) (String (chr (128 + r mod 64)) ""))).

(** U+FFFD, what replaces bytes that are not UTF-8 *)
Definition replacement : string := utf8 65533.

Definition u_escape (h1 h2 h3 h4 : Z) : string :=
  String bs ("u" +:+ hex_digit h1 +:+ hex_digit h2 +:+ hex_digit h3 +:+ hex_digit h4).

(** ** Marshal *)

(** the text of one character below 128 *)
Definition escape_char (c : Ascii.ascii) : string :=
  let n := code c in
  if (n =? 34) || (n =? 92) then String bs (String c "")
  else if n =? 8 then String bs "b"
  else if n =? 12 then String bs "f"
  else if n =? 10 then String bs "n"
  else if n =? 13 then String bs "r"
  else if n =? 9 then String bs "t"
  else if (n <? 32) || (n =? 60) || (n =? 62) || (n =? 38) then u_escape 0 0 (n / 16) (n mod 16)
  else String c "".

(** U+2028 or U+2029 at the head: its last digit *)
Definition line_separator (s : string) : option Z :=
  match s with
  | String a (String b (String c _)) =>
      if (code a =? 226) && (code b =? 128) && between 168 169 (code c)
      then Some (code c - 160) else None
  | _ => None
  end.

(** [copy] and [n]: the next [n] bytes belong to a rune that is copied or dropped *)
Fixpoint escape (s : string) (copy : bool) (n : nat) : string :=
  match s with
  | EmptyString => ""
  | String c s' =>
      match n with
      | S n' => if copy then String c (escape s' copy n') else escape s' copy n'
      | O =>
          if code c <? 128 then escape_char c +:+ escape s' true O
          else match rune_size s with
               | O => u_escape 15 15 15 13 +:+ escape s' true O
               | S k =>
                   match line_separator s with
                   | Some d => u_escape 2 0 2 d +:+ escape s' false k
                   | None => String c (escape s' true k)
                   end
               end
      end
  end.

Definition print_string (s : string) : string := quoted (escape s true O).

Fixpoint print (v : json) : string :=
  match v with
  | JNull => "null"
  | JBool true => "true"
  | JBool false => "false"
  | JNum lit => lit
  | JStr s => print_string s
  | JArr l => "[" +:+ Strings.Join (print <$> l) "," +:+ "]"
  | JObj l =>
      "{" +:+ Strings.Join ((λ kv, print_string kv.1 +:+ ":" +:+ print kv.2) <$> l) "," +:+ "}"
  end.

(** ** Reading strings *)

Definition hex_value (c : Ascii.ascii) : option Z :=
  let n := code c in
  if between 48 57 n then Some (n - 48)
  else if between 97 102 n then Some (n - 87)
  else if between 65 70 n then Some (n - 55)
  else None.

Definition hex4 (a b c d : Ascii.ascii) : option Z :=
  a ← hex_value a; b ← hex_value b; c ← hex_value c; d ← hex_value d;
  Some (4096 * a + 256 * b + 16 * c + d).

Definition simple_escape (c : Ascii.ascii) : option Ascii.ascii :=
  let n := code c in
  if (n =? 34) || (n =? 92) || (n =? 47) then Some c
  else if n =? 98 then Some (chr 8)
  else if n =? 102 then Some (chr 12)
  else if n =? 110 then Some (chr 10)
  else if n =? 114 then Some (chr 13)
  else if n =? 116 then Some (chr 9)
  else None.

Definition prepend (p : string) (r : option (string * string)) : option (string * string) :=
  '(s, rest) ← r; Some (p +:+ s, rest).

(** the text after an opening quote: the string and what follows the closing quote;
    the next [n] bytes belong to a rune that is copied *)
Fixpoint unquote (s : string) (n : nat) : option (string * string) :=
  match s with
  | EmptyString => None
  | String c s1 =>
      match n with
      | S n' => prepend (String c "") (unquote s1 n')
      | O =>
          if Ascii.eqb c dq then Some ("", s1)
          else if Ascii.eqb c bs then
            match s1 with
            | EmptyString => None
            | String e s2 =>
                match simple_escape e with
                | Some d => prepend (String d "") (unquote s2 O)
                | None =>
                    if negb (code e =? 117) then None
                    else match s2 with
                    | String h1 (String h2 (String h3 (String h4 s3))) =>
                        match hex4 h1 h2 h3 h4 with
                        | None => None
                        | Some r =>
                            if between 55296 57343 r then
                              match s3 with
                              | String b (String u (String k1 (String k2 (String k3 (String k4 s4))))) =>
                                  match hex4 k1 k2 k3 k4 with
                                  | Some r2 =>
                                      if Ascii.eqb b bs && (code u =? 117) && (r <? 56320)
                                         && between 56320 57343 r2
                                      then prepend (utf8 (65536 + 1024 * (r - 55296) + (r2 - 56320)))
                                             (unquote s4 O)
                                      else prepend replacement (unquote s3 O)
                                  | None => prepend replacement (unquote s3 O)
                                  end
                              | _ => prepend replacement (unquote s3 O)
                              end
                            else prepend (utf8 r) (unquote s3 O)
                        end
                    | _ => None
                    end
                end
            end
          else if code c <? 32 then None
          else if code c <? 128 then prepend (String c "") (unquote s1 O)
          else match rune_size s with
               | O => prepend replacement (unquote s1 O)
               | S k => prepend (String c "") (unquote s1 k)
               end
      end
  end.

(** ** Reading numbers *)

Definition is_digit (c : Ascii.ascii) : bool := between 48 57 (code c).

Fixpoint take_digits (s : string) : string * string :=
  match s with
  | EmptyString => ("", "")
  | String c s' =>
      if is_digit c then let '(d, r) := take_digits s' in (String c d, r) else ("", s)
  end.

Definition digits1 (s : string) : option (string * string) :=
  let '(d, r) := take_digits s in if bool_decide (d = "") then None else Some (d, r).

Definition int_part (s : string) : option (string * string) :=
  match s with
  | String "0"%char s' => Some ("0", s')
  | _ => digits1 s
  end.

Definition frac_part (s : string) : option (string * string) :=
  match s with
  | String "."%char s' => '(d, r) ← digits1 s'; Some ("." +:+ d, r)
  | _ => Some ("", s)
  end.

Definition exp_sign (s : string) : string * string :=
  match s with
  | String "+"%char s' => ("+", s')
  | String "-"%char s' => ("-", s')
  | _ => ("", s)
  end.

Definition exp_part (s : string) : option (string * string) :=
  match s with
  | String c s' =>
      if Ascii.eqb c "e" || Ascii.eqb c "E" then
        let '(sg, s2) := exp_sign s' in
        '(d, r) ← digits1 s2; Some (String c (sg +:+ d), r)
      else Some ("", s)
  | EmptyString => Some ("", s)
  end.

Definition minus_sign (s : string) : string * string :=
  match s with String "-"%char s' => ("-", s') | _ => ("", s) end.

(** sign, integer part, fraction, exponent, and what follows *)
Definition number_parts (s : string) : option (string * string * string * string * string) :=
  let '(sg, s1) := minus_sign s in
  '(i, s2) ← int_part s1; '(f, s3) ← frac_part s2; '(e, s4) ← exp_part s3;
  Some (sg, i, f, e, s4).

Definition scan_number (s : string) : option (string * string) :=
  '(sg, i, f, e, rest) ← number_parts s; Some (sg +:+ i +:+ f +:+ e, rest).

(** ** Unmarshal, the text *)

Fixpoint skip_ws (s : string) : string :=
  match s with
  | String c s' =>
      if (code c =? 32) || (code c =? 9) || (code c =? 10) || (code c =? 13) then skip_ws s' else s
  | EmptyString => s
  end.

(** the text after the character [c] *)
Definition expect (c : Ascii.ascii) (s : string) : option string :=
  match s with
  | String d s' => if Ascii.eqb c d then Some s' else None
  | EmptyString => None
  end.

(** the text after [p] *)
Fixpoint strip (p s : string) : option string :=
  match p, s with
  | EmptyString, _ => Some s
  | String a p', String b s' => if Ascii.eqb a b then strip p' s' else None
  | _, _ => None
  end.

Definition parse_literal (p : string) (v : json) (s : string) : option (json * string) :=
  rest ← strip p s; Some (v, rest).

Fixpoint parse_value (fuel : nat) (s : string) : option (json * string) :=
  match fuel with
  | O => None
  | S fuel =>
      match skip_ws s with
      | EmptyString => None
      | String c s1 =>
          if Ascii.eqb c "{" then
            match expect "}" (skip_ws s1) with
            | Some rest => Some (JObj [], rest)
            | None => '(l, rest) ← parse_members fuel s1; Some (JObj l, rest)
            end
          else if Ascii.eqb c "[" then
            match expect "]" (skip_ws s1) with
            | Some rest => Some (JArr [], rest)
            | None => '(l, rest) ← parse_elements fuel s1; Some (JArr l, rest)
            end
          else if Ascii.eqb c dq then '(x, rest) ← unquote s1 O; Some (JStr x, rest)
          else if Ascii.eqb c "n" then parse_literal "null" JNull (String c s1)
          else if Ascii.eqb c "t" then parse_literal "true" (JBool true) (String c s1)
          else if Ascii.eqb c "f" then parse_literal "false" (JBool false) (String c s1)
          else '(lit, rest) ← scan_number (String c s1); Some (JNum lit, rest)
      end
  end
with parse_elements (fuel : nat) (s : string) : option (list json * string) :=
  match fuel with
  | O => None
  | S fuel =>
      '(v, rest) ← parse_value fuel s;
      match skip_ws rest with
      | String c rest1 =>
          if Ascii.eqb c "]" then Some ([v], rest1)
          else if Ascii.eqb c "," then '(l, rest2) ← parse_elements fuel rest1; Some (v :: l, rest2)
          else None
      | EmptyString => None
      end
  end
with parse_members (fuel : nat) (s : string) : option (list (string * json) * string) :=
  match fuel with
  | O => None
  | S fuel =>
      s1 ← expect dq (skip_ws s);
      '(k, s2) ← unquote s1 O;
      s3 ← expect ":" (skip_ws s2);
      '(v, rest) ← parse_value fuel s3;
      match skip_ws rest with
      | String c rest1 =>
          if Ascii.eqb c "}" then Some ([(k, v)], rest1)
          else if Ascii.eqb c "," then
            '(l, rest2) ← parse_members fuel rest1; Some ((k, v) :: l, rest2)
          else None
      | EmptyString => None
      end
  end.

Definition parse_fuel (s : string) : nat := (2 * String.length s + 2)%nat.

(** [None]: a syntax error *)
Definition parse (s : string) : option json :=
  '(v, rest) ← parse_value (parse_fuel s) s;
  if bool_decide (skip_ws rest = "") then Some v else None.

(** ** Numbers of an [interface{}]

    The literal of a float64: the nearest double of a decimal literal, and the
    shortest decimal that reads back as it, in the layout of [Marshal]. *)

Definition round_div (a b : Z) : Z :=
  let q := a / b in
  let r := 2 * (a mod b) in
  if r <? b then q else if b <? r then q + 1 else if Z.even q then q else q + 1.

Definition scale (num den e : Z) : Z * Z :=
  if 0 <=? e then (num, den * 2 ^ e) else (num * 2 ^ (- e), den).

(** the double nearest to [num / den > 0] as [m * 2^e]; [None]: out of range *)
Definition to_float (num den : Z) : option (Z * Z) :=
  let e0 := Z.max (- 1074) (Z.log2 num - Z.log2 den - 52) in
  let '(a0, b0) := scale num den e0 in
  let e := if (a0 <? 2 ^ 52 * b0) && (- 1074 <? e0) then e0 - 1 else e0 in
  let '(a, b) := scale num den e in
  let m := round_div a b in
  let '(m, e) := if m =? 2 ^ 53 then (2 ^ 52, e + 1) else (m, e) in
  if 971 <? e then None else Some (m, e).

Definition decimal_float (n e10 : Z) : option (Z * Z) :=
  if 0 <=? e10 then to_float (n * 10 ^ e10) 1 else to_float n (10 ^ (- e10)).

(** [floor (log10 (num / den))] *)
Definition log10 (num den : Z) : Z :=
  let k := (Z.log2 num - Z.log2 den) * 30103 / 100000 in
  let ge k := if 0 <=? k then den * 10 ^ k <=? num else den <=? num * 10 ^ (- k) in
  if ge (k + 1) then k + 1 else if ge k then k else k - 1.

(** candidates with [d] digits, then with more *)
Fixpoint shortest_from (fuel : nat) (num den k m e d : Z) : Z * Z :=
  let x := k - d + 1 in
  let '(a, b) := if 0 <=? x then (num, den * 10 ^ x) else (num * 10 ^ (- x), den) in
  let q := a / b in
  let ok c := bool_decide (decimal_float c x = Some (m, e)) in
  let near := if 2 * (a mod b) <? b then q else q + 1 in
  let far := if 2 * (a mod b) <? b then q + 1 else q in
  let digits c := if c =? 10 ^ d then (1, x + d) else (c, x) in
  if ok near then digits near
  else if ok far then digits far
  else match fuel with O => (q, x) | S fuel => shortest_from fuel num den k m e (d + 1) end.

Definition shortest (m e : Z) : Z * Z :=
  let '(num, den) := if 0 <=? e then (m * 2 ^ e, 1) else (m, 2 ^ (- e)) in
  shortest_from 17 num den (log10 num den) m e 1.

Definition zeros (n : Z) : string := String.concat "" (replicate (Z.to_nat n) "0").

(** [c * 10^x] *)
Definition float_layout (c x : Z) : string :=
  let ds := Strconv.Itoa c in
  let n := Z.of_nat (String.length ds) in
  let ex := x + n - 1 in
  if (ex <? - 6) || (21 <=? ex) then
    let mant := if n =? 1 then ds
                else String.substring 0 1 ds +:+ "." +:+ String.substring 1 (String.length ds) ds in
    mant +:+ "e" +:+ (if ex <? 0 then "-" else "+") +:+ Strconv.Itoa (Z.abs ex)
  else if 0 <=? x then ds +:+ zeros x
  else if 0 <=? ex then
    String.substring 0 (Z.to_nat (ex + 1)) ds +:+ "." +:+
    String.substring (Z.to_nat (ex + 1)) (String.length ds) ds
  else "0." +:+ zeros (- ex - 1) +:+ ds.

Fixpoint decimal (s : string) (n : Z) : Z :=
  match s with
  | EmptyString => n
  | String c s' => decimal s' (if is_digit c then 10 * n + (code c - 48) else n)
  end.

Definition signed_decimal (s : string) : Z :=
  (if Strings.Contains s "-" then - 1 else 1) * decimal s 0.

(** the literal [Marshal] prints for the float64 of a literal *)
Definition float_lit (lit : string) : option string :=
  '(sg, i, f, e, _) ← number_parts lit;
  let n := decimal (i +:+ f) 0 in
  if n =? 0 then Some (sg +:+ "0")
  else
    let digits := Z.of_nat (String.length (Strconv.Itoa n)) in
    let e10 := signed_decimal e - Z.max 0 (Z.of_nat (String.length f) - 1) in
    if 400 <? e10 + digits then None
    else if e10 + digits <? - 400 then Some (sg +:+ "0")
    else
      '(m, ex) ← decimal_float n e10;
      if m =? 0 then Some (sg +:+ "0")
      else let '(c, x) := shortest m ex in Some (sg +:+ float_layout c x).

Example float_lit_ex :
  float_lit <$> ["8"; "1500"; "-3.50"; "1e3"; "0.1"; "1E21"; "-0"; "9007199254740993"; "1.5e-7"; "123456789012345678901"; "5e-324"; "0.000001"]
  = Some <$> ["8"; "1500"; "-3.5"; "1000"; "0.1"; "1e+21"; "-0"; "9007199254740992"; "1.5e-7"; "123456789012345680000"; "5e-324"; "0.000001"].
Proof. vm_compute. reflexivity. Qed.

Example float_lit_range : (float_lit "1e309", float_lit "1.7976931348623157e308", float_lit "1e-400")
  = (None, Some "1.7976931348623157e+308", Some "0").
Proof. vm_compute. reflexivity. Qed.

(** ** Maps and [interface{}] *)

Definition key_le (a b : string * json) : Prop := string_le a.1 b.1.
#[export] Instance key_le_dec : RelDecision key_le.
Proof. intros a b. unfold key_le. apply _. Defined.

(** a map is printed with its keys in order *)
Definition JMap (m : gmap string json) : json := JObj (merge_sort key_le (map_to_list m)).

(** the last of the members with the same key stays *)
Definition map_of (l : list (string * json)) : gmap string json := list_to_map (reverse l).

(** the value of an [interface{}]; [None]: a number out of range *)
Fixpoint any (v : json) : option json :=
  match v with
  | JNum lit => JNum <$> float_lit lit
  | JArr l =>
      JArr <$> (fix all (l : list json) : option (list json) :=
        match l with [] => Some [] | x :: l' => x ← any x; l' ← all l'; Some (x :: l') end) l
  | JObj l =>
      (λ l, JMap (map_of l)) <$>
      (fix all (l : list (string * json)) : option (list (string * json)) :=
        match l with
        | [] => Some []
        | (k, x) :: l' => x ← any x; l' ← all l'; Some ((k, x) :: l')
        end) l
  | _ => Some v
  end.

(** ** Unmarshal, the values

    A decoder reads a value into a variable: the variable afterwards, and whether
    a value had the wrong type. *)

Definition decoder (A : Type) : Type := json → A → A * bool.

Definition dec_string : decoder string := λ v old,
  match v with JNull => (old, false) | JStr s => (s, false) | _ => (old, true) end.

Definition dec_bool : decoder bool := λ v old,
  match v with JNull => (old, false) | JBool b => (b, false) | _ => (old, true) end.

Definition dec_int : decoder Z := λ v old,
  match v with
  | JNull => (old, false)
  | JNum lit => let '(n, err) := Strconv.ParseInt lit 10 in if err : bool then (old, true) else (n, false)
  | _ => (old, true)
  end.

(** an empty and a nil slice are the same value *)
Definition dec_slice {A} (zero : A) (dec : decoder A) : decoder (list A) := λ v old,
  match v with
  | JNull => ([], false)
  | JArr l => ((λ x, (dec x zero).1) <$> l, existsb (λ x, (dec x zero).2) l)
  | _ => (old, true)
  end.

(** a pointer, nil when absent or [null] *)
Definition dec_ptr {A} (zero : A) (dec : decoder A) : decoder (option A) := λ v old,
  match v with
  | JNull => (None, false)
  | _ => let '(x, err) := dec v (default zero old) in (Some x, err)
  end.

(** an [interface{}]; nil is [null] *)
Definition dec_any : decoder json := λ v old,
  match any v with Some x => (x, false) | None => (old, true) end.

(** a map; nil when absent or [null] *)
Fixpoint dec_entries {A} (zero : A) (dec : decoder A) (l : list (string * json))
    (m : gmap string A) (err : bool) : gmap string A * bool :=
  match l with
  | [] => (m, err)
  | (k, v) :: l' =>
      let '(x, e) := dec v zero in dec_entries zero dec l' (<[k := x]> m) (err || e)
  end.

Definition dec_map {A} (zero : A) (dec : decoder A) : decoder (option (gmap string A)) := λ v old,
  match v with
  | JNull => (None, false)
  | JObj l => let '(m, err) := dec_entries zero dec l (default ∅ old) false in (Some m, err)
  | _ => (old, true)
  end.

(** ** Structs: the fields by their JSON names

    A key belongs to the field of that name, or else to the first field whose name
    differs from it in the case of letters only. *)

Definition lower (c : Ascii.ascii) : Ascii.ascii :=
  if between 65 90 (code c) then chr (code c + 32) else c.

Fixpoint fold_case (s : string) : string :=
  match s with EmptyString => "" | String c s' => String (lower c) (fold_case s') end.

Definition fields (R : Type) : Type := list (string * decoder R).

Definition find_field {R} (fs : fields R) (k : string) : option (decoder R) :=
  match list_find (λ f, f.1 = k) fs with
  | Some (_, f) => Some f.2
  | None => match list_find (λ f, fold_case f.1 = fold_case k) fs with
            | Some (_, f) => Some f.2
            | None => None
            end
  end.

Definition dec_member {R} (fs : fields R) (st : R * bool) (kv : string * json) : R * bool :=
  match find_field fs kv.1 with
  | Some dec => let '(r, err) := dec kv.2 st.1 in (r, st.2 || err)
  | None => st
  end.

Definition dec_struct {R} (fs : fields R) : decoder R := λ v r,
  match v with
  | JNull => (r, false)
  | JObj l => foldl (dec_member fs) (r, false) l
  | _ => (r, true)
  end.

(** a field: its name, how it is read from the struct and set in it *)
Definition field {R A} (name : string) (dec : decoder A) (get : R → A) (set : A → R → R)
    : string * decoder R :=
  (name, λ v r, let '(x, err) := dec v (get r) in (set x r, err)).

(** [json.Unmarshal(text, &r)]: the variable afterwards and whether the error is
    nil; a syntax error leaves the variable as it was *)
Definition Unmarshal {A} (dec : decoder A) (text : string) (old : A) : A * bool :=
  match parse text with
  | None => (old, false)
  | Some v => let '(x, err) := dec v old in (x, negb err)
  end.

(** members that are printed unless they are empty *)
Definition omit_empty (k : string) (empty : bool) (v : json) : list (string * json) :=
  if empty then [] else [(k, v)].

Definition JStrs (l : list string) : json := JArr (JStr <$> l).
Definition JInt (n : Z) : json := JNum (Strconv.Itoa n).

End Json.
