(* ===== verification/JsonSpec.v ===== *)
(** * encoding/json: printing and reading are inverse

    A value whose strings are ASCII and whose numbers are JSON literals is read back
    from its text; the fuel of [Json.parse] is enough for every text. *)

From S2P Require Import Prelude GoLib GoText Json.
Import Json.

(** ** Values that survive the text *)

Fixpoint ascii_only (s : string) : bool :=
  match s with EmptyString => true | String c s' => (code c <? 128) && ascii_only s' end.

Definition valid_number (lit : string) : bool := bool_decide (scan_number lit = Some (lit, "")).

Fixpoint json_ok (v : json) : bool :=
  match v with
  | JNum lit => valid_number lit
  | JStr s => ascii_only s
  | JArr l => forallb json_ok l
  | JObj l => forallb (λ kv, ascii_only kv.1 && json_ok kv.2) l
  | _ => true
  end.

(** what may follow a number *)
Definition stops (s : string) : bool :=
  match s with
  | EmptyString => true
  | String c _ => negb (is_digit c || Ascii.eqb c "." || Ascii.eqb c "e" || Ascii.eqb c "E")
  end.

(** ** Strings *)

Lemma unquote_escape_char c t :
  (code c <? 128) = true → unquote (escape_char c +:+ t) O = prepend (String c "") (unquote t O).
Proof.
  destruct c as [[] [] [] [] [] [] [] []]; vm_compute (code _ <? 128);
    intros H; (discriminate H || reflexivity).
Qed.

Lemma unquote_escape s rest :
  ascii_only s = true → unquote (escape s true O +:+ String dq rest) O = Some (s, rest).
Proof.
  induction s as [|c s IH]; [reflexivity|]. cbn [ascii_only escape].
  intros [Hc Hs]%andb_true_iff. rewrite Hc, str_app_assoc, unquote_escape_char, IH by done. done.
Qed.

Lemma unquote_print_string s rest :
  ascii_only s = true →
  ∃ t, print_string s +:+ rest = String dq t ∧ unquote t O = Some (s, rest).
Proof.
  intros Hs. eexists. split; [reflexivity|].
  change (unquote ((escape s true O +:+ String dq "") +:+ rest) O = Some (s, rest)).
  rewrite str_app_assoc. by apply unquote_escape.
Qed.

(** ** Numbers *)

Section numbers.
Variable rest : string.
Hypothesis Hstop : stops rest = true.

Lemma take_digits_app s d r : take_digits s = (d, r) → take_digits (s +:+ rest) = (d, r +:+ rest).
Proof using Hstop.
  revert d r. induction s as [|c s IH]; intros d r; cbn [take_digits].
  - intros [= <- <-]. rewrite !str_app_nil. destruct rest as [|c t]; [done|].
    cbn [stops] in Hstop. apply negb_true_iff in Hstop. rewrite !orb_false_iff in Hstop.
    cbn [take_digits]. by destruct (is_digit c); [by destruct Hstop as [[[? _] _] _]|].
  - rewrite str_app_cons. cbn [take_digits].
    destruct (is_digit c); [|by intros [= <- <-]].
    destruct (take_digits s) as [d' r'] eqn:E. intros [= <- <-]. by rewrite (IH d' r').
Qed.

Lemma digits1_app s d r : digits1 s = Some (d, r) → digits1 (s +:+ rest) = Some (d, r +:+ rest).
Proof using Hstop.
  unfold digits1. destruct (take_digits s) as [d' r'] eqn:E.
  rewrite (take_digits_app s d' r') by done. case_bool_decide; naive_solver.
Qed.

Lemma int_part_app s i r : int_part s = Some (i, r) → int_part (s +:+ rest) = Some (i, r +:+ rest).
Proof using Hstop.
  destruct s as [|c s]; [done|]. rewrite str_app_cons. unfold int_part.
  assert (Hd : digits1 (String c s) = Some (i, r) →
               digits1 (String c (s +:+ rest)) = Some (i, r +:+ rest)).
  { intros H. by apply digits1_app in H. }
  destruct c as [[] [] [] [] [] [] [] []]; try exact Hd. by intros [= <- <-].
Qed.

Lemma frac_part_app s f r : frac_part s = Some (f, r) → frac_part (s +:+ rest) = Some (f, r +:+ rest).
Proof using Hstop.
  destruct s as [|c s].
  - intros [= <- <-]. rewrite str_app_nil. destruct rest as [|c t]; [done|].
    cbn [stops] in Hstop. unfold frac_part.
    destruct c as [[] [] [] [] [] [] [] []]; try done.
  - rewrite str_app_cons. unfold frac_part.
    assert (Hd : ∀ p : string, ('(d, r) ← digits1 s; Some (p +:+ d, r)) = Some (f, r) →
                 ('(d, r) ← digits1 (s +:+ rest); Some (p +:+ d, r)) = Some (f, r +:+ rest)).
    { intros p. destruct (digits1 s) as [[d' r']|] eqn:E; [|done].
      cbn. intros [= <- <-]. by rewrite (digits1_app _ _ _ E). }
    destruct c as [[] [] [] [] [] [] [] []]; try apply Hd; by intros [= <- <-].
Qed.

Lemma exp_sign_app s sg r d r' :
  exp_sign s = (sg, r) → digits1 r = Some (d, r') → exp_sign (s +:+ rest) = (sg, r +:+ rest).
Proof using.
  destruct s as [|c s]; [by intros [= <- <-]|]. rewrite str_app_cons. unfold exp_sign.
  destruct c as [[] [] [] [] [] [] [] []]; by intros [= <- <-].
Qed.

Lemma exp_part_app s e r : exp_part s = Some (e, r) → exp_part (s +:+ rest) = Some (e, r +:+ rest).
Proof using Hstop.
  destruct s as [|c s].
  - intros [= <- <-]. rewrite str_app_nil. destruct rest as [|c t]; [done|].
    cbn [stops] in Hstop. apply negb_true_iff in Hstop. rewrite !orb_false_iff in Hstop.
    destruct Hstop as [[[_ _] He] HE]. cbn [exp_part]. by rewrite He, HE.
  - rewrite str_app_cons. cbn [exp_part].
    destruct (Ascii.eqb c "e" || Ascii.eqb c "E"); [|by intros [= <- <-]].
    destruct (exp_sign s) as [sg s2] eqn:Es.
    destruct (digits1 s2) as [[d r']|] eqn:Ed; [|done]. cbn. intros [= <- <-].
    rewrite (exp_sign_app _ _ _ _ _ Es Ed), (digits1_app _ _ _ Ed). done.
Qed.

Lemma minus_sign_app s sg r : s ≠ "" → minus_sign s = (sg, r) → minus_sign (s +:+ rest) = (sg, r +:+ rest).
Proof using.
  destruct s as [|c s]; [done|]. intros _. rewrite str_app_cons. unfold minus_sign.
  destruct c as [[] [] [] [] [] [] [] []]; by intros [= <- <-].
Qed.

Lemma number_parts_app s sg i f e r :
  number_parts s = Some (sg, i, f, e, r) → number_parts (s +:+ rest) = Some (sg, i, f, e, r +:+ rest).
Proof using Hstop.
  unfold number_parts. destruct (minus_sign s) as [sg' s1] eqn:Em. intros H.
  rewrite (minus_sign_app s sg' s1) by (done || intros ->; by injection Em as <- <-).
  destruct (int_part s1) as [[i' s2]|] eqn:Ei; [|done]. rewrite (int_part_app _ _ _ Ei). cbn in H |- *.
  destruct (frac_part s2) as [[f' s3]|] eqn:Ef; [|done]. rewrite (frac_part_app _ _ _ Ef). cbn in H |- *.
  destruct (exp_part s3) as [[e' s4]|] eqn:Ee; [|done]. rewrite (exp_part_app _ _ _ Ee). cbn in H |- *.
  by simplify_eq.
Qed.

Lemma scan_number_app lit : valid_number lit = true → scan_number (lit +:+ rest) = Some (lit, rest).
Proof using Hstop.
  unfold valid_number. rewrite bool_decide_eq_true. unfold scan_number.
  destruct (number_parts lit) as [[[[[sg i] f] e] r]|] eqn:E; [|done].
  rewrite (number_parts_app _ _ _ _ _ _ E). cbn. intros [= -> ->]. done.
Qed.
End numbers.

Lemma take_digits_head c s d r :
  take_digits (String c s) = (d, r) → d ≠ "" → is_digit c = true.
Proof. cbn [take_digits]. destruct (is_digit c); [done|]. by intros [= <- <-]. Qed.

Lemma number_head lit :
  valid_number lit = true →
  ∃ c s, lit = String c s ∧ (c = "-"%char ∨ is_digit c = true).
Proof.
  unfold valid_number. rewrite bool_decide_eq_true. unfold scan_number, number_parts.
  destruct lit as [|c s]; [done|]. intros H. exists c, s. split; [done|].
  destruct (minus_sign (String c s)) as [sg s1] eqn:Em.
  destruct (decide (c = "-"%char)) as [->|Hc]; [by left|right].
  assert (s1 = String c s) as ->.
  { revert Em Hc. unfold minus_sign. clear.
    destruct c as [[] [] [] [] [] [] [] []]; intros [= <- <-]; done. }
  destruct (int_part (String c s)) as [[i s2]|] eqn:Ei; [|done]. clear -Ei.
  assert (Hd : digits1 (String c s) = Some (i, s2) → is_digit c = true).
  { unfold digits1. destruct (take_digits (String c s)) as [d r] eqn:Et.
    case_bool_decide; [done|]. intros _. by eapply take_digits_head. }
  revert Ei Hd. unfold int_part. destruct c as [[] [] [] [] [] [] [] []]; auto.
Qed.

(** ** Values *)

Lemma skip_ws_cons c s :
  (code c =? 32) || (code c =? 9) || (code c =? 10) || (code c =? 13) = false →
  skip_ws (String c s) = String c s.
Proof. intros H. cbn [skip_ws]. by rewrite H. Qed.

Lemma parse_elements_S f s :
  parse_elements (S f) s =
  ('(v, rest) ← parse_value f s;
   match skip_ws rest with
   | String c rest1 =>
       if Ascii.eqb c "]" then Some ([v], rest1)
       else if Ascii.eqb c "," then '(l, rest2) ← parse_elements f rest1; Some (v :: l, rest2)
       else None
   | EmptyString => None
   end).
Proof. reflexivity. Qed.

Lemma parse_members_S f s :
  parse_members (S f) s =
  (s1 ← expect dq (skip_ws s); '(k, s2) ← unquote s1 O; s3 ← expect ":" (skip_ws s2);
   '(v, rest) ← parse_value f s3;
   match skip_ws rest with
   | String c rest1 =>
       if Ascii.eqb c "}" then Some ([(k, v)], rest1)
       else if Ascii.eqb c "," then '(l, rest2) ← parse_members f rest1; Some ((k, v) :: l, rest2)
       else None
   | EmptyString => None
   end).
Proof. reflexivity. Qed.

(** [P v]: the text of [v] is read back whatever follows *)
Definition reads (v : json) : Prop :=
  ∀ fuel rest, stops rest = true → (2 * String.length (print v) ≤ fuel)%nat →
  parse_value fuel (print v +:+ rest) = Some (v, rest).

Definition print_member (kv : string * json) : string :=
  print_string kv.1 +:+ ":" +:+ print kv.2.

Lemma str_length_app a b : String.length (a +:+ b) = (String.length a + String.length b)%nat.
Proof. induction a as [|c a IH]; [done|]. rewrite str_app_cons. cbn. by rewrite IH. Qed.

Lemma join_cons2 x y l sep : Strings.Join (x :: y :: l) sep = x +:+ sep +:+ Strings.Join (y :: l) sep.
Proof. done. Qed.

Lemma reads_elements l :
  Forall reads l → l ≠ [] → ∀ fuel rest,
  (2 * String.length (Strings.Join (print <$> l) ",") + 1 ≤ fuel)%nat →
  parse_elements fuel (Strings.Join (print <$> l) "," +:+ String "]" rest) = Some (l, rest).
Proof.
  induction 1 as [|v l Hv Hl IH]; [done|]. intros _ fuel rest Hf.
  destruct fuel as [|fuel]; [lia|]. rewrite parse_elements_S.
  destruct l as [|v2 l].
  - cbn [fmap list_fmap Strings.Join] in *. rewrite Hv by (done || lia). cbn. done.
  - rewrite !fmap_cons, join_cons2 in Hf |- *. rewrite !str_length_app in Hf.
    change (String.length ",") with 1%nat in Hf.
    rewrite !str_app_assoc, Hv by (done || lia). cbn [mbind option_bind].
    change ("," +:+ ?x) with (String "," x). rewrite skip_ws_cons by done.
    rewrite <- fmap_cons in Hf |- *. change (Ascii.eqb "," "]") with false.
    change (Ascii.eqb "," ",") with true. rewrite IH by (done || lia). done.
Qed.

Lemma reads_members l :
  Forall (λ kv, reads kv.2) l → forallb (λ kv : string * json, ascii_only kv.1) l = true → l ≠ [] →
  ∀ fuel rest,
  (2 * String.length (Strings.Join (print_member <$> l) ",") + 1 ≤ fuel)%nat →
  parse_members fuel (Strings.Join (print_member <$> l) "," +:+ String "}" rest) = Some (l, rest).
Proof.
  induction 1 as [|[k v] l Hv Hl IH]; [done|]. cbn [forallb]. intros [Hk Hks]%andb_true_iff _ fuel rest Hf.
  destruct fuel as [|fuel]; [lia|]. rewrite parse_members_S. cbn [fst snd] in *.
  assert (Hstep : ∀ t, stops t = true → (2 * String.length (print_member (k, v)) + 1 ≤ S fuel)%nat →
    (s1 ← expect dq (skip_ws (print_member (k, v) +:+ t)); '(k0, s2) ← unquote s1 O;
     s3 ← expect ":" (skip_ws s2); '(v0, r) ← parse_value fuel s3; Some (k0, v0, r))
    = Some (k, v, t)).
  { intros t Ht Hlen. unfold print_member in Hlen |- *. cbn [fst snd] in *.
    rewrite !str_length_app in Hlen. rewrite !str_app_assoc.
    destruct (unquote_print_string k (":" +:+ print v +:+ t) Hk) as (u & -> & Hu).
    rewrite skip_ws_cons by done. cbn [expect]. rewrite Ascii.eqb_refl. cbn [mbind option_bind].
    rewrite Hu. cbn [mbind option_bind]. change (":" +:+ ?x) with (String ":" x).
    rewrite skip_ws_cons by done. cbn [expect]. rewrite Ascii.eqb_refl. cbn [mbind option_bind].
    rewrite Hv by (done || lia). done. }
  revert Hstep. destruct l as [|kv2 l]; intros Hstep.
  - cbn [fmap list_fmap Strings.Join] in *. specialize (Hstep (String "}" rest) eq_refl Hf).
    destruct (expect dq _); [|done]. cbn in Hstep |- *.
    destruct (unquote _ _) as [[k0 s2]|]; [|done]. cbn in Hstep |- *.
    destruct (expect ":" _) as [s3|]; [|done]. cbn in Hstep |- *.
    destruct (parse_value _ _) as [[v0 r]|]; [|done]. cbn in Hstep |- *.
    by injection Hstep as -> -> ->.
  - rewrite !fmap_cons, join_cons2 in Hf |- *. rewrite !str_length_app in Hf.
    change (String.length ",") with 1%nat in Hf. rewrite <- fmap_cons in Hf |- *.
    rewrite !str_app_assoc. remember (Strings.Join (print_member <$> kv2 :: l) ",") as J in *.
    specialize (Hstep ("," +:+ J +:+ String "}" rest) eq_refl ltac:(lia)).
    destruct (expect dq _); [|done]. cbn [mbind option_bind] in Hstep |- *.
    destruct (unquote _ _) as [[k0 s2]|]; [|done]. cbn [mbind option_bind] in Hstep |- *.
    destruct (expect ":" _) as [s3|]; [|done]. cbn [mbind option_bind] in Hstep |- *.
    destruct (parse_value _ _) as [[v0 r]|]; [|done]. cbn [mbind option_bind] in Hstep |- *.
    injection Hstep as -> -> ->.
    change ("," +:+ ?x) with (String "," x). rewrite skip_ws_cons by done.
    change (Ascii.eqb "," "}") with false. change (Ascii.eqb "," ",") with true.
    cbv iota. rewrite IH by (done || lia). done.
Qed.

Lemma reads_number lit : valid_number lit = true → reads (JNum lit).
Proof.
  intros Hv fuel rest Hs Hf. destruct (number_head lit Hv) as (c & s & -> & Hc).
  destruct fuel as [|fuel]; [cbn in Hf; lia|].
  pose proof (scan_number_app rest Hs _ Hv) as Hn. cbn [print] in *. rewrite str_app_cons in *.
  transitivity ('(lit, r) ← scan_number (String c (s +:+ rest)); Some (JNum lit, r));
    [|by rewrite Hn].
  clear Hn Hv Hf. revert Hc. destruct c as [[] [] [] [] [] [] [] []]; intros Hc;
    first [destruct Hc as [Hc|Hc]; discriminate Hc | reflexivity].
Qed.

Lemma print_head v :
  json_ok v = true →
  ∃ c t, print v = String c t ∧ (∀ s, skip_ws (String c s) = String c s) ∧ Ascii.eqb "]" c = false.
Proof.
  destruct v as [|[]|lit|s|l|l]; cbn [json_ok print]; intros H; try (by eexists _, _).
  destruct (number_head lit H) as (c & s & -> & Hc). exists c, s. split; [done|].
  destruct c as [[] [] [] [] [] [] [] []];
    first [destruct Hc as [Hc|Hc]; discriminate Hc | done].
Qed.

Lemma join_head x l sep c t : x = String c t → ∃ u, Strings.Join (x :: l) sep = String c u.
Proof. intros ->. destruct l; cbn [Strings.Join]; [by eexists|]. rewrite str_app_cons. by eexists. Qed.

Lemma reads_array l : Forall reads l → forallb json_ok l = true → reads (JArr l).
Proof.
  intros Hl Hok fuel rest _ Hf. cbn [print] in *. rewrite !str_length_app in Hf.
  destruct fuel as [|fuel]; [cbn in Hf; lia|]. rewrite !str_app_assoc.
  destruct l as [|v l]; [done|]. cbn [forallb] in Hok. apply andb_true_iff in Hok as [Hv _].
  pose proof (reads_elements (v :: l) Hl ltac:(done) fuel rest ltac:(cbn in Hf |- *; lia)) as He.
  destruct (print_head v Hv) as (c & t & Hp & Hws & Hc).
  destruct (join_head (print v) (print <$> l) "," c t Hp) as [u Hu].
  rewrite fmap_cons, Hu in *. rewrite !str_app_cons in He |- *.
  transitivity ('(l, r) ← parse_elements fuel (String c (u +:+ "]" +:+ rest)); Some (JArr l, r));
    [|change ("]" +:+ rest) with (String "]" rest); by rewrite He].
  cbn [parse_value]. rewrite skip_ws_cons by done.
  change (Ascii.eqb "[" "{") with false. change (Ascii.eqb "[" "[") with true. cbv iota.
  rewrite str_app_nil, str_app_cons, Hws. cbn [expect]. by rewrite Hc.
Qed.

Lemma reads_object l :
  Forall (λ kv, reads kv.2) l → forallb (λ kv : string * json, ascii_only kv.1) l = true → reads (JObj l).
Proof.
  intros Hl Hok fuel rest _ Hf. cbn [print] in *.
  change (λ kv, print_string kv.1 +:+ ":" +:+ print kv.2) with print_member in *.
  rewrite !str_length_app in Hf.
  destruct fuel as [|fuel]; [cbn in Hf; lia|]. rewrite !str_app_assoc.
  destruct l as [|v l]; [done|].
  pose proof (reads_members (v :: l) Hl Hok ltac:(done) fuel rest ltac:(cbn in Hf |- *; lia)) as He.
  destruct (join_head (print_member v) (print_member <$> l) "," dq _ eq_refl) as [u Hu].
  rewrite fmap_cons, Hu in *. rewrite !str_app_cons in He |- *.
  transitivity ('(l, r) ← parse_members fuel (String dq (u +:+ "}" +:+ rest)); Some (JObj l, r));
    [|change ("}" +:+ rest) with (String "}" rest); by rewrite He].
  reflexivity.
Qed.

Lemma reads_ok v : json_ok v = true → reads v.
Proof.
  induction v as [|b|lit|s|l IH|l IH] using json_ind; cbn [json_ok].
  - intros _ [|fuel] rest Hs Hf; [cbn in Hf; lia|reflexivity].
  - intros _ [|fuel] rest Hs Hf; [destruct b; cbn in Hf; lia|by destruct b].
  - apply reads_number.
  - intros Hs [|fuel] rest _ Hf; [cbn in Hf; lia|].
    destruct (unquote_print_string s rest Hs) as (t & Ht & Hu). cbn [print]. rewrite Ht.
    transitivity ('(x, r) ← unquote t O; Some (JStr x, r)); [reflexivity|by rewrite Hu].
  - intros Hok. apply reads_array; [|done]. clear -Hok IH.
    induction IH as [|v l Hv _ IHl]; [constructor|]. cbn [forallb] in Hok.
    apply andb_true_iff in Hok as [? ?]. constructor; auto.
  - intros Hok. assert (Forall (λ kv, reads kv.2) l ∧ forallb (λ kv, ascii_only kv.1) l = true) as [? ?];
      [|by apply reads_object]. clear -Hok IH.
    induction IH as [|v l Hv _ IHl]; [done|]. cbn [forallb] in *.
    apply andb_true_iff in Hok as [[? ?]%andb_true_iff ?].
    destruct IHl as [? ->]; [done|]. split; [constructor; auto|]. by rewrite andb_true_r.
Qed.

(** Reading the text of a value gives the value back. *)
Lemma parse_print v : json_ok v = true → parse (print v) = Some v.
Proof.
  intros Hv. unfold parse. pose proof (reads_ok v Hv (parse_fuel (print v)) "" eq_refl) as H.
  rewrite str_app_nil_r in H. rewrite H by (unfold parse_fuel; lia). done.
Qed.

(** ** The fuel of [parse] *)

Lemma skip_ws_length s : (String.length (skip_ws s) ≤ String.length s)%nat.
Proof. induction s as [|c s IH]; [done|]. cbn [skip_ws]. case_match; cbn; lia. Qed.

Lemma expect_length c s r : expect c s = Some r → String.length s = S (String.length r).
Proof. destruct s; [done|]. cbn [expect]. case_match; [|done]. by intros [= <-]. Qed.

Lemma prepend_inv p o x r : prepend p o = Some (x, r) → ∃ y, o = Some (y, r).
Proof. destruct o as [[y r']|]; [|done]. intros [= _ <-]. by eexists. Qed.

Lemma unquote_length s n x r :
  unquote s n = Some (x, r) → (String.length r < String.length s)%nat.
Proof.
  remember (String.length s) as k eqn:Hk. revert s n x r Hk.
  induction (lt_wf k) as [k _ IH]. intros s n x r ->.
  assert (Hrec : ∀ s' m p, (String.length s' < String.length s)%nat →
    prepend p (unquote s' m) = Some (x, r) → (String.length r < String.length s)%nat).
  { intros s' m p Hlt [y Hy]%prepend_inv. specialize (IH _ Hlt s' m y r eq_refl Hy). lia. }
  destruct s as [|c s1]; [done|]. destruct n as [|n]; cbn [unquote].
  - repeat case_match; subst; try done;
      first [intros [= _ <-]; cbn; lia | intros H'; eapply Hrec, H'; cbn; lia].
  - apply Hrec. cbn. lia.
Qed.

Lemma take_digits_length s d r :
  take_digits s = (d, r) → String.length s = (String.length d + String.length r)%nat.
Proof.
  revert d r. induction s as [|c s IH]; intros d r; cbn [take_digits]; [by intros [= <- <-]|].
  destruct (is_digit c); [|by intros [= <- <-]].
  destruct (take_digits s) as [d' r']. intros [= <- <-]. cbn. by rewrite (IH d' r').
Qed.

Lemma digits1_length s d r : digits1 s = Some (d, r) → (String.length r < String.length s)%nat.
Proof.
  unfold digits1. destruct (take_digits s) as [d' r'] eqn:E. apply take_digits_length in E.
  case_bool_decide; [done|]. intros [= <- <-]. destruct d'; [done|]. cbn in E. lia.
Qed.

Lemma scan_number_length s l r : scan_number s = Some (l, r) → (String.length r < String.length s)%nat.
Proof.
  unfold scan_number, number_parts. destruct (minus_sign s) as [sg s1] eqn:Em.
  assert (H1 : (String.length s1 ≤ String.length s)%nat).
  { revert Em. unfold minus_sign. repeat case_match; intros [= <- <-]; cbn; lia. }
  destruct (int_part s1) as [[i s2]|] eqn:Ei; [|done].
  assert (H2 : (String.length s2 < String.length s1)%nat).
  { revert Ei. unfold int_part. repeat case_match;
      first [apply digits1_length | intros [= <- <-]; cbn; lia]. }
  cbn. destruct (frac_part s2) as [[f s3]|] eqn:Ef; [|done].
  assert (H3 : (String.length s3 ≤ String.length s2)%nat).
  { revert Ef. unfold frac_part.
    repeat case_match; try (intros [= <- <-]; cbn; lia).
    destruct (digits1 _) as [[d r']|] eqn:Ed; [|done]. apply digits1_length in Ed.
    intros [= <- <-]. cbn in *. lia. }
  cbn. destruct (exp_part s3) as [[e s4]|] eqn:Ee; [|done].
  assert (H4 : (String.length s4 ≤ String.length s3)%nat).
  { revert Ee. unfold exp_part. destruct s3 as [|c s3]; [by intros [= <- <-]|].
    case_match; [|intros [= <- <-]; lia]. destruct (exp_sign s3) as [sg' s5] eqn:Es.
    assert (String.length s5 ≤ String.length s3)%nat.
    { revert Es. unfold exp_sign. repeat case_match; intros [= <- <-]; cbn; lia. }
    destruct (digits1 s5) as [[d r']|] eqn:Ed; [|done]. apply digits1_length in Ed.
    intros [= <- <-]. cbn. lia. }
  cbn. intros [= _ <-]. lia.
Qed.

Lemma strip_length p s r :
  strip p s = Some r → String.length s = (String.length p + String.length r)%nat.
Proof.
  revert s. induction p as [|a p IH]; intros s; cbn [strip]; [by destruct s; intros [= <-]|].
  destruct s as [|b s]; [done|]. case_match; [|done]. intros Hs%IH. cbn. by rewrite Hs.
Qed.

(** peel the binds of a hypothesis [m ≫= f = Some r] *)
Ltac obind H :=
  repeat (apply bind_Some in H; let x := fresh "x" in let E := fresh "E" in destruct H as (x & E & H);
          try destruct x as [? ?]; cbn beta iota in H).

#[local] Ltac shorter :=
  repeat match goal with
  | H : unquote _ _ = Some _ |- _ => apply unquote_length in H
  | H : scan_number _ = Some _ |- _ => apply scan_number_length in H
  | H : strip _ _ = Some _ |- _ => apply strip_length in H
  | H : expect _ _ = Some _ |- _ => apply expect_length in H
  | H : skip_ws ?s = String _ _ |- _ =>
      let K := fresh in pose proof (skip_ws_length s) as K; rewrite H in K; clear H
  | H : context [String.length (skip_ws ?s)] |- _ =>
      lazymatch goal with
      | K : (String.length (skip_ws s) ≤ _)%nat |- _ => fail
      | _ => pose proof (skip_ws_length s)
      end
  end; cbn [String.length] in *.

Lemma parse_shorter f :
  (∀ s v r, parse_value f s = Some (v, r) → (String.length r < String.length s)%nat) ∧
  (∀ s l r, parse_elements f s = Some (l, r) → (String.length r < String.length s)%nat) ∧
  (∀ s l r, parse_members f s = Some (l, r) → (String.length r < String.length s)%nat).
Proof.
  induction f as [|f (IHv & IHe & IHm)]; [done|]. split_and!; intros s x r.
  - cbn [parse_value]. destruct (skip_ws s) as [|c s1] eqn:Ews; [done|]. unfold parse_literal.
    repeat case_match; intros H'; obind H'; simplify_eq;
      repeat match goal with
      | H : parse_members _ _ = _ |- _ => apply IHm in H
      | H : parse_elements _ _ = _ |- _ => apply IHe in H
      end; shorter; lia.
  - rewrite parse_elements_S. intros H'. obind H'. apply IHv in E.
    repeat case_match; obind H'; simplify_eq;
      repeat match goal with H : parse_elements _ _ = _ |- _ => apply IHe in H end; shorter; lia.
  - rewrite parse_members_S. intros H'. obind H'. apply IHv in E2.
    repeat case_match; obind H'; simplify_eq;
      repeat match goal with H : parse_members _ _ = _ |- _ => apply IHm in H end; shorter; lia.
Qed.

Lemma parse_more_fuel f :
  (∀ s r, parse_value f s = Some r →
     ∀ f', (2 * String.length s + 1 ≤ f')%nat → parse_value f' s = Some r) ∧
  (∀ s r, parse_elements f s = Some r →
     ∀ f', (2 * String.length s + 2 ≤ f')%nat → parse_elements f' s = Some r) ∧
  (∀ s r, parse_members f s = Some r →
     ∀ f', (2 * String.length s + 2 ≤ f')%nat → parse_members f' s = Some r).
Proof.
  induction f as [|f (IHv & IHe & IHm)]; [done|].
  destruct (parse_shorter f) as (Sv & Se & Sm).
  split_and!; intros s r H [|f'] Hf; try lia; revert H.
  - cbn [parse_value]. destruct (skip_ws s) as [|c s1] eqn:Ews; [done|].
    assert (2 * String.length s1 + 2 ≤ f')%nat by (shorter; lia).
    repeat case_match; try done; intros H'; obind H';
      first [rewrite (IHm _ _ E) by lia | rewrite (IHe _ _ E) by lia]; done.
  - rewrite !parse_elements_S. intros H'. obind H'. rewrite (IHv _ _ E) by lia. cbn.
    apply Sv in E. case_match eqn:Ews; [done|]. repeat case_match; try done. obind H'.
    rewrite (IHe _ _ E0) by (shorter; lia). done.
  - rewrite !parse_members_S. intros H'. obind H'. rewrite E. cbn. rewrite E0. cbn.
    rewrite E1. cbn. pose proof (Sv _ _ _ E2). rewrite (IHv _ _ E2) by (shorter; lia). cbn.
    case_match eqn:Ews; [done|]. repeat case_match; try done. obind H'.
    rewrite (IHm _ _ E3) by (shorter; lia). done.
Qed.

(** No text needs more fuel than [parse] gives it. *)
Lemma parse_fuel_enough fuel s r :
  parse_value fuel s = Some r → parse_value (parse_fuel s) s = Some r.
Proof. intros H. eapply (parse_more_fuel fuel); [done|]. unfold parse_fuel. lia. Qed.

(** ** Integers *)

Lemma take_digits_all s : all_chars is_digit s = true → take_digits s = (s, "").
Proof.
  induction s as [|c s IH]; [done|]. cbn [all_chars take_digits]. intros [Hc Hs]%andb_true_iff.
  by rewrite Hc, IH.
Qed.

Lemma digits_number s c t :
  s = String c t → c ≠ "0"%char → all_chars is_digit s = true → int_part s = Some (s, "").
Proof.
  intros -> Hc Hs. pose proof (take_digits_all _ Hs) as Ht.
  assert (Hd : digits1 (String c t) = Some (String c t, "")) by (unfold digits1; by rewrite Ht).
  revert Hc Hd. clear. destruct c as [[] [] [] [] [] [] [] []]; by intros.
Qed.

Lemma pos_digits p :
  ∃ c t, pretty_N_go (Npos p) "" = String c t ∧ c ≠ "0"%char ∧
    all_chars is_digit (String c t) = true.
Proof.
  destruct (pretty_go_head (Npos p) "" eq_refl) as (c & t & E & Hc). exists c, t. split_and!; [done..|].
  rewrite <- E. refine (all_chars_impl _ _ _ _ (pretty_go_digits (Npos p) "" eq_refl)).
  intros d. unfold GoText.is_digit, is_digit, between, code. intros H. zbool.
  apply andb_true_iff. split; apply Z.leb_le; lia.
Qed.

Lemma valid_number_Itoa n : valid_number (Strconv.Itoa n) = true.
Proof.
  unfold valid_number. apply bool_decide_eq_true. unfold scan_number, number_parts.
  destruct n as [|p|p]; [reflexivity|..]; destruct (pos_digits p) as (c & t & E & Hc & Hd).
  - rewrite Itoa_pos by done. change (Z.to_N (Zpos p)) with (Npos p). rewrite E.
    assert (minus_sign (String c t) = ("", String c t)) as ->.
    { cbn [all_chars] in Hd. apply andb_true_iff in Hd as [Hd _]. revert Hd. clear.
      destruct c as [[] [] [] [] [] [] [] []]; by intros. }
    rewrite (digits_number _ c t eq_refl Hc Hd). cbn. by rewrite str_app_nil_r.
  - rewrite Itoa_neg, E. cbn [minus_sign]. rewrite (digits_number _ c t eq_refl Hc Hd). cbn.
    by rewrite str_app_nil_r.
Qed.

(** *** Texts that are ASCII *)

Lemma ascii_only_app a b : ascii_only (a +:+ b) = ascii_only a && ascii_only b.
Proof.
  induction a as [|c a IH]; [done|]. rewrite str_app_cons. cbn [ascii_only]. by rewrite IH, andb_assoc.
Qed.

Lemma digits_ascii s : all_chars is_digit s = true → ascii_only s = true.
Proof.
  induction s as [|c s IH]; [done|]. cbn [all_chars ascii_only]. intros [Hc Hs]%andb_true_iff.
  rewrite IH by done. unfold is_digit, between in Hc. zbool. rewrite andb_true_r. apply Z.ltb_lt. lia.
Qed.

Lemma Itoa_ascii n : ascii_only (Strconv.Itoa n) = true.
Proof.
  destruct n as [|p|p]; [done|..]; destruct (pos_digits p) as (c & t & E & _ & Hd).
  - rewrite Itoa_pos by done. change (Z.to_N (Zpos p)) with (Npos p). rewrite E. by apply digits_ascii.
  - rewrite Itoa_neg, E. by apply digits_ascii in Hd.
Qed.

Lemma ip_string_ascii ip : ascii_only (Net.ip_string ip) = true.
Proof.
  unfold Net.ip_string. induction ip as [|b ip IH]; [done|]. rewrite fmap_cons.
  destruct ip as [|b' ip]; [apply Itoa_ascii|]. rewrite fmap_cons in *.
  by rewrite join_cons2, !ascii_only_app, Itoa_ascii, IH.
Qed.

Lemma uint_digits_ascii s : ∀ n v, Strconv.uint_digits 10 s n = Strconv.UVal v → ascii_only s = true.
Proof.
  induction s as [|c s IH]; intros n v; [done|]. cbn [Strconv.uint_digits ascii_only].
  destruct (Strconv.digit 10 c) as [d|] eqn:Ed; [|done]. case_match; [done|]. intros Hv.
  rewrite (IH _ _ Hv), andb_true_r. clear -Ed.
  destruct c as [[] [] [] [] [] [] [] []]; first [reflexivity|discriminate Ed].
Qed.

Lemma prefix_len_ascii m p : Net.prefix_len m = Some p → ascii_only m = true.
Proof.
  unfold Net.prefix_len. destruct m as [|c m]; [done|].
  destruct (Strconv.uint_digits 10 (String c m) 0) eqn:E; [|done..]. intros _. by eapply uint_digits_ascii.
Qed.

Lemma dec_int_JInt n old : - 2 ^ 63 ≤ n < 2 ^ 63 → dec_int (JInt n) old = (n, false).
Proof. intros Hn. unfold JInt. cbn [dec_int]. by rewrite ParseInt_Itoa_int. Qed.

(** ** Text that [Unmarshal] reads *)

(** [json.Encoder.Encode] ends the value with a newline *)
Definition Encode (v : json) : string := print v +:+ String (chr 10) "".

Lemma parse_Encode v : json_ok v = true → parse (Encode v) = Some v.
Proof.
  intros Hv. unfold parse, Encode.
  rewrite (reads_ok v Hv) by (done || unfold parse_fuel; rewrite str_length_app; lia). done.
Qed.

Lemma Unmarshal_print {A} (dec : decoder A) v old :
  json_ok v = true → Unmarshal dec (print v) old = let '(x, err) := dec v old in (x, negb err).
Proof. intros Hv. unfold Unmarshal. by rewrite parse_print. Qed.

Lemma Unmarshal_Encode {A} (dec : decoder A) v old :
  json_ok v = true → Unmarshal dec (Encode v) old = let '(x, err) := dec v old in (x, negb err).
Proof. intros Hv. unfold Unmarshal. by rewrite parse_Encode. Qed.

(** ** Maps *)

Lemma JMap_Forall (P : string * json → bool) (m : gmap string json) :
  forallb P (merge_sort key_le (map_to_list m)) = true ↔ map_Forall (λ k v, P (k, v) = true) m.
Proof.
  rewrite forallb_forall. setoid_rewrite <- list_elem_of_In.
  setoid_rewrite (merge_sort_Permutation key_le (map_to_list m)).
  split.
  - intros H k v Hkv. apply H. by apply elem_of_map_to_list.
  - intros H [k v] Hkv%elem_of_map_to_list. by apply H.
Qed.

Lemma json_ok_JMap m :
  json_ok (JMap m) = true ↔ map_Forall (λ k v, ascii_only k && json_ok v = true) m.
Proof. apply (JMap_Forall (λ kv, ascii_only kv.1 && json_ok kv.2)). Qed.
