(* ===== verification/JsonText.v ===== *)
(** * Editing JSON as text

    The program replaces a member of a printed JSON value by searching for its text:
    [strings.ReplaceAll(conf, `"ipam":{}`, `"ipam":...`)].  On values whose strings
    need no escape this is the replacement of the member in the value.  The second part is
    about texts written by hand, with white space. *)

From S2P Require Import Prelude GoLib GoText Json JsonSpec.
Import Json.

(** characters that are printed as they are *)
Definition plain_char (c : Ascii.ascii) : bool :=
  between 32 127 (code c) &&
  negb ((code c =? 34) || (code c =? 92) || (code c =? 60) || (code c =? 62) || (code c =? 38)).

Fixpoint plain (s : string) : bool :=
  match s with EmptyString => true | String c s' => plain_char c && plain s' end.

Fixpoint json_plain (v : json) : bool :=
  match v with
  | JNum lit => valid_number lit && plain lit
  | JStr s => plain s
  | JArr l => forallb json_plain l
  | JObj l => forallb (λ kv, plain kv.1 && json_plain kv.2) l
  | _ => true
  end.

(** the member [k] with the value [w] set to [nv], at every depth *)
Fixpoint set_member (k : string) (w nv v : json) : json :=
  match v with
  | JArr l => JArr (set_member k w nv <$> l)
  | JObj l =>
      JObj ((λ kv, if bool_decide (kv.1 = k) && bool_decide (kv.2 = w) then (k, nv)
                   else (kv.1, set_member k w nv kv.2)) <$> l)
  | _ => v
  end.

Lemma plain_escape s : plain s = true → escape s true O = s.
Proof.
  induction s as [|c s IH]; [done|]. cbn [plain escape]. intros [Hc Hs]%andb_true_iff.
  rewrite (IH Hs). destruct c as [[] [] [] [] [] [] [] []]; first [discriminate Hc | reflexivity].
Qed.

Lemma plain_print_string s : plain s = true → print_string s = quoted s.
Proof. intros H. unfold print_string. by rewrite plain_escape. Qed.

Lemma plain_ascii s : plain s = true → ascii_only s = true.
Proof.
  induction s as [|c s IH]; [done|]. cbn [plain ascii_only]. intros [Hc Hs]%andb_true_iff.
  rewrite (IH Hs), andb_true_r. unfold plain_char, between in Hc.
  apply andb_true_iff in Hc as [Hc _]. zbool. apply Z.ltb_lt. lia.
Qed.

Lemma json_plain_ok v : json_plain v = true → json_ok v = true.
Proof.
  induction v as [|b|lit|s|l IH|l IH] using json_ind; cbn [json_plain json_ok]; try done.
  - by intros [? ?]%andb_true_iff.
  - apply plain_ascii.
  - induction IH as [|v l Hv _ IHl]; [done|]. cbn [forallb]. intros [? ?]%andb_true_iff.
    rewrite Hv, IHl; done.
  - induction IH as [|v l Hv _ IHl]; [done|]. cbn [forallb].
    intros [[? ?]%andb_true_iff ?]%andb_true_iff. rewrite plain_ascii, Hv, IHl; done.
Qed.

(** two texts up to the next quote *)
Lemma prefix_quote k s x y :
  plain k = true → plain s = true →
  String.prefix (k +:+ String dq x) (s +:+ String dq y) = true → s = k ∧ String.prefix x y = true.
Proof.
  revert s. induction k as [|a k IH]; intros [|b s]; cbn [plain]; intros Hk Hs;
    rewrite ?str_app_nil, ?str_app_cons; cbn [String.prefix].
  - by destruct (ascii_dec dq dq).
  - apply andb_true_iff in Hs as [Hb _]. destruct (ascii_dec dq b) as [<-|]; done.
  - apply andb_true_iff in Hk as [Ha _]. destruct (ascii_dec a dq) as [->|]; done.
  - apply andb_true_iff in Hk as [_ Hk], Hs as [_ Hs].
    destruct (ascii_dec a b) as [->|]; [|done]. intros [-> ?]%IH; done.
Qed.

Lemma prefix_head_ne a p b s : a ≠ b → String.prefix (String a p) (String b s) = false.
Proof. intros H. cbn. by destruct (ascii_dec a b). Qed.

Lemma replace_skip p s old new :
  Strings.replace_from (p +:+ s) old new (String.length p) = Strings.replace_from s old new O.
Proof. induction p as [|a p IH]; [done|]. rewrite str_app_cons. exact IH. Qed.

Lemma replace_match p s new :
  p ≠ "" → Strings.ReplaceText (p +:+ s) p new = new +:+ Strings.ReplaceText s p new.
Proof.
  destruct p as [|a p]; [done|]. intros _. unfold Strings.ReplaceText.
  pose proof (prefix_app (String a p) s) as Hp. rewrite str_app_cons in *.
  cbn [Strings.replace_from]. rewrite Hp. f_equal. cbn [String.length].
  replace (S (String.length p) - 1)%nat with (String.length p) by lia. apply replace_skip.
Qed.

(** what may follow a string: the end or a separator *)
Definition is_sep (c : Ascii.ascii) : bool :=
  Ascii.eqb c "," || Ascii.eqb c ":" || Ascii.eqb c "]" || Ascii.eqb c "}".

Definition at_sep (s : string) : bool :=
  match s with EmptyString => true | String c _ => is_sep c end.

(** what may follow a value *)
Definition at_end (s : string) : bool :=
  match s with EmptyString => true | String c _ => is_sep c && negb (Ascii.eqb c ":") end.

Definition member_text (k : string) (v : json) : string := quoted k +:+ ":" +:+ print v.

Section replace.
Variables (k : string) (w nv : json).
Hypothesis Hk : plain k = true.
Hypothesis Hhead : at_sep k = false.
Hypothesis Hw : ∀ v rest,
  json_plain v = true → String.prefix (print w) (print v +:+ rest) = true → v = w.

Abbreviation repl s := (Strings.ReplaceText s (member_text k w) (member_text k nv)).

Lemma member_text_cons v : member_text k v = String dq (k +:+ String dq (String ":" (print v))).
Proof.
  unfold member_text, quoted. rewrite !str_app_cons, str_app_assoc, str_app_cons, str_app_nil. done.
Qed.

Lemma repl_nil : repl "" = "".
Proof. done. Qed.

Lemma repl_skip c s :
  String.prefix (member_text k w) (String c s) = false → repl (String c s) = String c (repl s).
Proof. intros H. unfold Strings.ReplaceText. cbn [Strings.replace_from]. by rewrite H. Qed.

Lemma repl_other c s : c ≠ dq → repl (String c s) = String c (repl s).
Proof. intros H. apply repl_skip. rewrite member_text_cons. by apply prefix_head_ne. Qed.

Lemma repl_match s : repl (member_text k w +:+ s) = member_text k nv +:+ repl s.
Proof. apply replace_match. by rewrite member_text_cons. Qed.

Lemma repl_plain s rest : plain s = true → repl (s +:+ rest) = s +:+ repl rest.
Proof.
  induction s as [|c s IH]; [done|]. cbn [plain]. intros [Hc Hs]%andb_true_iff.
  rewrite !str_app_cons, repl_other, IH; [done|done|]. by intros ->.
Qed.

Lemma repl_close rest : at_sep rest = true → repl (String dq rest) = String dq (repl rest).
Proof.
  intros Hs. apply repl_skip. rewrite member_text_cons. cbn [String.prefix].
  destruct (ascii_dec dq dq) as [_|]; [|done]. destruct k as [|c k']; [done|].
  rewrite str_app_cons. destruct rest as [|d rest]; [done|]. apply prefix_head_ne.
  intros ->. cbn [at_sep] in *. congruence.
Qed.

Lemma repl_quoted s rest :
  plain s = true → at_sep rest = true →
  String.prefix (member_text k w) (quoted s +:+ rest) = false →
  repl (quoted s +:+ rest) = quoted s +:+ repl rest.
Proof.
  intros Hs Hr. unfold quoted. rewrite !str_app_cons, !str_app_assoc, !str_app_cons. intros Hp.
  rewrite repl_skip, repl_plain, str_app_nil, repl_close by done. by rewrite str_app_nil.
Qed.

(** a string that is a value *)
Lemma repl_value_string s rest :
  plain s = true → at_end rest = true → repl (quoted s +:+ rest) = quoted s +:+ repl rest.
Proof.
  intros Hs Hr. apply repl_quoted; [done|..].
  { destruct rest; [done|]. cbn in *. by apply andb_true_iff in Hr as [? _]. }
  destruct (String.prefix _ _) eqn:Hp; [|done]. exfalso. revert Hp.
  rewrite member_text_cons. unfold quoted. rewrite !str_app_cons, !str_app_assoc, str_app_cons, str_app_nil.
  cbn [String.prefix]. destruct (ascii_dec dq dq) as [_|]; [|done].
  intros [_ Hp]%prefix_quote; [|done..]. destruct rest as [|c rest]; [done|].
  cbn [String.prefix] in Hp. destruct (ascii_dec ":" c) as [<-|]; done.
Qed.

Definition edits (v : json) : Prop :=
  ∀ rest, at_end rest = true → repl (print v +:+ rest) = print (set_member k w nv v) +:+ repl rest.

Definition set_kv (kv : string * json) : string * json :=
  if bool_decide (kv.1 = k) && bool_decide (kv.2 = w) then (k, nv)
  else (kv.1, set_member k w nv kv.2).

Lemma repl_member kv rest :
  plain kv.1 = true → json_plain kv.2 = true → edits kv.2 → at_end rest = true →
  repl (print_member kv +:+ rest) = print_member (set_kv kv) +:+ repl rest.
Proof.
  destruct kv as [k' v]. cbn [fst snd]. intros Hk' Hv IH Hr. unfold print_member, set_kv. cbn [fst snd].
  destruct (bool_decide (k' = k) && bool_decide (v = w)) eqn:E.
  - apply andb_true_iff in E as [->%bool_decide_eq_true ->%bool_decide_eq_true]. cbn [fst snd].
    rewrite plain_print_string by done. apply repl_match.
  - cbn [fst snd]. rewrite plain_print_string, !str_app_assoc by done.
    change (":" +:+ ?x) with (String ":" x).
    rewrite repl_quoted, repl_other, IH; [done..|].
    destruct (String.prefix _ _) eqn:Hp; [|done]. exfalso. revert Hp.
    rewrite member_text_cons. unfold quoted.
    rewrite !str_app_cons, !str_app_assoc, str_app_cons, str_app_nil. cbn [String.prefix].
    destruct (ascii_dec dq dq) as [_|]; [|done]. intros [-> Hp]%prefix_quote; [|done..].
    cbn [String.prefix] in Hp. destruct (ascii_dec ":" ":") as [_|]; [|done].
    apply Hw in Hp as ->; [|done]. by rewrite !bool_decide_true in E.
Qed.

Lemma repl_join {A} (f g : A → string) l rest c :
  is_sep c && negb (Ascii.eqb c ":") = true →
  Forall (λ x, ∀ r, at_end r = true → repl (f x +:+ r) = g x +:+ repl r) l →
  repl (Strings.Join (f <$> l) "," +:+ String c rest) = Strings.Join (g <$> l) "," +:+ repl (String c rest).
Proof.
  intros Hc. induction 1 as [|x l Hx Hl IH]; [done|]. destruct l as [|y l].
  - cbn [fmap list_fmap Strings.Join]. by rewrite Hx.
  - rewrite !fmap_cons, !join_cons2, !str_app_assoc, Hx by done. f_equal.
    change ("," +:+ ?z) with (String "," z). rewrite repl_other by done. f_equal. exact IH.
Qed.

Lemma edits_ok v : json_plain v = true → edits v.
Proof.
  induction v as [|b|lit|s|l IH|l IH] using json_ind; intros Hv rest Hr; cbn [json_plain] in Hv.
  - exact (repl_plain "null" rest eq_refl).
  - destruct b; [exact (repl_plain "true" rest eq_refl)|exact (repl_plain "false" rest eq_refl)].
  - apply andb_true_iff in Hv as [_ Hv]. by apply repl_plain.
  - cbn [set_member print]. rewrite plain_print_string by done. by apply repl_value_string.
  - cbn [set_member print]. rewrite !str_app_assoc.
    change ("[" +:+ ?z) with (String "[" z). change ("]" +:+ ?z) with (String "]" z).
    rewrite repl_other by done. f_equal. rewrite <- list_fmap_compose.
    rewrite (repl_join print (print ∘ set_member k w nv)), repl_other; [done..|].
    clear -IH Hv Hk Hhead Hw. induction IH as [|v l Hx _ IHl]; [constructor|]. cbn [forallb] in Hv.
    apply andb_true_iff in Hv as [? ?]. constructor; [by apply Hx|auto].
  - cbn [set_member print]. rewrite !str_app_assoc.
    change ("{" +:+ ?z) with (String "{" z). change ("}" +:+ ?z) with (String "}" z).
    change (λ kv : string * json, print_string kv.1 +:+ ":" +:+ print kv.2) with print_member.
    change (λ kv : string * json, if bool_decide (kv.1 = k) && bool_decide (kv.2 = w) then (k, nv)
                   else (kv.1, set_member k w nv kv.2)) with set_kv.
    rewrite repl_other by done. f_equal. rewrite <- list_fmap_compose.
    rewrite (repl_join print_member (print_member ∘ set_kv)), repl_other; [done..|].
    clear -IH Hv Hk Hhead Hw. induction IH as [|kv l Hx _ IHl]; [constructor|]. cbn [forallb] in Hv.
    apply andb_true_iff in Hv as [[? ?]%andb_true_iff ?]. constructor; [|auto].
    intros r Hr. apply repl_member; auto.
Qed.

Lemma replace_member_text v :
  json_plain v = true →
  Strings.ReplaceText (print v) (member_text k w) (member_text k nv) = print (set_member k w nv v).
Proof.
  intros Hv. pose proof (edits_ok v Hv "" eq_refl) as H.
  by rewrite repl_nil, !str_app_nil_r in H.
Qed.
End replace.

(** The values the program searches for: [null], [{}] and the empty string. *)
Definition searchable (w : json) : Prop := w = JNull ∨ w = JObj [] ∨ w = JStr "".

Lemma prefix_searchable w v rest :
  searchable w → json_plain v = true →
  String.prefix (print w) (print v +:+ rest) = true → v = w.
Proof.
  intros Hw Hv. destruct v as [|[]|lit|s|l|l]; cbn [json_plain] in Hv.
  - by destruct Hw as [-> | [-> | ->]].
  - by destruct Hw as [-> | [-> | ->]].
  - by destruct Hw as [-> | [-> | ->]].
  - apply andb_true_iff in Hv as [Hv _]. destruct (number_head lit Hv) as (c & s & -> & Hc).
    cbn [print]. rewrite str_app_cons.
    destruct Hw as [-> | [-> | ->]]; intros Hp; exfalso; revert Hp;
      (match goal with |- String.prefix ?w _ = _ → _ => let w' := eval compute in w in change w with w' end);
      (rewrite prefix_head_ne; [done|]); intros <-; by destruct Hc.
  - cbn [print]. rewrite plain_print_string by done. unfold quoted. rewrite str_app_cons.
    destruct Hw as [-> | [-> | ->]]; [done..|]. cbn [print]. change (print_string "") with (String dq (String dq "")).
    cbn [String.prefix]. destruct (ascii_dec dq dq) as [_|]; [|done].
    destruct s as [|c s]; [done|]. rewrite !str_app_cons. rewrite prefix_head_ne; [done|].
    intros <-. done.
  - by destruct Hw as [-> | [-> | ->]].
  - destruct Hw as [-> | [-> | ->]]; [done| |done]. destruct l as [|kv l]; [done|].
    cbn [print]. change (λ kv : string * json, print_string kv.1 +:+ ":" +:+ print kv.2) with print_member.
    rewrite fmap_cons.
    destruct (join_head (print_member kv) (print_member <$> l) "," dq _ eq_refl) as [u Hu].
    by rewrite Hu.
Qed.

(** Replacing the text of a member replaces the member. *)
Lemma ReplaceText_member k w nv v :
  plain k = true → at_sep k = false → searchable w → json_plain v = true →
  Strings.ReplaceText (print v) (member_text k w) (member_text k nv) = print (set_member k w nv v).
Proof. intros Hk Hh Hw Hv. apply replace_member_text; eauto using prefix_searchable. Qed.

Lemma set_member_plain k w nv v :
  plain k = true → json_plain nv = true → json_plain v = true →
  json_plain (set_member k w nv v) = true.
Proof.
  intros Hk Hn. induction v as [|b|lit|s|l IH|l IH] using json_ind; cbn [json_plain set_member]; try done.
  - induction IH as [|v l Hv _ IHl]; [done|]. rewrite fmap_cons. cbn [forallb].
    intros [? ?]%andb_true_iff. rewrite Hv, IHl; done.
  - induction IH as [|kv l Hv _ IHl]; [done|]. rewrite fmap_cons. cbn [forallb].
    intros [[? ?]%andb_true_iff ?]%andb_true_iff. rewrite IHl by done. rewrite andb_true_r.
    case_match; cbn [fst snd]; [by rewrite Hk, Hn|]. rewrite Hv; [|done]. by rewrite andb_true_r.
Qed.

(** ** Members *)

(** the first member of a name *)
Fixpoint find_member (k : string) (l : list (string * json)) : option json :=
  match l with
  | [] => None
  | kv :: l' => if bool_decide (kv.1 = k) then Some kv.2 else find_member k l'
  end.

Definition member (k : string) (v : json) : option json :=
  match v with JObj l => find_member k l | _ => None end.

(** a value that has no member [k] with the value [w] inside *)
Definition inert (k : string) (w v : json) : Prop := ∀ nv, set_member k w nv v = v.

Lemma find_member_app k l1 l2 :
  find_member k (l1 ++ l2)
  = match find_member k l1 with Some x => Some x | None => find_member k l2 end.
Proof. induction l1 as [|kv l1 IH]; [done|]. cbn. by case_bool_decide. Qed.

Lemma member_set k k0 w nv v :
  member k (set_member k0 w nv v)
  = (λ x, if bool_decide (k = k0) && bool_decide (x = w) then nv else set_member k0 w nv x)
      <$> member k v.
Proof.
  destruct v as [| | | | |l]; [done..|]. cbn [set_member member]. induction l as [|[k' x] l IH]; [done|]. rewrite fmap_cons.
  cbn [find_member fst snd]. destruct (bool_decide (k' = k0) && bool_decide (x = w)) eqn:E; cbn [fst snd].
  - apply andb_true_iff in E as [->%bool_decide_eq_true ->%bool_decide_eq_true].
    destruct (decide (k0 = k)) as [->|Hk].
    + cbn. rewrite !(bool_decide_true (k = k)) by done. cbn. by rewrite bool_decide_true.
    + by rewrite !(bool_decide_false (k0 = k)).
  - destruct (decide (k' = k)) as [->|Hk].
    + rewrite !(bool_decide_true (k = k)) by done. cbn. by rewrite E.
    + by rewrite !(bool_decide_false (k' = k)).
Qed.

Lemma member_set_hit k w nv v :
  member k v = Some w → member k (set_member k w nv v) = Some nv.
Proof. intros H. rewrite member_set, H. cbn. by rewrite !bool_decide_true. Qed.

Lemma member_set_miss k k0 w nv v :
  (∀ x, member k v = Some x → inert k0 w x ∧ (k = k0 → x ≠ w)) →
  member k (set_member k0 w nv v) = member k v.
Proof.
  intros H. rewrite member_set. destruct (member k v) as [x|]; [|done]. cbn.
  destruct (H x eq_refl) as [Hi Hn]. destruct (bool_decide (k = k0)) eqn:E1; cbn; [|by rewrite Hi].
  apply bool_decide_eq_true in E1. rewrite bool_decide_false by auto. by rewrite Hi.
Qed.

Lemma inert_strs k w l : inert k w (JArr (JStr <$> l)).
Proof.
  intros nv. cbn. f_equal. induction l as [|s l IH]; [done|]. rewrite !fmap_cons. by rewrite IH.
Qed.

(** ** Texts with white space

    What Go prints has no white space between its tokens; a text written by hand has.
    [layout v s] says that [s] is a text of [v] with white space before and after the
    tokens of its objects; such a text is read as [v]. *)

Definition is_ws (c : Ascii.ascii) : bool :=
  (code c =? 32) || (code c =? 9) || (code c =? 10) || (code c =? 13).

Definition blank (s : string) : bool := all_chars is_ws s.

(** a member, [before] and [after] it the white space: "key": value *)
Inductive layout : json → string → Prop :=
| layout_print v : json_ok v = true → layout v (print v)
| layout_space w v s : blank w = true → layout v s → layout v (w +:+ s)
| layout_object l s : layout_members l s → layout (JObj l) ("{" +:+ s +:+ "}")
with layout_members : list (string * json) → string → Prop :=
| layout_last before k v s after :
    blank before = true → ascii_only k = true → layout v s → blank after = true →
    layout_members [(k, v)] (before +:+ print_string k +:+ ":" +:+ s +:+ after)
| layout_more before k v s after l t :
    blank before = true → ascii_only k = true → layout v s → blank after = true →
    layout_members l t →
    layout_members ((k, v) :: l)
      (before +:+ print_string k +:+ ":" +:+ s +:+ after +:+ "," +:+ t).

Scheme layout_ind2 := Induction for layout Sort Prop
  with layout_members_ind2 := Induction for layout_members Sort Prop.
Combined Scheme layout_mutind from layout_ind2, layout_members_ind2.

Lemma skip_ws_app w s : blank w = true → skip_ws (w +:+ s) = skip_ws s.
Proof.
  induction w as [|c w IH]; [done|]. cbn [blank all_chars]. intros [Hc Hw]%andb_true_iff.
  rewrite str_app_cons. cbn [skip_ws]. unfold is_ws in Hc. rewrite Hc. by apply IH.
Qed.

Lemma skip_ws_idemp s : skip_ws (skip_ws s) = skip_ws s.
Proof.
  induction s as [|c s IH]; [done|]. cbn [skip_ws]. destruct (_ || _) eqn:E; [done|].
  cbn [skip_ws]. by rewrite E.
Qed.

Lemma parse_value_ws f s : parse_value f (skip_ws s) = parse_value f s.
Proof. destruct f; [done|]. cbn [parse_value]. by rewrite skip_ws_idemp. Qed.

Lemma parse_value_blank f w s : blank w = true → parse_value f (w +:+ s) = parse_value f s.
Proof. intros Hw. by rewrite <- parse_value_ws, skip_ws_app, parse_value_ws. Qed.

(** white space ends a number *)
Lemma stops_blank w s : blank w = true → stops s = true → stops (w +:+ s) = true.
Proof.
  destruct w as [|c w]; [done|]. cbn [blank all_chars]. intros [Hc _]%andb_true_iff _.
  rewrite str_app_cons. destruct c as [[] [] [] [] [] [] [] []]; first [discriminate Hc|reflexivity].
Qed.

(** ** Reading with as much fuel as the text needs *)

Definition reads_as (v : json) (s : string) : Prop :=
  ∀ rest, stops rest = true → ∃ f, parse_value f (s +:+ rest) = Some (v, rest).

Definition reads_members_as (l : list (string * json)) (s : string) : Prop :=
  ∀ rest, ∃ f, parse_members f (s +:+ String "}" rest) = Some (l, rest).

(** the first member of a text, with fuel for what follows *)
Lemma read_member before k v s f0 t :
  blank before = true → ascii_only k = true → reads_as v s → stops t = true →
  ∃ f, (f0 ≤ f)%nat ∧
    (s1 ← expect dq (skip_ws (before +:+ print_string k +:+ ":" +:+ s +:+ t)); '(k, s2) ← unquote s1 O;
     s3 ← expect ":" (skip_ws s2); '(v, rest) ← parse_value f s3; Some (k, v, rest)) = Some (k, v, t).
Proof.
  intros Hb Hk Hv Ht. destruct (Hv t Ht) as [f Hf].
  exists (f0 + (2 * String.length (s +:+ t) + 1))%nat. split; [lia|].
  rewrite skip_ws_app by done. destruct (unquote_print_string k (":" +:+ s +:+ t) Hk) as (u & -> & Hu).
  rewrite skip_ws_cons by done. cbn [expect]. rewrite Ascii.eqb_refl. cbn [mbind option_bind].
  rewrite Hu. cbn [mbind option_bind]. change (":" +:+ ?x) with (String ":" x).
  rewrite skip_ws_cons by done. cbn [expect]. rewrite Ascii.eqb_refl. cbn [mbind option_bind].
  rewrite (proj1 (parse_more_fuel f) _ _ Hf) by lia. done.
Qed.

Ltac take_member H :=
  destruct (expect dq _); [|done]; cbn [mbind option_bind] in H |- *;
  destruct (unquote _ _) as [[? ?]|]; [|done]; cbn [mbind option_bind] in H |- *;
  destruct (expect ":" _); [|done]; cbn [mbind option_bind] in H |- *;
  destruct (parse_value _ _) as [[? ?]|]; [|done]; cbn [mbind option_bind] in H |- *;
  injection H as -> -> ->.

Lemma read_last before k v s after :
  blank before = true → ascii_only k = true → reads_as v s → blank after = true →
  reads_members_as [(k, v)] (before +:+ print_string k +:+ ":" +:+ s +:+ after).
Proof.
  intros Hb Hk Hv Ha rest.
  destruct (read_member before k v s 0 (after +:+ String "}" rest)) as (f & _ & Hm);
    [done..|by apply stops_blank|].
  exists (S f). rewrite parse_members_S, !str_app_assoc. take_member Hm.
  rewrite skip_ws_app, skip_ws_cons by done. done.
Qed.

Lemma read_more before k v s after l t :
  blank before = true → ascii_only k = true → reads_as v s → blank after = true →
  reads_members_as l t →
  reads_members_as ((k, v) :: l) (before +:+ print_string k +:+ ":" +:+ s +:+ after +:+ "," +:+ t).
Proof.
  intros Hb Hk Hv Ha Hl rest. destruct (Hl rest) as [f0 Hf0].
  destruct (read_member before k v s (2 * String.length (t +:+ String "}" rest) + 2)
    (after +:+ String "," (t +:+ String "}" rest))) as (f & Hge & Hm);
    [done..|by apply stops_blank|].
  exists (S f). rewrite parse_members_S, !str_app_assoc. change ("," +:+ ?x) with (String "," x).
  take_member Hm. rewrite skip_ws_app, skip_ws_cons by done. change (Ascii.eqb "," "}") with false.
  change (Ascii.eqb "," ",") with true. cbv iota.
  rewrite (proj2 (proj2 (parse_more_fuel f0)) _ _ Hf0) by lia. done.
Qed.

(** a text of members does not start with the closing brace *)
Lemma members_open l s rest : layout_members l s → expect "}" (skip_ws (s +:+ rest)) = None.
Proof.
  intros [before k v u after Hb _ _ _|before k v u after l' t Hb _ _ _ _];
    rewrite !str_app_assoc, skip_ws_app by done; unfold print_string, quoted;
    rewrite !str_app_cons, skip_ws_cons by done; reflexivity.
Qed.

Lemma layout_reads :
  (∀ v s, layout v s → reads_as v s) ∧ (∀ l s, layout_members l s → reads_members_as l s).
Proof.
  apply layout_mutind; intros.
  - intros rest Hr. eexists. by apply reads_ok.
  - intros rest Hr. destruct (H rest Hr) as [f Hf]. exists f. rewrite str_app_assoc.
    by rewrite parse_value_blank.
  - intros rest Hr. destruct (H rest) as [f Hf]. exists (S f).
    rewrite !str_app_assoc. change ("{" +:+ ?x) with (String "{" x).
    change ("}" +:+ rest) with (String "}" rest). cbn [parse_value]. rewrite skip_ws_cons by done.
    change (Ascii.eqb "{" "{") with true. cbv iota. rewrite (members_open l) by done.
    by rewrite Hf.
  - by apply read_last.
  - by apply read_more.
Qed.

(** A text with white space is read as the value it lays out. *)
Lemma parse_layout v s w : layout v s → blank w = true → parse (s +:+ w) = Some v.
Proof.
  intros Hs Hw. unfold parse.
  destruct (proj1 layout_reads v s Hs w) as [f Hf].
  { rewrite <- (str_app_nil_r w). by apply stops_blank. }
  rewrite (parse_fuel_enough f _ _ Hf). cbn.
  rewrite <- (str_app_nil_r w), skip_ws_app by done. done.
Qed.

(** ** Objects laid out member by member *)

Record laid := mkLaid {
  ld_before : string;
  ld_key : string;
  ld_value : json;
  ld_text : string;
  ld_after : string
}.

Fixpoint laid_text (l : list laid) : string :=
  match l with
  | [] => ""
  | [m] => ld_before m +:+ print_string (ld_key m) +:+ ":" +:+ ld_text m +:+ ld_after m
  | m :: rest =>
      ld_before m +:+ print_string (ld_key m) +:+ ":" +:+ ld_text m +:+ ld_after m +:+ "," +:+ laid_text rest
  end.

Definition laid_ok (m : laid) : Prop :=
  blank (ld_before m) = true ∧ ascii_only (ld_key m) = true ∧ layout (ld_value m) (ld_text m) ∧
  blank (ld_after m) = true.

Lemma layout_laid l :
  l ≠ [] → Forall laid_ok l →
  layout (JObj ((λ m, (ld_key m, ld_value m)) <$> l)) ("{" +:+ laid_text l +:+ "}").
Proof.
  intros Hne Hl. apply layout_object. induction Hl as [|m l (? & ? & ? & ?) Hl IH]; [done|].
  destruct l as [|m' l]; [by apply layout_last|]. apply layout_more; [done..|]. by apply IH.
Qed.
