(* ===== verification/Compute.v ===== *)
(** * internal/compute: CIDR arithmetic of the operator

    [util.go] and [compute.go]: masks, address/value conversions, subnet
    computation from an index, exclusion test, search of a free index, and the
    index of an address in a pod CIDR.  The functions work on the textual CIDRs
    the Go code works on; the theorems about them are in [ComputeSpec]. *)

From S2P Require Import Prelude GoLib.

(** ** util.go *)

Definition SHIFT_BYTE_VAL : Z := 256.
Definition BYTE_SIZE : Z := 8.

Definition MASKCHECK : list Z := [0; 128; 192; 224; 240; 248; 252; 254; 255].

Record IPValue := mkIPValue { Address : string; Value : Z }.

Fixpoint maskIndex_from (chks : list Z) (index : Z) (b : Z) : Z :=
  match chks with
  | [] => -1
  | chk :: chks' =>
      if Z.land b 255 =? chk then index else maskIndex_from chks' (index + 1) b
  end.

Definition maskIndex (b : Z) : Z := maskIndex_from MASKCHECK 0 b.

Definition addrToValue (address : string) : Z :=
  foldl (λ sumValue split,
           let val := fst (Strconv.ParseInt split 10) in
           i64 (i64 (sumValue * SHIFT_BYTE_VAL) + val))
        0 (Strings.Split address "."%char).

(** [index] runs from 3 down to 0; [%] and [/] truncate towards zero *)
Fixpoint ValueToAddr_loop (index : nat) (value : Z) (output : list Z) : list Z :=
  let output := <[index := byte_of (Z.rem value SHIFT_BYTE_VAL)]> output in
  let value := Z.quot value SHIFT_BYTE_VAL in
  match index with
  | O => output
  | S index' => ValueToAddr_loop index' value output
  end.

Definition ValueToAddr (value : Z) : list Z := ValueToAddr_loop 3 value [0; 0; 0; 0].

Definition bytesToStr (ip : list Z) : string :=
  Strings.Join (Strconv.Itoa <$> ip) ".".

(** [strings.Split(s, "/")[0]]: the split is never empty *)
Definition before_slash (s : string) : string :=
  match Strings.Split s "/"%char with [] => "" | x :: _ => x end.

Definition getIPValue (address : string) : IPValue :=
  let ip := before_slash address in
  mkIPValue address (addrToValue ip).

Definition SortAddress (addresses : list string) : list IPValue :=
  sort_by Value (getIPValue <$> addresses).

(** ** compute.go *)

Fixpoint appendMask (baseMask : list Z) (remain : Z) : go (list Z) :=
  match baseMask with
  | [] => Ret []
  | value :: rest =>
      if (Z.land value 255 =? 255) || (remain =? 0) then
        out ← appendMask rest remain; Ret (value :: out)
      else
        let mIndex := maskIndex value in
        let addable := BYTE_SIZE - mIndex in
        if addable <? remain then
          out ← appendMask rest (remain - addable); Ret (Z.land 255 255 :: out)
        else
          m ← go_index MASKCHECK (mIndex + remain);
          out ← appendMask rest 0; Ret (m :: out)
  end.

Definition slen (s : string) : Z := Z.of_nat (String.length s).

Fixpoint zeros (n : nat) : string :=
  match n with O => "" | S n' => String "0"%char (zeros n') end.

Fixpoint str_take (n : nat) (s : string) : string :=
  match n, s with
  | S n', String c s' => String c (str_take n' s')
  | _, _ => ""
  end.

Fixpoint str_drop (n : nat) (s : string) : string :=
  match n, s with
  | S n', String _ s' => str_drop n' s'
  | _, _ => s
  end.

(** the loop of [addAddress] over the bytes of the mask; [block] and
    [valueInBinary] are what is left to place *)
Fixpoint addAddress_loop (baseAddress mask : list Z) (block : Z) (valueInBinary : string)
    : go (result (list Z)) :=
  match mask with
  | [] => Ret (Ok [])
  | value :: mask' =>
      match baseAddress with
      | [] => Panic
      | base :: base' =>
          if (Z.land value 255 =? 255) || (slen valueInBinary =? 0) then
            r ← addAddress_loop base' mask' block valueInBinary;
            Ret (match r with Ok out => Ok (base :: out) | Err e => Err e end)
          else
            let mIndex := maskIndex value in
            let addable := BYTE_SIZE - mIndex in
            if (addable <? block) && (slen valueInBinary <? addable) then Panic else
            let '(block', target, valueInBinary') :=
              if addable <? block
              then (block - addable, str_take (Z.to_nat addable) valueInBinary,
                    str_drop (Z.to_nat addable) valueInBinary)
              else (block, valueInBinary, "") in
            let target := zeros (Z.to_nat mIndex) +:+ target in
            let target := target +:+ zeros (Z.to_nat (8 - slen target)) in
            let '(intValue, err) := Strconv.ParseInt target 2 in
            if err : bool then Ret (Err "ParseInt")
            else
              r ← addAddress_loop base' mask' block' valueInBinary';
              Ret (match r with
                   | Ok out => Ok (byte_of (base + byte_of intValue) :: out)
                   | Err e => Err e
                   end)
      end
  end.

Definition addAddress (baseAddress mask : list Z) (block addValue : Z) : go (result (list Z)) :=
  let maxValue := pow2_minus 1 block in
  if maxValue <? addValue then Ret (Err "InvalidRequest")
  else
    let valueInBinary := Strconv.fmt_b addValue in
    let valueInBinary := zeros (Z.to_nat (block - slen valueInBinary)) +:+ valueInBinary in
    r ← addAddress_loop baseAddress mask block valueInBinary;
    match r with
    | Err e => Ret (Err e)
    | Ok output =>
        (* confirm mask not change *)
        if bool_decide (Net.ip_string (Net.ip_mask output mask)
                        = Net.ip_string (Net.ip_mask baseAddress mask))
        then Ret (Ok output)
        else Ret (Err "InvalidRequest: out of mask")
    end.

Definition ComputeNet (baseCIDR : string) (index blocksize : Z) : go (result (list Z)) :=
  let startIP := Net.ParseIP (before_slash baseCIDR) in
  match Net.ParseCIDR baseCIDR with
  | None => Ret (Err "invalid CIDR address")
  | Some (_, subnetNet) =>
      let mask := Net.Mask subnetNet in
      interfaceMask ← appendMask mask blocksize;
      let baseIP := Net.ip_mask (default [] startIP) interfaceMask in
      addAddress baseIP mask blocksize index
  end.

(** [netInByte, _ := c.ComputeNet(...)]: the zero array on error *)
Definition net_or_zero (r : result (list Z)) : list Z :=
  match r with Ok b => b | Err _ => [0; 0; 0; 0] end.

Fixpoint CheckIfTabu_loop (baseCIDR : string) (baseBlock index blocksize : Z)
    (excludes : list string) : go bool :=
  match excludes with
  | [] => Ret false
  | exclude :: excludes' =>
      match Strings.Split exclude "/"%char with
      | _ :: b :: _ =>
          let excludeBlock := fst (Strconv.ParseInt b 10) in
          if excludeBlock <=? baseBlock + blocksize then
            netInByte ← ComputeNet baseCIDR index blocksize;
            let netIP := fst <$> Net.ParseCIDR (bytesToStr (net_or_zero netInByte) +:+ "/32") in
            match Net.ParseCIDR exclude with
            | None => Panic (* excludeNet is nil *)
            | Some (_, excludeNet) =>
                if Net.Contains excludeNet netIP then Ret true
                else CheckIfTabu_loop baseCIDR baseBlock index blocksize excludes'
            end
          else CheckIfTabu_loop baseCIDR baseBlock index blocksize excludes'
      | _ => CheckIfTabu_loop baseCIDR baseBlock index blocksize excludes'
      end
  end.

(** [strings.Split(s, "/")[1]] *)
Definition after_slash (s : string) : go string := go_index (Strings.Split s "/"%char) 1.

Definition CheckIfTabuIndex (baseCIDR : string) (index blocksize : Z) (excludes : list string)
    : go bool :=
  b ← after_slash baseCIDR;
  let baseBlock := fst (Strconv.ParseInt b 10) in
  CheckIfTabu_loop baseCIDR baseBlock index blocksize excludes.

(** [None]: out of fuel.  [fia_fuel] below is enough for every list. *)
Fixpoint FindAvailableIndex_fuel (fuel : nat) (indexes : list Z) (leftIndex startIndex : Z)
    : option Z :=
  match fuel with
  | O => None
  | S fuel' =>
      match last indexes, indexes with
      | Some lastAllocationIndex, first :: _ =>
          let len := Z.of_nat (length indexes) in
          if lastAllocationIndex - leftIndex =? len - 1 + startIndex then Some (-1)
          else if negb (first =? leftIndex + startIndex) then Some (leftIndex + startIndex)
          else
            let midIndex := Nat.div2 (length indexes) in
            leftResult ← FindAvailableIndex_fuel fuel' (take midIndex indexes) leftIndex startIndex;
            if negb (leftResult =? -1) then Some leftResult
            else FindAvailableIndex_fuel fuel' (drop midIndex indexes)
                   (leftIndex + Z.of_nat midIndex) startIndex
      | _, _ => Some (-1)
      end
  end.

Definition fia_fuel (indexes : list Z) : nat := S (length indexes).

Definition FindAvailableIndex (indexes : list Z) (leftIndex startIndex : Z) : Z :=
  default (-1) (FindAvailableIndex_fuel (fia_fuel indexes) indexes leftIndex startIndex).

Definition GetCIDRFromByte (cidrInByte : list Z) (subnet : string) (blocksize : Z) : go string :=
  b ← after_slash subnet;
  let baseBlock := fst (Strconv.ParseInt b 10) in
  let blockSize := baseBlock + blocksize in
  Ret (bytesToStr cidrInByte +:+ "/" +:+ Strconv.Itoa blockSize).

Fixpoint GetIndex_loop (index : Z) (podValues cidrValues : list string) (podIndex : Z) : go Z :=
  match podValues with
  | [] => Ret podIndex
  | value :: podValues' =>
      match cidrValues with
      | [] => Panic
      | cidr :: cidrValues' =>
          if bool_decide (value = cidr)
          then GetIndex_loop (index + 1) podValues' cidrValues' podIndex
          else
            let cidrValue := fst (Strconv.Atoi cidr) in
            let podValue := fst (Strconv.Atoi value) in
            let diff := (podValue - cidrValue) * 256 ^ (3 - index) in
            GetIndex_loop (index + 1) podValues' cidrValues' (podIndex + diff)
      end
  end.

Definition GetIndexInRange (podCIDR podIPAddress : string) : go (bool * Z) :=
  match Net.ParseCIDR podCIDR with
  | None => Panic (* podNet is nil *)
  | Some (startPodIP, podNet) =>
      let netIP := fst <$> Net.ParseCIDR (podIPAddress +:+ "/32") in
      if negb (Net.Contains podNet netIP) then Ret (false, -1)
      else
        let cidrValues := Strings.Split (Net.ip_string startPodIP) "."%char in
        let podValues := Strings.Split podIPAddress "."%char in
        podIndex ← GetIndex_loop 0 podValues cidrValues 0;
        Ret (true, podIndex)
  end.

(** The table-driven cases of compute_test.go *)

Example ComputeNet_simple :
  (r ← ComputeNet "192.168.0.0/16" 0 2;
   match r with Ok b => Ok <$> GetCIDRFromByte b "192.168.0.0/16" 2 | Err e => Ret (Err e) end)
  = Ret (Ok "192.168.0.0/18").
Proof. vm_compute. reflexivity. Qed.

Example ComputeNet_invalid_index :
  ComputeNet "192.168.0.0/16" 4 2 = Ret (Err "InvalidRequest").
Proof. vm_compute. reflexivity. Qed.

Example CheckIfTabu_table :
  (CheckIfTabuIndex "192.168.0.0/16" 0 8 [],
   CheckIfTabuIndex "192.168.0.0/16" 0 8 ["192.168.0.0/24"],
   CheckIfTabuIndex "192.168.0.0/16" 0 8 ["192.168.0.0/8"],
   CheckIfTabuIndex "192.168.0.0/16" 0 8 ["192.168.1.0/24"])
  = (Ret false, Ret true, Ret true, Ret false).
Proof. vm_compute. reflexivity. Qed.

Example FindAvailableIndex_table :
  (FindAvailableIndex [] 0 0, FindAvailableIndex [0] 0 0, FindAvailableIndex [1] 0 0,
   FindAvailableIndex [0; 1; 2] 0 0, FindAvailableIndex [0; 2; 3] 0 0,
   FindAvailableIndex [0; 1; 3] 0 0, FindAvailableIndex [0; 1; 3; 4] 0 0)
  = (-1, -1, 0, -1, 1, 2, 2).
Proof. vm_compute. reflexivity. Qed.

Example GetIndexInRange_table :
  (GetIndexInRange "192.168.1.0/24" "192.168.1.100",
   GetIndexInRange "192.168.1.0/24" "192.168.2.100",
   GetIndexInRange "192.168.1.0/24" "192.168.1.0",
   GetIndexInRange "10.0.0.0/8" "192.168.1.100")
  = (Ret (true, 100), Ret (false, -1), Ret (true, 0), Ret (false, -1)).
Proof. vm_compute. reflexivity. Qed.
