(* ===== verification/ComputeSpec.v ===== *)
(** * internal/compute: correctness

    Free-index search, subnet computation, exclusion test and index/address
    round trips of [Compute], against specifications on integers. *)

From S2P Require Import Prelude GoLib Compute.

(** ** FindAvailableIndex *)

(** what the search is for: [r] is the least index from [base] on that is not
    in use below the greatest one in use, or [-1] when there is no such gap *)
Definition gap_spec (l : list Z) (base r : Z) : Prop :=
  (r = (-1) ∧ (∀ k, k ∈ l ↔ base ≤ k < base + Z.of_nat (length l))) ∨
  ((base ≤ r) ∧ (r ∉ l) ∧ (∀ k, base ≤ k < r → k ∈ l) ∧ ∃ y, (y ∈ l) ∧ r < y).

Lemma fia_step fuel l left start first lst rest :
  l = first :: rest → last l = Some lst →
  FindAvailableIndex_fuel (S fuel) l left start =
  if lst - left =? Z.of_nat (length l) - 1 + start then Some (-1)
  else if negb (first =? left + start) then Some (left + start)
  else
    leftResult ← FindAvailableIndex_fuel fuel (take (Nat.div2 (length l)) l) left start;
    if negb (leftResult =? -1) then Some leftResult
    else FindAvailableIndex_fuel fuel (drop (Nat.div2 (length l)) l)
           (left + Z.of_nat (Nat.div2 (length l))) start.
Proof. intros -> Hl. cbn [FindAvailableIndex_fuel]. by rewrite Hl. Qed.

(** the halves are strictly smaller, except for one-element lists, which never
    reach the recursive calls *)
Lemma fia_halves l left start first lst rest :
  l = first :: rest → last l = Some lst →
  (lst - left =? Z.of_nat (length l) - 1 + start) = false →
  negb (first =? left + start) = false →
  first = left + start ∧ (0 < Nat.div2 (length l) < length l)%nat.
Proof.
  intros -> Hl E1 E2. apply negb_false_iff in E2. zbool. split; [done|].
  destruct rest as [|x rest].
  { simpl in *. injection Hl as <-. lia. }
  pose proof (Nat.div2_odd (length (first :: x :: rest))) as Hd.
  remember (first :: x :: rest) as l eqn:El.
  assert (2 ≤ length l)%nat by (subst l; simpl; lia).
  destruct (Nat.odd (length l)); cbn [Nat.b2n] in Hd; lia.
Qed.

Lemma fia_converges n : ∀ l left start, (length l < n)%nat → ∃ r, ∀ fuel,
  (length l < fuel)%nat → FindAvailableIndex_fuel fuel l left start = Some r.
Proof.
  induction n as [|n IH]; intros l left start Hn; [lia|].
  destruct l as [|first rest] eqn:Hl0; rewrite <- Hl0 in *.
  { exists (-1). intros [|fuel] Hf; [lia|]. by subst. }
  destruct (last l) as [lst|] eqn:Hlast; [|by subst; apply last_None in Hlast].
  destruct (lst - left =? Z.of_nat (length l) - 1 + start) eqn:E1.
  { exists (-1). intros [|fuel] Hf; [lia|].
    by rewrite (fia_step fuel l left start first lst rest Hl0 Hlast), E1. }
  destruct (negb (first =? left + start)) eqn:E2.
  { exists (left + start). intros [|fuel] Hf; [lia|].
    by rewrite (fia_step fuel l left start first lst rest Hl0 Hlast), E1, E2. }
  destruct (fia_halves l left start first lst rest Hl0 Hlast E1 E2) as [_ Hm].
  set (m := Nat.div2 (length l)) in *.
  destruct (IH (take m l) left start) as [r1 H1]; [rewrite length_take; lia|].
  destruct (IH (drop m l) (left + Z.of_nat m) start) as [r2 H2]; [rewrite length_drop; lia|].
  exists (if negb (r1 =? -1) then r1 else r2). intros [|fuel] Hf; [lia|].
  rewrite (fia_step fuel l left start first lst rest Hl0 Hlast), E1, E2.
  rewrite H1 by (rewrite length_take; lia). cbn [mbind option_bind].
  destruct (negb (r1 =? -1)); [done|]. apply H2. rewrite length_drop. lia.
Qed.

Lemma fia_eq l left start fuel :
  (length l < fuel)%nat →
  FindAvailableIndex_fuel fuel l left start = Some (FindAvailableIndex l left start).
Proof.
  intros Hf. destruct (fia_converges (S (length l)) l left start) as [r Hr]; [lia|].
  unfold FindAvailableIndex, fia_fuel. rewrite !Hr by lia. done.
Qed.

Lemma sorted_lt_le l : StronglySorted Z.lt l → StronglySorted Z.le l.
Proof.
  induction 1 as [|x l Hl IH Hx]; constructor; [done|].
  eapply Forall_impl; [exact Hx|]. simpl. lia.
Qed.

(** in a strictly increasing list starting at [base], the last element tells
    whether there is a gap *)
Lemma sorted_last_ge l base lst :
  StronglySorted Z.lt l → Forall (λ x, base ≤ x) l → last l = Some lst →
  base + Z.of_nat (length l) - 1 ≤ lst.
Proof.
  intros Hs. revert base. induction Hs as [|x l Hl IH Hx]; intros base Hb Hlast; [done|].
  apply Forall_cons in Hb as [Hbx Hb]. destruct l as [|y l].
  { simpl in *. injection Hlast as <-. lia. }
  assert (base + 1 + Z.of_nat (length (y :: l)) - 1 ≤ lst).
  { apply IH; [|by rewrite last_cons_cons in Hlast].
    eapply Forall_impl; [exact Hx|]. simpl. lia. }
  simpl length in *. lia.
Qed.

Lemma sorted_full l base lst :
  StronglySorted Z.lt l → Forall (λ x, base ≤ x) l → last l = Some lst →
  lst = base + Z.of_nat (length l) - 1 →
  ∀ k, k ∈ l ↔ base ≤ k < base + Z.of_nat (length l).
Proof.
  intros Hs. revert base. induction Hs as [|x l Hl IH Hx]; intros base Hb Hlast Heq k; [done|].
  apply Forall_cons in Hb as [Hbx Hb]. destruct l as [|y l].
  { simpl in *. injection Hlast as <-. rewrite list_elem_of_singleton. lia. }
  rewrite last_cons_cons in Hlast.
  assert (Forall (λ z, x + 1 ≤ z) (y :: l)) as Hb'.
  { eapply Forall_impl; [exact Hx|]. simpl. lia. }
  pose proof (sorted_last_ge _ _ _ Hl Hb' Hlast) as Hge.
  assert (x = base) as -> by (simpl length in *; lia).
  rewrite elem_of_cons, (IH (base + 1) Hb' Hlast) by (simpl length in *; lia).
  simpl length. lia.
Qed.

Lemma gap_spec_nil base : gap_spec [] base (-1).
Proof. left. split; [done|]. intros k. rewrite elem_of_nil. simpl. lia. Qed.

(** a gap of the first half is a gap of the whole; a full first half leaves
    the question to the second half *)
Lemma gap_spec_app l1 l2 base r1 r2 :
  0 ≤ base → (∀ x y, x ∈ l1 → y ∈ l2 → x < y) →
  gap_spec l1 base r1 → gap_spec l2 (base + Z.of_nat (length l1)) r2 →
  gap_spec (l1 ++ l2) base (if negb (r1 =? -1) then r1 else r2).
Proof.
  intros Hbase Hlt H1 H2. destruct H1 as [[-> Hf1]|(Hb1 & Hn1 & Hall1 & y & Hy & Hry)].
  - rewrite Z.eqb_refl. cbn [negb]. destruct H2 as [[-> Hf2]|(Hb2 & Hn2 & Hall2 & y & Hy & Hry)].
    + left. split; [done|]. intros k. rewrite elem_of_app, Hf1, Hf2, length_app. lia.
    + right. split; [lia|]. split.
      * rewrite elem_of_app, Hf1. intros [?|?]; [lia|done].
      * split; [|exists y; rewrite elem_of_app; auto]. intros k Hk.
        rewrite elem_of_app, Hf1.
        destruct (decide (k < base + Z.of_nat (length l1))); [lia|]. right. apply Hall2. lia.
  - rewrite (proj2 (Z.eqb_neq r1 (-1))) by lia. cbn [negb]. right. split; [done|]. split.
    + rewrite elem_of_app. intros [?|Hr]; [done|]. specialize (Hlt y r1 Hy Hr). lia.
    + split; [|exists y; rewrite elem_of_app; auto]. intros k Hk. rewrite elem_of_app. auto.
Qed.

Lemma fia_gap n : ∀ l left start,
  (length l < n)%nat → StronglySorted Z.lt l → 0 ≤ left + start →
  Forall (λ x, left + start ≤ x) l →
  gap_spec l (left + start) (FindAvailableIndex l left start).
Proof.
  induction n as [|n IH]; intros l left start Hn Hs H0 Hb; [lia|].
  destruct l as [|first rest] eqn:Hl0; rewrite <- Hl0 in *; [subst; apply gap_spec_nil|].
  destruct (last l) as [lst|] eqn:Hlast; [|by subst; apply last_None in Hlast].
  pose proof (fia_eq l left start (S (S (length l))) ltac:(lia)) as E.
  rewrite (fia_step _ l left start first lst rest Hl0 Hlast) in E.
  destruct (lst - left =? Z.of_nat (length l) - 1 + start) eqn:E1.
  { injection E as <-. left. split; [done|]. zbool.
    apply (sorted_full l _ lst); [done..|lia]. }
  destruct (negb (first =? left + start)) eqn:E2.
  { injection E as <-. right. apply negb_true_iff in E2. zbool.
    subst l. apply Forall_cons in Hb as [Hf Hb]. inversion Hs as [|? ? _ Hx]; subst.
    split; [lia|]. split; [|split; [lia|exists first; split; [by left|lia]]].
    rewrite elem_of_cons. intros [?|Hin]; [lia|]. rewrite Forall_forall in Hx.
    specialize (Hx _ Hin). lia. }
  destruct (fia_halves l left start first lst rest Hl0 Hlast E1 E2) as [_ Hm].
  set (m := Nat.div2 (length l)) in *. rewrite !fia_eq in E by (rewrite ?length_take, ?length_drop; lia).
  cbn [mbind option_bind] in E.
  rewrite <- (take_drop m l) in Hs, Hb. apply StronglySorted_app in Hs as (Hlt & Hs1 & Hs2).
  apply Forall_app in Hb as [Hb1 Hb2].
  assert (length (take m l) = m) as Hlm by (rewrite length_take; lia).
  pose proof (IH (take m l) left start ltac:(lia) Hs1 H0 Hb1) as G1.
  destruct (last (take m l)) as [x1|] eqn:Hx1; [|apply last_None in Hx1; rewrite Hx1 in Hlm; simpl in Hlm; lia].
  pose proof (sorted_last_ge _ _ _ Hs1 Hb1 Hx1) as Hge. rewrite Hlm in Hge.
  assert (Forall (λ x, left + Z.of_nat m + start ≤ x) (drop m l)) as Hb2'.
  { apply Forall_forall. intros x Hx. apply last_Some_elem_of in Hx1.
    specialize (Hlt x1 x Hx1 Hx). lia. }
  pose proof (IH (drop m l) (left + Z.of_nat m) start ltac:(rewrite length_drop; lia) Hs2 ltac:(lia) Hb2') as G2.
  rewrite <- (take_drop m l) at 1.
  replace (left + Z.of_nat m + start) with (left + start + Z.of_nat (length (take m l))) in G2 by lia.
  pose proof (gap_spec_app _ _ _ _ _ H0 Hlt G1 G2) as G.
  destruct (negb (_ =? -1)) in E, G; injection E as <-; exact G.
Qed.

(** ** Binary strings

    [bitstr n v] is the [n]-digit binary text of [v], most significant bit
    first: the intermediate form of [addAddress]. *)

Definition bit_char (b : bool) : ascii := if b then "1"%char else "0"%char.

Fixpoint bitstr (n : nat) (v : Z) : string :=
  match n with
  | O => ""
  | S n' => String (bit_char (Z.testbit v (Z.of_nat n'))) (bitstr n' v)
  end.

Lemma slen_bitstr n v : slen (bitstr n v) = Z.of_nat n.
Proof. unfold slen. induction n as [|n IH]; [done|]. cbn [bitstr String.length]. lia. Qed.

Lemma slen_zeros n : slen (zeros n) = Z.of_nat n.
Proof. unfold slen. induction n as [|n IH]; [done|]. cbn [zeros String.length]. lia. Qed.

Lemma slen_app a b : slen (a +:+ b) = slen a + slen b.
Proof.
  unfold slen. induction a as [|c a IH]; [done|]. rewrite str_app_cons.
  cbn [String.length]. lia.
Qed.

Lemma bitstr_ext n v w :
  (∀ i, 0 ≤ i < Z.of_nat n → Z.testbit v i = Z.testbit w i) → bitstr n v = bitstr n w.
Proof.
  induction n as [|n IH]; [done|]. intros H. cbn [bitstr]. rewrite (H (Z.of_nat n)) by lia.
  f_equal. apply IH. intros. apply H. lia.
Qed.

Lemma bitstr_app n m v :
  bitstr (n + m) v = bitstr n (Z.shiftr v (Z.of_nat m)) +:+ bitstr m v.
Proof.
  induction n as [|n IH]; [done|]. cbn [bitstr Nat.add]. rewrite str_app_cons, IH.
  rewrite Z.shiftr_spec by lia. by rewrite Nat2Z.inj_add.
Qed.

Lemma zeros_bitstr n : zeros n = bitstr n 0.
Proof. induction n as [|n IH]; [done|]. cbn [bitstr zeros]. by rewrite Z.bits_0, IH. Qed.

Lemma testbit_high v n : 0 ≤ v < 2 ^ n → 0 ≤ n → ∀ i, n ≤ i → Z.testbit v i = false.
Proof.
  intros Hv Hn i Hi. rewrite <- (Z.mod_small v (2 ^ n)) by lia.
  by rewrite Z.mod_pow2_bits_high by lia.
Qed.

(** left padding with zeros *)
Lemma zeros_bitstr_app k n v :
  0 ≤ v < 2 ^ Z.of_nat n → zeros k +:+ bitstr n v = bitstr (k + n) v.
Proof.
  intros Hv. rewrite bitstr_app, zeros_bitstr. f_equal. apply bitstr_ext. intros i Hi.
  rewrite Z.bits_0, Z.shiftr_spec by lia. symmetry.
  apply (testbit_high v (Z.of_nat n)); lia.
Qed.

(** right padding with zeros *)
Lemma bitstr_zeros_app n k v : bitstr n v +:+ zeros k = bitstr (n + k) (v * 2 ^ Z.of_nat k).
Proof.
  rewrite bitstr_app, zeros_bitstr. f_equal.
  - rewrite Z.shiftr_div_pow2, Z.div_mul; [done| |lia]. pose proof (pow2_pos (Z.of_nat k)). lia.
  - apply bitstr_ext. intros i Hi. rewrite Z.bits_0, Z.mul_pow2_bits by lia.
    rewrite Z.testbit_neg_r; [done|lia].
Qed.

Lemma bitstr_snoc n v (b : bool) :
  bitstr n v +:+ String (bit_char b) "" = bitstr (S n) (2 * v + Z.b2z b).
Proof.
  replace (S n) with (n + 1)%nat by lia. rewrite bitstr_app. cbn [bitstr].
  rewrite Z.testbit_0_r. f_equal. f_equal. rewrite Z.shiftr_div_pow2 by lia.
  change (2 ^ Z.of_nat 1) with 2. rewrite (Z.mul_comm 2), Z.div_add_l by lia.
  rewrite (Z.div_small (Z.b2z b)); [lia|]. destruct b; simpl; lia.
Qed.

Lemma pos_bin_bitstr p acc :
  Strconv.pos_bin p acc = bitstr (Pos.size_nat p) (Zpos p) +:+ acc.
Proof.
  revert acc. induction p as [p IH|p IH|]; intros acc; cbn [Strconv.pos_bin Pos.size_nat]; [| |done].
  - rewrite IH. change (String "1"%char acc) with (String (bit_char true) "" +:+ acc).
    rewrite <- str_app_assoc, bitstr_snoc. f_equal.
  - rewrite IH. change (String "0"%char acc) with (String (bit_char false) "" +:+ acc).
    rewrite <- str_app_assoc, bitstr_snoc. f_equal.
Qed.

Lemma pow2_S n : 2 ^ Z.of_nat (S n) = 2 * 2 ^ Z.of_nat n.
Proof. rewrite Nat2Z.inj_succ, Z.pow_succ_r by lia. done. Qed.

Lemma size_nat_le p n : Zpos p < 2 ^ Z.of_nat n → (Pos.size_nat p ≤ n)%nat.
Proof.
  revert n. induction p as [p IH|p IH|]; intros [|n] H; cbn [Pos.size_nat];
    try (change (2 ^ Z.of_nat 0) with 1 in H; lia); try lia;
    rewrite pow2_S in H; apply le_n_S, IH; lia.
Qed.

Lemma size_nat_bound p : Zpos p < 2 ^ Z.of_nat (Pos.size_nat p).
Proof.
  induction p as [p IH|p IH|]; cbn [Pos.size_nat]; rewrite pow2_S; [lia..|].
  change (2 ^ Z.of_nat 0) with 1. lia.
Qed.

(** the padded binary text of an index that fits in [block] bits *)
Lemma fmt_b_padded block v :
  1 ≤ block → 0 ≤ v < 2 ^ block →
  zeros (Z.to_nat (block - slen (Strconv.fmt_b v))) +:+ Strconv.fmt_b v
  = bitstr (Z.to_nat block) v.
Proof.
  intros Hb Hv. destruct v as [|p|p]; [| |lia].
  - change (Strconv.fmt_b 0) with (bitstr 1 0). rewrite slen_bitstr, zeros_bitstr_app.
    + f_equal. lia.
    + change (2 ^ Z.of_nat 1) with 2. lia.
  - cbn [Strconv.fmt_b]. rewrite pos_bin_bitstr, str_app_nil_r, slen_bitstr.
    assert (Pos.size_nat p ≤ Z.to_nat block)%nat.
    { apply size_nat_le. rewrite Z2Nat.id; lia. }
    rewrite zeros_bitstr_app by (split; [lia|apply size_nat_bound]). f_equal. lia.
Qed.

Lemma str_take_bitstr k n v :
  (k ≤ n)%nat → str_take k (bitstr n v) = bitstr k (Z.shiftr v (Z.of_nat (n - k))).
Proof.
  revert n. induction k as [|k IH]; intros [|n] H; [done|done|lia|].
  cbn [bitstr str_take]. rewrite IH by lia. rewrite Z.shiftr_spec by lia.
  replace (Z.of_nat k + Z.of_nat (S n - S k)) with (Z.of_nat n) by lia. done.
Qed.

Lemma str_drop_bitstr k n v : (k ≤ n)%nat → str_drop k (bitstr n v) = bitstr (n - k) v.
Proof.
  revert n. induction k as [|k IH]; intros [|n] H; [done|done|lia|].
  cbn [bitstr str_drop]. rewrite IH by lia. done.
Qed.

Lemma digit_bit b : Strconv.digit 2 (bit_char b) = Some (Z.b2z b).
Proof. by destruct b. Qed.

Lemma testbit_split v n :
  v mod 2 ^ Z.of_nat (S n) = Z.b2z (Z.testbit v (Z.of_nat n)) * 2 ^ Z.of_nat n + v mod 2 ^ Z.of_nat n.
Proof.
  rewrite pow2_S, (Z.mul_comm 2), Z.rem_mul_r; [|pose proof (pow2_pos (Z.of_nat n)); lia|lia].
  rewrite <- (Z.testbit_spec' v (Z.of_nat n)) by lia. lia.
Qed.

Lemma uint_digits_bitstr n v acc :
  0 ≤ acc → (acc + 1) * 2 ^ Z.of_nat n ≤ 2 ^ 64 →
  Strconv.uint_digits 2 (bitstr n v) acc
  = Strconv.UVal (acc * 2 ^ Z.of_nat n + v mod 2 ^ Z.of_nat n).
Proof.
  revert acc. induction n as [|n IH]; intros acc Ha Hb.
  { cbn [bitstr Strconv.uint_digits]. rewrite Z.mod_1_r. f_equal. lia. }
  cbn [bitstr Strconv.uint_digits]. rewrite digit_bit, testbit_split. rewrite pow2_S in *.
  set (b := Z.testbit v (Z.of_nat n)). pose proof (pow2_pos (Z.of_nat n) ltac:(lia)).
  assert (0 ≤ Z.b2z b ≤ 1) by (destruct b; simpl; lia).
  destruct (Z.leb_spec (2 ^ 64) (acc * 2 + Z.b2z b)); [nia|].
  rewrite IH by nia. f_equal. nia.
Qed.

Lemma ParseInt_bitstr n v :
  (1 ≤ n ≤ 62)%nat → 0 ≤ v < 2 ^ Z.of_nat n → Strconv.ParseInt (bitstr n v) 2 = (v, false).
Proof.
  intros Hn Hv. assert (2 ^ Z.of_nat n ≤ 2 ^ 62) by (apply pow2_mono; lia).
  assert (Strconv.ParseUint 2 (bitstr n v) = Strconv.UVal v) as Hu.
  { destruct n as [|n]; [lia|]. change (Strconv.ParseUint 2 (bitstr (S n) v)) with
      (Strconv.uint_digits 2 (bitstr (S n) v) 0).
    rewrite uint_digits_bitstr, Z.mod_small by lia. done. }
  destruct n as [|n]; [lia|]. unfold Strconv.ParseInt. cbn [bitstr].
  destruct (Z.testbit v (Z.of_nat n)) eqn:E; cbn [bit_char];
    cbn [bitstr] in Hu; rewrite E in Hu; cbn [bit_char] in Hu; rewrite Hu; cbn [negb andb];
    destruct (Z.leb_spec (2 ^ 63) v); done || lia.
Qed.

(** ** Masks *)

Definition mask_byte_of (k : Z) : Z := 255 - Z.shiftr 255 k.

Lemma mask_byte_facts k :
  0 ≤ k ≤ 8 →
  maskIndex (mask_byte_of k) = k ∧ MASKCHECK !! Z.to_nat k = Some (mask_byte_of k) ∧
  (Z.land (mask_byte_of k) 255 =? 255) = (k =? 8).
Proof.
  intros Hk. assert (k ∈ seqZ 0 9) as H by (apply elem_of_seqZ; lia).
  clear Hk. revert k H. apply Forall_forall. repeat constructor.
Qed.

Lemma mask_bytes_lt8 n k :
  0 ≤ k < 8 → Net.mask_bytes (S n) k = mask_byte_of k :: Net.mask_bytes n 0.
Proof. intros. cbn [Net.mask_bytes]. by destruct (Z.leb_spec 8 k); [lia|]. Qed.

Lemma mask_bytes_ge8 n k :
  8 ≤ k → Net.mask_bytes (S n) k = 255 :: Net.mask_bytes n (k - 8).
Proof. intros. cbn [Net.mask_bytes]. by destruct (Z.leb_spec 8 k); [|lia]. Qed.

Lemma appendMask_zero n p : appendMask (Net.mask_bytes n p) 0 = Ret (Net.mask_bytes n p).
Proof.
  revert p. induction n as [|n IH]; intros p; [done|].
  cbn [Net.mask_bytes]. destruct (8 <=? p); cbn [appendMask];
    rewrite orb_true_r; cbn [mbind go_bind]; by rewrite IH.
Qed.

(** extending a mask of [p] ones by [b] bits gives the mask of [p + b] ones *)
Lemma appendMask_spec n p b :
  0 ≤ p ≤ 8 * Z.of_nat n → 0 ≤ b →
  appendMask (Net.mask_bytes n p) b = Ret (Net.mask_bytes n (p + b)).
Proof.
  revert p b. induction n as [|n IH]; intros p b Hp Hb; [done|].
  destruct (decide (b = 0)) as [->|Hb0]; [by rewrite appendMask_zero, Z.add_0_r|].
  destruct (decide (8 ≤ p)) as [H8|H8].
  { rewrite !mask_bytes_ge8 by lia. cbn [appendMask].
    change (Z.land 255 255 =? 255) with true. cbn [orb]. rewrite IH by lia. cbn.
    do 3 f_equal. lia. }
  rewrite mask_bytes_lt8 by lia. cbn [appendMask].
  destruct (mask_byte_facts p ltac:(lia)) as (Hi & _ & Hl). rewrite Hl, Hi.
  rewrite (proj2 (Z.eqb_neq p 8)), (proj2 (Z.eqb_neq b 0)) by lia. cbn [orb].
  unfold BYTE_SIZE. destruct (Z.ltb_spec (8 - p) b).
  - rewrite IH by lia. rewrite mask_bytes_ge8 by lia. cbn. do 3 f_equal. lia.
  - unfold go_index. destruct (Z.ltb_spec (p + b) 0); [lia|].
    destruct (mask_byte_facts (p + b) ltac:(lia)) as (_ & -> & _). cbn [mbind go_bind].
    rewrite appendMask_zero. cbn [mbind go_bind].
    destruct (decide (p + b = 8)) as [E|E].
    + rewrite E, mask_bytes_ge8 by lia. done.
    + rewrite mask_bytes_lt8 by lia. done.
Qed.

Lemma appendMask_CIDRMask p b :
  0 ≤ p ≤ 32 → 0 ≤ b → appendMask (Net.CIDRMask p) b = Ret (Net.CIDRMask (p + b)).
Proof. intros. apply appendMask_spec; lia. Qed.

(** ** addAddress *)

(** with nothing left to place, the remaining bytes are copied *)
Lemma addAddress_loop_empty base mask b :
  length base = length mask → addAddress_loop base mask b "" = Ret (Ok base).
Proof.
  revert base. induction mask as [|m mask IH]; intros [|x base] H; try done.
  cbn [addAddress_loop]. change (slen "" =? 0) with true. rewrite orb_true_r.
  injection H as H. by rewrite IH.
Qed.

(** a zero-bit index changes nothing *)
Lemma addAddress_loop_zero n p base :
  bytes_ok base → length base = n → 0 ≤ p →
  addAddress_loop base (Net.mask_bytes n p) 0 "0" = Ret (Ok base).
Proof.
  intros Hb. revert n p. induction Hb as [|x base Hx Hbase IH]; intros [|n] p Hn Hp; try done.
  injection Hn as Hn. destruct (decide (8 ≤ p)) as [H8|H8].
  { rewrite mask_bytes_ge8 by lia. cbn [addAddress_loop].
    change (Z.land 255 255 =? 255) with true. cbn [orb]. by rewrite IH by lia. }
  rewrite mask_bytes_lt8 by lia. cbn [addAddress_loop].
  destruct (mask_byte_facts p ltac:(lia)) as (Hi & _ & Hl). rewrite Hl, Hi.
  rewrite (proj2 (Z.eqb_neq p 8)) by lia. change (slen "0" =? 0) with false. cbn [orb].
  unfold BYTE_SIZE. destruct (Z.ltb_spec (8 - p) 0); [lia|]. cbn [andb].
  change "0" with (bitstr 1 0). rewrite zeros_bitstr_app by (simpl; lia).
  rewrite bitstr_zeros_app, Z.mul_0_l, slen_bitstr, ParseInt_bitstr by lia.
  rewrite addAddress_loop_empty by (by rewrite mask_bytes_length). cbn.
  rewrite Z.add_0_r, byte_of_small by lia. done.
Qed.

(** one byte that receives the [k] bits [v] at position [p] *)
Lemma place_bits p k v :
  0 ≤ p → (1 ≤ k)%nat → p + Z.of_nat k ≤ 8 → 0 ≤ v < 2 ^ Z.of_nat k →
  Strconv.ParseInt
    ((zeros (Z.to_nat p) +:+ bitstr k v) +:+
     zeros (Z.to_nat (8 - slen (zeros (Z.to_nat p) +:+ bitstr k v)))) 2
  = (v * 2 ^ (8 - p - Z.of_nat k), false).
Proof.
  intros Hp Hk Hpk Hv. rewrite slen_app, slen_zeros, slen_bitstr.
  rewrite zeros_bitstr_app, bitstr_zeros_app by done.
  replace (Z.of_nat (Z.to_nat (8 - (Z.of_nat (Z.to_nat p) + Z.of_nat k))))
    with (8 - p - Z.of_nat k) by lia.
  apply ParseInt_bitstr; [lia|].
  replace (Z.of_nat (Z.to_nat p + k + Z.to_nat (8 - (Z.of_nat (Z.to_nat p) + Z.of_nat k))))
    with (p + (Z.of_nat k + (8 - p - Z.of_nat k))) by lia.
  pose proof (pow2_pos (8 - p - Z.of_nat k) ltac:(lia)). pose proof (pow2_pos p ltac:(lia)).
  rewrite (pow2_split p), (pow2_split (Z.of_nat k)) by lia.
  assert (v * 2 ^ (8 - p - Z.of_nat k) < 2 ^ Z.of_nat k * 2 ^ (8 - p - Z.of_nat k)) by nia.
  nia.
Qed.

Lemma byte_add_room x k a :
  0 ≤ x < 256 → 0 ≤ k ≤ 8 → 0 ≤ a → x mod 2 ^ k + a < 2 ^ k →
  byte_of (x + byte_of a) = x + a ∧ 0 ≤ x + a < 256.
Proof.
  intros Hx Hk Ha Hr. pose proof (pow2_pos k ltac:(lia)).
  pose proof (Z.div_mod x (2 ^ k) ltac:(lia)). pose proof (Z.mod_pos_bound x (2 ^ k) ltac:(lia)).
  assert (x / 2 ^ k < 2 ^ (8 - k)).
  { apply Z.div_lt_upper_bound; [lia|]. rewrite <- pow2_split by lia.
    replace (k + (8 - k)) with 8 by lia. lia. }
  assert (2 ^ k * 2 ^ (8 - k) = 256).
  { rewrite <- pow2_split by lia. by replace (k + (8 - k)) with 8 by lia. }
  pose proof (pow2_pos (8 - k) ltac:(lia)). assert (2 ^ k ≤ 256) by nia.
  assert (0 ≤ x + a < 256) by nia. rewrite !byte_of_small by (rewrite ?byte_of_small by lia; lia).
  lia.
Qed.

(** the bits of a number cut at a byte boundary *)
Lemma cons_mod x rest n k :
  0 ≤ rest < 2 ^ n → 0 ≤ n → 0 ≤ k →
  (x * 2 ^ n + rest) mod 2 ^ (n + k) = (x mod 2 ^ k) * 2 ^ n + rest.
Proof.
  intros Hr Hn Hk. pose proof (pow2_pos n Hn). pose proof (pow2_pos k Hk).
  rewrite pow2_split by lia. rewrite Z.rem_mul_r by lia.
  rewrite (Z.add_comm (x * _)), Z.mod_add, Z.div_add by lia.
  rewrite Z.mod_small, Z.div_small by lia. rewrite Z.add_0_l. lia.
Qed.

Section addAddress_steps.
Context (n : nat) (p b x v : Z) (base : list Z).
Context (Hx : 0 ≤ x < 256) (Hbase : bytes_ok base) (Hlen : length base = n).
Context (Hp : 0 ≤ p) (Hb : 1 ≤ b) (Hv : 0 ≤ v < 2 ^ b).

(** a byte fully covered by the mask is copied *)
Lemma step_masked out :
  8 ≤ p →
  addAddress_loop base (Net.mask_bytes n (p - 8)) b (bitstr (Z.to_nat b) v) = Ret (Ok out) →
  addAddress_loop (x :: base) (Net.mask_bytes (S n) p) b (bitstr (Z.to_nat b) v)
  = Ret (Ok (x :: out)).
Proof.
  intros H8 E. rewrite mask_bytes_ge8 by lia. cbn [addAddress_loop].
  change (Z.land 255 255 =? 255) with true. cbn [orb]. by rewrite E.
Qed.

(** a byte that takes the top bits; the rest goes to the next bytes *)
Lemma step_split out :
  p < 8 → 8 - p < b → x mod 2 ^ (8 - p) = 0 →
  addAddress_loop base (Net.mask_bytes n 0) (b - (8 - p))
    (bitstr (Z.to_nat (b - (8 - p))) (v mod 2 ^ (b - (8 - p)))) = Ret (Ok out) →
  addAddress_loop (x :: base) (Net.mask_bytes (S n) p) b (bitstr (Z.to_nat b) v)
  = Ret (Ok (x + v / 2 ^ (b - (8 - p)) :: out)) ∧
  0 ≤ x + v / 2 ^ (b - (8 - p)) < 256.
Proof.
  intros H8 Hkb Hx0 E. rewrite mask_bytes_lt8 by lia. cbn [addAddress_loop].
  destruct (mask_byte_facts p ltac:(lia)) as (Hi & _ & Hl8). rewrite Hl8, Hi, slen_bitstr.
  rewrite (proj2 (Z.eqb_neq p 8)), (proj2 (Z.eqb_neq (Z.of_nat (Z.to_nat b)) 0)) by lia.
  unfold BYTE_SIZE. remember (8 - p) as k eqn:Hk. cbn [orb].
  destruct (Z.ltb_spec k b); [|lia].
  destruct (Z.ltb_spec (Z.of_nat (Z.to_nat b)) k); [lia|]. cbn [andb].
  rewrite str_take_bitstr, str_drop_bitstr by lia.
  replace (Z.to_nat b - Z.to_nat k)%nat with (Z.to_nat (b - k)) by lia.
  rewrite (bitstr_ext (Z.to_nat (b - k)) v (v mod 2 ^ (b - k))).
  2: { intros i Hi'. rewrite Z.mod_pow2_bits_low; [done|lia]. }
  rewrite E, Z.shiftr_div_pow2, Z2Nat.id by lia.
  pose proof (pow2_pos (b - k) ltac:(lia)).
  assert (0 ≤ v / 2 ^ (b - k) < 2 ^ k) as Htop.
  { split; [apply Z.div_pos; lia|]. apply Z.div_lt_upper_bound; [lia|].
    rewrite <- pow2_split by lia. replace (b - k + k) with b by lia. lia. }
  rewrite place_bits; [|lia..|rewrite Z2Nat.id; lia].
  replace (8 - p - Z.of_nat (Z.to_nat k)) with 0 by lia. rewrite Z.mul_1_r.
  cbn [mbind go_bind].
  destruct (byte_add_room x k (v / 2 ^ (b - k))) as [-> ?]; [lia..|]. done.
Qed.

(** the byte that takes the last bits *)
Lemma step_last :
  p < 8 → b ≤ 8 - p → x mod 2 ^ (8 - p) < 2 ^ (8 - p - b) →
  addAddress_loop (x :: base) (Net.mask_bytes (S n) p) b (bitstr (Z.to_nat b) v)
  = Ret (Ok (x + v * 2 ^ (8 - p - b) :: base)) ∧
  0 ≤ x + v * 2 ^ (8 - p - b) < 256.
Proof.
  intros H8 Hkb Hx0. rewrite mask_bytes_lt8 by lia. cbn [addAddress_loop].
  destruct (mask_byte_facts p ltac:(lia)) as (Hi & _ & Hl8). rewrite Hl8, Hi, slen_bitstr.
  rewrite (proj2 (Z.eqb_neq p 8)), (proj2 (Z.eqb_neq (Z.of_nat (Z.to_nat b)) 0)) by lia.
  unfold BYTE_SIZE. cbn [orb]. destruct (Z.ltb_spec (8 - p) b); [lia|]. cbn [andb].
  rewrite place_bits; [|lia..|rewrite Z2Nat.id; lia].
  rewrite addAddress_loop_empty by (by rewrite mask_bytes_length). rewrite Z2Nat.id by lia.
  cbn [mbind go_bind]. pose proof (pow2_pos (8 - p - b) ltac:(lia)).
  assert (2 ^ (8 - p) = 2 ^ b * 2 ^ (8 - p - b)).
  { rewrite <- pow2_split by lia. f_equal. lia. }
  destruct (byte_add_room x (8 - p) (v * 2 ^ (8 - p - b))) as [-> ?]; [lia|lia|nia|nia|]. done.
Qed.
End addAddress_steps.

(** the room left by the base address for the index bits, byte by byte; [N] is
    the number of bits after the current byte and [r] the value of those bytes *)
Section room.
Context (N p b x r : Z).
Context (HN : 0 ≤ N) (Hr : 0 ≤ r < 2 ^ N) (Hb : 1 ≤ b) (Hpb : p + b ≤ N + 8).
Context (Hroom : (x * 2 ^ N + r) mod 2 ^ (N + 8 - p) < 2 ^ (N + 8 - p - b)).

Lemma room_masked : 8 ≤ p → r mod 2 ^ (N - (p - 8)) < 2 ^ (N - (p - 8) - b).
Proof.
  intros H8. revert Hroom. replace (N + 8 - p) with (N - (p - 8)) by lia.
  replace (2 ^ N) with (2 ^ (p - 8) * 2 ^ (N - (p - 8)))
    by (rewrite <- pow2_split by lia; f_equal; lia).
  pose proof (pow2_pos (N - (p - 8)) ltac:(lia)).
  by rewrite Z.mul_assoc, Z.add_comm, Z.mod_add by lia.
Qed.

Lemma room_cons : 0 ≤ p < 8 → (x mod 2 ^ (8 - p)) * 2 ^ N + r < 2 ^ (N + 8 - p - b).
Proof.
  intros H8. revert Hroom. replace (N + 8 - p) with (N + (8 - p)) by lia.
  by rewrite cons_mod by lia.
Qed.

Lemma room_split :
  0 ≤ p < 8 → 8 - p < b → x mod 2 ^ (8 - p) = 0 ∧ r < 2 ^ (N - (b - (8 - p))).
Proof.
  intros H8 Hkb. pose proof (room_cons H8) as H.
  pose proof (Z.mod_pos_bound x (2 ^ (8 - p)) ltac:(apply pow2_pos; lia)).
  replace (N + 8 - p - b) with (N - (b - (8 - p))) in H by lia.
  pose proof (pow2_mono (N - (b - (8 - p))) N ltac:(lia)). split; nia.
Qed.

Lemma room_last : 0 ≤ p < 8 → b ≤ 8 - p → x mod 2 ^ (8 - p) < 2 ^ (8 - p - b).
Proof.
  intros H8 Hkb. pose proof (room_cons H8) as H.
  replace (N + 8 - p - b) with (N + (8 - p - b)) in H by lia.
  rewrite pow2_split in H by lia. pose proof (pow2_pos N HN). nia.
Qed.
End room.

(** placing [b] index bits after a prefix of [p] bits adds the index at its
    position, whatever the byte boundaries *)
Lemma addAddress_loop_spec n : ∀ p b base v,
  bytes_ok base → length base = n → 0 ≤ p → 1 ≤ b → p + b ≤ 8 * Z.of_nat n →
  0 ≤ v < 2 ^ b →
  be base mod 2 ^ (8 * Z.of_nat n - p) < 2 ^ (8 * Z.of_nat n - p - b) →
  ∃ out, addAddress_loop base (Net.mask_bytes n p) b (bitstr (Z.to_nat b) v) = Ret (Ok out) ∧
         bytes_ok out ∧ length out = n ∧
         be out = be base + v * 2 ^ (8 * Z.of_nat n - p - b).
Proof.
  induction n as [|n IH]; intros p b base v Hok Hlen Hp Hb Hpb Hv Hroom; [lia|].
  destruct base as [|x base]; [done|]. inversion Hok as [|? ? Hx Hbase]; subst.
  injection Hlen as Hlen. pose proof (be_bound base Hbase) as Br. rewrite Hlen in Br.
  rewrite be_cons, Hlen in Hroom.
  assert (8 * Z.of_nat (S n) = 8 * Z.of_nat n + 8) as Hn8 by lia. rewrite Hn8 in *.
  remember (8 * Z.of_nat n) as N eqn:HN. assert (0 ≤ N) as HN0 by lia.
  destruct (decide (8 ≤ p)) as [H8|H8]; [|destruct (decide (8 - p < b)) as [Hkb|Hkb]].
  - destruct (IH (p - 8) b base v) as (out & E & Ho & Hl & Hbe);
      [done|done|lia|lia|lia|done|by eapply room_masked|].
    exists (x :: out). rewrite (step_masked n p b x v base Hlen out H8 E).
    split; [done|]. split; [by constructor|]. split; [simpl; lia|].
    rewrite !be_cons, Hl, Hlen, Hbe, <- HN.
    replace (N - (p - 8) - b) with (N + 8 - p - b) by lia. lia.
  - destruct (room_split N p b x (be base) HN0 Br Hb Hpb Hroom) as [Hx0 Hr0]; [lia..|].
    pose proof (pow2_pos (b - (8 - p)) ltac:(lia)) as Hq.
    pose proof (Z.mod_pos_bound v _ Hq) as Hm. pose proof (Z.div_mod v (2 ^ (b - (8 - p)))) as Hd.
    destruct (IH 0 (b - (8 - p)) base (v mod 2 ^ (b - (8 - p)))) as (out & E & Ho & Hl & Hbe);
      [done|done|lia|lia|lia|done|rewrite Z.sub_0_r, Z.mod_small; lia|].
    destruct (step_split n p b x v base Hx Hlen Hp Hb Hv out) as [-> Hy]; [lia|done..|].
    eexists. split; [done|]. split; [by constructor|]. split; [simpl; lia|].
    rewrite !be_cons, Hl, Hlen, Hbe, <- HN.
    replace (N - 0 - (b - (8 - p))) with (N + 8 - p - b) by lia.
    replace (2 ^ N) with (2 ^ (b - (8 - p)) * 2 ^ (N + 8 - p - b))
      by (rewrite <- pow2_split by lia; f_equal; lia). nia.
  - assert (x mod 2 ^ (8 - p) < 2 ^ (8 - p - b)) as Hx0
      by (apply (room_last N p b x (be base)); lia || done).
    destruct (step_last n p b x v base Hx Hlen Hp Hb Hv) as [-> Hy]; [lia|lia|done|].
    eexists. split; [done|]. split; [by constructor|]. split; [simpl; lia|].
    rewrite !be_cons, Hlen, <- HN.
    replace (N + 8 - p - b) with ((8 - p - b) + N) by lia. rewrite pow2_split by lia. lia.
Qed.

Lemma pow2_minus_1 b : 0 ≤ b ≤ 53 → pow2_minus 1 b = 2 ^ b - 1.
Proof.
  intros. unfold pow2_minus. destruct (Z.ltb_spec b 0); [lia|].
  by destruct (Z.leb_spec b (52 + 1)); [|lia].
Qed.

Lemma net_addr_weaken a p q : 0 ≤ p ≤ q → q ≤ 32 → net_addr a p → net_addr a q.
Proof.
  unfold net_addr. intros Hpq Hq Ha. apply Z.mod_divide; [pose proof (pow2_pos (32 - q)); lia|].
  apply Z.mod_divide in Ha; [|pose proof (pow2_pos (32 - p)); lia].
  eapply Z.divide_trans; [|exact Ha]. exists (2 ^ (q - p)). rewrite <- pow2_split by lia.
  f_equal. lia.
Qed.

Lemma net_addr_masked a p : 0 ≤ p ≤ 32 → net_addr a p → a / 2 ^ (32 - p) * 2 ^ (32 - p) = a.
Proof.
  unfold net_addr. intros Hp Ha. pose proof (pow2_pos (32 - p) ltac:(lia)).
  pose proof (Z.div_mod a (2 ^ (32 - p)) ltac:(lia)). lia.
Qed.

(** the address of sub-network [idx] when [b] bits follow a prefix of [p] *)
Definition sub_addr (a p b idx : Z) : Z := a + idx * 2 ^ (32 - (p + b)).

Lemma sub_addr_range a p b idx :
  0 ≤ p → 0 ≤ b → p + b ≤ 32 → 0 ≤ idx < 2 ^ b →
  a ≤ sub_addr a p b idx ∧ sub_addr a p b idx + 2 ^ (32 - (p + b)) ≤ a + 2 ^ (32 - p).
Proof.
  intros. unfold sub_addr. pose proof (pow2_pos (32 - (p + b)) ltac:(lia)).
  replace (2 ^ (32 - p)) with (2 ^ b * 2 ^ (32 - (p + b)))
    by (rewrite <- pow2_split by lia; f_equal; lia). nia.
Qed.

Lemma sub_addr_net_addr a p b idx :
  0 ≤ p → 0 ≤ b → p + b ≤ 32 → net_addr a p → net_addr (sub_addr a p b idx) (p + b).
Proof.
  intros Hp Hb Hpb Ha. apply (net_addr_weaken _ p (p + b)) in Ha; [|lia..].
  unfold net_addr, sub_addr in *. pose proof (pow2_pos (32 - (p + b)) ltac:(lia)).
  by rewrite Z.mod_add by lia.
Qed.

Lemma addAddress_ok ip p b idx :
  ip_ok ip → net_addr (be ip) p → 0 ≤ p → 0 ≤ b → p + b ≤ 32 → 0 ≤ idx < 2 ^ b →
  ∃ out, addAddress ip (Net.CIDRMask p) b idx = Ret (Ok out) ∧ ip_ok out ∧
         be out = sub_addr (be ip) p b idx.
Proof.
  intros Hip Ha Hp Hb Hpb Hi. unfold addAddress. rewrite pow2_minus_1 by lia.
  destruct (Z.ltb_spec (2 ^ b - 1) idx); [lia|]. unfold sub_addr.
  assert (∃ out, addAddress_loop ip (Net.CIDRMask p) b
            (zeros (Z.to_nat (b - slen (Strconv.fmt_b idx))) +:+ Strconv.fmt_b idx)
            = Ret (Ok out) ∧ ip_ok out ∧ be out = be ip + idx * 2 ^ (32 - (p + b)))
    as (out & -> & Hout & Hbe).
  { destruct (decide (b = 0)) as [->|Hb0].
    - assert (idx = 0) as -> by lia. change (zeros _ +:+ _) with "0".
      destruct Hip as [Hl Hby]. exists ip. unfold Net.CIDRMask.
      rewrite addAddress_loop_zero by done. split; [done|]. split; [done|lia].
    - rewrite fmt_b_padded by lia. destruct Hip as [Hl Hby].
      destruct (addAddress_loop_spec 4 p b ip idx) as (out & E & Ho & Hlo & Hbe);
        [done|done|lia|lia|lia|lia| |].
      { change (8 * Z.of_nat 4) with 32. rewrite Ha. apply pow2_pos. lia. }
      exists out. split; [done|]. split; [done|]. rewrite Hbe.
      by replace (8 * Z.of_nat 4 - p - b) with (32 - (p + b)) by lia. }
  cbn [mbind go_bind]. exists out. rewrite bool_decide_eq_true_2; [done|]. f_equal.
  apply ip_eq; [apply ip_mask_ok; [done|lia]..|]. rewrite !be_mask4 by first [done | lia].
  f_equal. rewrite Hbe. pose proof (sub_addr_range (be ip) p b idx Hp Hb Hpb Hi) as [H1 H2].
  unfold sub_addr in *. pose proof (pow2_pos (32 - (p + b)) ltac:(lia)).
  apply in_net_range; [lia|done|lia].
Qed.

Lemma before_slash_text s ip p : cidr_text s ip p → Net.ParseIP (before_slash s) = Some ip.
Proof. intros (a & m & Hs & Ha & _). unfold before_slash. by rewrite Hs. Qed.

Lemma before_slash_exclude e ip q :
  exclude_net e ip q → Net.ParseIP (before_slash e) = Some ip.
Proof.
  intros [H|(Hs & Hp & _)]; [by eapply before_slash_text|]. unfold before_slash. by rewrite Hs.
Qed.

Lemma after_slash_text s ip p :
  cidr_text s ip p → ∃ m, after_slash s = Ret m ∧ fst (Strconv.ParseInt m 10) = p.
Proof.
  intros (a & m & Hs & _ & Hm). exists m. unfold after_slash. rewrite Hs.
  split; [done|]. apply prefix_len_ParseInt in Hm as [-> _]. done.
Qed.

Lemma ip_mask_id ip p : ip_ok ip → net_addr (be ip) p → 0 ≤ p ≤ 32 →
  Net.ip_mask ip (Net.CIDRMask p) = ip.
Proof.
  intros Hip Ha Hp. apply ip_eq; [apply ip_mask_ok; [done|lia]|done|].
  rewrite be_mask4 by done. by apply net_addr_masked.
Qed.

Lemma ComputeNet_ok s ip p b idx :
  cidr_text s ip p → net_addr (be ip) p → 0 ≤ b → p + b ≤ 32 → 0 ≤ idx < 2 ^ b →
  ∃ out, ComputeNet s idx b = Ret (Ok out) ∧ ip_ok out ∧ be out = sub_addr (be ip) p b idx.
Proof.
  intros Ht Ha Hb Hpb Hi. destruct (cidr_text_ok _ _ _ Ht) as [Hip Hp].
  unfold ComputeNet. rewrite (ParseCIDR_text _ _ _ Ht), (before_slash_text _ _ _ Ht).
  cbn [Net.Mask]. rewrite appendMask_CIDRMask by lia. cbn [mbind go_bind default].
  rewrite ip_mask_id; [|done|by apply (net_addr_weaken _ p); [lia|lia|]|lia].
  apply addAddress_ok; done || lia.
Qed.

Lemma ComputeNet_overflow s ip p b idx :
  cidr_text s ip p → 0 ≤ b ≤ 53 → 2 ^ b ≤ idx → ComputeNet s idx b = Ret (Err "InvalidRequest").
Proof.
  intros Ht Hb Hi. destruct (cidr_text_ok _ _ _ Ht) as [Hip Hp].
  unfold ComputeNet. rewrite (ParseCIDR_text _ _ _ Ht). cbn [Net.Mask].
  rewrite appendMask_CIDRMask by lia. cbn [mbind go_bind].
  unfold addAddress. rewrite pow2_minus_1 by lia.
  destruct (Z.ltb_spec (2 ^ b - 1) idx); [done|lia].
Qed.

Lemma GetCIDRFromByte_text s ip p out b :
  cidr_text s ip p → GetCIDRFromByte out s b = Ret (cidr_str out (p + b)).
Proof.
  intros Ht. destruct (after_slash_text _ _ _ Ht) as (m & Hm & Hp).
  unfold GetCIDRFromByte. rewrite Hm. cbn [mbind go_bind]. by rewrite Hp.
Qed.

(** ** Sub-networks *)

(** [net (a, p)] is included in [net (a', p')] *)
Definition subnet_of (a p a' p' : Z) : Prop := ∀ v, in_net v a p → in_net v a' p'.

(** the two networks share no address *)
Definition nets_disjoint (a p a' p' : Z) : Prop := ∀ v, in_net v a p → in_net v a' p' → False.

Lemma sub_addr_subnet a p b idx :
  0 ≤ p → 0 ≤ b → p + b ≤ 32 → 0 ≤ idx < 2 ^ b → net_addr a p →
  subnet_of (sub_addr a p b idx) (p + b) a p.
Proof.
  intros Hp Hb Hpb Hi Ha v. pose proof (sub_addr_range a p b idx Hp Hb Hpb Hi).
  rewrite !in_net_range by first [done | lia | by apply sub_addr_net_addr]. lia.
Qed.

Lemma sub_addr_disjoint a p b i j :
  0 ≤ p → 0 ≤ b → p + b ≤ 32 → i ≠ j → net_addr a p →
  nets_disjoint (sub_addr a p b i) (p + b) (sub_addr a p b j) (p + b).
Proof.
  intros Hp Hb Hpb Hij Ha v.
  rewrite !in_net_range by first [done | lia | by apply sub_addr_net_addr].
  unfold sub_addr. pose proof (pow2_pos (32 - (p + b)) ltac:(lia)). nia.
Qed.

Lemma nets_disjoint_sub a p a' p' c q c' q' :
  nets_disjoint a p a' p' → subnet_of c q a p → subnet_of c' q' a' p' →
  nets_disjoint c q c' q'.
Proof. unfold nets_disjoint, subnet_of. eauto. Qed.

Lemma subnet_of_trans a p b q c r :
  subnet_of a p b q → subnet_of b q c r → subnet_of a p c r.
Proof. unfold subnet_of. eauto. Qed.

Lemma in_net_refl a p : in_net a a p.
Proof. done. Qed.

(** a network with a shorter prefix contains all of a sub-network or nothing
    of it *)
Lemma in_net_cover a p e q :
  0 ≤ q ≤ p → p ≤ 32 → in_net a e q ↔ subnet_of a p e q.
Proof.
  intros Hq Hp. split; [|intros H; apply H, in_net_refl].
  intros H v Hv. unfold in_net in *. pose proof (pow2_pos (32 - p) ltac:(lia)).
  pose proof (pow2_pos (p - q) ltac:(lia)).
  replace (2 ^ (32 - q)) with (2 ^ (32 - p) * 2 ^ (p - q)) in *
    by (rewrite <- pow2_split by lia; f_equal; lia).
  rewrite <- !Z.div_div in * by lia. by rewrite Hv.
Qed.

(** a network cannot contain a larger one *)
Lemma cover_prefix a p e q :
  0 ≤ p ≤ 32 → 0 ≤ q ≤ 32 → subnet_of a p e q → q ≤ p.
Proof.
  intros Hp Hq H. destruct (decide (q ≤ p)) as [|Hqp]; [done|]. exfalso.
  pose proof (pow2_pos (32 - p) ltac:(lia)). pose proof (pow2_pos (32 - q) ltac:(lia)).
  set (P := 2 ^ (32 - p)) in *. set (Q := 2 ^ (32 - q)) in *. set (lo := a / P * P).
  assert (2 * Q ≤ P) as HPQ.
  { subst P Q. replace (32 - p) with (1 + (32 - q) + (q - p - 1)) by lia.
    rewrite !pow2_split by lia. pose proof (pow2_pos (q - p - 1) ltac:(lia)). nia. }
  assert (∀ v, lo ≤ v < lo + P → in_net v a p) as Hin.
  { intros v Hv. unfold in_net. fold P. subst lo. symmetry.
    apply (Z.div_unique v P (a / P) (v - a / P * P)); lia. }
  pose proof (H lo (Hin lo ltac:(lia))) as E1.
  pose proof (H (lo + P - 1) (Hin (lo + P - 1) ltac:(lia))) as E2.
  unfold in_net in *. fold Q in E1, E2.
  pose proof (Z.div_mod lo Q ltac:(lia)). pose proof (Z.div_mod (lo + P - 1) Q ltac:(lia)).
  pose proof (Z.mod_pos_bound lo Q ltac:(lia)). pose proof (Z.mod_pos_bound (lo + P - 1) Q ltac:(lia)).
  nia.
Qed.

(** ** CheckIfTabuIndex *)

(** an exclude entry the code can read: a CIDR, or a text without a slash
    (which the code ignores) *)
Definition exclude_ok (e : string) : Prop :=
  (∃ ip p, cidr_text e ip p) ∨ Strings.Split e "/"%char = [e].

Lemma cidr_text_fun s ip p ip' p' :
  cidr_text s ip p → cidr_text s ip' p' → ip = ip' ∧ p = p'.
Proof. intros (a & m & H & ? & ?) (a' & m' & H' & ? & ?). rewrite H in H'. by simplify_eq. Qed.

(** some exclude range contains the whole network [(a, p)] *)
Definition covered (a p : Z) (excludes : list string) : Prop :=
  ∃ e ip q, (e ∈ excludes) ∧ cidr_text e ip q ∧ subnet_of a p (be ip) q.

Lemma covered_cons a p e excludes :
  covered a p (e :: excludes) ↔
  (∃ ip q, cidr_text e ip q ∧ subnet_of a p (be ip) q) ∨ covered a p excludes.
Proof.
  unfold covered. split.
  - intros (e' & ip & q & [->|Hin]%elem_of_cons & Ht & Hs); [by left; eauto|].
    right. eauto 6.
  - intros [(ip & q & Ht & Hs)|(e' & ip & q & Hin & Ht & Hs)].
    + exists e, ip, q. by rewrite elem_of_cons; auto.
    + exists e', ip, q. rewrite elem_of_cons. auto.
Qed.

Lemma bytesToStr_32 out : ip_ok out →
  fst <$> Net.ParseCIDR (bytesToStr out +:+ "/32") = Some out.
Proof.
  intros Ho. change (bytesToStr out +:+ "/32") with (cidr_str out 32).
  by rewrite (ParseCIDR_text _ _ _ (cidr_str_text out 32 Ho ltac:(lia))).
Qed.

Section tabu.
Context (s : string) (ip : list Z) (p b idx : Z).
Context (Ht : cidr_text s ip p) (Ha : net_addr (be ip) p).
Context (Hb : 0 ≤ b) (Hpb : p + b ≤ 32) (Hi : 0 ≤ idx < 2 ^ b).

Lemma CheckIfTabu_loop_spec excludes :
  Forall exclude_ok excludes →
  ∃ t : bool, CheckIfTabu_loop s p idx b excludes = Ret t ∧
       (t = true ↔ covered (sub_addr (be ip) p b idx) (p + b) excludes).
Proof.
  destruct (ComputeNet_ok s ip p b idx Ht Ha Hb Hpb Hi) as (out & Ec & Ho & Hbe).
  destruct (cidr_text_ok _ _ _ Ht) as [_ Hp].
  induction 1 as [|e excludes He Hes IH].
  { exists false. split; [done|]. split; [done|]. intros (? & ? & ? & H & _).
    by apply elem_of_nil in H. }
  destruct IH as (t & Et & Hspec). cbn [CheckIfTabu_loop].
  destruct He as [(eip & q & He)|He].
  - pose proof (cidr_text_ok _ _ _ He) as [Heip Hq].
    pose proof (ParseCIDR_text _ _ _ He) as Hpc. pose proof He as (ea & em & Hsp & _ & Hm).
    rewrite Hsp. apply prefix_len_ParseInt in Hm as [-> _]. cbn [fst].
    assert ((∃ ip' q', cidr_text e ip' q' ∧
               subnet_of (sub_addr (be ip) p b idx) (p + b) (be ip') q')
            ↔ q ≤ p + b ∧ in_net (sub_addr (be ip) p b idx) (be eip) q) as Hcov.
    { split.
      - intros (ip' & q' & Ht' & Hs'). destruct (cidr_text_fun _ _ _ _ _ He Ht') as [-> ->].
        split; [eapply cover_prefix; [| |exact Hs']; lia|]. apply Hs', in_net_refl.
      - intros [Hle Hin]. exists eip, q. split; [done|]. apply in_net_cover; done || lia. }
    destruct (Z.leb_spec q (p + b)) as [Hle|Hle].
    + rewrite Ec. cbn [mbind go_bind net_or_zero]. rewrite bytesToStr_32, Hpc by done.
      rewrite Contains_spec, Hbe by done. case_bool_decide as Hin.
      * exists true. split; [done|]. rewrite covered_cons, Hcov. tauto.
      * exists t. split; [done|]. rewrite covered_cons, Hcov. tauto.
    + exists t. split; [done|]. rewrite covered_cons, Hcov, Hspec. intuition lia.
  - rewrite He. exists t. split; [done|]. rewrite covered_cons, Hspec. split; [tauto|].
    intros [(ip' & q' & (a & m & Hs' & _) & _)|?]; [|done]. rewrite He in Hs'. done.
Qed.

Lemma CheckIfTabuIndex_spec excludes :
  Forall exclude_ok excludes →
  ∃ t : bool, CheckIfTabuIndex s idx b excludes = Ret t ∧
       (t = true ↔ covered (sub_addr (be ip) p b idx) (p + b) excludes).
Proof.
  intros He. destruct (after_slash_text _ _ _ Ht) as (m & Hm & Hmp).
  unfold CheckIfTabuIndex. rewrite Hm. cbn [mbind go_bind]. rewrite Hmp.
  by apply CheckIfTabu_loop_spec.
Qed.
End tabu.

(** ** Addresses and values *)

Lemma ip4_inv ip :
  ip_ok ip → ∃ a b c d, ip = [a; b; c; d] ∧
    0 ≤ a < 256 ∧ 0 ≤ b < 256 ∧ 0 ≤ c < 256 ∧ 0 ≤ d < 256.
Proof.
  intros [Hl Hb]. destruct ip as [|a [|b [|c [|d [|? ?]]]]]; try done.
  inversion Hb as [|? ? Ha Hb1]; inversion Hb1 as [|? ? Hbb Hb2];
    inversion Hb2 as [|? ? Hc Hb3]; inversion Hb3 as [|? ? Hd _]; subst.
  exists a, b, c, d. auto.
Qed.

Lemma be4 a b c d : be [a; b; c; d] = ((a * 256 + b) * 256 + c) * 256 + d.
Proof. cbn [be length]. lia. Qed.

Lemma Itoa_parse n : 0 ≤ n < 256 → fst (Strconv.ParseInt (Strconv.Itoa n) 10) = n.
Proof. intros H. destruct (octet_ok_inv n H) as (_ & _ & _ & ->). done. Qed.

Lemma i64_shift s v : 0 ≤ s < 2 ^ 24 → 0 ≤ v < 256 → i64 (i64 (s * 256) + v) = s * 256 + v.
Proof. intros. rewrite (i64_small (s * 256)), i64_small by lia. done. Qed.

Lemma i64_be4 a b c d :
  0 ≤ a < 256 → 0 ≤ b < 256 → 0 ≤ c < 256 → 0 ≤ d < 256 →
  i64 (i64 (i64 (i64 (i64 (i64 (i64 (i64 (0 * 256) + a) * 256) + b) * 256) + c) * 256) + d)
  = be [a; b; c; d].
Proof.
  intros. rewrite be4.
  rewrite (i64_shift 0 a), (i64_shift (0 * 256 + a) b), (i64_shift _ c), (i64_shift _ d) by lia.
  lia.
Qed.

Lemma addrToValue_string ip : ip_ok ip → addrToValue (Net.ip_string ip) = be ip.
Proof.
  intros Hip. unfold addrToValue. rewrite (proj1 (ip_string_split ip Hip)).
  destruct (ip4_inv ip Hip) as (a & b & c & d & -> & Ha & Hb & Hc & Hd).
  cbn [fmap list_fmap foldl]. rewrite !Itoa_parse by lia. by apply i64_be4.
Qed.

(** a parsed address and its integer value *)
Lemma addrToValue_parse s ip : Net.ParseIP s = Some ip → addrToValue s = be ip.
Proof.
  intros H. pose proof (ParseIP_ok _ _ H) as Hok. revert H. unfold Net.ParseIP, addrToValue.
  destruct (Strings.Split s _) as [|a [|b [|c [|d [|? ?]]]]]; try done.
  intros H. destruct (Net.octet a) eqn:Ea; [|done]. destruct (Net.octet b) eqn:Eb; [|done].
  destruct (Net.octet c) eqn:Ec; [|done]. destruct (Net.octet d) eqn:Ed; [|done].
  injection H as <-. destruct (ip4_inv _ Hok) as (?&?&?&?&[= -> -> -> ->]&?&?&?&?).
  cbn [foldl]. rewrite !(octet_ParseInt _ _ Ea), !(octet_ParseInt _ _ Eb),
    !(octet_ParseInt _ _ Ec), !(octet_ParseInt _ _ Ed). by apply i64_be4.
Qed.

Lemma ValueToAddr_bytes v :
  0 ≤ v < 2 ^ 32 →
  ValueToAddr v = [v / 256 / 256 / 256; v / 256 / 256 mod 256; v / 256 mod 256; v mod 256].
Proof.
  intros Hv. unfold ValueToAddr. cbn. unfold SHIFT_BYTE_VAL, byte_of.
  assert (0 ≤ v / 256) by (apply Z.div_pos; lia).
  assert (0 ≤ v / 256 / 256) by (apply Z.div_pos; lia).
  assert (0 ≤ v / 256 / 256 / 256) by (apply Z.div_pos; lia).
  assert (v / 256 / 256 / 256 < 256).
  { rewrite !Z.div_div by lia. apply Z.div_lt_upper_bound; lia. }
  rewrite (Z.quot_div_nonneg v), (Z.quot_div_nonneg (v / 256)),
    (Z.quot_div_nonneg (v / 256 / 256)), !Z.rem_mod_nonneg by lia.
  rewrite !Zmod_mod, (Z.mod_small (v / 256 / 256 / 256)) by lia. done.
Qed.

Lemma ValueToAddr_value v :
  0 ≤ v < 2 ^ 32 → ip_ok (ValueToAddr v) ∧ be (ValueToAddr v) = v.
Proof.
  intros Hv. rewrite ValueToAddr_bytes, be4 by done.
  pose proof (Z.div_mod v 256 ltac:(lia)). pose proof (Z.div_mod (v / 256) 256 ltac:(lia)).
  pose proof (Z.div_mod (v / 256 / 256) 256 ltac:(lia)).
  assert (0 ≤ v / 256 / 256 / 256 < 256).
  { rewrite !Z.div_div by lia. split; [apply Z.div_pos; lia|apply Z.div_lt_upper_bound; lia]. }
  split; [|lia]. split; [done|]. repeat constructor; try lia; apply Z.mod_pos_bound; lia.
Qed.

Lemma ValueToAddr_be ip : ip_ok ip → ValueToAddr (be ip) = ip.
Proof.
  intros Hip. destruct (ValueToAddr_value (be ip) (ip_ok_bound _ Hip)) as [Hok Hbe].
  by apply ip_eq.
Qed.

(** ** GetIndexInRange *)

Lemma GetIndex_loop_step index pod cidr pods cidrs acc :
  0 ≤ pod < 256 → 0 ≤ cidr < 256 →
  GetIndex_loop index (Strconv.Itoa pod :: pods) (Strconv.Itoa cidr :: cidrs) acc
  = GetIndex_loop (index + 1) pods cidrs (acc + (pod - cidr) * 256 ^ (3 - index)).
Proof.
  intros Hp Hc. cbn [GetIndex_loop]. unfold Strconv.Atoi. rewrite !Itoa_parse by lia.
  case_bool_decide as E; [|done]. apply (f_equal (λ t, fst (Strconv.ParseInt t 10))) in E.
  rewrite !Itoa_parse in E by lia. subst. f_equal. lia.
Qed.

Lemma GetIndex_loop_be pod cidr :
  ip_ok pod → ip_ok cidr →
  GetIndex_loop 0 (Strconv.Itoa <$> pod) (Strconv.Itoa <$> cidr) 0 = Ret (be pod - be cidr).
Proof.
  intros Hp Hc. destruct (ip4_inv pod Hp) as (a & b & c & d & -> & ? & ? & ? & ?).
  destruct (ip4_inv cidr Hc) as (a' & b' & c' & d' & -> & ? & ? & ? & ?).
  cbn [fmap list_fmap]. rewrite !GetIndex_loop_step by lia. cbn [GetIndex_loop].
  rewrite !be4. f_equal. change (256 ^ (3 - 0)) with 16777216.
  change (256 ^ (3 - (0 + 1))) with 65536. change (256 ^ (3 - (0 + 1 + 1))) with 256.
  change (256 ^ (3 - (0 + 1 + 1 + 1))) with 1. lia.
Qed.

Lemma GetIndexInRange_eq s ip p pod :
  cidr_text s ip p → ip_ok pod →
  GetIndexInRange s (Net.ip_string pod)
  = Ret (if bool_decide (in_net (be pod) (be ip) p) then (true, be pod - be ip) else (false, -1)).
Proof.
  intros Ht Hpod. destruct (cidr_text_ok _ _ _ Ht) as [Hip Hp].
  unfold GetIndexInRange. rewrite (ParseCIDR_text _ _ _ Ht).
  pose proof (bytesToStr_32 pod Hpod) as E.
  change (bytesToStr pod) with (Net.ip_string pod) in E. rewrite E.
  rewrite Contains_spec by done. case_bool_decide; cbn [negb]; [|done].
  rewrite (proj1 (ip_string_split _ Hpod)), (proj1 (ip_string_split _ Hip)).
  by rewrite GetIndex_loop_be.
Qed.

(** ** Sorted exclusions *)

Lemma SortAddress_Address l : Address <$> SortAddress l ≡ₚ l.
Proof.
  unfold SortAddress. rewrite sort_by_perm, <- list_fmap_compose.
  erewrite list_fmap_ext; [by rewrite list_fmap_id|]. done.
Qed.

Lemma covered_perm a p l l' : l ≡ₚ l' → covered a p l ↔ covered a p l'.
Proof. intros Hp. unfold covered. by setoid_rewrite Hp. Qed.
