(* ===== verification/Types.v ===== *)
(** * Custom resources and messages

    The structs of [api/v1] (CIDR, IPPool, HostInterface) that the operator
    stores in the cluster, the daemon's copies of them ([daemon/src/backend]),
    and the request and response of the daemon's IP allocation service
    ([daemon/src/allocator/ip.go]).  Field names carry a prefix per struct. *)

From S2P Require Import Prelude.

(** ** api/v1/cidr_types.go *)

Record PluginConfig := mkPluginConfig {
  pc_Name : string;
  pc_Type : string;
  pc_Subnet : string;
  pc_MasterNetAddrs : list string;
  pc_HostBlock : Z;
  pc_InterfaceBlock : Z;
  pc_ExcludeCIDRs : list string;
  pc_VlanMode : string
}.

Record HostInterfaceInfo := mkHostInterfaceInfo {
  h_HostIndex : Z;
  h_HostName : string;
  h_InterfaceName : string;
  h_HostIP : string;
  h_PodCIDR : string;
  h_IPPool : string
}.

Record CIDREntry := mkCIDREntry {
  e_NetAddress : string;
  e_InterfaceIndex : Z;
  e_VlanCIDR : string;
  e_Hosts : list HostInterfaceInfo
}.

Record CIDRSpec := mkCIDRSpec {
  c_Config : PluginConfig;
  c_CIDRs : list CIDREntry
}.

(** ** api/v1/ippool_types.go, daemon/src/backend/ippool.go *)

Record Allocation := mkAllocation {
  a_Pod : string;
  a_Namespace : string;
  a_Index : Z;
  a_Address : string
}.

Record IPPoolSpec := mkIPPoolSpec {
  p_PodCIDR : string;
  p_VlanCIDR : string;
  p_NetAttachDefName : string;
  p_HostName : string;
  p_InterfaceName : string;
  p_Excludes : list string;
  p_Allocations : list Allocation
}.

(** ** api/v1/hostinterface_types.go *)

Record InterfaceInfoType := mkInterfaceInfo {
  i_InterfaceName : string;
  i_NetAddress : string;
  i_HostIP : string;
  i_Vendor : string;
  i_Product : string;
  i_PciAddress : string
}.

Definition InterfaceInfo_Equal (i cmp : InterfaceInfoType) : bool :=
  bool_decide (i_InterfaceName i = i_InterfaceName cmp) &&
  bool_decide (i_NetAddress i = i_NetAddress cmp) &&
  bool_decide (i_HostIP i = i_HostIP cmp).

Record HostInterfaceSpec := mkHostInterfaceSpec {
  hi_HostName : string;
  hi_Interfaces : list InterfaceInfoType
}.

(** ** daemon/src/allocator/ip.go *)

Record IPRequest := mkIPRequest {
  rq_PodName : string;
  rq_PodNamespace : string;
  rq_HostName : string;
  rq_NetAttachDefName : string;
  rq_InterfaceNames : list string
}.

Record IPResponse := mkIPResponse {
  rs_InterfaceName : string;
  rs_IPAddress : string;
  rs_VLANBlockSize : string
}.

(** ** Decidable equality and field updates *)

#[export] Instance PluginConfig_eq_dec : EqDecision PluginConfig.
Proof. solve_decision. Defined.
#[export] Instance HostInterfaceInfo_eq_dec : EqDecision HostInterfaceInfo.
Proof. solve_decision. Defined.
#[export] Instance CIDREntry_eq_dec : EqDecision CIDREntry.
Proof. solve_decision. Defined.
#[export] Instance CIDRSpec_eq_dec : EqDecision CIDRSpec.
Proof. solve_decision. Defined.
#[export] Instance Allocation_eq_dec : EqDecision Allocation.
Proof. solve_decision. Defined.
#[export] Instance IPPoolSpec_eq_dec : EqDecision IPPoolSpec.
Proof. solve_decision. Defined.
#[export] Instance InterfaceInfoType_eq_dec : EqDecision InterfaceInfoType.
Proof. solve_decision. Defined.
#[export] Instance HostInterfaceSpec_eq_dec : EqDecision HostInterfaceSpec.
Proof. solve_decision. Defined.
#[export] Instance IPResponse_eq_dec : EqDecision IPResponse.
Proof. solve_decision. Defined.

Definition set_Hosts (e : CIDREntry) (hosts : list HostInterfaceInfo) : CIDREntry :=
  mkCIDREntry (e_NetAddress e) (e_InterfaceIndex e) (e_VlanCIDR e) hosts.

Definition set_Allocations (p : IPPoolSpec) (l : list Allocation) : IPPoolSpec :=
  mkIPPoolSpec (p_PodCIDR p) (p_VlanCIDR p) (p_NetAttachDefName p) (p_HostName p)
    (p_InterfaceName p) (p_Excludes p) l.

Definition set_Index (a : Allocation) (i : Z) : Allocation :=
  mkAllocation (a_Pod a) (a_Namespace a) i (a_Address a).
