(* ===== verification/Allocator.v ===== *)
(** * daemon/src/allocator: IP allocation on a host

    The daemon of a node assigns pod addresses out of the IPPools of that node.
    The pools live in the cluster: [backend.IPPoolHandler] lists and patches
    them, which is the interface [IPPoolAPI] here; the process itself keeps a
    mutex and the history of recent deallocations.  The file holds the
    definitions; the theorems are in [AllocatorSpec]. *)

From S2P Require Import Prelude GoLib Types.
From S2P Require Compute.

(** ** The cluster's IPPools, seen from the daemon

    [ListIPPool] takes the label selector; [PatchIPPool] replaces the
    allocations of one pool and says whether its error is nil. *)

Class IPPoolAPI (W : Type) := {
  ListIPPool : W → list (string * string) → result (gmap string IPPoolSpec);
  PatchIPPool : W → string → list Allocation → W * bool
}.

(** What the daemon relies on, relative to an abstract view [pool_at] of the
    stored pools. *)
Class IPPoolLaws (W : Type) `{IPPoolAPI W} (pool_at : W → string → option IPPoolSpec) := {
  list_sound : ∀ w sel m name spec,
    ListIPPool w sel = Ok m → m !! name = Some spec → pool_at w name = Some spec;
  patch_ok : ∀ w w' name l spec,
    PatchIPPool w name l = (w', true) → pool_at w name = Some spec →
    pool_at w' name = Some (set_Allocations spec l);
  patch_other : ∀ w w' name name' l b,
    PatchIPPool w name l = (w', b) → name ≠ name' → pool_at w' name' = pool_at w name';
  patch_fail : ∀ w w' name l,
    PatchIPPool w name l = (w', false) → pool_at w' name = pool_at w name
}.

(** ** Interfaces and virtual functions, read from sysfs *)

Record SysFs := mkSysFs {
  os_Stat : string → bool;                     (* err == nil *)
  os_ReadDir : string → option (list string)   (* names of the entries *)
}.

Definition NetClassDir : string := "/sys/class/net".

(** [filepath.Join] of non-empty path elements that are neither [.] nor [..] *)
Definition path_join (l : list string) : string :=
  Strings.Join (filter (λ s, s ≠ "") l) "/".

Definition isVF (fs : SysFs) (interfaceName : string) : bool :=
  os_Stat fs (path_join [NetClassDir; interfaceName; "device"; "physfn"]).

Definition getPFInterfaceName (fs : SysFs) (vfInterfaceName : string) : string :=
  match os_ReadDir fs (path_join [NetClassDir; vfInterfaceName; "device"; "physfn"; "net"]) with
  | None => vfInterfaceName
  | Some [] => vfInterfaceName
  | Some (entry :: _) => entry
  end.

(** ** The deallocation history *)

(** [Time] in nanoseconds *)
Record allocateRecord := mkRecord { ar_Time : Z; ar_LastOffset : Z }.

Definition HISTORY_TIMEOUT : Z := 60.

Definition Expired (curr : Z) (r : allocateRecord) : bool :=
  HISTORY_TIMEOUT * 10 ^ 9 <? curr - ar_Time r.

(** [clk podName]: the clock when the record of [podName] is visited *)
Definition FlushExpiredHistory (clk : string → Z) (h : gmap string allocateRecord)
    : gmap string allocateRecord :=
  filter (λ kv, Expired (clk kv.1) kv.2 = false) h.

(** ** Indexes *)

Fixpoint FindAvailableIndex_fuel (fuel : nat) (indexes : list Z) (leftIndex : Z) : option Z :=
  match fuel with
  | O => None
  | S fuel' =>
      match last indexes, indexes with
      | Some lastAllocationIndex, first :: _ =>
          if lastAllocationIndex - leftIndex =? Z.of_nat (length indexes) then Some (-1)
          else if negb (first =? leftIndex + 1) then Some (leftIndex + 1)
          else
            let midIndex := Nat.div2 (length indexes) in
            leftResult ← FindAvailableIndex_fuel fuel' (take midIndex indexes) leftIndex;
            if negb (leftResult =? -1) then Some leftResult
            else FindAvailableIndex_fuel fuel' (drop midIndex indexes)
                   (leftIndex + Z.of_nat midIndex)
      | _, _ => Some (-1)
      end
  end.

Definition FindAvailableIndex (indexes : list Z) (leftIndex : Z) : Z :=
  default (-1) (FindAvailableIndex_fuel (S (length indexes)) indexes leftIndex).

Definition valueToAddr (value : Z) : list Z := Compute.ValueToAddr value.

Definition valueToAddrStr (value : Z) : string := Compute.bytesToStr (valueToAddr value).

Definition addrToValue (address : string) : Z := Compute.addrToValue address.

Definition getIPValue (address : string) : Compute.IPValue :=
  let ip := Compute.before_slash address in
  Compute.mkIPValue address (addrToValue ip).

Definition getAddressByIndex (cidr : string) (index : Z) : string :=
  let startIPInIpValue := getIPValue cidr in
  valueToAddrStr (Compute.Value startIPInIpValue + index).

Record ExcludeRange := mkRange { MinIndex : Z; MaxIndex : Z }.

(** [excludeBlock] of a CIDR text: 32 without a slash *)
Definition cidr_block_or_32 (s : string) : Z :=
  match Strings.Split s "/"%char with
  | _ :: b :: _ => fst (Strconv.ParseInt b 10)
  | _ => 32
  end.

Definition getExcludeRange (cidr exclude : string) : option ExcludeRange :=
  let excludeStartIndex :=
    Compute.Value (getIPValue exclude) - Compute.Value (getIPValue cidr) in
  if excludeStartIndex <? 0 then None
  else
    let availableBlock := 32 - cidr_block_or_32 exclude in
    let maxIndex := pow2_minus 1 availableBlock in
    Some (mkRange excludeStartIndex (excludeStartIndex + maxIndex)).

Definition getExcludeRanges (cidr : string) (excludes : list string) : list ExcludeRange :=
  omap (getExcludeRange cidr) excludes.

Definition exclude_indexes (maxIndex : Z) (r : ExcludeRange) : list Z :=
  let maxValue := Z.min (MaxIndex r) maxIndex in
  seqZ (MinIndex r) (maxValue - MinIndex r + 1).

Definition GenerateAllocateIndexes (allocations : list Allocation) (maxIndex : Z)
    (excludes : list ExcludeRange) : list Z :=
  sort_ints ((a_Index <$> allocations) ++ (excludes ≫= exclude_indexes maxIndex)).

(** ** Allocation *)

Record allocation := mkNew { n_Allocation : Allocation; n_interfaceName : string }.

(** the inner loop of [allocateIP]: position and name of the first requested
    interface that is the pool's, or a virtual function of it *)
Fixpoint match_interface (fs : SysFs) (poolInterface : string) (interfaceNames : list string)
    (deleteIndex : nat) : option (nat * string) :=
  match interfaceNames with
  | [] => None
  | interfaceName :: rest =>
      if bool_decide (poolInterface = interfaceName) then Some (deleteIndex, interfaceName)
      else if isVF fs interfaceName
              && bool_decide (poolInterface = getPFInterfaceName fs interfaceName)
      then Some (deleteIndex, interfaceName)
      else match_interface fs poolInterface rest (S deleteIndex)
  end.

(** the index and the address chosen in one pool; [None]: the pool is full *)
Definition nextAllocation (spec : IPPoolSpec) (offset : Z) : go (option (Z * string)) :=
  let podCIDR := p_PodCIDR spec in
  cidrBlockStr ← Compute.after_slash podCIDR;
  let cirdBlock := fst (Strconv.ParseInt cidrBlockStr 10) in
  let exludeRanges := getExcludeRanges podCIDR (p_Excludes spec) in
  let availableBlock := 32 - cirdBlock in
  let maxIndex := pow2_minus 2 availableBlock in (* except broadcast address *)
  let indexes := GenerateAllocateIndexes (p_Allocations spec) maxIndex exludeRanges in
  let nextIndex :=
    match last indexes with
    | Some lastIndex => lastIndex + offset
    | None => offset (* except network address *)
    end in
  if nextIndex <? maxIndex then Ret (Some (nextIndex, getAddressByIndex podCIDR nextIndex))
  else
    let nextIndex := FindAvailableIndex indexes 0 in
    if negb (nextIndex =? -1) then Ret (Some (nextIndex, getAddressByIndex podCIDR nextIndex))
    else Ret None.

Fixpoint allocateIP (fs : SysFs) (podName podNamespace : string) (interfaceNames : list string)
    (offset : Z) (ippools : list (string * IPPoolSpec)) (newAllocations : gmap string allocation)
    : go (gmap string allocation) :=
  match ippools with
  | [] => Ret newAllocations
  | (ippoolName, spec) :: rest =>
      match interfaceNames with
      | [] => Ret newAllocations (* no more interfaces to allocate *)
      | _ =>
          match match_interface fs (p_InterfaceName spec) interfaceNames 0 with
          | None =>
              allocateIP fs podName podNamespace interfaceNames offset rest newAllocations
          | Some (deleteIndex, originalInterfaceName) =>
              let interfaceNames := remove_at interfaceNames deleteIndex in
              next ← nextAllocation spec offset;
              let newAllocations :=
                match next with
                | Some (nextIndex, nextAddress) =>
                    <[ippoolName :=
                        mkNew (mkAllocation podName podNamespace nextIndex nextAddress)
                          originalInterfaceName]> newAllocations
                | None => newAllocations
                end in
              allocateIP fs podName podNamespace interfaceNames offset rest newAllocations
          end
      end
  end.

(** the position of the LAST allocation with a greater index *)
Fixpoint toInsertIndex_from (allocations : list Allocation) (allocationIndex : nat) (newIndex : Z)
    (acc : option nat) : option nat :=
  match allocations with
  | [] => acc
  | a :: rest =>
      toInsertIndex_from rest (S allocationIndex) newIndex
        (if newIndex <? a_Index a then Some allocationIndex else acc)
  end.

(** [append(allocations[0:i], new)] has room in the backing array that
    [allocations] still refers to, and overwrites its element [i] *)
Definition insertAllocation (allocations : list Allocation) (new : Allocation)
    : list Allocation :=
  match toInsertIndex_from allocations 0 (a_Index new) None with
  | None => allocations ++ [new]
  | Some i =>
      let backing := overwrite allocations i [new] in
      let appendedAllocation := take (S i) backing in
      appendedAllocation ++ drop i backing
  end.

Section server.
Context {W : Type} `{IPPoolAPI W} `{MapRange}.

(** world, and the responses or a panic *)
Fixpoint applyNewAllocations (w : W) (ippoolSpecMap : gmap string IPPoolSpec)
    (newAllocations : list (string * allocation)) : W * go (list IPResponse) :=
  match newAllocations with
  | [] => (w, Ret [])
  | (ippoolName, newAllocation) :: rest =>
      let spec := default (mkIPPoolSpec "" "" "" "" "" [] []) (ippoolSpecMap !! ippoolName) in
      let allocations := insertAllocation (p_Allocations spec) (n_Allocation newAllocation) in
      let '(w', err_nil) := PatchIPPool w ippoolName allocations in
      if err_nil : bool then
        match Compute.after_slash (p_VlanCIDR spec) with
        | Panic => (w', Panic)
        | Ret block =>
            let response :=
              mkIPResponse (n_interfaceName newAllocation)
                (a_Address (n_Allocation newAllocation)) block in
            let '(w'', responses) := applyNewAllocations w' ippoolSpecMap rest in
            (w'', (λ l, response :: l) <$> responses)
        end
      else applyNewAllocations w' ippoolSpecMap rest
  end.

(** ** The service *)

Record daemon := mkDaemon {
  d_locked : bool;                             (* allocatorLock *)
  d_history : gmap string allocateRecord;      (* deallocateHistory *)
  d_world : W
}.

(** [Blocked]: waits for a mutex that is held; [Crashed]: the handler panics
    and leaves this state behind *)
Inductive outcome (A : Type) :=
| Done (d : daemon) (a : A)
| Blocked (d : daemon)
| Crashed (d : daemon).

Definition host_def_selector (hostName defName : string) : list (string * string) :=
  [("hostname", hostName); ("netname", defName)].

Definition AllocateIP (fs : SysFs) (clk : string → Z) (req : IPRequest) (d : daemon)
    : outcome (list IPResponse) :=
  let podName := rq_PodName req in
  let history := FlushExpiredHistory clk (d_history d) in
  let '(offset, history) :=
    match history !! podName with
    | Some record =>
        let last := ar_LastOffset record + 1 in
        (last, <[podName := mkRecord (ar_Time record) last]> history)
    | None => (1, history)
    end in
  if d_locked d then Blocked _ (mkDaemon true history (d_world d)) else
  match ListIPPool (d_world d) (host_def_selector (rq_HostName req) (rq_NetAttachDefName req)) with
  | Err _ => Done _ (mkDaemon false history (d_world d)) []
  | Ok ippoolSpecMap =>
      if bool_decide (ippoolSpecMap = ∅) then Done _ (mkDaemon false history (d_world d)) []
      else
        match allocateIP fs podName (rq_PodNamespace req) (rq_InterfaceNames req) offset
                (range_map ippoolSpecMap) ∅ with
        | Panic => Crashed _ (mkDaemon true history (d_world d))
        | Ret newAllocations =>
            match applyNewAllocations (d_world d) ippoolSpecMap (range_map newAllocations) with
            | (w, Ret responses) => Done _ (mkDaemon false history w) responses
            | (w, Panic) => Crashed _ (mkDaemon true history w)
            end
        end
  end.

(** ** Deallocation *)

(** the name in the response: the requested virtual function of the pool's
    interface, or the pool's interface *)
Fixpoint responseInterface (fs : SysFs) (poolInterface : string) (interfaceNames : list string)
    : string :=
  match interfaceNames with
  | [] => poolInterface
  | vfInterfaceName :: rest =>
      if isVF fs vfInterfaceName
         && bool_decide (getPFInterfaceName fs vfInterfaceName = poolInterface)
      then vfInterfaceName
      else responseInterface fs poolInterface rest
  end.

Fixpoint find_allocation (podName podNamespace : string) (allocations : list Allocation)
    (index : nat) : option (nat * Allocation) :=
  match allocations with
  | [] => None
  | a :: rest =>
      if bool_decide (a_Pod a = podName) && bool_decide (a_Namespace a = podNamespace)
      then Some (index, a)
      else find_allocation podName podNamespace rest (S index)
  end.

Fixpoint DeallocateIP_loop (fs : SysFs) (req : IPRequest) (w : W)
    (ippools : list (string * IPPoolSpec)) : W * go (list IPResponse) :=
  match ippools with
  | [] => (w, Ret [])
  | (ippoolName, spec) :: rest =>
      if bool_decide (p_NetAttachDefName spec = rq_NetAttachDefName req)
         && Strings.Contains (p_HostName spec) (rq_HostName req)
      then
        match find_allocation (rq_PodName req) (rq_PodNamespace req) (p_Allocations spec) 0 with
        | None => DeallocateIP_loop fs req w rest
        | Some (index, allocation) =>
            let allocations := remove_at (p_Allocations spec) index in
            let '(w', _) := PatchIPPool w ippoolName allocations in
            match Compute.after_slash (p_VlanCIDR spec) with
            | Panic => (w', Panic)
            | Ret block =>
                let response :=
                  mkIPResponse
                    (responseInterface fs (p_InterfaceName spec) (rq_InterfaceNames req))
                    (a_Address allocation) block in
                let '(w'', responses) := DeallocateIP_loop fs req w' rest in
                (w'', (λ l, response :: l) <$> responses)
            end
        end
      else DeallocateIP_loop fs req w rest
  end.

(** the error return leaves the mutex locked *)
Definition DeallocateIP (fs : SysFs) (now : Z) (req : IPRequest) (d : daemon)
    : outcome (list IPResponse) :=
  let podName := rq_PodName req in
  let history :=
    match d_history d !! podName with
    | Some _ => d_history d
    | None => <[podName := mkRecord now 1]> (d_history d)
    end in
  if d_locked d then Blocked _ (mkDaemon true history (d_world d)) else
  match ListIPPool (d_world d) (host_def_selector (rq_HostName req) (rq_NetAttachDefName req)) with
  | Err _ => Done _ (mkDaemon true history (d_world d)) []
  | Ok ippoolSpecMap =>
      match DeallocateIP_loop fs req (d_world d) (range_map ippoolSpecMap) with
      | (w, Ret responses) => Done _ (mkDaemon false history w) responses
      | (w, Panic) => Crashed _ (mkDaemon true history w)
      end
  end.

(** [getPod name namespace]: whether the pod is found without error *)
Fixpoint CleanHanging_loop (getPod : string → string → bool) (w : W)
    (ippools : list (string * IPPoolSpec)) : W :=
  match ippools with
  | [] => w
  | (ippoolName, spec) :: rest =>
      let remains := filter (λ a, getPod (a_Pod a) (a_Namespace a) = true) (p_Allocations spec) in
      CleanHanging_loop getPod (fst (PatchIPPool w ippoolName remains)) rest
  end.

Definition CleanHangingAllocation (getPod : string → string → bool) (hostName : string) (w : W)
    : W * bool :=
  match ListIPPool w [("hostname", hostName)] with
  | Err _ => (w, false)
  | Ok ippoolSpecMap => (CleanHanging_loop getPod w (range_map ippoolSpecMap), true)
  end.

(** the allocator of a process that starts (main.go): the package's variables, and
    [CleanHangingAllocation] before the first request; its error is dropped *)
Definition start_allocator (getPod : string → string → bool) (hostName : string) (w : W) : daemon :=
  mkDaemon false ∅ (fst (CleanHangingAllocation getPod hostName w)).
End server.

Arguments daemon W : clear implicits.
Arguments outcome W A : clear implicits.
Arguments Done {W A} _ _.
Arguments Blocked {W A} _.
Arguments Crashed {W A} _.

(** ** An in-memory store of pools, with a list of operations that fail

    The instance the examples and the witnesses run on: pools with their
    labels; [ms_down] makes every operation fail. *)

Record memstore := mkStore {
  ms_pools : gmap string (gmap string string * IPPoolSpec);
  ms_down : bool
}.

Definition selects (sel : list (string * string)) (labels : gmap string string) : bool :=
  forallb (λ kv, bool_decide (labels !! kv.1 = Some kv.2)) sel.

#[export] Instance memstore_api : IPPoolAPI memstore := {|
  ListIPPool w sel :=
    if ms_down w then Err "unavailable"
    else Ok (snd <$> filter (λ kv, selects sel kv.2.1 = true) (ms_pools w));
  PatchIPPool w name l :=
    if ms_down w then (w, false)
    else match ms_pools w !! name with
         | None => (w, false)
         | Some (labels, spec) =>
             (mkStore (<[name := (labels, set_Allocations spec l)]> (ms_pools w)) false, true)
         end
|}.

Definition mem_pool_at (w : memstore) (name : string) : option IPPoolSpec :=
  snd <$> ms_pools w !! name.
