(* ===== verification/AllocatorSpec.v ===== *)
(** * Correctness of the daemon's IP allocation

    Lemmas about [Allocator]: the daemon's index search is the operator's, a
    chosen index is fresh and its address is the one the operator maps back to
    it; what the allocation and deallocation handlers do to the stored pools
    and to the lock. *)

From S2P Require Import Prelude GoLib Types.
From S2P Require Compute.
From S2P Require Import ComputeSpec Allocator.

(** ** The index search *)

Lemma daemon_fia_fuel fuel : ∀ l left,
  FindAvailableIndex_fuel fuel l left = Compute.FindAvailableIndex_fuel fuel l left 1.
Proof.
  induction fuel as [|fuel IH]; intros l left; [done|]. simpl.
  destruct (last l) as [lst|], l as [|x l]; try done.
  replace (Z.of_nat (length (x :: l)) - 1 + 1) with (Z.of_nat (length (x :: l))) by lia.
  do 2 (case_match; [done|]). rewrite (IH (take _ _)).
  apply option_bind_ext; [|done]. intros r. case_match; [done|]. apply IH.
Qed.

Lemma daemon_fia l left : FindAvailableIndex l left = Compute.FindAvailableIndex l left 1.
Proof. unfold FindAvailableIndex. by rewrite daemon_fia_fuel. Qed.

(** ** Used indexes *)

(** the indexes of a pool that are taken: allocated, or excluded and at most
    [maxIndex] *)
Definition used (spec : IPPoolSpec) (maxIndex : Z) : list Z :=
  (a_Index <$> p_Allocations spec) ++
  (getExcludeRanges (p_PodCIDR spec) (p_Excludes spec) ≫= exclude_indexes maxIndex).

Lemma elem_of_exclude_indexes m r i :
  i ∈ exclude_indexes m r ↔ MinIndex r ≤ i ≤ MaxIndex r ∧ i ≤ m.
Proof. unfold exclude_indexes. rewrite elem_of_seqZ. lia. Qed.

Lemma elem_of_used spec m i :
  i ∈ used spec m ↔
  (∃ a, (a ∈ p_Allocations spec) ∧ i = a_Index a) ∨
  (∃ r, (r ∈ getExcludeRanges (p_PodCIDR spec) (p_Excludes spec)) ∧
        MinIndex r ≤ i ≤ MaxIndex r ∧ i ≤ m).
Proof.
  unfold used. rewrite elem_of_app, list_elem_of_fmap, list_elem_of_bind.
  setoid_rewrite elem_of_exclude_indexes. f_equiv.
  - split; intros (a & ? & ?); eauto.
  - split; intros (r & ? & ?); eauto.
Qed.

(** a pool on a well-formed pod CIDR *)
Definition pool_net (spec : IPPoolSpec) (ip : list Z) (p : Z) : Prop :=
  cidr_text (p_PodCIDR spec) ip p ∧ net_addr (be ip) p.

(** what the daemon keeps true of the indexes of a pool: distinct, neither the
    network address nor beyond the last host address *)
Definition indexes_ok (spec : IPPoolSpec) (p : Z) : Prop :=
  NoDup (used spec (2 ^ (32 - p) - 2)) ∧
  Forall (λ i, 1 ≤ i ≤ 2 ^ (32 - p) - 2) (used spec (2 ^ (32 - p) - 2)).

Lemma pow2_minus_2 b : 0 ≤ b ≤ 54 → pow2_minus 2 b = 2 ^ b - 2.
Proof. intros. unfold pow2_minus. repeat zcase; lia. Qed.

Lemma getIPValue_text s ip p : cidr_text s ip p → Compute.Value (getIPValue s) = be ip.
Proof. intros H. by apply addrToValue_parse, (before_slash_text _ _ _ H). Qed.

Lemma getIPValue_exclude e ip q : exclude_net e ip q → Compute.Value (getIPValue e) = be ip.
Proof. intros H. by apply addrToValue_parse, (before_slash_exclude _ _ _ H). Qed.

Lemma cidr_block_exclude e ip q : exclude_net e ip q → cidr_block_or_32 e = q.
Proof.
  unfold cidr_block_or_32. intros [(a & m & -> & _ & Hm)|(-> & _ & ->)]; [|done].
  by apply prefix_len_ParseInt in Hm as [-> _].
Qed.

Lemma net_addr_room a p :
  0 ≤ a < 2 ^ 32 → 0 ≤ p ≤ 32 → net_addr a p → a + 2 ^ (32 - p) ≤ 2 ^ 32.
Proof.
  unfold net_addr. intros Ha Hp Hn. pose proof (pow2_pos (32 - p) ltac:(lia)).
  pose proof (Z.div_mod a (2 ^ (32 - p)) ltac:(lia)).
  assert (2 ^ 32 = 2 ^ p * 2 ^ (32 - p)) as Hs.
  { rewrite <- pow2_split by lia. f_equal. lia. }
  assert (a / 2 ^ (32 - p) < 2 ^ p) by (apply Z.div_lt_upper_bound; lia).
  rewrite Hs. nia.
Qed.

Lemma getAddressByIndex_text s ip p i :
  cidr_text s ip p → net_addr (be ip) p → 0 ≤ i < 2 ^ (32 - p) →
  ∃ x, getAddressByIndex s i = Net.ip_string x ∧ ip_ok x ∧ be x = be ip + i.
Proof.
  intros Ht Hn Hi. destruct (cidr_text_ok _ _ _ Ht) as [Hip Hp].
  pose proof (ip_ok_bound _ Hip). pose proof (net_addr_room (be ip) p ltac:(lia) Hp Hn).
  destruct (ValueToAddr_value (be ip + i) ltac:(lia)) as [Hok Hbe].
  exists (Compute.ValueToAddr (be ip + i)). split; [|done].
  unfold getAddressByIndex. by rewrite (getIPValue_text _ _ _ Ht).
Qed.

(** the operator maps the address back to the index *)
Lemma GetIndexInRange_address s ip p i :
  cidr_text s ip p → net_addr (be ip) p → 0 ≤ i < 2 ^ (32 - p) →
  Compute.GetIndexInRange s (getAddressByIndex s i) = Ret (true, i).
Proof.
  intros Ht Hn Hi. destruct (getAddressByIndex_text s ip p i Ht Hn Hi) as (x & -> & Hx & Hbe).
  rewrite (GetIndexInRange_eq _ _ _ _ Ht Hx). rewrite bool_decide_eq_true_2.
  - do 2 f_equal. lia.
  - apply in_net_range; [apply (cidr_text_ok _ _ _ Ht)|done|lia].
Qed.

(** an excluded range, as addresses *)
Lemma getExcludeRange_text s ip p e eip q :
  cidr_text s ip p → exclude_net e eip q → be ip ≤ be eip →
  getExcludeRange s e =
  Some (mkRange (be eip - be ip) (be eip - be ip + 2 ^ (32 - q) - 1)).
Proof.
  intros Hs He Hle. unfold getExcludeRange.
  rewrite (getIPValue_text _ _ _ Hs), (getIPValue_exclude _ _ _ He), (cidr_block_exclude _ _ _ He).
  destruct (Z.ltb_spec (be eip - be ip) 0); [lia|].
  destruct (exclude_net_ok _ _ _ He) as [_ Hq].
  rewrite pow2_minus_1 by lia. do 2 f_equal. lia.
Qed.

(** an index that is not used has an address outside the excluded networks *)
Lemma unused_not_excluded spec ip p i e eip q :
  pool_net spec ip p → i ≤ 2 ^ (32 - p) - 2 → i ∉ used spec (2 ^ (32 - p) - 2) →
  e ∈ p_Excludes spec → exclude_net e eip q → net_addr (be eip) q → be ip ≤ be eip →
  ~ in_net (be ip + i) (be eip) q.
Proof.
  intros [Ht Hn] Hi Hu He Hte Hne Hle. destruct (exclude_net_ok _ _ _ Hte) as [_ Hq].
  rewrite in_net_range by done. intros Hin. apply Hu, elem_of_used. right.
  eexists. split.
  - apply list_elem_of_omap. exists e. split; [done|]. by eapply getExcludeRange_text.
  - simpl. lia.
Qed.

(** ** The choice of an index *)

Lemma nextAllocation_eq spec ip p offset :
  pool_net spec ip p →
  nextAllocation spec offset =
  let maxIndex := 2 ^ (32 - p) - 2 in
  let indexes := sort_ints (used spec maxIndex) in
  let nextIndex := default 0 (last indexes) + offset in
  let free := FindAvailableIndex indexes 0 in
  Ret (if nextIndex <? maxIndex then
         Some (nextIndex, getAddressByIndex (p_PodCIDR spec) nextIndex)
       else if free =? -1 then None
       else Some (free, getAddressByIndex (p_PodCIDR spec) free)).
Proof.
  intros [Ht Hn]. destruct (cidr_text_ok _ _ _ Ht) as [_ Hp].
  destruct (after_slash_text _ _ _ Ht) as (m & Hm & Hmp).
  unfold nextAllocation. rewrite Hm. cbn [mbind go_bind]. rewrite Hmp.
  rewrite pow2_minus_2 by lia. cbv zeta.
  change (GenerateAllocateIndexes _ _ _) with (sort_ints (used spec (2 ^ (32 - p) - 2))).
  destruct (last _) as [x|]; unfold default, id, from_option; rewrite ?Z.add_0_l;
    repeat zcase; done.
Qed.

Lemma last_sort_bound l x y : last (sort_ints l) = Some x → y ∈ l → y ≤ x.
Proof.
  intros Hl Hy. eapply sorted_last_max; [apply sort_ints_sorted|exact Hl|].
  by apply elem_of_sort_ints.
Qed.

Lemma default_last_bound l y : y ∈ l → y ≤ default 0 (last (sort_ints l)).
Proof.
  intros Hy. destruct (last (sort_ints l)) as [x|] eqn:E; simpl.
  - by eapply last_sort_bound.
  - apply last_None in E. rewrite <- elem_of_sort_ints, E in Hy. by apply elem_of_nil in Hy.
Qed.

Lemma default_last_nonneg l :
  Forall (λ i, 1 ≤ i) l → 0 ≤ default 0 (last (sort_ints l)).
Proof.
  intros Hl. destruct (last (sort_ints l)) as [x|] eqn:E; simpl; [|lia].
  apply last_Some_elem_of in E. rewrite elem_of_sort_ints in E.
  rewrite Forall_forall in Hl. specialize (Hl x E). lia.
Qed.

(** the sorted indexes of a pool, searched for a gap *)
Lemma pool_gap l :
  NoDup l → Forall (λ i, 1 ≤ i) l →
  gap_spec (sort_ints l) 1 (FindAvailableIndex (sort_ints l) 0).
Proof.
  intros Hnd Hl. rewrite daemon_fia.
  apply (fia_gap (S (length (sort_ints l))) _ 0 1); [lia|by apply sort_ints_lt|lia|].
  rewrite sort_ints_perm. done.
Qed.

(** the index chosen in a pool is unused and a host index; a refusal means
    that the used indexes are exactly 1, 2, ... and the next one is too large *)
Lemma nextAllocation_spec spec ip p offset :
  pool_net spec ip p → indexes_ok spec p → 1 ≤ offset →
  let l := used spec (2 ^ (32 - p) - 2) in
  (∃ i, nextAllocation spec offset = Ret (Some (i, getAddressByIndex (p_PodCIDR spec) i)) ∧
        1 ≤ i ≤ 2 ^ (32 - p) - 2 ∧ i ∉ l) ∨
  (nextAllocation spec offset = Ret None ∧
   (∀ k, k ∈ l ↔ 1 ≤ k < 1 + Z.of_nat (length l)) ∧
   2 ^ (32 - p) - 2 ≤ Z.of_nat (length l) + offset).
Proof.
  intros Hnet [Hnd Hrange] Hoff l. rewrite (nextAllocation_eq _ _ _ _ Hnet). cbv zeta. fold l.
  assert (Forall (λ i, 1 ≤ i) l) as H1 by (eapply Forall_impl; [exact Hrange|simpl; lia]).
  pose proof (default_last_nonneg l H1). destruct (Z.ltb_spec (default 0 (last (sort_ints l)) + offset)
    (2 ^ (32 - p) - 2)) as [Hlt|Hge].
  - left. eexists. split; [done|]. split; [lia|]. intros Hin%default_last_bound. lia.
  - pose proof (pool_gap l Hnd H1) as [[-> Hall]|(Hb & Hout & Hbelow & y & Hy & Hry)].
    + right. split; [done|]. setoid_rewrite (Permutation_length (sort_ints_perm l)) in Hall.
      assert (∀ k, k ∈ l ↔ 1 ≤ k < 1 + Z.of_nat (length l)) as Hall'.
      { intros k. by rewrite <- Hall, elem_of_sort_ints. }
      split; [done|]. destruct (last (sort_ints l)) as [x|] eqn:E; simpl in Hge; [|lia].
      apply last_Some_elem_of in E. rewrite elem_of_sort_ints, Hall' in E. lia.
    + destruct (Z.eqb_spec (FindAvailableIndex (sort_ints l) 0) (-1)); [lia|].
      left. eexists. split; [done|]. rewrite elem_of_sort_ints in Hout, Hy.
      rewrite Forall_forall in Hrange. specialize (Hrange y Hy). split; [lia|done].
Qed.

(** ** Recording an allocation in a pool *)

Lemma toInsertIndex_none l n new acc :
  Forall (λ a, a_Index a ≤ new) l → toInsertIndex_from l n new acc = acc.
Proof.
  intros Hl. revert n acc. induction Hl as [|a l Ha Hl IH]; intros n acc; [done|].
  simpl. rewrite IH. destruct (Z.ltb_spec new (a_Index a)); [lia|done].
Qed.

Lemma toInsertIndex_some l1 a l2 n new acc :
  new < a_Index a → Forall (λ a, a_Index a ≤ new) l2 →
  toInsertIndex_from (l1 ++ a :: l2) n new acc = Some (n + length l1)%nat.
Proof.
  intros Ha Hl2. revert n acc. induction l1 as [|b l1 IH]; intros n acc; simpl.
  - destruct (Z.ltb_spec new (a_Index a)); [|lia]. rewrite toInsertIndex_none by done.
    f_equal. lia.
  - rewrite IH. f_equal. lia.
Qed.

Lemma insertAllocation_append l new :
  Forall (λ a, a_Index a ≤ a_Index new) l → insertAllocation l new = l ++ [new].
Proof. intros H. unfold insertAllocation. by rewrite toInsertIndex_none. Qed.

(** an allocation with a greater index is overwritten and the new one doubled *)
Lemma insertAllocation_overwrite l1 a l2 new :
  a_Index new < a_Index a → Forall (λ b, a_Index b ≤ a_Index new) l2 →
  insertAllocation (l1 ++ a :: l2) new = l1 ++ [new; new] ++ l2.
Proof.
  intros Ha Hl2. unfold insertAllocation. rewrite (toInsertIndex_some l1 a l2) by done.
  rewrite Nat.add_0_l. unfold overwrite.
  rewrite take_app_length, Nat.add_1_r.
  rewrite (drop_app_ge l1 (a :: l2)) by lia.
  replace (S (length l1) - length l1)%nat with 1%nat by lia. cbn [length drop].
  rewrite drop_app_length.
  replace (S (length l1)) with (length l1 + 1)%nat by lia. rewrite take_app_add.
  rewrite <- app_assoc. done.
Qed.

(** whatever the path, the new allocation is recorded *)
Lemma insertAllocation_new l new : new ∈ insertAllocation l new.
Proof.
  unfold insertAllocation. destruct (toInsertIndex_from _ _ _ _) as [i|].
  - apply elem_of_app. left. unfold overwrite.
    destruct (le_lt_dec (length l) i) as [Hi|Hi].
    + rewrite (take_ge l), (drop_ge l) by (simpl; lia). rewrite take_ge; [set_solver|].
      rewrite !length_app. simpl. lia.
    + replace (S i) with (length (take i l) + 1)%nat by (rewrite length_take; lia).
      rewrite take_app_add. set_solver.
  - set_solver.
Qed.

Lemma used_append spec new m :
  used (set_Allocations spec (p_Allocations spec ++ [new])) m
  ≡ₚ a_Index new :: used spec m.
Proof.
  unfold used. simpl. rewrite fmap_app. simpl. rewrite <- app_assoc. simpl.
  by rewrite <- Permutation_middle.
Qed.

(** an index beyond all the used ones keeps the pool well formed *)
Lemma indexes_ok_append spec p new :
  indexes_ok spec p → 1 ≤ a_Index new ≤ 2 ^ (32 - p) - 2 →
  a_Index new ∉ used spec (2 ^ (32 - p) - 2) →
  indexes_ok (set_Allocations spec (p_Allocations spec ++ [new])) p.
Proof.
  intros [Hnd Hr] Hi Hu. unfold indexes_ok. rewrite used_append. split.
  - by apply NoDup_cons.
  - by apply Forall_cons.
Qed.

Lemma indexes_ok_sublist spec p l :
  indexes_ok spec p → l `sublist_of` p_Allocations spec → indexes_ok (set_Allocations spec l) p.
Proof.
  intros [Hnd Hr] Hl. unfold indexes_ok.
  assert (used (set_Allocations spec l) (2 ^ (32 - p) - 2)
          `sublist_of` used spec (2 ^ (32 - p) - 2)) as Hs.
  { unfold used. simpl. by apply sublist_app; [apply fmap_sublist|]. }
  split; [by eapply sublist_NoDup|].
  rewrite Forall_forall in *. intros x Hx. apply Hr. by eapply elem_of_sublist.
Qed.

Lemma remove_at_sublist {A} (l : list A) i : remove_at l i `sublist_of` l.
Proof.
  unfold remove_at. rewrite <- (take_drop i l) at 3. apply sublist_app; [done|].
  rewrite <- Nat.add_1_r, <- drop_drop. apply sublist_drop.
Qed.

Lemma find_allocation_spec pod ns l n :
  match find_allocation pod ns l n with
  | Some (i, a) => ∃ l1 l2, l = l1 ++ a :: l2 ∧ i = (n + length l1)%nat ∧
                     a_Pod a = pod ∧ a_Namespace a = ns ∧
                     Forall (λ b, ~ (a_Pod b = pod ∧ a_Namespace b = ns)) l1
  | None => Forall (λ b, ~ (a_Pod b = pod ∧ a_Namespace b = ns)) l
  end.
Proof.
  revert n. induction l as [|b l IH]; intros n; simpl; [constructor|].
  destruct (bool_decide _ && bool_decide _) eqn:E.
  - apply andb_true_iff in E as [?%bool_decide_eq_true ?%bool_decide_eq_true].
    exists [], l. simpl. split_and!; [done|lia|done..].
  - assert (~ (a_Pod b = pod ∧ a_Namespace b = ns)) as Hb.
    { intros [??]. rewrite !bool_decide_eq_true_2 in E; done. }
    specialize (IH (S n)). destruct (find_allocation pod ns l (S n)) as [[i a]|].
    + destruct IH as (l1 & l2 & -> & -> & ? & ? & ?). exists (b :: l1), l2. simpl.
      split_and!; [done|lia|done|done|by constructor].
    + by constructor.
Qed.

Lemma remove_at_middle {A} (l1 l2 : list A) a : remove_at (l1 ++ a :: l2) (length l1) = l1 ++ l2.
Proof.
  unfold remove_at. rewrite take_app_length.
  rewrite (drop_app_ge l1) by lia. by replace (S (length l1) - length l1)%nat with 1%nat by lia.
Qed.

(** ** The allocations chosen for a request *)

(** a new allocation of a pool: the pod's, at the index and address chosen *)
Definition chosen (pod ns : string) (offset : Z) (spec : IPPoolSpec) (new : allocation) : Prop :=
  a_Pod (n_Allocation new) = pod ∧ a_Namespace (n_Allocation new) = ns ∧
  nextAllocation spec offset =
    Ret (Some (a_Index (n_Allocation new), a_Address (n_Allocation new))).

Lemma allocateIP_chosen fs pod ns offset pools : ∀ ifaces acc m,
  allocateIP fs pod ns ifaces offset pools acc = Ret m →
  ∀ name new, m !! name = Some new →
    acc !! name = Some new ∨ ∃ spec, ((name, spec) ∈ pools) ∧ chosen pod ns offset spec new.
Proof.
  induction pools as [|[name0 spec0] pools IH]; intros ifaces acc m H name new Hm; simpl in H.
  { injection H as <-. by left. }
  destruct ifaces as [|i ifaces]; [injection H as <-; by left|].
  destruct (match_interface _ _ _ _) as [[di oi]|].
  - go_inv H. rename a into next.
    destruct (IH _ _ _ H _ _ Hm) as [Hacc|(spec & Hin & Hc)].
    + destruct next as [[idx addr]|]; [|by left].
      apply lookup_insert_Some in Hacc as [[<- <-]|[_ ?]]; [|by left].
      right. exists spec0. split; [by left|]. done.
    + right. exists spec. split; [by right|done].
  - destruct (IH _ _ _ H _ _ Hm) as [Hacc|(spec & Hin & Hc)]; [by left|].
    right. exists spec. split; [by right|done].
Qed.

(** with room beyond the greatest used index, the index chosen is the one after
    it, moved on by the retry offset *)
Lemma chosen_room spec ip p pod ns offset new :
  pool_net spec ip p → indexes_ok spec p → 1 ≤ offset →
  default 0 (last (sort_ints (used spec (2 ^ (32 - p) - 2)))) + offset < 2 ^ (32 - p) - 2 →
  chosen pod ns offset spec new →
  1 ≤ a_Index (n_Allocation new) ≤ 2 ^ (32 - p) - 2 ∧
  (∀ y, y ∈ used spec (2 ^ (32 - p) - 2) → y < a_Index (n_Allocation new)) ∧
  a_Address (n_Allocation new) = getAddressByIndex (p_PodCIDR spec) (a_Index (n_Allocation new)) ∧
  insertAllocation (p_Allocations spec) (n_Allocation new)
  = p_Allocations spec ++ [n_Allocation new].
Proof.
  intros Hnet [_ Hr] Hoff Hroom (_ & _ & Hnext).
  rewrite (nextAllocation_eq _ _ _ _ Hnet) in Hnext. cbv zeta in Hnext.
  rewrite (proj2 (Z.ltb_lt _ _) Hroom) in Hnext. injection Hnext as Hi Haddr.
  assert (Forall (λ i, 1 ≤ i) (used spec (2 ^ (32 - p) - 2))) as H1
    by (eapply Forall_impl; [exact Hr|simpl; lia]).
  pose proof (default_last_nonneg _ H1).
  assert (∀ y, y ∈ used spec (2 ^ (32 - p) - 2) → y < a_Index (n_Allocation new)) as Hmax.
  { intros y Hy%default_last_bound. lia. }
  split_and!; [lia|lia|exact Hmax|congruence|].
  apply insertAllocation_append, Forall_forall. intros a Ha.
  apply Z.lt_le_incl, Hmax, elem_of_used. left. eauto.
Qed.

Section server_spec.
Context {W : Type} {api : IPPoolAPI W} {ord : MapRange}
  (pool_at : W → string → option IPPoolSpec) {laws : IPPoolLaws W pool_at}.

Lemma patch_cases w name l w' b name' spec :
  PatchIPPool w name l = (w', b) → pool_at w name' = Some spec →
  pool_at w' name' = Some spec ∨
  (name' = name ∧ b = true ∧ pool_at w' name' = Some (set_Allocations spec l)).
Proof.
  intros H Hp. destruct (decide (name = name')) as [<-|Hne].
  - destruct b; [right; split_and!; [done..|by eapply patch_ok]|].
    left. by rewrite (patch_fail _ _ _ _ H).
  - left. by rewrite (patch_other _ _ _ _ _ _ H Hne).
Qed.

Definition pool_of (m : gmap string IPPoolSpec) (name : string) : IPPoolSpec :=
  default (mkIPPoolSpec "" "" "" "" "" [] []) (m !! name).

(** one round of the loop: a patch, then the rest or a panic *)
Lemma applyNewAllocations_step w m n0 new0 news w' r :
  applyNewAllocations w m ((n0, new0) :: news) = (w', r) →
  ∃ w1 b, PatchIPPool w n0 (insertAllocation (p_Allocations (pool_of m n0))
                              (n_Allocation new0)) = (w1, b) ∧
    ((w' = w1 ∧ r = Panic) ∨
     ∃ r', applyNewAllocations w1 m news = (w', r') ∧
       (r = r' ∨ ∃ blk, b = true ∧
          r = (λ l, mkIPResponse (n_interfaceName new0) (a_Address (n_Allocation new0)) blk :: l)
              <$> r')).
Proof.
  simpl. fold (pool_of m n0). destruct (PatchIPPool w n0 _) as [w1 b]. intros H.
  exists w1, b. split; [done|]. destruct b; [|right; eauto].
  destruct (Compute.after_slash _) as [blk|]; [|injection H as <- <-; by left].
  destruct (applyNewAllocations w1 m news) as [w2 r2]. injection H as <- <-.
  right. exists r2. split; [done|]. right. by exists blk.
Qed.

Lemma applyNewAllocations_frame m news : ∀ w w' r name,
  applyNewAllocations w m news = (w', r) → name ∉ news.*1 → pool_at w' name = pool_at w name.
Proof.
  induction news as [|[n0 new0] news IH]; intros w w' r name H Hn.
  { injection H as <- <-. done. }
  apply not_elem_of_cons in Hn as [Hne Hn].
  apply applyNewAllocations_step in H as (w1 & b & Hpatch & Hrest).
  rewrite <- (patch_other _ _ _ name _ _ Hpatch) by done.
  destruct Hrest as [[-> _]|(r' & H & _)]; [done|]. by eapply IH.
Qed.

(** every pool keeps its allocations or records its new allocation *)
Lemma applyNewAllocations_pools m news : ∀ w w' r name spec,
  applyNewAllocations w m news = (w', r) → NoDup news.*1 →
  pool_at w name = Some spec → m !! name = Some spec →
  pool_at w' name = Some spec ∨
  ∃ new, ((name, new) ∈ news) ∧
    pool_at w' name = Some (set_Allocations spec
                             (insertAllocation (p_Allocations spec) (n_Allocation new))).
Proof.
  induction news as [|[n0 new0] news IH]; intros w w' r name spec H Hnd Hp Hm.
  { injection H as <- <-. by left. }
  apply NoDup_cons in Hnd as [Hn0 Hnd].
  apply applyNewAllocations_step in H as (w1 & b & Hpatch & Hrest).
  destruct (decide (n0 = name)) as [->|Hne].
  - assert (pool_at w' name = pool_at w1 name) as ->.
    { destruct Hrest as [[-> _]|(r' & H & _)]; [done|].
      by eapply applyNewAllocations_frame. }
    unfold pool_of in Hpatch. rewrite Hm in Hpatch.
    destruct (patch_cases _ _ _ _ _ name spec Hpatch Hp) as [?|(_ & _ & ?)]; [by left|].
    right. exists new0. split; [by left|done].
  - assert (pool_at w1 name = Some spec) as Hp1
      by (by rewrite (patch_other _ _ _ _ _ _ Hpatch Hne)).
    destruct Hrest as [[-> _]|(r' & H & _)]; [by left|].
    destruct (IH _ _ _ _ _ H Hnd Hp1 Hm) as [?|(new & ? & ?)]; [by left|].
    right. exists new. split; [by right|done].
Qed.

(** every response is backed by a recorded allocation *)
Lemma applyNewAllocations_responses m news : ∀ w w' rs rsp,
  applyNewAllocations w m news = (w', Ret rs) → NoDup news.*1 →
  (∀ name new, (name, new) ∈ news → ∃ spec, m !! name = Some spec ∧ pool_at w name = Some spec) →
  rsp ∈ rs →
  ∃ name new spec, ((name, new) ∈ news) ∧ m !! name = Some spec ∧
    rs_IPAddress rsp = a_Address (n_Allocation new) ∧
    rs_InterfaceName rsp = n_interfaceName new ∧
    pool_at w' name = Some (set_Allocations spec
                             (insertAllocation (p_Allocations spec) (n_Allocation new))).
Proof.
  induction news as [|[n0 new0] news IH]; intros w w' rs rsp H Hnd Hnews Hrsp.
  { injection H as <- <-. by apply elem_of_nil in Hrsp. }
  apply NoDup_cons in Hnd as [Hn0 Hnd].
  apply applyNewAllocations_step in H as (w1 & b & Hpatch & [[_ ?]|(r' & H & Hr)]); [done|].
  assert (∀ rs', r' = Ret rs' → rsp ∈ rs' → ∃ name new spec, ((name, new) ∈ (n0, new0) :: news) ∧
    m !! name = Some spec ∧ rs_IPAddress rsp = a_Address (n_Allocation new) ∧
    rs_InterfaceName rsp = n_interfaceName new ∧
    pool_at w' name = Some (set_Allocations spec
                             (insertAllocation (p_Allocations spec) (n_Allocation new)))) as Hrec.
  { intros rs' -> Hin. enough (∀ name new, (name, new) ∈ news →
      ∃ spec, m !! name = Some spec ∧ pool_at w1 name = Some spec) as Hnews1.
    { destruct (IH w1 w' rs' rsp H Hnd Hnews1 Hin) as (name & new & spec & ? & ?).
      exists name, new, spec. split; [by right|done]. }
    intros name new Hin'. destruct (Hnews name new) as (spec & ? & ?); [by right|].
    exists spec. split; [done|]. rewrite (patch_other _ _ _ _ _ _ Hpatch); [done|].
    intros ->. apply Hn0. apply (list_elem_of_fmap_2 fst _ (name, new)). done. }
  destruct Hr as [Hr|(blk & -> & Hr)]; [by eapply Hrec|].
  destruct r' as [rs'|]; [|done]. injection Hr as ->.
  apply elem_of_cons in Hrsp as [->|Hrsp]; [|by eapply Hrec].
  destruct (Hnews n0 new0) as (spec & Hm & Hp); [by left|].
  exists n0, new0, spec. split_and!; [by left|done..|].
  rewrite (applyNewAllocations_frame _ _ _ _ _ n0 H) by done.
  unfold pool_of in Hpatch. rewrite Hm in Hpatch. by eapply patch_ok.
Qed.
(** ** The handlers *)

Definition state_of {A} (o : outcome W A) : daemon W :=
  match o with Done d _ => d | Blocked d => d | Crashed d => d end.

(** the offset of a request: 1, or one more than at the last retry of a pod
    deallocated less than [HISTORY_TIMEOUT] ago *)
Definition offset_of (clk : string → Z) (h : gmap string allocateRecord) (pod : string) : Z :=
  match FlushExpiredHistory clk h !! pod with Some r => ar_LastOffset r + 1 | None => 1 end.

Definition history_ok (h : gmap string allocateRecord) : Prop :=
  ∀ pod r, h !! pod = Some r → 1 ≤ ar_LastOffset r.

Lemma flush_lookup clk h pod r :
  FlushExpiredHistory clk h !! pod = Some r ↔
  h !! pod = Some r ∧ Expired (clk pod) r = false.
Proof. unfold FlushExpiredHistory. by rewrite map_lookup_filter_Some. Qed.

Lemma offset_pos clk h pod : history_ok h → 1 ≤ offset_of clk h pod.
Proof.
  intros Hh. unfold offset_of. destruct (_ !! pod) as [r|] eqn:E; [|lia].
  apply flush_lookup in E as [E _]. apply Hh in E. lia.
Qed.

(** what one request allocates: the new allocations of the pools it lists *)
Definition request_news (fs : SysFs) (clk : string → Z) (req : IPRequest) (d : daemon W)
    (m : gmap string IPPoolSpec) : go (gmap string allocation) :=
  allocateIP fs (rq_PodName req) (rq_PodNamespace req) (rq_InterfaceNames req)
    (offset_of clk (d_history d) (rq_PodName req)) (range_map m) ∅.

Lemma AllocateIP_cases fs clk req d :
  d_locked d = false →
  let o := AllocateIP fs clk req d in
  (∃ d', o = Done d' [] ∧ d_locked d' = false ∧ d_world d' = d_world d) ∨
  (∃ m, ListIPPool (d_world d) (host_def_selector (rq_HostName req) (rq_NetAttachDefName req))
        = Ok m ∧
    ((request_news fs clk req d m = Panic ∧ ∃ d', o = Crashed d' ∧ d_world d' = d_world d) ∨
     ∃ news w r, request_news fs clk req d m = Ret news ∧
       applyNewAllocations (d_world d) m (range_map news) = (w, r) ∧
       d_world (state_of o) = w ∧
       match r with
       | Ret rs => ∃ d', o = Done d' rs ∧ d_locked d' = false
       | Panic => ∃ d', o = Crashed d'
       end)).
Proof.
  intros Hl. unfold request_news, offset_of, AllocateIP. rewrite Hl.
  destruct (FlushExpiredHistory clk (d_history d) !! rq_PodName req) as [rec|];
  (destruct (ListIPPool _ _) as [m|]; [|left; eauto];
   case_bool_decide; [left; eauto|]; right; exists m; split; [done|];
   destruct (allocateIP _ _ _ _ _ _ _) as [news|]; [|left; eauto];
   right; destruct (applyNewAllocations _ _ _) as [w [rs|]] eqn:E;
   [exists news, w, (Ret rs)|exists news, w, Panic]; simpl; eauto 10).
Qed.

Lemma request_news_chosen fs clk req d m news name new w :
  ListIPPool w (host_def_selector (rq_HostName req) (rq_NetAttachDefName req)) = Ok m →
  request_news fs clk req d m = Ret news → news !! name = Some new →
  ∃ spec, m !! name = Some spec ∧ pool_at w name = Some spec ∧
    chosen (rq_PodName req) (rq_PodNamespace req)
      (offset_of clk (d_history d) (rq_PodName req)) spec new.
Proof.
  intros Hlist Hn Hnew. unfold request_news in Hn.
  destruct (allocateIP_chosen _ _ _ _ _ _ _ _ Hn _ _ Hnew) as [H|(spec & Hin & Hc)].
  { by rewrite lookup_empty in H. }
  apply elem_of_range_map in Hin. exists spec. split; [done|]. split; [|done].
  by eapply list_sound.
Qed.

(** a request changes a pool only by recording one chosen allocation *)
Lemma AllocateIP_pools fs clk req d name spec :
  pool_at (d_world d) name = Some spec →
  pool_at (d_world (state_of (AllocateIP fs clk req d))) name = Some spec ∨
  ∃ new, chosen (rq_PodName req) (rq_PodNamespace req)
           (offset_of clk (d_history d) (rq_PodName req)) spec new ∧
    pool_at (d_world (state_of (AllocateIP fs clk req d))) name =
    Some (set_Allocations spec (insertAllocation (p_Allocations spec) (n_Allocation new))).
Proof.
  intros Hp. destruct (d_locked d) eqn:Hl.
  { left. unfold AllocateIP. rewrite Hl. by destruct (_ !! _). }
  destruct (AllocateIP_cases fs clk req d Hl)
    as [(d' & -> & _ & Hw)|(m & Hlist & [(_ & d' & -> & Hw)|(news & w & r & Hn & Ha & Hw & _)])];
    simpl; rewrite Hw; [by left..|].
  destruct (m !! name) as [spec'|] eqn:Hm.
  - pose proof (list_sound _ _ _ _ _ Hlist Hm) as Heq. rewrite Hp in Heq. injection Heq as <-.
    destruct (applyNewAllocations_pools _ _ _ _ _ _ _ Ha (range_map_keys_nodup news) Hp Hm)
      as [?|(new & Hin & ?)]; [by left|]. right. exists new. split; [|done].
    apply elem_of_range_map in Hin.
    destruct (request_news_chosen _ _ _ _ _ _ _ _ _ Hlist Hn Hin) as (s & Hs & _ & Hc).
    by simplify_eq.
  - left. rewrite (applyNewAllocations_frame _ _ _ _ _ name Ha); [done|].
    intros ([n new] & -> & Hin)%list_elem_of_fmap. apply elem_of_range_map in Hin.
    destruct (request_news_chosen _ _ _ _ _ _ _ _ _ Hlist Hn Hin) as (s & Hs & _).
    by simplify_eq/=.
Qed.

(** a request appends at most one allocation, the pod's, at an unused index, to
    a well-formed pool with room *)
Lemma AllocateIP_appends fs clk req d name spec ip p :
  pool_at (d_world d) name = Some spec → pool_net spec ip p → indexes_ok spec p →
  history_ok (d_history d) →
  default 0 (last (sort_ints (used spec (2 ^ (32 - p) - 2))))
    + offset_of clk (d_history d) (rq_PodName req) < 2 ^ (32 - p) - 2 →
  pool_at (d_world (state_of (AllocateIP fs clk req d))) name = Some spec ∨
  ∃ new, a_Pod new = rq_PodName req ∧ a_Namespace new = rq_PodNamespace req ∧
    1 ≤ a_Index new ≤ 2 ^ (32 - p) - 2 ∧ (a_Index new ∉ used spec (2 ^ (32 - p) - 2)) ∧
    a_Address new = getAddressByIndex (p_PodCIDR spec) (a_Index new) ∧
    pool_at (d_world (state_of (AllocateIP fs clk req d))) name
    = Some (set_Allocations spec (p_Allocations spec ++ [new])).
Proof.
  intros Hp Hnet Hok Hh Hroom.
  destruct (AllocateIP_pools fs clk req d name spec Hp) as [?|(new & Hc & Hp')]; [by left|].
  destruct (chosen_room _ _ _ _ _ _ _ Hnet Hok (offset_pos clk _ _ Hh) Hroom Hc)
    as (Hi & Hmax & Haddr & Hins).
  destruct Hc as (? & ? & _). rewrite Hins in Hp'. right. exists (n_Allocation new).
  split_and!; [done|done|lia|lia| |done|done]. intros Hin%Hmax. lia.
Qed.

(** a name without pool stays so *)
Lemma AllocateIP_absent fs clk req d name :
  pool_at (d_world d) name = None →
  pool_at (d_world (state_of (AllocateIP fs clk req d))) name = None.
Proof.
  intros Hp. destruct (d_locked d) eqn:Hl.
  { unfold AllocateIP. rewrite Hl. by destruct (_ !! _). }
  destruct (AllocateIP_cases fs clk req d Hl)
    as [(d' & -> & _ & Hw)|(m & Hlist & [(_ & d' & -> & Hw)|(news & w & r & Hn & Ha & Hw & _)])];
    simpl; rewrite Hw; [done..|].
  rewrite (applyNewAllocations_frame _ _ _ _ _ name Ha); [done|].
  intros ([n new] & -> & Hin)%list_elem_of_fmap. apply elem_of_range_map in Hin.
  destruct (request_news_chosen _ _ _ _ _ _ _ _ _ Hlist Hn Hin) as (s & _ & Hs & _).
  by simplify_eq/=.
Qed.

(** every address handed out is recorded for the pod *)
Lemma AllocateIP_responses fs clk req d d' rs rsp :
  AllocateIP fs clk req d = Done d' rs → rsp ∈ rs →
  ∃ name spec new, pool_at (d_world d) name = Some spec ∧
    chosen (rq_PodName req) (rq_PodNamespace req)
      (offset_of clk (d_history d) (rq_PodName req)) spec new ∧
    rs_IPAddress rsp = a_Address (n_Allocation new) ∧
    pool_at (d_world d') name =
    Some (set_Allocations spec (insertAllocation (p_Allocations spec) (n_Allocation new))).
Proof.
  intros H Hrsp. destruct (d_locked d) eqn:Hl.
  { exfalso. revert H. unfold AllocateIP. rewrite Hl. by destruct (_ !! _). }
  destruct (AllocateIP_cases fs clk req d Hl)
    as [(d1 & H1 & _)|(m & Hlist & [(_ & d1 & H1 & _)|(news & w & r & Hn & Ha & Hw & Hr)])];
    [rewrite H1 in H; simplify_eq; by apply elem_of_nil in Hrsp|congruence|].
  destruct r as [rs'|]; destruct Hr as (d1 & H1); [destruct H1 as [H1 _]|congruence].
  rewrite H1 in H, Hw. simplify_eq/=.
  assert (∀ name new, (name, new) ∈ range_map news →
    ∃ spec, m !! name = Some spec ∧ pool_at (d_world d) name = Some spec) as Hnews.
  { intros name new Hin%elem_of_range_map.
    destruct (request_news_chosen _ _ _ _ _ _ _ _ _ Hlist Hn Hin) as (s & ? & ? & _). eauto. }
  destruct (applyNewAllocations_responses _ _ _ _ _ _ Ha (range_map_keys_nodup news) Hnews Hrsp)
    as (name & new & spec & Hin & Hm & Haddr & _ & Hp).
  exists name, spec, new. apply elem_of_range_map in Hin.
  destruct (request_news_chosen _ _ _ _ _ _ _ _ _ Hlist Hn Hin) as (s & ? & ? & ?).
  by simplify_eq.
Qed.
(** ** Deallocation *)

Definition request_matches (req : IPRequest) (spec : IPPoolSpec) : bool :=
  bool_decide (p_NetAttachDefName spec = rq_NetAttachDefName req)
  && Strings.Contains (p_HostName spec) (rq_HostName req).

Definition pod_allocation (req : IPRequest) (spec : IPPoolSpec) : option (nat * Allocation) :=
  if request_matches req spec
  then find_allocation (rq_PodName req) (rq_PodNamespace req) (p_Allocations spec) 0
  else None.

Lemma DeallocateIP_loop_step fs req w n0 spec0 pools w' r :
  DeallocateIP_loop fs req w ((n0, spec0) :: pools) = (w', r) →
  match pod_allocation req spec0 with
  | None => DeallocateIP_loop fs req w pools = (w', r)
  | Some (i, a) =>
      ∃ w1 b, PatchIPPool w n0 (remove_at (p_Allocations spec0) i) = (w1, b) ∧
        ((w' = w1 ∧ r = Panic) ∨
         ∃ r', DeallocateIP_loop fs req w1 pools = (w', r') ∧ (r = Panic ↔ r' = Panic))
  end.
Proof.
  simpl. unfold pod_allocation. fold (request_matches req spec0).
  destruct (request_matches req spec0); [|done].
  destruct (find_allocation _ _ _ _) as [[i a]|]; [|done].
  destruct (PatchIPPool w n0 _) as [w1 b]. intros H. exists w1, b. split; [done|].
  destruct (Compute.after_slash _); [|injection H as <- <-; by left].
  destruct (DeallocateIP_loop fs req w1 pools) as [w2 r2]. injection H as <- <-.
  right. exists r2. split; [done|]. by destruct r2.
Qed.

Lemma DeallocateIP_loop_frame fs req pools : ∀ w w' r name,
  DeallocateIP_loop fs req w pools = (w', r) → name ∉ pools.*1 →
  pool_at w' name = pool_at w name.
Proof.
  induction pools as [|[n0 spec0] pools IH]; intros w w' r name H Hn.
  { injection H as <- <-. done. }
  apply not_elem_of_cons in Hn as [Hne Hn]. apply DeallocateIP_loop_step in H.
  destruct (pod_allocation req spec0) as [[i a]|]; [|by eapply IH].
  destruct H as (w1 & b & Hpatch & Hrest).
  rewrite <- (patch_other _ _ _ name _ _ Hpatch) by done.
  destruct Hrest as [[-> _]|(r' & H & _)]; [done|]. by eapply IH.
Qed.

(** a pool is left alone, or loses exactly the pod's first allocation *)
Lemma DeallocateIP_loop_pools fs req pools : ∀ w w' r name spec,
  DeallocateIP_loop fs req w pools = (w', r) → NoDup pools.*1 →
  (name, spec) ∈ pools → pool_at w name = Some spec →
  pool_at w' name = Some spec ∨
  ∃ i a, pod_allocation req spec = Some (i, a) ∧
    pool_at w' name = Some (set_Allocations spec (remove_at (p_Allocations spec) i)).
Proof.
  induction pools as [|[n0 spec0] pools IH]; intros w w' r name spec H Hnd Hin Hp.
  { by apply elem_of_nil in Hin. }
  apply NoDup_cons in Hnd as [Hn0 Hnd]. apply DeallocateIP_loop_step in H.
  apply elem_of_cons in Hin as [[= <- <-]|Hin].
  - destruct (pod_allocation req spec) as [[i a]|] eqn:Ea.
    + destruct H as (w1 & b & Hpatch & Hrest).
      assert (pool_at w' name = pool_at w1 name) as ->.
      { destruct Hrest as [[-> _]|(r' & H & _)]; [done|].
        by eapply DeallocateIP_loop_frame. }
      destruct (patch_cases _ _ _ _ _ name spec Hpatch Hp) as [?|(_ & _ & ?)]; [by left|].
      right. by exists i, a.
    + left. by rewrite (DeallocateIP_loop_frame _ _ _ _ _ _ name H Hn0).
  - assert (n0 ≠ name) as Hne.
    { intros ->. apply Hn0. by apply (list_elem_of_fmap_2 fst _ (name, spec)). }
    destruct (pod_allocation req spec0) as [[i a]|]; [|by eapply IH].
    destruct H as (w1 & b & Hpatch & Hrest).
    assert (pool_at w1 name = Some spec) as Hp1
      by (by rewrite (patch_other _ _ _ _ _ _ Hpatch Hne)).
    destruct Hrest as [[-> _]|(r' & H & _)]; [by left|]. by eapply IH.
Qed.

Lemma DeallocateIP_pools fs now req d name spec :
  pool_at (d_world d) name = Some spec →
  pool_at (d_world (state_of (DeallocateIP fs now req d))) name = Some spec ∨
  ∃ i a, pod_allocation req spec = Some (i, a) ∧
    pool_at (d_world (state_of (DeallocateIP fs now req d))) name =
    Some (set_Allocations spec (remove_at (p_Allocations spec) i)).
Proof.
  intros Hp. unfold DeallocateIP. destruct (d_locked d); [by left|].
  destruct (ListIPPool _ _) as [m|] eqn:Hlist; [|by left].
  destruct (DeallocateIP_loop _ _ _ _) as [w r] eqn:Hloop.
  assert (pool_at w name = Some spec ∨ ∃ i a, pod_allocation req spec = Some (i, a) ∧
    pool_at w name = Some (set_Allocations spec (remove_at (p_Allocations spec) i))) as Hres.
  { destruct (m !! name) as [spec'|] eqn:Hm.
    - pose proof (list_sound _ _ _ _ _ Hlist Hm) as Heq. rewrite Hp in Heq. injection Heq as <-.
      eapply DeallocateIP_loop_pools; [done|apply range_map_keys_nodup| |done].
      by apply elem_of_range_map.
    - left. rewrite (DeallocateIP_loop_frame _ _ _ _ _ _ name Hloop); [done|].
      intros ([n s] & -> & Hin%elem_of_range_map)%list_elem_of_fmap. by simplify_eq/=. }
  by destruct r.
Qed.

Lemma DeallocateIP_absent fs now req d name :
  pool_at (d_world d) name = None →
  pool_at (d_world (state_of (DeallocateIP fs now req d))) name = None.
Proof.
  intros Hp. unfold DeallocateIP. destruct (d_locked d); [done|].
  destruct (ListIPPool _ _) as [m|] eqn:Hlist; [|done].
  destruct (DeallocateIP_loop _ _ _ _) as [w r] eqn:Hloop.
  assert (pool_at w name = None); [|by destruct r].
  rewrite (DeallocateIP_loop_frame _ _ _ _ _ _ name Hloop); [done|].
  intros ([n s] & -> & Hin%elem_of_range_map)%list_elem_of_fmap. simpl in *.
  by rewrite (list_sound _ _ _ _ _ Hlist Hin) in Hp.
Qed.

(** ** The history of a daemon *)

Lemma AllocateIP_history fs clk req d :
  history_ok (d_history d) → history_ok (d_history (state_of (AllocateIP fs clk req d))).
Proof.
  intros Hh. set (h := FlushExpiredHistory clk (d_history d)).
  assert (history_ok h) as Hf by (intros pod r [? _]%flush_lookup; by eapply Hh).
  assert (∀ r, h !! rq_PodName req = Some r →
    history_ok (<[rq_PodName req := mkRecord (ar_Time r) (ar_LastOffset r + 1)]> h)) as Hi.
  { intros r Hr pod r' [[_ <-]|[_ ?]]%lookup_insert_Some; [|by eapply Hf].
    apply Hf in Hr. simpl. lia. }
  assert (d_history (state_of (AllocateIP fs clk req d))
    = match h !! rq_PodName req with
      | Some r => <[rq_PodName req := mkRecord (ar_Time r) (ar_LastOffset r + 1)]> h
      | None => h
      end) as ->.
  { unfold AllocateIP. fold h. destruct (h !! rq_PodName req);
      (destruct (d_locked d); [done|]; destruct (ListIPPool _ _); [|done];
       case_bool_decide; [done|]; destruct (allocateIP _ _ _ _ _ _ _); [|done];
       by destruct (applyNewAllocations _ _ _) as [? []]). }
  destruct (h !! rq_PodName req) eqn:E; eauto.
Qed.

Lemma DeallocateIP_history fs now req d :
  history_ok (d_history d) → history_ok (d_history (state_of (DeallocateIP fs now req d))).
Proof.
  intros Hh.
  assert (d_history (state_of (DeallocateIP fs now req d))
    = match d_history d !! rq_PodName req with
      | Some _ => d_history d
      | None => <[rq_PodName req := mkRecord now 1]> (d_history d)
      end) as ->.
  { unfold DeallocateIP. destruct (d_history d !! rq_PodName req);
      (destruct (d_locked d); [done|]; destruct (ListIPPool _ _); [|done];
       by destruct (DeallocateIP_loop _ _ _ _) as [? []]). }
  destruct (d_history d !! rq_PodName req); [done|].
  intros pod r [[_ <-]|[_ ?]]%lookup_insert_Some; [simpl; lia|by eapply Hh].
Qed.

(** the pod's allocation is the only one that goes *)
Lemma pod_allocation_remove req spec i a :
  pod_allocation req spec = Some (i, a) →
  a_Pod a = rq_PodName req ∧ a_Namespace a = rq_PodNamespace req ∧
  p_Allocations spec ≡ₚ a :: remove_at (p_Allocations spec) i.
Proof.
  unfold pod_allocation. destruct (request_matches req spec); [|done]. intros H.
  pose proof (find_allocation_spec (rq_PodName req) (rq_PodNamespace req)
    (p_Allocations spec) 0) as Hf. rewrite H in Hf.
  destruct Hf as (l1 & l2 & Heq & -> & ? & ? & _). split_and!; [done..|].
  rewrite Nat.add_0_l, Heq, remove_at_middle. by rewrite Permutation_middle.
Qed.

(** ** Hanging allocations *)

Lemma CleanHanging_loop_frame getPod pools : ∀ w name,
  name ∉ pools.*1 → pool_at (CleanHanging_loop getPod w pools) name = pool_at w name.
Proof.
  induction pools as [|[n0 spec0] pools IH]; intros w name Hn; [done|]. simpl.
  apply not_elem_of_cons in Hn as [Hne Hn]. rewrite IH by done.
  destruct (PatchIPPool w n0 _) as [w1 b] eqn:E. by eapply patch_other.
Qed.

Definition alive (getPod : string → string → bool) (l : list Allocation) : list Allocation :=
  filter (λ a, getPod (a_Pod a) (a_Namespace a) = true) l.

Lemma CleanHanging_loop_pools getPod pools : ∀ w name spec,
  NoDup pools.*1 → (name, spec) ∈ pools → pool_at w name = Some spec →
  pool_at (CleanHanging_loop getPod w pools) name = Some spec ∨
  pool_at (CleanHanging_loop getPod w pools) name =
    Some (set_Allocations spec (alive getPod (p_Allocations spec))).
Proof.
  induction pools as [|[n0 spec0] pools IH]; intros w name spec Hnd Hin Hp.
  { by apply elem_of_nil in Hin. }
  simpl. fold (alive getPod (p_Allocations spec0)). apply NoDup_cons in Hnd as [Hn0 Hnd].
  destruct (PatchIPPool w n0 _) as [w1 b] eqn:Hpatch. cbn [fst].
  apply elem_of_cons in Hin as [[= <- <-]|Hin].
  - rewrite CleanHanging_loop_frame by done.
    destruct (patch_cases _ _ _ _ _ name spec Hpatch Hp) as [?|(_ & _ & ?)]; auto.
  - apply IH; [done..|]. rewrite (patch_other _ _ _ _ _ _ Hpatch); [done|].
    intros ->. apply Hn0. by apply (list_elem_of_fmap_2 fst _ (name, spec)).
Qed.
End server_spec.

(** ** The in-memory store meets the interface *)

#[export] Instance memstore_laws : IPPoolLaws memstore mem_pool_at.
Proof.
  split; unfold mem_pool_at; simpl.
  - intros w sel m name spec. destruct (ms_down w); [done|]. intros [= <-].
    rewrite lookup_fmap, fmap_Some. intros ([lb s] & H & ->).
    apply map_lookup_filter_Some in H as [-> _]. done.
  - intros w w' name l spec. destruct (ms_down w); [done|].
    destruct (ms_pools w !! name) as [[lb s]|] eqn:E; [|done]. intros [= <-] [= <-]. simpl.
    by rewrite lookup_insert_eq.
  - intros w w' name name' l b. destruct (ms_down w); [by intros [= <-]|].
    destruct (ms_pools w !! name) as [[lb s]|] eqn:E; intros [= <- <-] Hne; [|done]. simpl.
    by rewrite lookup_insert_ne.
  - intros w w' name l. destruct (ms_down w); [by intros [= <-]|].
    destruct (ms_pools w !! name) as [[lb s]|] eqn:E; intros ?; simplify_eq; by rewrite E.
Qed.
