(* ===== verification/ComputeProps.v ===== *)
(** * Properties of internal/compute

    What the operator's CIDR arithmetic guarantees to its callers, each theorem
    with a concrete instance. *)

From S2P Require Import Prelude GoLib Compute ComputeSpec.

Lemma cidr_text_16 : cidr_text "192.168.0.0/16" [192; 168; 0; 0] 16.
Proof. exists "192.168.0.0", "16". by vm_compute. Qed.

Lemma net_addr_16 : net_addr (be [192; 168; 0; 0]) 16.
Proof. by vm_compute. Qed.

(** C8: for every subnet text [s] = [ip/p] whose address is a network address,
    every block size [b] that fits and every index below 2^b, [ComputeNet]
    succeeds; the CIDR that [GetCIDRFromByte] prints for it parses back as the
    network [ip + index * 2^(32-p-b)] of length [p+b], which lies inside [s]. *)
Theorem ComputeNet_correct s ip p b idx :
  cidr_text s ip p → net_addr (be ip) p → 0 ≤ b → p + b ≤ 32 → 0 ≤ idx < 2 ^ b →
  ∃ out t, ComputeNet s idx b = Ret (Ok out) ∧ GetCIDRFromByte out s b = Ret t ∧
    cidr_text t out (p + b) ∧ net_addr (be out) (p + b) ∧
    be out = be ip + idx * 2 ^ (32 - (p + b)) ∧
    subnet_of (be out) (p + b) (be ip) p.
Proof.
  intros Ht Hn Hb Hpb Hi. destruct (cidr_text_ok _ _ _ Ht) as [_ Hp].
  destruct (ComputeNet_ok _ _ _ _ _ Ht Hn Hb Hpb Hi) as (out & Hc & Hok & Hbe).
  exists out, (cidr_str out (p + b)). rewrite Hbe. split_and!.
  - done.
  - by eapply GetCIDRFromByte_text.
  - apply cidr_str_text; [done|lia].
  - apply sub_addr_net_addr; done || lia.
  - done.
  - apply sub_addr_subnet; done || lia.
Qed.

Lemma ComputeNet_correct_witness :
  ∃ out t, ComputeNet "192.168.0.0/16" 2 2 = Ret (Ok out) ∧
    GetCIDRFromByte out "192.168.0.0/16" 2 = Ret t ∧ cidr_text t out 18 ∧
    net_addr (be out) 18 ∧ be out = be [192; 168; 0; 0] + 2 * 2 ^ (32 - (16 + 2)) ∧
    subnet_of (be out) 18 (be [192; 168; 0; 0]) 16.
Proof.
  apply (ComputeNet_correct "192.168.0.0/16" [192; 168; 0; 0] 16 2 2);
    [apply cidr_text_16|apply net_addr_16|lia..].
Defined.

(** The two levels of pod CIDRs: for interface indexes [i], [i'] and host
    indexes [k], [k'] the pod networks computed inside the VLAN networks computed
    inside the subnet share no address unless both indexes are equal. *)
Theorem pod_cidrs_disjoint s ip p bi bh i i' k k' :
  cidr_text s ip p → net_addr (be ip) p → 0 ≤ bi → 0 ≤ bh → p + bi + bh ≤ 32 →
  0 ≤ i < 2 ^ bi → 0 ≤ i' < 2 ^ bi → 0 ≤ k < 2 ^ bh → 0 ≤ k' < 2 ^ bh →
  (i, k) ≠ (i', k') →
  ∃ v v' t t' h h',
    ComputeNet s i bi = Ret (Ok v) ∧ GetCIDRFromByte v s bi = Ret t ∧
    ComputeNet t k bh = Ret (Ok h) ∧
    ComputeNet s i' bi = Ret (Ok v') ∧ GetCIDRFromByte v' s bi = Ret t' ∧
    ComputeNet t' k' bh = Ret (Ok h') ∧
    nets_disjoint (be h) (p + bi + bh) (be h') (p + bi + bh).
Proof.
  intros Ht Hn Hbi Hbh Hp Hi Hi' Hk Hk' Hne. destruct (cidr_text_ok _ _ _ Ht) as [_ Hp0].
  destruct (ComputeNet_ok _ _ _ bi i Ht Hn) as (v & Hv & Hvo & Hvb); [lia..|].
  destruct (ComputeNet_ok _ _ _ bi i' Ht Hn) as (v' & Hv' & Hvo' & Hvb'); [lia..|].
  assert (net_addr (be v) (p + bi)) as Hvn by (rewrite Hvb; apply sub_addr_net_addr; done || lia).
  assert (net_addr (be v') (p + bi)) as Hvn' by (rewrite Hvb'; apply sub_addr_net_addr; done || lia).
  destruct (ComputeNet_ok (cidr_str v (p + bi)) v (p + bi) bh k) as (h & Hh & Hho & Hhb);
    [apply cidr_str_text; done || lia|done|lia..|].
  destruct (ComputeNet_ok (cidr_str v' (p + bi)) v' (p + bi) bh k') as (h' & Hh' & Hho' & Hhb');
    [apply cidr_str_text; done || lia|done|lia..|].
  exists v, v', (cidr_str v (p + bi)), (cidr_str v' (p + bi)), h, h'.
  split_and!; [done|by eapply GetCIDRFromByte_text|done|done|by eapply GetCIDRFromByte_text|done|].
  rewrite Hhb, Hhb'. destruct (decide (i = i')) as [<-|Hii].
  - rewrite Hv in Hv'. injection Hv' as <-. apply sub_addr_disjoint; [lia..| |done]. congruence.
  - eapply nets_disjoint_sub; [|apply sub_addr_subnet; [lia..|done]|apply sub_addr_subnet; [lia..|done]].
    rewrite Hvb, Hvb'. apply sub_addr_disjoint; done || lia.
Qed.

Lemma pod_cidrs_disjoint_witness :
  ∃ v v' t t' h h',
    ComputeNet "192.168.0.0/16" 0 2 = Ret (Ok v) ∧ GetCIDRFromByte v "192.168.0.0/16" 2 = Ret t ∧
    ComputeNet t 3 6 = Ret (Ok h) ∧
    ComputeNet "192.168.0.0/16" 1 2 = Ret (Ok v') ∧
    GetCIDRFromByte v' "192.168.0.0/16" 2 = Ret t' ∧
    ComputeNet t' 3 6 = Ret (Ok h') ∧
    nets_disjoint (be h) (16 + 2 + 6) (be h') (16 + 2 + 6).
Proof.
  apply (pod_cidrs_disjoint "192.168.0.0/16" [192; 168; 0; 0] 16 2 6 0 1 3 3);
    [apply cidr_text_16|apply net_addr_16|lia..|congruence].
Defined.

(** C36: an index that needs more than [b] bits is refused with an error, for
    every well-formed subnet, and never wraps into another network. *)
Theorem ComputeNet_index_overflow s ip p b idx :
  cidr_text s ip p → 0 ≤ b ≤ 53 → 2 ^ b ≤ idx → ComputeNet s idx b = Ret (Err "InvalidRequest").
Proof. apply ComputeNet_overflow. Qed.

Lemma ComputeNet_index_overflow_witness :
  ComputeNet "192.168.0.0/16" 4 2 = Ret (Err "InvalidRequest").
Proof.
  apply (ComputeNet_index_overflow "192.168.0.0/16" [192; 168; 0; 0] 16); [apply cidr_text_16|lia..].
Defined.

(** [CheckIfTabuIndex] decides exactly whether one of the excluded CIDRs
    covers the whole network of the index (never panicking on well-formed
    exclusions). *)
Theorem CheckIfTabuIndex_iff_covered s ip p b idx excludes :
  cidr_text s ip p → net_addr (be ip) p → 0 ≤ b → p + b ≤ 32 → 0 ≤ idx < 2 ^ b →
  Forall exclude_ok excludes →
  ∃ tabu : bool, CheckIfTabuIndex s idx b excludes = Ret tabu ∧
    (tabu = true ↔ covered (be ip + idx * 2 ^ (32 - (p + b))) (p + b) excludes).
Proof. intros. by apply CheckIfTabuIndex_spec. Qed.

Lemma CheckIfTabuIndex_iff_covered_witness :
  ∃ tabu : bool, CheckIfTabuIndex "192.168.0.0/16" 1 8 ["192.168.0.0/23"; "10.0.0.1"] = Ret tabu ∧
    (tabu = true ↔ covered (be [192; 168; 0; 0] + 1 * 2 ^ (32 - (16 + 8))) (16 + 8)
                     ["192.168.0.0/23"; "10.0.0.1"]).
Proof.
  apply (CheckIfTabuIndex_iff_covered "192.168.0.0/16" [192; 168; 0; 0] 16 8 1);
    [apply cidr_text_16|apply net_addr_16|lia..|].
  constructor; [left; exists [192; 168; 0; 0], 23; exists "192.168.0.0", "23"; by vm_compute|].
  constructor; [right; by vm_compute|constructor].
Defined.

(** C32: the recursive search [FindAvailableIndex] terminates on every list,
    sorted or not (any fuel beyond the length gives the same result), and on a
    strictly increasing list of indexes from [left + start] on, with [left + start]
    not negative, it returns the least unused index below the maximum, or -1
    exactly when the list has no gap. *)
Theorem FindAvailableIndex_least_gap l left start :
  (∀ fuel, (length l < fuel)%nat →
     FindAvailableIndex_fuel fuel l left start = Some (FindAvailableIndex l left start)) ∧
  (StronglySorted Z.lt l → 0 ≤ left + start → Forall (λ x, left + start ≤ x) l →
   let r := FindAvailableIndex l left start in
   (r = (-1) ∧ (∀ k, k ∈ l ↔ left + start ≤ k < left + start + Z.of_nat (length l))) ∨
   (left + start ≤ r ∧ (r ∉ l) ∧ (∀ k, left + start ≤ k < r → k ∈ l) ∧ ∃ y, (y ∈ l) ∧ r < y)).
Proof.
  split; [intros fuel; apply fia_eq|]. intros Hs Hb Hl.
  by apply (fia_gap (S (length l)) l left start); [lia|..].
Qed.

Lemma FindAvailableIndex_least_gap_witness :
  FindAvailableIndex_fuel 9 [4; 0; 7; 1; 3] 0 0 = Some (FindAvailableIndex [4; 0; 7; 1; 3] 0 0) ∧
  let r := FindAvailableIndex [0; 1; 3; 4; 7] 0 0 in
  (r = (-1) ∧ (∀ k, k ∈ [0; 1; 3; 4; 7] ↔ 0 + 0 ≤ k < 0 + 0 + Z.of_nat (length [0; 1; 3; 4; 7]))) ∨
  (0 + 0 ≤ r ∧ (r ∉ [0; 1; 3; 4; 7]) ∧ (∀ k, 0 + 0 ≤ k < r → k ∈ [0; 1; 3; 4; 7]) ∧
   ∃ y, (y ∈ [0; 1; 3; 4; 7]) ∧ r < y).
Proof.
  split.
  - apply (proj1 (FindAvailableIndex_least_gap [4; 0; 7; 1; 3] 0 0)). simpl. lia.
  - apply (proj2 (FindAvailableIndex_least_gap [0; 1; 3; 4; 7] 0 0)); [|lia|].
    + repeat constructor; lia.
    + repeat constructor; lia.
Defined.

(** [SortAddress] returns every given address once, paired with its
    integer value, in increasing order of value, and keeps the given order among
    addresses of equal value. *)
Theorem SortAddress_sorted addresses :
  SortAddress addresses ≡ₚ getIPValue <$> addresses ∧
  StronglySorted (λ a b, Value a ≤ Value b) (SortAddress addresses) ∧
  ∀ v, filter (λ a, Value a = v) (SortAddress addresses)
       = filter (λ a, Value a = v) (getIPValue <$> addresses).
Proof.
  split_and!; [apply sort_by_perm|apply sort_by_sorted|]. intros v. apply sort_by_stable.
Qed.

(** Addresses and integers convert back and forth: every 32-bit value is
    the value of the address [ValueToAddr] gives for it, and every IPv4 address
    is recovered from the value of its text. *)
Theorem address_value_roundtrip v ip :
  0 ≤ v < 2 ^ 32 → ip_ok ip →
  addrToValue (bytesToStr (ValueToAddr v)) = v ∧
  ValueToAddr (addrToValue (bytesToStr ip)) = ip.
Proof.
  intros Hv Hip. destruct (ValueToAddr_value v Hv) as [Hok Hbe].
  change (bytesToStr ?x) with (Net.ip_string x). rewrite !addrToValue_string by done.
  split; [done|]. by apply ValueToAddr_be.
Qed.

Lemma address_value_roundtrip_witness :
  addrToValue (bytesToStr (ValueToAddr 3232235777)) = 3232235777 ∧
  ValueToAddr (addrToValue (bytesToStr [10; 0; 255; 1])) = [10; 0; 255; 1].
Proof.
  apply (address_value_roundtrip 3232235777 [10; 0; 255; 1]); [lia|].
  split; [done|repeat constructor; lia].
Defined.

(** ** Limits of the arithmetic, by evaluation *)

(** a block that does not fit into the address gives the same network for
    different indexes *)
Example ComputeNet_narrow_collision :
  ComputeNet "10.0.0.0/30" 0 4 = ComputeNet "10.0.0.0/30" 1 4.
Proof. vm_compute. reflexivity. Qed.

(** a malformed exclusion with a prefix length dereferences a nil network *)
Example CheckIfTabuIndex_malformed_panics :
  CheckIfTabuIndex "192.168.0.0/16" 0 8 ["192.168.0.300/16"] = Panic.
Proof. vm_compute. reflexivity. Qed.
