(* ===== verification/AllocatorProps.v ===== *)
(** * Properties of the daemon's IP allocation

    The guarantees of [AllocateIP], [DeallocateIP] and
    [CleanHangingAllocation] against any store of pools that satisfies
    [IPPoolLaws], and executions that show where the code loses them. *)

From S2P Require Import Prelude GoLib Types.
From S2P Require Compute.
From S2P Require Import ComputeSpec Allocator AllocatorSpec.

(** ** A small cluster for the examples *)

Definition al (pod : string) (i : Z) : Allocation :=
  mkAllocation pod "ns" i (getAddressByIndex "192.168.0.0/29" i).

Definition ex_pool (l : list Allocation) : IPPoolSpec :=
  mkIPPoolSpec "192.168.0.0/29" "192.168.0.0/18" "net" "host1" "eth1" ["192.168.0.2/32"] l.

Definition ex_labels : gmap string string := {["hostname" := "host1"; "netname" := "net"]}.

Definition ex_store (l : list Allocation) (down : bool) : memstore :=
  mkStore {["net-192.168.0.0-29" := (ex_labels, ex_pool l)]} down.

Definition ex_req (pod : string) : IPRequest := mkIPRequest pod "ns" "host1" "net" ["eth1"].

Definition no_vf : SysFs := mkSysFs (λ _, false) (λ _, None).

Definition ex_daemon (l : list Allocation) (down : bool) : daemon memstore :=
  mkDaemon false ∅ (ex_store l down).

#[local] Existing Instance map_to_list_range.

Lemma ex_pool_net l : pool_net (ex_pool l) [192; 168; 0; 0] 29.
Proof. split; [exists "192.168.0.0", "29"; by vm_compute|by vm_compute]. Qed.

Lemma ex_indexes_ok : indexes_ok (ex_pool [al "a" 1]) 29.
Proof. apply (bool_decide_eq_true_1 (_ ∧ _)). by vm_compute. Qed.

Example AllocateIP_ex :
  match AllocateIP no_vf (λ _, 0) (ex_req "b") (ex_daemon [al "a" 1] false) with
  | Done d rs => (rs_IPAddress <$> rs, mem_pool_at (d_world d) "net-192.168.0.0-29")
  | _ => ([], None)
  end = (["192.168.0.3"], Some (ex_pool [al "a" 1; al "b" 3])).
Proof. vm_compute. reflexivity. Qed.

(** ** The choice of an address *)

(** C9: on a well-formed pool, the daemon's choice for a request is either an
    index between 1 and 2^(32-p)-2 that no allocation uses, whose address lies
    in no excluded CIDR of the pool and is mapped back to that index by the
    operator's [GetIndexInRange]; or a refusal, and then the used indexes are
    contiguous from 1 and the next one (by the offset) reaches the limit. *)
Theorem nextAllocation_correct spec ip p offset :
  pool_net spec ip p → indexes_ok spec p → 1 ≤ offset →
  let limit := 2 ^ (32 - p) - 2 in
  (∃ i addr, nextAllocation spec offset = Ret (Some (i, addr)) ∧ 1 ≤ i ≤ limit ∧
     (∀ a, a ∈ p_Allocations spec → a_Index a ≠ i) ∧
     Compute.GetIndexInRange (p_PodCIDR spec) addr = Ret (true, i) ∧
     (∀ e eip q, e ∈ p_Excludes spec → exclude_net e eip q → net_addr (be eip) q →
        be ip ≤ be eip → ~ in_net (be ip + i) (be eip) q)) ∨
  (nextAllocation spec offset = Ret None ∧
   (∀ k, k ∈ used spec limit ↔ 1 ≤ k < 1 + Z.of_nat (length (used spec limit))) ∧
   limit ≤ Z.of_nat (length (used spec limit)) + offset).
Proof.
  intros Hnet Hok Hoff limit.
  destruct (nextAllocation_spec spec ip p offset Hnet Hok Hoff) as [(i & Hn & Hi & Hu)|?]; [|by right].
  left. eexists i, _. split_and!; [exact Hn|lia|lia|..].
  - intros a Ha <-. apply Hu, elem_of_used. left. eauto.
  - destruct Hnet as [Ht Hna]. apply (GetIndexInRange_address _ _ _ _ Ht Hna). lia.
  - intros e eip q He Ht Hn' Hle. eapply unused_not_excluded; eauto. lia.
Qed.

Lemma nextAllocation_correct_witness :
  let spec := ex_pool [al "a" 1] in
  let limit := 2 ^ (32 - 29) - 2 in
  (∃ i addr, nextAllocation spec 1 = Ret (Some (i, addr)) ∧ 1 ≤ i ≤ limit ∧
     (∀ a, a ∈ p_Allocations spec → a_Index a ≠ i) ∧
     Compute.GetIndexInRange (p_PodCIDR spec) addr = Ret (true, i) ∧
     (∀ e eip q, e ∈ p_Excludes spec → exclude_net e eip q → net_addr (be eip) q →
        be [192; 168; 0; 0] ≤ be eip → ~ in_net (be [192; 168; 0; 0] + i) (be eip) q)) ∨
  (nextAllocation spec 1 = Ret None ∧
   (∀ k, k ∈ used spec limit ↔ 1 ≤ k < 1 + Z.of_nat (length (used spec limit))) ∧
   limit ≤ Z.of_nat (length (used spec limit)) + 1).
Proof.
  apply (nextAllocation_correct (ex_pool [al "a" 1]) [192; 168; 0; 0] 29 1);
    [apply ex_pool_net|apply ex_indexes_ok|lia].
Defined.

(** The daemon's own index search is the operator's search started at 1,
    on every list and for every left bound. *)
Theorem daemon_search_is_operator_search l left :
  FindAvailableIndex l left = Compute.FindAvailableIndex l left 1.
Proof. apply daemon_fia. Qed.

(** ** Allocation requests *)

Section pools.
Context {W : Type} {api : IPPoolAPI W} {ord : MapRange}.
Context (pool_at : W → string → option IPPoolSpec).

(** Whatever [AllocateIP] does, a well-formed pool with room beyond its
    greatest used index stays well formed, keeps all its allocations in place
    and gains at most one, the requesting pod's. *)
Theorem AllocateIP_preserves_pool fs clk req d name spec ip p :
  IPPoolLaws W pool_at →
  pool_at (d_world d) name = Some spec → pool_net spec ip p → indexes_ok spec p →
  history_ok (d_history d) →
  default 0 (last (sort_ints (used spec (2 ^ (32 - p) - 2))))
    + offset_of clk (d_history d) (rq_PodName req) < 2 ^ (32 - p) - 2 →
  ∃ spec', pool_at (d_world (state_of (AllocateIP fs clk req d))) name = Some spec' ∧
    indexes_ok spec' p ∧
    (spec' = spec ∨
     ∃ new, spec' = set_Allocations spec (p_Allocations spec ++ [new]) ∧
       a_Pod new = rq_PodName req ∧ a_Namespace new = rq_PodNamespace req).
Proof.
  intros Hlaws Hp Hnet Hok Hh Hroom.
  destruct (AllocateIP_appends pool_at fs clk req d name spec ip p Hp Hnet Hok Hh Hroom)
    as [?|(new & ? & ? & ? & ? & _ & ?)]; [by eauto|].
  eexists. split; [done|]. split; [by apply indexes_ok_append|right; eauto].
Qed.

(** Every address in the answer of [AllocateIP] is recorded in a pool
    after the call, as an allocation of the requesting pod. *)
Theorem AllocateIP_answers_recorded fs clk req d d' rs rsp :
  IPPoolLaws W pool_at →
  AllocateIP fs clk req d = Done d' rs → rsp ∈ rs →
  ∃ name spec' a, pool_at (d_world d') name = Some spec' ∧ a ∈ p_Allocations spec' ∧
    a_Pod a = rq_PodName req ∧ a_Namespace a = rq_PodNamespace req ∧
    a_Address a = rs_IPAddress rsp.
Proof.
  intros Hlaws H Hrsp. destruct (AllocateIP_responses pool_at _ _ _ _ _ _ _ H Hrsp)
    as (name & spec & new & _ & (? & ? & _) & Haddr & Hp).
  exists name. eexists _, (n_Allocation new). split; [exact Hp|].
  split; [apply insertAllocation_new|]. done.
Qed.

(** [DeallocateIP] changes no pool except by removing one allocation of
    the requesting pod, so every other allocation survives and the pool stays
    well formed. *)
Theorem DeallocateIP_removes_only_pod fs now req d name spec p :
  IPPoolLaws W pool_at →
  pool_at (d_world d) name = Some spec → indexes_ok spec p →
  ∃ spec', pool_at (d_world (state_of (DeallocateIP fs now req d))) name = Some spec' ∧
    indexes_ok spec' p ∧
    (spec' = spec ∨
     ∃ a, a_Pod a = rq_PodName req ∧ a_Namespace a = rq_PodNamespace req ∧
       p_Allocations spec ≡ₚ a :: p_Allocations spec').
Proof.
  intros Hlaws Hp Hok.
  destruct (DeallocateIP_pools pool_at fs now req d name spec Hp) as [?|(i & a & Ha & Hp')].
  - by eauto.
  - apply pod_allocation_remove in Ha as (? & ? & Hperm). eexists. split; [exact Hp'|].
    split; [apply indexes_ok_sublist; [done|apply remove_at_sublist]|].
    right. exists a. done.
Qed.

(** From a free lock, [AllocateIP] never waits, and when it answers the
    lock is free again, on every path including the API errors. *)
Theorem AllocateIP_releases_lock fs clk req (d : daemon W) :
  d_locked d = false →
  match AllocateIP fs clk req d with
  | Done d' _ => d_locked d' = false
  | Blocked _ => False
  | Crashed _ => True
  end.
Proof.
  intros Hl. destruct (AllocateIP_cases fs clk req d Hl)
    as [(d' & -> & ? & _)|(m & _ & [(_ & d' & -> & _)|(news & w & r & _ & _ & _ & Hr)])]; [done..|].
  destruct r; [destruct Hr as (d' & -> & ?)|destruct Hr as (d' & ->)]; done.
Qed.

(** When the API server fails to list the pools, [DeallocateIP] answers
    with the lock still held, and from then on every allocation and every
    deallocation of the daemon waits for ever. *)
Theorem DeallocateIP_error_deadlock fs now req (d : daemon W) e :
  d_locked d = false →
  ListIPPool (d_world d) (host_def_selector (rq_HostName req) (rq_NetAttachDefName req)) = Err e →
  ∃ d', DeallocateIP fs now req d = Done d' [] ∧
    (∀ fs' clk' req', ∃ d'', AllocateIP fs' clk' req' d' = Blocked d'') ∧
    (∀ fs' now' req', ∃ d'', DeallocateIP fs' now' req' d' = Blocked d'').
Proof.
  intros Hl He. unfold DeallocateIP. rewrite Hl, He. eexists. split; [done|]. split.
  - intros fs' clk' req'. unfold AllocateIP. simpl. destruct (_ !! _); eauto.
  - intros fs' now' req'. simpl. eauto.
Qed.

(** The retry offset: after a deallocation of a pod without a record, an
    allocation of that pod within [HISTORY_TIMEOUT] seconds skips one index
    (offset 2), one after the timeout does not; each further allocation within
    the timeout adds one to the offset. *)
Theorem retry_offset fs fs' now clk req (d : daemon W) :
  d_history d !! rq_PodName req = None →
  let h := d_history (state_of (DeallocateIP fs now req d)) in
  offset_of clk h (rq_PodName req)
  = (if 60 * 10 ^ 9 <? clk (rq_PodName req) - now then 1 else 2) ∧
  ∀ d1 : daemon W, offset_of clk (d_history d1) (rq_PodName req) ≠ 1 →
    history_ok (d_history d1) →
    offset_of clk (d_history (state_of (AllocateIP fs' clk req d1))) (rq_PodName req)
    = offset_of clk (d_history d1) (rq_PodName req) + 1.
Proof.
  intros Hn. split.
  - assert (d_history (state_of (DeallocateIP fs now req d))
            = <[rq_PodName req := mkRecord now 1]> (d_history d)) as ->.
    { unfold DeallocateIP. rewrite Hn. destruct (d_locked d); [done|].
      destruct (ListIPPool _ _); [|done]. by destruct (DeallocateIP_loop _ _ _ _) as [? []]. }
    unfold offset_of, FlushExpiredHistory.
    destruct (Z.ltb_spec (60 * 10 ^ 9) (clk (rq_PodName req) - now)).
    + rewrite map_lookup_filter, lookup_insert_eq. simpl. rewrite option_guard_False; [done|].
      unfold Expired. simpl. destruct (Z.ltb_spec (HISTORY_TIMEOUT * 10 ^ 9) (clk (rq_PodName req) - now));
        [done|]. unfold HISTORY_TIMEOUT in *. lia.
    + rewrite map_lookup_filter, lookup_insert_eq. simpl. rewrite option_guard_True; [done|].
      unfold Expired. simpl. apply Z.ltb_ge. done.
  - intros d1 Hne Hh. revert Hne. unfold offset_of at 1 3.
    destruct (FlushExpiredHistory clk (d_history d1) !! rq_PodName req) as [r|] eqn:Er; [|done].
    intros _. assert (d_history (state_of (AllocateIP fs' clk req d1))
      = <[rq_PodName req := mkRecord (ar_Time r) (ar_LastOffset r + 1)]>
          (FlushExpiredHistory clk (d_history d1))) as ->.
    { unfold AllocateIP. rewrite Er. destruct (d_locked d1); [done|].
      destruct (ListIPPool _ _); [|done]. case_bool_decide; [done|].
      destruct (allocateIP _ _ _ _ _ _ _); [|done].
      by destruct (applyNewAllocations _ _ _) as [? []]. }
    unfold offset_of.
    assert (FlushExpiredHistory clk (<[rq_PodName req := mkRecord (ar_Time r) (ar_LastOffset r + 1)]>
      (FlushExpiredHistory clk (d_history d1))) !! rq_PodName req
      = Some (mkRecord (ar_Time r) (ar_LastOffset r + 1))) as ->; [|done].
    apply flush_lookup. rewrite lookup_insert_eq. split; [done|].
    by apply flush_lookup in Er as [_ ?].
Qed.
End pools.

Lemma AllocateIP_preserves_pool_witness :
  ∃ spec', mem_pool_at (d_world (state_of (AllocateIP no_vf (λ _, 0) (ex_req "b")
                                   (ex_daemon [al "a" 1] false)))) "net-192.168.0.0-29" = Some spec' ∧
    indexes_ok spec' 29 ∧
    (spec' = ex_pool [al "a" 1] ∨
     ∃ new, spec' = set_Allocations (ex_pool [al "a" 1]) (p_Allocations (ex_pool [al "a" 1]) ++ [new]) ∧
       a_Pod new = "b" ∧ a_Namespace new = "ns").
Proof.
  apply (AllocateIP_preserves_pool mem_pool_at no_vf (λ _, 0) (ex_req "b")
           (ex_daemon [al "a" 1] false) "net-192.168.0.0-29" (ex_pool [al "a" 1]) [192; 168; 0; 0] 29).
  - apply memstore_laws.
  - by vm_compute.
  - apply ex_pool_net.
  - apply ex_indexes_ok.
  - intros pod r H. by apply (lookup_empty_Some pod r) in H.
  - by vm_compute.
Defined.

Lemma AllocateIP_answers_recorded_witness :
  ∃ d' rs rsp, AllocateIP no_vf (λ _, 0) (ex_req "b") (ex_daemon [al "a" 1] false) = Done d' rs ∧
    ∃ name spec' a, mem_pool_at (d_world d') name = Some spec' ∧ a ∈ p_Allocations spec' ∧
      a_Pod a = "b" ∧ a_Namespace a = "ns" ∧ a_Address a = rs_IPAddress rsp.
Proof.
  eexists _, _, (mkIPResponse "eth1" "192.168.0.3" "18"). split; [vm_compute; reflexivity|].
  apply (AllocateIP_answers_recorded mem_pool_at no_vf (λ _, 0) (ex_req "b")
           (ex_daemon [al "a" 1] false) _ [mkIPResponse "eth1" "192.168.0.3" "18"]).
  - apply memstore_laws.
  - vm_compute. reflexivity.
  - apply list_elem_of_here.
Defined.

Lemma DeallocateIP_removes_only_pod_witness :
  ∃ spec', mem_pool_at (d_world (state_of (DeallocateIP no_vf 0 (ex_req "a")
                                   (ex_daemon [al "a" 1] false)))) "net-192.168.0.0-29" = Some spec' ∧
    indexes_ok spec' 29 ∧
    (spec' = ex_pool [al "a" 1] ∨
     ∃ a, a_Pod a = "a" ∧ a_Namespace a = "ns" ∧ [al "a" 1] ≡ₚ a :: p_Allocations spec').
Proof.
  apply (DeallocateIP_removes_only_pod mem_pool_at no_vf 0 (ex_req "a")
           (ex_daemon [al "a" 1] false) "net-192.168.0.0-29" (ex_pool [al "a" 1]) 29).
  - apply memstore_laws.
  - by vm_compute.
  - apply ex_indexes_ok.
Defined.

Lemma AllocateIP_releases_lock_witness :
  match AllocateIP no_vf (λ _, 0) (ex_req "b") (ex_daemon [al "a" 1] true) with
  | Done d' _ => d_locked d' = false
  | Blocked _ => False
  | Crashed _ => True
  end.
Proof.
  apply (AllocateIP_releases_lock no_vf (λ _, 0) (ex_req "b") (ex_daemon [al "a" 1] true)).
  reflexivity.
Defined.

Lemma DeallocateIP_error_deadlock_witness :
  ∃ d', DeallocateIP no_vf 0 (ex_req "a") (ex_daemon [al "a" 1] true) = Done d' [] ∧
    (∀ fs' clk' req', ∃ d'', AllocateIP fs' clk' req' d' = Blocked d'') ∧
    (∀ fs' now' req', ∃ d'', DeallocateIP fs' now' req' d' = Blocked d'').
Proof.
  apply (DeallocateIP_error_deadlock no_vf 0 (ex_req "a") (ex_daemon [al "a" 1] true) "unavailable");
    reflexivity.
Defined.

Lemma retry_offset_witness :
  let h := d_history (state_of (DeallocateIP no_vf 7 (ex_req "a") (ex_daemon [al "a" 1] false))) in
  offset_of (λ _, 9) h "a" = (if 60 * 10 ^ 9 <? 9 - 7 then 1 else 2) ∧
  ∀ d1 : daemon memstore, offset_of (λ _, 9) (d_history d1) "a" ≠ 1 →
    history_ok (d_history d1) →
    offset_of (λ _, 9) (d_history (state_of (AllocateIP no_vf (λ _, 9) (ex_req "a") d1))) "a"
    = offset_of (λ _, 9) (d_history d1) "a" + 1.
Proof.
  apply (retry_offset no_vf no_vf 7 (λ _, 9) (ex_req "a") (ex_daemon [al "a" 1] false)).
  apply lookup_empty.
Defined.

(** ** Recording and releasing in one pool *)

(** Releasing undoes recording: for a pod with no allocation in the pool
    and an index not below the recorded ones, [DeallocateIP]'s search finds the
    new entry and its removal gives back the original list. *)
Theorem allocate_deallocate_roundtrip l new :
  Forall (λ a, a_Index a ≤ a_Index new) l →
  Forall (λ a, ~ (a_Pod a = a_Pod new ∧ a_Namespace a = a_Namespace new)) l →
  ∃ i, find_allocation (a_Pod new) (a_Namespace new) (insertAllocation l new) 0 = Some (i, new) ∧
       remove_at (insertAllocation l new) i = l.
Proof.
  intros Hle Hpod. rewrite insertAllocation_append by done.
  pose proof (find_allocation_spec (a_Pod new) (a_Namespace new) (l ++ [new]) 0) as Hf.
  destruct (find_allocation _ _ _ _) as [[i a]|].
  - destruct Hf as (l1 & l2 & Heq & -> & Hp & Hn & _). exists (0 + length l1)%nat.
    destruct l2 as [|b l2] using rev_ind.
    + apply app_inj_tail in Heq as [-> ->]. split; [done|].
      rewrite Nat.add_0_l, remove_at_middle. by rewrite app_nil_r.
    + exfalso. rewrite app_comm_cons, app_assoc in Heq. apply app_inj_tail in Heq as [-> _].
      rewrite Forall_app, Forall_cons in Hpod. destruct Hpod as (_ & Ha & _). by apply Ha.
  - exfalso. rewrite Forall_app, Forall_singleton in Hf. destruct Hf as [_ Hf]. by apply Hf.
Qed.

Lemma allocate_deallocate_roundtrip_witness :
  ∃ i, find_allocation "b" "ns" (insertAllocation [al "a" 1] (al "b" 3)) 0 = Some (i, al "b" 3) ∧
       remove_at (insertAllocation [al "a" 1] (al "b" 3)) i = [al "a" 1].
Proof.
  apply (allocate_deallocate_roundtrip [al "a" 1] (al "b" 3)).
  - constructor; [simpl; lia|constructor].
  - constructor; [by intros [? _]|constructor].
Defined.

(** C38: recording an index below an existing one loses an allocation: the last
    allocation with a greater index is overwritten and the new allocation is
    stored twice, whatever the pool. *)
Theorem insertAllocation_loses_allocation l1 a l2 new :
  a_Index new < a_Index a → Forall (λ b, a_Index b ≤ a_Index new) l2 →
  insertAllocation (l1 ++ a :: l2) new = l1 ++ [new; new] ++ l2.
Proof. apply insertAllocation_overwrite. Qed.

Lemma insertAllocation_loses_allocation_witness :
  insertAllocation [al "a" 1; al "b" 4; al "c" 5] (al "d" 3) = [al "a" 1; al "b" 4; al "d" 3; al "d" 3].
Proof.
  apply (insertAllocation_loses_allocation [al "a" 1; al "b" 4] (al "c" 5) [] (al "d" 3));
    [simpl; lia|constructor].
Defined.

(** the whole path: a /29 pool with index 3 free; the answer takes it, and the
    allocation of pod [c] is gone *)
Example AllocateIP_gap_path :
  match AllocateIP no_vf (λ _, 0) (ex_req "d") (ex_daemon [al "a" 1; al "b" 4; al "c" 5] false) with
  | Done d rs => (rs_IPAddress <$> rs, p_Allocations <$> mem_pool_at (d_world d) "net-192.168.0.0-29")
  | _ => ([], None)
  end = (["192.168.0.3"], Some [al "a" 1; al "b" 4; al "d" 3; al "d" 3]).
Proof. vm_compute. reflexivity. Qed.

(** a retry is refused although indexes 4 and 5 are free *)
Example retry_refused_with_free_indexes :
  nextAllocation (ex_pool [al "a" 1; al "b" 3]) 4 = Ret None.
Proof. vm_compute. reflexivity. Qed.

(** an exclusion that starts at the pod network address makes the search return
    an index in use *)
Example search_with_index_zero :
  FindAvailableIndex [0; 1; 2; 3; 4; 5; 6] 0 = 1.
Proof. vm_compute. reflexivity. Qed.

(** ** Hanging allocations *)

Section hanging.
Context {W : Type} {api : IPPoolAPI W} {ord : MapRange}.
Context (pool_at : W → string → option IPPoolSpec).

(** [CleanHangingAllocation] keeps in every pool it may patch exactly the
    allocations whose pod is found, in their order, and leaves pools it does
    not list untouched; when the pools cannot be listed nothing changes and the
    error is returned. *)
Theorem CleanHangingAllocation_keeps_found getPod hostName w name spec :
  IPPoolLaws W pool_at → pool_at w name = Some spec →
  let '(w', ok) := CleanHangingAllocation getPod hostName w in
  match ListIPPool w [("hostname", hostName)] with
  | Err _ => ok = false ∧ w' = w
  | Ok m => ok = true ∧
      (pool_at w' name = Some spec ∨
       (m !! name = Some spec ∧
        pool_at w' name = Some (set_Allocations spec (alive getPod (p_Allocations spec)))))
  end.
Proof.
  intros Hlaws Hp. unfold CleanHangingAllocation.
  destruct (ListIPPool w _) as [m|] eqn:Hlist; [|done]. split; [done|].
  destruct (m !! name) as [spec'|] eqn:Hm.
  - pose proof (list_sound _ _ _ _ _ Hlist Hm) as Heq. rewrite Hp in Heq. injection Heq as <-.
    apply elem_of_range_map in Hm as Hin.
    destruct (CleanHanging_loop_pools pool_at getPod _ w name spec
                (range_map_keys_nodup m) Hin Hp); auto.
  - left. rewrite (CleanHanging_loop_frame pool_at); [done|].
    intros ([n s] & -> & Hin%elem_of_range_map)%list_elem_of_fmap. by simplify_eq/=.
Qed.
End hanging.

Lemma CleanHangingAllocation_keeps_found_witness :
  let getPod := λ p n : string, bool_decide (p = "a") in
  let w := ex_store [al "a" 1; al "b" 3] false in
  let '(w', ok) := CleanHangingAllocation getPod "host1" w in
  match ListIPPool w [("hostname", "host1")] with
  | Err _ => ok = false ∧ w' = w
  | Ok m => ok = true ∧
      (mem_pool_at w' "net-192.168.0.0-29" = Some (ex_pool [al "a" 1; al "b" 3]) ∨
       (m !! "net-192.168.0.0-29" = Some (ex_pool [al "a" 1; al "b" 3]) ∧
        mem_pool_at w' "net-192.168.0.0-29" =
        Some (set_Allocations (ex_pool [al "a" 1; al "b" 3])
                (alive getPod (p_Allocations (ex_pool [al "a" 1; al "b" 3]))))))
  end.
Proof.
  apply (CleanHangingAllocation_keeps_found mem_pool_at (λ p n : string, bool_decide (p = "a")) "host1"
           (ex_store [al "a" 1; al "b" 3] false) "net-192.168.0.0-29"
           (ex_pool [al "a" 1; al "b" 3])).
  - apply memstore_laws.
  - by vm_compute.
Defined.

Example CleanHanging_ex :
  p_Allocations <$> mem_pool_at
    (fst (CleanHangingAllocation (λ p n : string, bool_decide (p = "a")) "host1"
            (ex_store [al "a" 1; al "b" 3] false))) "net-192.168.0.0-29"
  = Some [al "a" 1].
Proof. vm_compute. reflexivity. Qed.
