(* ===== verification/AddressService.v ===== *)
(** * The daemon as an address service

    What the IP allocator promises, without requests, stores, indexes lists or
    histories: each pool is a ledger from host numbers to their owner (pod name
    and namespace); an allocation enters at most one new host number per pool,
    a release strikes at most one out. The daemon's state refines it: every run
    of [AllocateIP] and [DeallocateIP] on well-formed pools with room is a run
    of this service with the same requests and the same answers. *)

From S2P Require Import Prelude GoLib Types.
From S2P Require Compute.
From S2P Require Import ComputeSpec Allocator AllocatorSpec AllocatorProps.

(** ** The abstract service *)

Definition owner : Type := string * string.

Record ledger := mkLedger {
  l_base : Z;                 (* the network address *)
  l_hosts : Z;                (* host numbers 1 .. l_hosts *)
  l_reserved : gset Z;        (* never handed out *)
  l_held : gmap Z owner
}.

Definition set_held (l : ledger) (h : gmap Z owner) : ledger :=
  mkLedger (l_base l) (l_hosts l) (l_reserved l) h.

Inductive grant (o : owner) (l : ledger) : ledger → Prop :=
  | grant_none : grant o l l
  | grant_host i :
      1 ≤ i ≤ l_hosts l → i ∉ l_reserved l → l_held l !! i = None →
      grant o l (set_held l (<[i := o]> (l_held l))).

Inductive release (o : owner) (l : ledger) : ledger → Prop :=
  | release_none : release o l l
  | release_host i :
      l_held l !! i = Some o → release o l (set_held l (delete i (l_held l))).

Abbreviation service := (gmap string ledger).

(** the address is one that the owner holds after the step and that nobody
    held before *)
Definition granted (o : owner) (σ σ' : service) (addr : string) : Prop :=
  ∃ name l l' i x, σ !! name = Some l ∧ σ' !! name = Some l' ∧
    l_held l !! i = None ∧ l_held l' !! i = Some o ∧ (i ∉ l_reserved l) ∧
    addr = Net.ip_string x ∧ ip_ok x ∧ be x = l_base l + i.

Inductive event :=
  | EAllocate (o : owner) (answers : list string)
  | ERelease (o : owner).

Inductive service_step (σ σ' : service) : event → Prop :=
  | step_allocate o answers :
      (∀ name, option_Forall2 (grant o) (σ !! name) (σ' !! name)) →
      Forall (granted o σ σ') answers →
      service_step σ σ' (EAllocate o answers)
  | step_release o :
      (∀ name, option_Forall2 (release o) (σ !! name) (σ' !! name)) →
      service_step σ σ' (ERelease o).

Inductive service_run (σ : service) : list event → service → Prop :=
  | service_stop : service_run σ [] σ
  | service_more e es σ1 σ2 :
      service_step σ σ1 e → service_run σ1 es σ2 → service_run σ (e :: es) σ2.

(** a held host number stays with its owner until that owner releases *)
Lemma service_step_keeps σ σ' e name l i o :
  service_step σ σ' e → e ≠ ERelease o →
  σ !! name = Some l → l_held l !! i = Some o →
  ∃ l', σ' !! name = Some l' ∧ l_held l' !! i = Some o.
Proof.
  intros Hs Hne Hl Hi. destruct Hs as [o' answers Hs _|o' Hs]; specialize (Hs name);
    rewrite Hl in Hs; inversion Hs as [l0 l' Hg Hl0 Hl'|]; subst; exists l'; (split; [done|]).
  - destruct Hg as [|j _ _ Hj]; [done|]. simpl.
    rewrite lookup_insert_ne; [done|]. intros ->. congruence.
  - destruct Hg as [|j Hj]; [done|]. simpl.
    rewrite lookup_delete_ne; [done|]. intros ->. congruence.
Qed.

(** ** Runs of the daemon *)

Definition owner_of (req : IPRequest) : owner := (rq_PodName req, rq_PodNamespace req).

Definition answers_of {W} (o : outcome W (list IPResponse)) : list string :=
  match o with Done _ rs => rs_IPAddress <$> rs | _ => [] end.

Section refinement.
Context {W : Type} {api : IPPoolAPI W} {ord : MapRange}
  (pool_at : W → string → option IPPoolSpec).

(** every pool has a host number left beyond its greatest used one *)
Definition has_room (clk : string → Z) (req : IPRequest) (d : daemon W) : Prop :=
  ∀ name spec ip p, pool_at (d_world d) name = Some spec → pool_net spec ip p →
    default 0 (last (sort_ints (used spec (2 ^ (32 - p) - 2))))
      + offset_of clk (d_history d) (rq_PodName req) < 2 ^ (32 - p) - 2.

Inductive daemon_step (d : daemon W) : event → daemon W → Prop :=
  | do_allocate fs clk req :
      has_room clk req d →
      daemon_step d (EAllocate (owner_of req) (answers_of (AllocateIP fs clk req d)))
        (state_of (AllocateIP fs clk req d))
  | do_release fs now req :
      daemon_step d (ERelease (owner_of req)) (state_of (DeallocateIP fs now req d)).

Inductive daemon_run (d : daemon W) : list event → daemon W → Prop :=
  | daemon_stop : daemon_run d [] d
  | daemon_more e es d1 d2 :
      daemon_step d e d1 → daemon_run d1 es d2 → daemon_run d (e :: es) d2.

(** ** The abstraction *)

Definition held_of (l : list Allocation) : gmap Z owner :=
  list_to_map ((λ a, (a_Index a, (a_Pod a, a_Namespace a))) <$> l).

Definition reserved_of (spec : IPPoolSpec) (p : Z) : gset Z :=
  list_to_set (getExcludeRanges (p_PodCIDR spec) (p_Excludes spec)
               ≫= exclude_indexes (2 ^ (32 - p) - 2)).

Definition ledger_of (spec : IPPoolSpec) (ip : list Z) (p : Z) : ledger :=
  mkLedger (be ip) (2 ^ (32 - p) - 2) (reserved_of spec p) (held_of (p_Allocations spec)).

Inductive pool_refines : option IPPoolSpec → option ledger → Prop :=
  | refines_none : pool_refines None None
  | refines_some spec ip p :
      pool_net spec ip p → indexes_ok spec p →
      pool_refines (Some spec) (Some (ledger_of spec ip p)).

Definition refines (d : daemon W) (σ : service) : Prop :=
  history_ok (d_history d) ∧ ∀ name, pool_refines (pool_at (d_world d) name) (σ !! name).

(** the service after a step: the ledgers with what the pools now hold *)
Definition after (σ : service) (w : W) : service :=
  map_imap (λ name l, (λ spec, set_held l (held_of (p_Allocations spec))) <$> pool_at w name) σ.

(** ** One pool *)

Lemma lookup_held l i o :
  NoDup (a_Index <$> l) →
  held_of l !! i = Some o ↔
  ∃ a, (a ∈ l) ∧ a_Index a = i ∧ (a_Pod a, a_Namespace a) = o.
Proof.
  intros Hnd. unfold held_of. rewrite <- elem_of_list_to_map.
  - rewrite list_elem_of_fmap. split; intros (a & H1 & H2); [|destruct H2]; simplify_eq; eauto.
  - rewrite <- list_fmap_compose. done.
Qed.

Lemma held_append l new :
  (a_Index new ∉ a_Index <$> l) →
  held_of (l ++ [new]) = <[a_Index new := (a_Pod new, a_Namespace new)]> (held_of l).
Proof.
  intros Hn. unfold held_of. rewrite fmap_app. apply list_to_map_snoc.
  by rewrite <- list_fmap_compose.
Qed.

Lemma held_remove l l' a :
  NoDup (a_Index <$> l) → l ≡ₚ a :: l' → held_of l' = delete (a_Index a) (held_of l).
Proof.
  intros Hnd Hp. assert (NoDup (a_Index <$> a :: l')) as Hnd' by (by rewrite <- Hp).
  unfold held_of at 2. rewrite (list_to_map_proper _ ((λ a, (a_Index a, (a_Pod a, a_Namespace a))) <$> a :: l')).
  - rewrite fmap_cons. simpl. rewrite delete_insert_id; [done|].
    apply not_elem_of_list_to_map. rewrite <- list_fmap_compose. by apply NoDup_cons in Hnd' as [? _].
  - by rewrite <- list_fmap_compose.
  - by rewrite Hp.
Qed.

Lemma held_none l i : i ∉ a_Index <$> l → held_of l !! i = None.
Proof. intros. apply not_elem_of_list_to_map. by rewrite <- list_fmap_compose. Qed.

Lemma indexes_ok_nodup spec p : indexes_ok spec p → NoDup (a_Index <$> p_Allocations spec).
Proof. intros [H _]. by apply NoDup_app in H as [? _]. Qed.

Lemma used_split spec p i :
  i ∉ used spec (2 ^ (32 - p) - 2) ↔
  (i ∉ a_Index <$> p_Allocations spec) ∧ i ∉ reserved_of spec p.
Proof. unfold used, reserved_of. by rewrite elem_of_list_to_set, not_elem_of_app. Qed.

Lemma set_Allocations_same spec : set_Allocations spec (p_Allocations spec) = spec.
Proof. by destruct spec. Qed.

(** ** One step *)

(** steps that change the pools one by one, by [R] in the abstract *)
Lemma after_refines (R : ledger → ledger → Prop) d d' σ :
  refines d σ → history_ok (d_history d') →
  (∀ name, pool_at (d_world d) name = None → pool_at (d_world d') name = None) →
  (∀ name spec ip p, pool_at (d_world d) name = Some spec →
     pool_net spec ip p → indexes_ok spec p →
     ∃ l, pool_at (d_world d') name = Some (set_Allocations spec l) ∧
       indexes_ok (set_Allocations spec l) p ∧
       R (ledger_of spec ip p) (set_held (ledger_of spec ip p) (held_of l))) →
  refines d' (after σ (d_world d')) ∧
  ∀ name, option_Forall2 R (σ !! name) (after σ (d_world d') !! name).
Proof.
  intros [_ Hσ] Hh Hnone Hsome.
  enough (∀ name, pool_refines (pool_at (d_world d') name) (after σ (d_world d') !! name) ∧
    option_Forall2 R (σ !! name) (after σ (d_world d') !! name)) as H.
  { split; [split; [done|]|]; intros name; apply H. }
  intros name. unfold after. rewrite map_lookup_imap. specialize (Hσ name).
  inversion Hσ as [Hp Hs|spec ip p Hnet Hok Hp Hs]; simpl.
  - rewrite (Hnone name) by done. split; constructor.
  - destruct (Hsome name spec ip p) as (l & -> & Hok' & HR); [done..|]. simpl.
    split; [|by constructor].
    by apply (refines_some (set_Allocations spec l) ip p).
Qed.

Context {laws : IPPoolLaws W pool_at}.

Lemma allocate_pools fs clk req d σ :
  refines d σ → has_room clk req d →
  let d' := state_of (AllocateIP fs clk req d) in
  refines d' (after σ (d_world d')) ∧
  ∀ name, option_Forall2 (grant (owner_of req)) (σ !! name) (after σ (d_world d') !! name).
Proof.
  intros Href Hroom. destruct Href as [Hh Hσ] eqn:E. clear E. apply after_refines with d.
  - done.
  - by apply AllocateIP_history.
  - intros name. by apply AllocateIP_absent.
  - intros name spec ip p Hp Hnet Hok.
    destruct (AllocateIP_appends pool_at fs clk req d name spec ip p)
      as [Hsame|(new & Hpod & Hns & Hi & Hu & _ & Hp')]; [by eauto..| |].
    + exists (p_Allocations spec). rewrite set_Allocations_same. split_and!; [done..|constructor].
    + eexists. split; [exact Hp'|]. split; [by apply indexes_ok_append|].
      apply used_split in Hu as [Hu Hr]. rewrite held_append, Hpod, Hns by done.
      apply (grant_host (owner_of req) (ledger_of spec ip p)); [done..|]. by apply held_none.
Qed.

Lemma release_pools fs now req d σ :
  refines d σ →
  let d' := state_of (DeallocateIP fs now req d) in
  refines d' (after σ (d_world d')) ∧
  ∀ name, option_Forall2 (release (owner_of req)) (σ !! name) (after σ (d_world d') !! name).
Proof.
  intros Href. apply after_refines with d.
  - done.
  - apply DeallocateIP_history, Href.
  - intros name. by apply DeallocateIP_absent.
  - intros name spec ip p Hp Hnet Hok.
    destruct (DeallocateIP_pools pool_at fs now req d name spec Hp) as [Hsame|(i & a & Ha & Hp')].
    + exists (p_Allocations spec). rewrite set_Allocations_same. split_and!; [done..|constructor].
    + eexists. split; [exact Hp'|].
      split; [apply indexes_ok_sublist; [done|apply remove_at_sublist]|].
      apply pod_allocation_remove in Ha as (Hpod & Hns & Hperm).
      pose proof (indexes_ok_nodup _ _ Hok) as Hnd. rewrite (held_remove _ _ _ Hnd Hperm).
      apply (release_host (owner_of req) (ledger_of spec ip p)), lookup_held; [done|].
      exists a. rewrite Hperm, Hpod, Hns. split_and!; [by left|done..].
Qed.

Lemma allocate_answers fs clk req d σ addr :
  refines d σ → has_room clk req d → addr ∈ answers_of (AllocateIP fs clk req d) →
  granted (owner_of req) σ (after σ (d_world (state_of (AllocateIP fs clk req d)))) addr.
Proof.
  intros [Hh Hσ] Hroom Hin. destruct (AllocateIP fs clk req d) as [d' rs|?|?] eqn:HA;
    [|by apply elem_of_nil in Hin..]. simpl in *.
  apply list_elem_of_fmap in Hin as (rsp & -> & Hrsp).
  destruct (AllocateIP_responses pool_at _ _ _ _ _ _ _ HA Hrsp)
    as (name & spec & new & Hp & Hc & Haddr & Hp').
  specialize (Hσ name) as Hn. rewrite Hp in Hn. inversion Hn as [|? ip p Hnet Hok Hs Hl]; subst.
  destruct (chosen_room _ _ _ _ _ _ _ Hnet Hok (offset_pos clk _ _ Hh) (Hroom _ _ _ _ Hp Hnet) Hc)
    as (Hi & Hmax & Hget & Hins).
  destruct Hc as (Hpod & Hns & _), Hnet as [Ht Hna].
  destruct (getAddressByIndex_text (p_PodCIDR spec) ip p (a_Index (n_Allocation new)))
    as (x & Hx & Hxok & Hbe); [done..|lia|].
  assert (a_Index (n_Allocation new) ∉ used spec (2 ^ (32 - p) - 2)) as Hu.
  { intros Hin%Hmax. lia. }
  apply used_split in Hu as [Hu Hr].
  eexists name, _, _, (a_Index (n_Allocation new)), x. split; [done|]. split.
  { unfold after. rewrite map_lookup_imap, <- Hl. simpl. by rewrite Hp'. }
  simpl. rewrite Hins, held_append, lookup_insert_eq, Hpod, Hns by done.
  split_and!; [by apply held_none|done|done|congruence|done|done].
Qed.

Lemma step_refines d d' σ e :
  refines d σ → daemon_step d e d' →
  ∃ σ', service_step σ σ' e ∧ refines d' σ'.
Proof.
  intros Href [fs clk req Hroom|fs now req]; eexists (after σ _).
  - destruct (allocate_pools fs clk req d σ Href Hroom) as [? ?]. split; [|done].
    constructor; [done|]. apply Forall_forall. intros addr. by apply allocate_answers.
  - destruct (release_pools fs now req d σ Href) as [? ?]. split; [|done]. by constructor.
Qed.
End refinement.

(** ** The refinement *)

Section theorems.
Context {W : Type} {api : IPPoolAPI W} {ord : MapRange}
  (pool_at : W → string → option IPPoolSpec).

(** C2: the daemon implements the address service: every sequence of
    [AllocateIP] and [DeallocateIP] requests (served, failed, crashed or
    blocked), each allocation finding room in the pools, is a sequence of
    steps of the service with the same requests and the same answered
    addresses: an allocation grants its pod at most one host number per pool
    that nobody held and that is not excluded, every answered address is one
    granted by that very step, a release strikes out at most one host number
    per pool, held by the releasing pod. *)
Theorem daemon_refines_service d σ es d' :
  IPPoolLaws W pool_at →
  refines pool_at d σ → daemon_run pool_at d es d' →
  ∃ σ', service_run σ es σ' ∧ refines pool_at d' σ'.
Proof.
  intros Hlaws Href Hrun. revert σ Href.
  induction Hrun as [d|d e es d1 d2 Hstep Hrun IH]; intros σ Href.
  - exists σ. split; [constructor|done].
  - destruct (step_refines pool_at d d1 σ e Href Hstep) as (σ1 & Hs & Href1).
    destruct (IH σ1 Href1) as (σ2 & ? & ?). exists σ2. split; [by econstructor|done].
Qed.

(** C14: an address stays with its pod: over any such sequence of requests in
    which the pod releases nothing, the pool keeps an allocation of the pod at
    the same index, and no other pod is recorded at that index. *)
Theorem held_until_released d σ es d' name spec a :
  IPPoolLaws W pool_at →
  refines pool_at d σ → daemon_run pool_at d es d' →
  pool_at (d_world d) name = Some spec → a ∈ p_Allocations spec →
  ERelease (a_Pod a, a_Namespace a) ∉ es →
  ∃ spec', pool_at (d_world d') name = Some spec' ∧
    (∃ b, (b ∈ p_Allocations spec') ∧ a_Index b = a_Index a) ∧
    ∀ b, b ∈ p_Allocations spec' → a_Index b = a_Index a →
      (a_Pod b, a_Namespace b) = (a_Pod a, a_Namespace a).
Proof.
  intros Hlaws Href Hrun Hp Ha Hnot.
  assert (∃ l, σ !! name = Some l ∧ l_held l !! a_Index a = Some (a_Pod a, a_Namespace a))
    as (l & Hl & Hheld).
  { destruct Href as [_ H]. specialize (H name). rewrite Hp in H.
    inversion H as [|spec0 ip p Hnet Hok Hs0 Hl]; subst. eexists. split; [done|].
    apply lookup_held; [by eapply indexes_ok_nodup|eauto]. }
  clear Hp Ha. revert σ l Href Hl Hheld.
  induction Hrun as [d|d e es d1 d2 Hstep Hrun IH]; intros σ l Href Hl Hheld.
  - destruct Href as [_ H]. specialize (H name). rewrite Hl in H.
    inversion H as [|spec' ip p Hnet Hok Hp Hl']; subst. exists spec'. split; [done|].
    pose proof (indexes_ok_nodup _ _ Hok) as Hnd. simpl in Hheld.
    split; [apply lookup_held in Hheld as (b & ? & ? & _); eauto|].
    intros b Hb Hi. assert (held_of (p_Allocations spec') !! a_Index a
      = Some (a_Pod b, a_Namespace b)) by (apply lookup_held; eauto). congruence.
  - apply not_elem_of_cons in Hnot as [Hne Hnot].
    destruct (step_refines pool_at d d1 σ e Href Hstep) as (σ1 & Hs & Href1).
    destruct (service_step_keeps _ _ _ _ _ _ _ Hs (not_eq_sym Hne) Hl Hheld) as (l1 & Hl1 & ?).
    by eapply IH.
Qed.
End theorems.

(** ** Two pods on the example cluster *)

#[local] Existing Instance map_to_list_range.

Definition ex_service : service :=
  {["net-192.168.0.0-29" := ledger_of (ex_pool [al "a" 1]) [192; 168; 0; 0] 29]}.

Lemma ex_refines : refines mem_pool_at (ex_daemon [al "a" 1] false) ex_service.
Proof.
  split; [intros pod r H; by apply (lookup_empty_Some pod r) in H|]. intros name.
  unfold ex_service, mem_pool_at. simpl. destruct (decide (name = "net-192.168.0.0-29")) as [->|Hne].
  - rewrite !lookup_singleton_eq. constructor; [apply ex_pool_net|apply ex_indexes_ok].
  - rewrite !lookup_singleton_ne by done. constructor.
Qed.

Lemma ex_room : has_room mem_pool_at (λ _, 0) (ex_req "b") (ex_daemon [al "a" 1] false).
Proof.
  intros name spec ip p Hp Hnet. unfold mem_pool_at in Hp. simpl in Hp.
  destruct (decide (name = "net-192.168.0.0-29")) as [->|Hne];
    [|by rewrite lookup_singleton_ne in Hp].
  rewrite lookup_singleton_eq in Hp. injection Hp as <-.
  assert (p = 29) as ->; [|by vm_compute].
  destruct Hnet as [Ht _]. destruct (after_slash_text _ _ _ Ht) as (m & Hm & Hp).
  vm_compute in Hm. injection Hm as <-. by vm_compute in Hp; simplify_eq.
Qed.

Definition ex_events : list event := [EAllocate ("b", "ns") ["192.168.0.3"]; ERelease ("b", "ns")].

Definition ex_final : daemon memstore :=
  state_of (DeallocateIP no_vf 5 (ex_req "b")
    (state_of (AllocateIP no_vf (λ _, 0) (ex_req "b") (ex_daemon [al "a" 1] false)))).

Lemma ex_run : daemon_run mem_pool_at (ex_daemon [al "a" 1] false) ex_events ex_final.
Proof.
  apply (daemon_more _ _ (EAllocate ("b", "ns") ["192.168.0.3"]) [ERelease ("b", "ns")]
    (state_of (AllocateIP no_vf (λ _, 0) (ex_req "b") (ex_daemon [al "a" 1] false)))).
  - replace ["192.168.0.3"] with (answers_of (AllocateIP no_vf (λ _, 0) (ex_req "b")
      (ex_daemon [al "a" 1] false))) by (vm_compute; reflexivity).
    change ("b", "ns") with (owner_of (ex_req "b")).
    apply (do_allocate mem_pool_at (ex_daemon [al "a" 1] false) no_vf (λ _, 0) (ex_req "b")), ex_room.
  - eapply daemon_more; [apply (do_release mem_pool_at _ no_vf 5 (ex_req "b"))|constructor].
Qed.

Lemma daemon_refines_service_witness :
  ∃ σ', service_run ex_service ex_events σ' ∧ refines mem_pool_at ex_final σ'.
Proof.
  apply (daemon_refines_service mem_pool_at (ex_daemon [al "a" 1] false)).
  - apply memstore_laws.
  - apply ex_refines.
  - apply ex_run.
Defined.

Lemma held_until_released_witness :
  ∃ spec', mem_pool_at (d_world ex_final) "net-192.168.0.0-29" = Some spec' ∧
    (∃ b, (b ∈ p_Allocations spec') ∧ a_Index b = 1) ∧
    ∀ b, b ∈ p_Allocations spec' → a_Index b = 1 → (a_Pod b, a_Namespace b) = ("a", "ns").
Proof.
  apply (held_until_released mem_pool_at (ex_daemon [al "a" 1] false) ex_service ex_events ex_final
           "net-192.168.0.0-29" (ex_pool [al "a" 1]) (al "a" 1)).
  - apply memstore_laws.
  - apply ex_refines.
  - apply ex_run.
  - by vm_compute.
  - apply list_elem_of_here.
  - unfold ex_events. rewrite !not_elem_of_cons. split_and!; [done..|apply not_elem_of_nil].
Defined.
