(* ===== verification/AllocatorProgress.v ===== *)
(** * What the IP allocator gets done

    [AllocatorSpec] says what a request may do to the pools; here is what it
    does do when the cluster answers: an allocation reaches every requested
    interface that has a pool with room, a release removes the pod's allocation
    from every pool of its network on the host, and both leave the mutex free. *)

From S2P Require Import Prelude GoLib Types.
From S2P Require Compute.
From S2P Require Import ComputeSpec Allocator AllocatorSpec AllocatorProps AddressService.

(** A cluster that answers: while it is [up] it lists the pools its labels select
    ([listed], which patches of allocations do not touch), accepts patches of
    stored pools, and stays up. *)
Class Available (W : Type) `{IPPoolAPI W} (pool_at : W → string → option IPPoolSpec)
    (listed : list (string * string) → string → Prop) (up : W → Prop) := {
  up_list : ∀ w sel, up w →
    ∃ m, ListIPPool w sel = Ok m ∧
      ∀ name spec, m !! name = Some spec ↔ pool_at w name = Some spec ∧ listed sel name;
  up_patch : ∀ w name l, up w → is_Some (pool_at w name) →
    ∃ w', PatchIPPool w name l = (w', true) ∧ up w'
}.

(** both networks of the pool are well-formed texts *)
Definition pool_texts (spec : IPPoolSpec) : Prop :=
  (∃ ip p, cidr_text (p_PodCIDR spec) ip p) ∧ (∃ ip p, cidr_text (p_VlanCIDR spec) ip p).

(** ** The choice of addresses *)

Lemma nextAllocation_total spec offset :
  pool_texts spec → ∃ next, nextAllocation spec offset = Ret next.
Proof.
  intros [(ip & p & Ht) _]. destruct (after_slash_text _ _ _ Ht) as (m & Hm & _).
  unfold nextAllocation. rewrite Hm. simpl. repeat case_match; eauto.
Qed.

Lemma allocateIP_total fs pod ns offset pools : ∀ ifaces acc,
  Forall (λ kv, pool_texts kv.2) pools →
  ∃ m, allocateIP fs pod ns ifaces offset pools acc = Ret m.
Proof.
  induction pools as [|[name spec] pools IH]; intros ifaces acc Hall; simpl; [by eauto|].
  apply Forall_cons in Hall as [Hs Hall]. simpl in Hs.
  destruct ifaces as [|i ifaces]; [by eauto|].
  destruct (match_interface _ _ _ _) as [[di oi]|]; [|by apply IH].
  destruct (nextAllocation_total spec offset Hs) as [next ->]. simpl. by apply IH.
Qed.

(** what is entered for one pool stays *)
Lemma allocateIP_keeps fs pod ns offset pools : ∀ ifaces acc m name new,
  allocateIP fs pod ns ifaces offset pools acc = Ret m →
  acc !! name = Some new → name ∉ pools.*1 → m !! name = Some new.
Proof.
  induction pools as [|[name0 spec] pools IH]; intros ifaces acc m name new H Hacc Hnot; simpl in *.
  { by injection H as <-. }
  apply not_elem_of_cons in Hnot as [Hne Hnot].
  destruct ifaces as [|i ifaces]; [by injection H as <-|].
  destruct (match_interface _ _ _ _) as [[di oi]|]; [|by eapply IH].
  go_inv H. eapply IH; [exact H| |done]. destruct a as [[? ?]|]; [|done].
  by rewrite lookup_insert_ne.
Qed.

(** without virtual functions a pool takes exactly its own interface *)
Lemma match_interface_plain fs pool ifaces k :
  Forall (λ i, isVF fs i = false) ifaces →
  match match_interface fs pool ifaces k with
  | Some (di, i) => i = pool ∧ (k ≤ di)%nat ∧ ifaces !! (di - k)%nat = Some i
  | None => pool ∉ ifaces
  end.
Proof.
  intros Hall. revert k. induction Hall as [|i ifaces Hi Hall IH]; intros k; simpl.
  { apply not_elem_of_nil. }
  case_bool_decide as Heq; [subst; rewrite Nat.sub_diag; auto with lia|].
  rewrite Hi. simpl. specialize (IH (S k)).
  destruct (match_interface _ _ ifaces (S k)) as [[di j]|].
  - destruct IH as (-> & Hle & Hl). split; [done|]. split; [lia|].
    replace (di - k)%nat with (S (di - S k)) by lia. done.
  - by apply not_elem_of_cons.
Qed.

Lemma elem_of_remove_at {A} (l : list A) (x y : A) k :
  x ∈ l → l !! k = Some y → x ≠ y → x ∈ remove_at l k.
Proof.
  intros Hx Hk Hne. unfold remove_at. rewrite <- (take_drop_middle l k y Hk) in Hx.
  apply elem_of_app in Hx as [?|[->|?]%elem_of_cons]; [|done|]; apply elem_of_app; auto.
Qed.

Lemma allocateIP_grants fs pod ns offset pools : ∀ ifaces acc m name spec index addr,
  allocateIP fs pod ns ifaces offset pools acc = Ret m →
  Forall (λ i, isVF fs i = false) ifaces → NoDup pools.*1 →
  (∀ n s, (n, s) ∈ pools → p_InterfaceName s = p_InterfaceName spec → n = name) →
  (name, spec) ∈ pools → p_InterfaceName spec ∈ ifaces →
  nextAllocation spec offset = Ret (Some (index, addr)) →
  m !! name = Some (mkNew (mkAllocation pod ns index addr) (p_InterfaceName spec)).
Proof.
  induction pools as [|[name0 spec0] pools IH];
    intros ifaces acc m name spec index addr H Hvf Hnd Honly Hin Hi Hnext.
  { by apply elem_of_nil in Hin. }
  simpl in H, Hnd. apply NoDup_cons in Hnd as [Hnot Hnd].
  assert (∀ n s, (n, s) ∈ pools → p_InterfaceName s = p_InterfaceName spec → n = name) as Honly'
    by (intros n s ?; apply Honly; by right).
  destruct ifaces as [|i0 ifaces0]; [by apply elem_of_nil in Hi|].
  remember (i0 :: ifaces0) as ifaces eqn:Hif.
  pose proof (match_interface_plain fs (p_InterfaceName spec0) ifaces 0 Hvf) as Hm.
  destruct (match_interface _ _ ifaces 0) as [[di oi]|].
  - destruct Hm as (-> & _ & Hl). rewrite Nat.sub_0_r in Hl. go_inv H. rename a into next.
    apply elem_of_cons in Hin as [[= <- <-]|Hin].
    + rewrite Hnext in E. injection E as <-.
      eapply allocateIP_keeps; [exact H|by rewrite lookup_insert_eq|done].
    + assert (p_InterfaceName spec ≠ p_InterfaceName spec0) as Hne.
      { intros Heq. apply Hnot. rewrite (Honly name0 spec0) by (by left || done).
        apply list_elem_of_fmap. by exists (name, spec). }
      eapply IH; [exact H| |done..|by eapply elem_of_remove_at|done].
      unfold remove_at. apply Forall_app; split; [by apply Forall_take|by apply Forall_drop].
  - apply elem_of_cons in Hin as [[= <- <-]|Hin]; [done|]. by eapply IH.
Qed.

(** ** The patches *)

Section progress.
Context {W : Type} {api : IPPoolAPI W} {ord : MapRange}.
Context (pool_at : W → string → option IPPoolSpec)
  (listed : list (string * string) → string → Prop) (up : W → Prop).
Context {laws : IPPoolLaws W pool_at} {avail : Available W pool_at listed up}.

Lemma patch_keeps_pools w name l w' b n :
  PatchIPPool w name l = (w', b) → is_Some (pool_at w n) → is_Some (pool_at w' n).
Proof.
  intros Hp Hn. destruct (decide (name = n)) as [<-|Hne].
  - destruct b.
    + destruct Hn as [s Hs]. rewrite (patch_ok _ _ _ _ _ Hp Hs). eauto.
    + by rewrite (patch_fail _ _ _ _ Hp).
  - by rewrite (patch_other _ _ _ _ _ _ Hp Hne).
Qed.

(** every new allocation is patched in and answered *)
Lemma applyNewAllocations_answers m : ∀ news w,
  up w →
  Forall (λ kv, is_Some (pool_at w kv.1) ∧
    ∃ spec, m !! kv.1 = Some spec ∧ pool_texts spec) news →
  ∃ w' rs, applyNewAllocations w m news = (w', Ret rs) ∧ up w' ∧
    ∀ name new, (name, new) ∈ news →
      ∃ rsp, (rsp ∈ rs) ∧ rs_InterfaceName rsp = n_interfaceName new ∧
        rs_IPAddress rsp = a_Address (n_Allocation new).
Proof.
  induction news as [|[name new] news IH]; intros w Hup Hall; simpl.
  { exists w, []. split_and!; [done..|]. by intros ? ? ?%elem_of_nil. }
  apply Forall_cons in Hall as [(Hs & spec & Hm & _ & (ip & p & Hv)) Hall]. simpl in *.
  rewrite Hm. simpl.
  destruct (up_patch w name (insertAllocation (p_Allocations spec) (n_Allocation new)) Hup Hs)
    as (w1 & Hp & Hup1). rewrite Hp.
  destruct (after_slash_text _ _ _ Hv) as (block & -> & _).
  destruct (IH w1 Hup1) as (w2 & rs & -> & Hup2 & Hrs).
  { eapply Forall_impl; [exact Hall|]. intros [n x] [Hn ?]. split; [|done].
    by eapply patch_keeps_pools. }
  eexists w2, _. split_and!; [done..|]. intros n x [[= -> ->]|Hin]%elem_of_cons.
  - eexists. split; [by left|done].
  - destruct (Hrs n x Hin) as (rsp & ? & ?). exists rsp. split; [by right|done].
Qed.

Lemma AllocateIP_run fs clk req d m news w rs :
  d_locked d = false →
  ListIPPool (d_world d) (host_def_selector (rq_HostName req) (rq_NetAttachDefName req)) = Ok m →
  m ≠ ∅ → request_news fs clk req d m = Ret news →
  applyNewAllocations (d_world d) m (range_map news) = (w, Ret rs) →
  ∃ d', AllocateIP fs clk req d = Done d' rs ∧ d_locked d' = false ∧ d_world d' = w.
Proof.
  intros Hl Hlist Hne. unfold request_news, offset_of, AllocateIP. rewrite Hl, Hlist.
  rewrite bool_decide_eq_false_2 by done.
  destruct (FlushExpiredHistory clk (d_history d) !! rq_PodName req);
    intros -> ->; eexists; eauto.
Qed.

(** the selector of the pools of a request *)
#[local] Abbreviation selector req := (host_def_selector (rq_HostName req) (rq_NetAttachDefName req)).

(** a request that finds its pools is served, and the cluster stays up *)
Lemma AllocateIP_done fs clk req d m :
  d_locked d = false → up (d_world d) → ListIPPool (d_world d) (selector req) = Ok m →
  (∀ n s, m !! n = Some s → pool_texts s) →
  ∃ news d' rs, request_news fs clk req d m = Ret news ∧ AllocateIP fs clk req d = Done d' rs ∧
    d_locked d' = false ∧ up (d_world d') ∧
    (m ≠ ∅ → ∀ name new, news !! name = Some new →
      ∃ rsp, (rsp ∈ rs) ∧ rs_InterfaceName rsp = n_interfaceName new ∧
        rs_IPAddress rsp = a_Address (n_Allocation new)).
Proof.
  intros Hl Hup Hlist Htexts.
  destruct (allocateIP_total fs (rq_PodName req) (rq_PodNamespace req)
    (offset_of clk (d_history d) (rq_PodName req)) (range_map m) (rq_InterfaceNames req) ∅)
    as [news Hnews].
  { apply Forall_forall. intros [n s] Hin%elem_of_range_map. by eapply Htexts. }
  exists news. destruct (decide (m = ∅)) as [->|Hne].
  { unfold AllocateIP. rewrite Hl, Hlist, bool_decide_eq_true_2 by done.
    destruct (_ !! rq_PodName req); eexists _, []; split_and!; try done. }
  destruct (applyNewAllocations_answers m (range_map news) (d_world d) Hup)
    as (w & rs & Ha & Hup' & Hrs).
  { apply Forall_forall. intros [n x] Hin%elem_of_range_map. simpl.
    destruct (request_news_chosen pool_at fs clk req d m news n x (d_world d) Hlist Hnews Hin)
      as (s & Hs & Hp & _). split; [eauto|]. exists s. split; [done|by eapply Htexts]. }
  destruct (AllocateIP_run fs clk req d m news w rs) as (d' & Hd' & Hl' & <-); [done..|].
  exists d', rs. split_and!; [done..|]. intros _ name new Hnew. apply (Hrs name new).
  by apply elem_of_range_map.
Qed.

(** the requested interface gets the address chosen in its pool *)
Lemma AllocateIP_grants fs clk req d m name spec index addr :
  d_locked d = false → up (d_world d) → ListIPPool (d_world d) (selector req) = Ok m →
  (∀ n s, m !! n = Some s → pool_texts s) →
  (∀ n s, m !! n = Some s → p_InterfaceName s = p_InterfaceName spec → n = name) →
  m !! name = Some spec → p_InterfaceName spec ∈ rq_InterfaceNames req →
  Forall (λ i, isVF fs i = false) (rq_InterfaceNames req) →
  nextAllocation spec (offset_of clk (d_history d) (rq_PodName req)) = Ret (Some (index, addr)) →
  ∃ d' rs rsp, AllocateIP fs clk req d = Done d' rs ∧ d_locked d' = false ∧ (rsp ∈ rs) ∧
    rs_InterfaceName rsp = p_InterfaceName spec ∧ rs_IPAddress rsp = addr.
Proof.
  intros Hl Hup Hlist Htexts Honly Hm Hi Hvf Hnext.
  destruct (AllocateIP_done fs clk req d m) as (news & d' & rs & Hnews & Hd' & Hl' & _ & Hrs);
    [done..|].
  destruct (Hrs (λ H, ltac:(by rewrite H, lookup_empty in Hm)) name
    (mkNew (mkAllocation (rq_PodName req) (rq_PodNamespace req) index addr) (p_InterfaceName spec)))
    as (rsp & Hin & Hname & Haddr); [|by exists d', rs, rsp].
  eapply allocateIP_grants; [exact Hnews|done|apply range_map_keys_nodup| |
    by apply elem_of_range_map|done..]. intros n s Hin%elem_of_range_map. by apply Honly.
Qed.

(** a pool that the request does not list is left alone *)
Lemma AllocateIP_unlisted fs clk req d m name :
  ListIPPool (d_world d) (selector req) = Ok m → m !! name = None →
  pool_at (d_world (state_of (AllocateIP fs clk req d))) name = pool_at (d_world d) name.
Proof.
  intros Hlist Hm. destruct (d_locked d) eqn:Hl.
  { unfold AllocateIP. rewrite Hl. destruct (FlushExpiredHistory _ _ !! _); reflexivity. }
  destruct (AllocateIP_cases fs clk req d Hl)
    as [(d' & -> & _ & Hw)|(m' & Hlist' & [(_ & d' & -> & Hw)|(news & w & r & Hn & Ha & Hw & _)])];
    simpl; rewrite Hw; [done..|].
  rewrite (applyNewAllocations_frame pool_at _ _ _ _ _ name Ha); [done|].
  intros ([n new] & -> & Hin)%list_elem_of_fmap. apply elem_of_range_map in Hin.
  destruct (request_news_chosen pool_at _ _ _ _ _ _ _ _ _ Hlist' Hn Hin) as (s & Hs & _).
  rewrite Hlist in Hlist'. injection Hlist' as <-. simpl in Hm. congruence.
Qed.

(** ** Releases *)

Lemma DeallocateIP_loop_removes fs req : ∀ pools w,
  up w → NoDup pools.*1 →
  Forall (λ kv, pool_at w kv.1 = Some kv.2 ∧ pool_texts kv.2) pools →
  ∃ w' rs, DeallocateIP_loop fs req w pools = (w', Ret rs) ∧
    (∀ name, name ∉ pools.*1 → pool_at w' name = pool_at w name) ∧
    ∀ name spec i a, (name, spec) ∈ pools → pod_allocation req spec = Some (i, a) →
      pool_at w' name = Some (set_Allocations spec (remove_at (p_Allocations spec) i)) ∧
      a_Address a ∈ rs_IPAddress <$> rs.
Proof.
  induction pools as [|[n0 spec0] pools IH]; intros w Hup Hnd Hall.
  { exists w, []. split_and!; [done..|]. by intros ? ? ? ? ?%elem_of_nil. }
  simpl in Hnd. apply NoDup_cons in Hnd as [Hn0 Hnd].
  apply Forall_cons in Hall as [[Hp0 Htexts] Hall]. simpl in Hp0, Htexts.
  simpl. fold (request_matches req spec0).
  destruct (pod_allocation req spec0) as [[i0 a0]|] eqn:Ea.
  - unfold pod_allocation in Ea. destruct (request_matches req spec0) eqn:Er; [|done]. rewrite Ea.
    destruct (up_patch w n0 (remove_at (p_Allocations spec0) i0) Hup) as (w1 & Hpatch & Hup1);
      [by eauto|]. rewrite Hpatch.
    destruct Htexts as [_ (ip & p & Hv)]. destruct (after_slash_text _ _ _ Hv) as (block & -> & _).
    destruct (IH w1 Hup1 Hnd) as (w2 & rs & -> & Hframe & Hrm).
    { rewrite Forall_forall in Hall |- *. intros [n s] Hin. specialize (Hall _ Hin) as [? ?].
      split; [|done]. rewrite (patch_other _ _ _ _ _ _ Hpatch); [done|]. simpl. intros ->.
      apply Hn0, list_elem_of_fmap. by exists (n, s). }
    eexists w2, _. split; [done|]. split.
    + intros name [Hne Hnot]%not_elem_of_cons. rewrite (Hframe name Hnot).
      by rewrite (patch_other _ _ _ _ _ _ Hpatch).
    + intros name spec i a [[= -> ->]|Hin]%elem_of_cons Ha.
      * unfold pod_allocation in Ha. rewrite Er, Ea in Ha. injection Ha as <- <-.
        rewrite (Hframe n0 Hn0), (patch_ok _ _ _ _ _ Hpatch Hp0). split; [done|by left].
      * destruct (Hrm _ _ _ _ Hin Ha). split; [done|by right].
  - destruct (IH w Hup Hnd Hall) as (w2 & rs & Hloop & Hframe & Hrm). exists w2, rs. split.
    { unfold pod_allocation in Ea. destruct (request_matches req spec0); [by rewrite Ea|done]. }
    split.
    + intros name [_ Hnot]%not_elem_of_cons. by apply Hframe.
    + intros name spec i a [[= -> ->]|Hin]%elem_of_cons Ha; [congruence|]. by apply (Hrm name spec i a).
Qed.

Lemma DeallocateIP_removes fs now req d m :
  d_locked d = false → up (d_world d) →
  ListIPPool (d_world d) (host_def_selector (rq_HostName req) (rq_NetAttachDefName req)) = Ok m →
  (∀ n s, m !! n = Some s → pool_texts s) →
  ∃ d' rs, DeallocateIP fs now req d = Done d' rs ∧ d_locked d' = false ∧
    ∀ name spec i a, m !! name = Some spec → pod_allocation req spec = Some (i, a) →
      pool_at (d_world d') name = Some (set_Allocations spec (remove_at (p_Allocations spec) i)) ∧
      a_Address a ∈ rs_IPAddress <$> rs.
Proof.
  intros Hl Hup Hlist Htexts. unfold DeallocateIP. rewrite Hl, Hlist.
  destruct (DeallocateIP_loop_removes fs req (range_map m) (d_world d) Hup) as (w & rs & -> & _ & Hrm).
  - apply range_map_keys_nodup.
  - apply Forall_forall. intros [n s] Hin%elem_of_range_map. simpl.
    split; [by eapply list_sound|by eapply Htexts].
  - eexists _, rs. split_and!; [done..|]. intros name spec i a Hm. apply Hrm.
    by apply elem_of_range_map.
Qed.

(** ** A request and its release *)

Lemma find_allocation_app pod ns l new rest : ∀ k,
  Forall (λ a, (a_Pod a, a_Namespace a) ≠ (pod, ns)) l →
  a_Pod new = pod → a_Namespace new = ns →
  find_allocation pod ns (l ++ new :: rest) k = Some ((k + length l)%nat, new).
Proof.
  intros k Hall Hp Hn. revert k. induction Hall as [|a l Ha Hall IH]; intros k; simpl.
  { rewrite !bool_decide_eq_true_2 by done. by rewrite Nat.add_0_r. }
  destruct (_ && _) eqn:E.
  - apply andb_true_iff in E as [E1%bool_decide_eq_true E2%bool_decide_eq_true]. congruence.
  - rewrite IH. do 2 f_equal. lia.
Qed.

Lemma find_allocation_absent pod ns l : ∀ k,
  Forall (λ a, (a_Pod a, a_Namespace a) ≠ (pod, ns)) l → find_allocation pod ns l k = None.
Proof.
  intros k Hall. revert k. induction Hall as [|a l Ha Hall IH]; intros k; simpl; [done|].
  destruct (_ && _) eqn:E; [|done].
  apply andb_true_iff in E as [E1%bool_decide_eq_true E2%bool_decide_eq_true]. congruence.
Qed.

Lemma remove_at_app_end {A} (l : list A) x : remove_at (l ++ [x]) (length l) = l.
Proof.
  unfold remove_at. rewrite take_app_length, drop_ge; [apply app_nil_r|].
  rewrite length_app. simpl. lia.
Qed.

(** what a request does to the pools: nothing, or one allocation of the pod at
    the end of a listed pool *)
Lemma AllocateIP_effect fs clk req d m name :
  ListIPPool (d_world d) (selector req) = Ok m → history_ok (d_history d) →
  (∀ n s, pool_at (d_world d) n = Some s → ∃ ip p, pool_net s ip p ∧ indexes_ok s p) →
  has_room pool_at clk req d →
  let w1 := d_world (state_of (AllocateIP fs clk req d)) in
  pool_at w1 name = pool_at (d_world d) name ∨
  ∃ s new, m !! name = Some s ∧ pool_at (d_world d) name = Some s ∧
    a_Pod new = rq_PodName req ∧ a_Namespace new = rq_PodNamespace req ∧
    pool_at w1 name = Some (set_Allocations s (p_Allocations s ++ [new])).
Proof.
  intros Hlist Hh Hpools Hroom w1. destruct (m !! name) as [s|] eqn:Hm.
  2: { left. by apply (AllocateIP_unlisted fs clk req d m). }
  pose proof (list_sound _ _ _ _ _ Hlist Hm) as Hs. rewrite Hs.
  destruct (Hpools _ _ Hs) as (ip & p & Hnet & Hok).
  destruct (AllocateIP_appends pool_at fs clk req d name s ip p)
    as [?|(new & ? & ? & _ & _ & _ & ?)]; [by eauto..|by left|].
  right. exists s, new. done.
Qed.

(** without allocations of the pod a pool stays as it is *)
Lemma DeallocateIP_keeps fs now req d name :
  (∀ s, pool_at (d_world d) name = Some s →
     Forall (λ a, (a_Pod a, a_Namespace a) ≠ owner_of req) (p_Allocations s)) →
  pool_at (d_world (state_of (DeallocateIP fs now req d))) name = pool_at (d_world d) name.
Proof.
  intros Hno. destruct (pool_at (d_world d) name) as [s|] eqn:Hs.
  - destruct (DeallocateIP_pools pool_at fs now req d name s Hs) as [?|(i & a & Ha & _)]; [done|].
    unfold pod_allocation in Ha. rewrite find_allocation_absent in Ha by (by apply Hno).
    by destruct (request_matches _ _).
  - by apply DeallocateIP_absent.
Qed.

(** the release finds in a pool what the request entered, and only that *)
Lemma release_undoes req spec new :
  Forall (λ a, (a_Pod a, a_Namespace a) ≠ owner_of req) (p_Allocations spec) →
  a_Pod new = rq_PodName req → a_Namespace new = rq_PodNamespace req →
  request_matches req spec = true →
  pod_allocation req (set_Allocations spec (p_Allocations spec ++ [new]))
  = Some (length (p_Allocations spec), new).
Proof.
  intros Hall Hp Hn Hr. unfold pod_allocation.
  replace (request_matches req (set_Allocations _ _)) with true by (by rewrite <- Hr).
  simpl. by rewrite (find_allocation_app _ _ _ _ [] 0).
Qed.
(** ** A restart *)

(** the cleaning of a restart reaches every pool of the host *)
Lemma CleanHanging_loop_all getPod : ∀ pools w,
  up w → NoDup pools.*1 → Forall (λ kv, pool_at w kv.1 = Some kv.2) pools →
  up (CleanHanging_loop getPod w pools) ∧
  ∀ name spec, (name, spec) ∈ pools →
    pool_at (CleanHanging_loop getPod w pools) name
    = Some (set_Allocations spec (alive getPod (p_Allocations spec))).
Proof.
  induction pools as [|[n0 spec0] pools IH]; intros w Hup Hnd Hall.
  { split; [done|]. by intros ? ? ?%elem_of_nil. }
  simpl. fold (alive getPod (p_Allocations spec0)).
  apply NoDup_cons in Hnd as [Hn0 Hnd]. apply Forall_cons in Hall as [Hp0 Hall]. simpl in Hp0.
  destruct (up_patch w n0 (alive getPod (p_Allocations spec0)) Hup) as (w1 & Hpatch & Hup1);
    [by eauto|]. rewrite Hpatch. cbn [fst].
  destruct (IH w1 Hup1 Hnd) as [Hup2 Hin].
  { rewrite Forall_forall in Hall |- *. intros [n s] Hns. specialize (Hall _ Hns). simpl in *.
    rewrite (patch_other _ _ _ _ _ _ Hpatch); [done|]. intros ->.
    apply Hn0, list_elem_of_fmap. by exists (n, s). }
  split; [done|]. intros name spec [[= -> ->]|Hs]%elem_of_cons; [|by apply Hin].
  by rewrite (CleanHanging_loop_frame pool_at), (patch_ok _ _ _ _ _ Hpatch Hp0).
Qed.

(** a pod's first request after a restart takes the next address *)
Lemma start_offset clk getPod host w pod :
  offset_of clk (d_history (start_allocator getPod host w)) pod = 1.
Proof.
  unfold offset_of. destruct (_ !! pod) as [r|] eqn:E; [|done].
  apply flush_lookup in E as [E _]. by apply (lookup_empty_Some pod r) in E.
Qed.

Lemma alive_none getPod l :
  (∀ a, a ∈ l → getPod (a_Pod a) (a_Namespace a) = false) → alive getPod l = [].
Proof.
  induction l as [|a l IH]; intros Hl; [done|]. unfold alive.
  rewrite filter_cons_False by (by rewrite (Hl a) by left). apply IH. intros b Hb. apply Hl. by right.
Qed.

Lemma start_allocator_cleans getPod host w :
  up w →
  let w' := d_world (start_allocator getPod host w) in
  up w' ∧
  (∀ name spec, pool_at w name = Some spec → listed [("hostname", host)] name →
     pool_at w' name = Some (set_Allocations spec (alive getPod (p_Allocations spec)))) ∧
  (∀ name s, pool_at w' name = Some s →
     ∃ spec l, pool_at w name = Some spec ∧ s = set_Allocations spec l).
Proof.
  intros Hup. unfold start_allocator, CleanHangingAllocation. cbn [d_world].
  destruct (up_list w [("hostname", host)] Hup) as (m & -> & Hm). cbn [fst].
  destruct (CleanHanging_loop_all getPod (range_map m) w Hup) as [Hup' Hin].
  { apply range_map_keys_nodup. }
  { apply Forall_forall. intros [n s] Hs%elem_of_range_map. by apply Hm. }
  assert (∀ name spec, m !! name = Some spec → pool_at (CleanHanging_loop getPod w (range_map m)) name
    = Some (set_Allocations spec (alive getPod (p_Allocations spec)))) as Hc
    by (intros name spec Hs; by apply Hin, elem_of_range_map).
  split_and!; [done|intros; apply Hc; by apply Hm|]. intros name s Hs.
  destruct (m !! name) as [spec|] eqn:Hn.
  - rewrite (Hc _ _ Hn) in Hs. injection Hs as <-. apply Hm in Hn as [? _]. eauto.
  - rewrite (CleanHanging_loop_frame pool_at) in Hs.
    + exists s, (p_Allocations s). split; [done|by destruct s].
    + intros ([n x] & -> & Hx%elem_of_range_map)%list_elem_of_fmap. by simplify_eq/=.
Qed.
End progress.

Section theorems.
Context {W : Type} {api : IPPoolAPI W} {ord : MapRange}.
Context (pool_at : W → string → option IPPoolSpec)
  (listed : list (string * string) → string → Prop) (up : W → Prop).

(** C4: the allocator serves what it can: while the cluster answers and the
    mutex is free, a request for interfaces that are no virtual functions, on a
    host whose pools of the network are well formed, is answered, leaves the
    mutex free, and its answer has for every requested interface with one pool
    that has room beyond its greatest used index the address of the index that
    lies the pod's offset beyond it. *)
Theorem AllocateIP_serves fs clk req d name spec ip p :
  IPPoolLaws W pool_at → Available W pool_at listed up →
  d_locked d = false → up (d_world d) →
  let sel := host_def_selector (rq_HostName req) (rq_NetAttachDefName req) in
  (∀ n s, pool_at (d_world d) n = Some s → listed sel n → pool_texts s) →
  (∀ n s, pool_at (d_world d) n = Some s → listed sel n →
     p_InterfaceName s = p_InterfaceName spec → n = name) →
  pool_at (d_world d) name = Some spec → listed sel name →
  p_InterfaceName spec ∈ rq_InterfaceNames req →
  Forall (λ i, isVF fs i = false) (rq_InterfaceNames req) →
  pool_net spec ip p →
  let next := default 0 (last (sort_ints (used spec (2 ^ (32 - p) - 2))))
              + offset_of clk (d_history d) (rq_PodName req) in
  next < 2 ^ (32 - p) - 2 →
  ∃ d' rs rsp, AllocateIP fs clk req d = Done d' rs ∧ d_locked d' = false ∧ (rsp ∈ rs) ∧
    rs_InterfaceName rsp = p_InterfaceName spec ∧
    rs_IPAddress rsp = getAddressByIndex (p_PodCIDR spec) next.
Proof.
  intros Hlaws Hav Hl Hup sel Htexts Honly Hp Hsel Hi Hvf Hnet next Hroom.
  destruct (up_list (d_world d) sel Hup) as (m & Hlist & Hm).
  apply (AllocateIP_grants pool_at listed up fs clk req d m name spec next); try done.
  - intros n s [? ?]%Hm. by eapply Htexts.
  - intros n s [? ?]%Hm. by eapply Honly.
  - by apply Hm.
  - rewrite (nextAllocation_eq _ _ _ _ Hnet). cbv zeta. fold next.
    by rewrite (proj2 (Z.ltb_lt _ _) Hroom).
Qed.

(** Releasing undoes allocating: while the cluster answers, the pools are well
    formed with room and carry no allocation of the pod, a request followed by
    the release of the same pod ends, with the mutex free and every pool of the
    cluster, its allocations included, as it was before. *)
Lemma allocate_release fs fs' clk now req req' d name :
  IPPoolLaws W pool_at → Available W pool_at listed up →
  d_locked d = false → up (d_world d) → history_ok (d_history d) →
  (∀ n s, pool_at (d_world d) n = Some s →
     pool_texts s ∧ (∃ ip p, pool_net s ip p ∧ indexes_ok s p) ∧
     Forall (λ a, (a_Pod a, a_Namespace a) ≠ owner_of req) (p_Allocations s)) →
  (∀ n s, pool_at (d_world d) n = Some s →
     listed (host_def_selector (rq_HostName req) (rq_NetAttachDefName req)) n →
     request_matches req s = true) →
  has_room pool_at clk req d →
  owner_of req' = owner_of req → rq_HostName req' = rq_HostName req →
  rq_NetAttachDefName req' = rq_NetAttachDefName req →
  ∃ d1 rs d2 rs', AllocateIP fs clk req d = Done d1 rs ∧ DeallocateIP fs' now req' d1 = Done d2 rs' ∧
    d_locked d2 = false ∧ pool_at (d_world d2) name = pool_at (d_world d) name.
Proof.
  intros Hlaws Hav Hl Hup Hh Hpools Hmatch Hroom Howner Hhost Hdef.
  set (sel := host_def_selector (rq_HostName req) (rq_NetAttachDefName req)) in *.
  destruct (up_list (d_world d) sel Hup) as (m & Hlist & Hm).
  destruct (AllocateIP_done pool_at listed up fs clk req d m)
    as (news & d1 & rs & _ & Hd1 & Hl1 & Hup1 & _); [done..| |].
  { intros n s [Hs _]%Hm. by apply (Hpools n s). }
  assert (∀ n, pool_at (d_world d1) n = pool_at (d_world d) n ∨
    ∃ s new, m !! n = Some s ∧ pool_at (d_world d) n = Some s ∧
      a_Pod new = rq_PodName req ∧ a_Namespace new = rq_PodNamespace req ∧
      pool_at (d_world d1) n = Some (set_Allocations s (p_Allocations s ++ [new]))) as Heff.
  { intros n. change d1 with (state_of (Done d1 rs)). rewrite <- Hd1.
    apply (AllocateIP_effect pool_at); try done. intros n0 s Hs. by apply (Hpools n0 s). }
  destruct (up_list (d_world d1) sel Hup1) as (m1 & Hlist1 & Hm1).
  destruct (DeallocateIP_removes pool_at listed up fs' now req' d1 m1)
    as (d2 & rs' & Hd2 & Hl2 & Hrm); [done|done|by rewrite Hhost, Hdef| |].
  { intros n s1 [Hs1 _]%Hm1. destruct (Heff n) as [Heq|(s & new & _ & Hs & _ & _ & Heq)].
    - rewrite Heq in Hs1. by apply (Hpools n s1).
    - rewrite Heq in Hs1. injection Hs1 as <-. by apply (Hpools n s). }
  exists d1, rs, d2, rs'. split_and!; [done..|].
  destruct (Heff name) as [Heq|(s & new & Hin & Hs & Hpod & Hns & Heq)].
  - rewrite <- Heq. change d2 with (state_of (Done d2 rs')). rewrite <- Hd2.
    apply (DeallocateIP_keeps pool_at). intros s. rewrite Heq, Howner. intros Hs. by apply (Hpools name s).
  - pose proof (proj1 (Hm _ _) Hin) as [_ Hsel]. destruct (Hpools name s Hs) as (_ & _ & Hno).
    destruct (Hrm name (set_Allocations s (p_Allocations s ++ [new])) (length (p_Allocations s)) new)
      as [-> _]; [by apply Hm1| |].
    { apply release_undoes; [by rewrite Howner|injection Howner; congruence..|].
      unfold request_matches. rewrite Hhost, Hdef. by apply (Hmatch name s). }
    rewrite Hs. simpl. rewrite remove_at_app_end. by destruct s.
Qed.
(** C40: a restart while pods cannot be looked up hands out addresses in use.
    The cleaning of a starting daemon drops an allocation on any error of the pod
    lookup, so when the lookups of the pods of a pool fail (the pods themselves
    keep running), the next request for its interface is answered with the first
    address beyond the pool's excluded ones, though a pod had it. *)
Theorem restart_reissues_address fs clk getPod req w name spec ip p a :
  IPPoolLaws W pool_at → Available W pool_at listed up → up w →
  let sel := host_def_selector (rq_HostName req) (rq_NetAttachDefName req) in
  (∀ n s, pool_at w n = Some s → listed sel n → pool_texts s) →
  (∀ n s, pool_at w n = Some s → listed sel n → p_InterfaceName s = p_InterfaceName spec → n = name) →
  pool_at w name = Some spec → listed sel name → listed [("hostname", rq_HostName req)] name →
  p_InterfaceName spec ∈ rq_InterfaceNames req →
  Forall (λ i, isVF fs i = false) (rq_InterfaceNames req) →
  pool_net spec ip p →
  let first := default 0 (last (sort_ints (used (set_Allocations spec []) (2 ^ (32 - p) - 2)))) + 1 in
  first < 2 ^ (32 - p) - 2 →
  a ∈ p_Allocations spec → a_Address a = getAddressByIndex (p_PodCIDR spec) first →
  (∀ b, b ∈ p_Allocations spec → getPod (a_Pod b) (a_Namespace b) = false) →
  ∃ d rs rsp,
    AllocateIP fs clk req (start_allocator getPod (rq_HostName req) w) = Done d rs ∧
    (rsp ∈ rs) ∧ rs_InterfaceName rsp = p_InterfaceName spec ∧ rs_IPAddress rsp = a_Address a.
Proof.
  intros Hlaws Hav Hup sel Htexts Honly Hp Hsel Hhost Hi Hvf Hnet first Hroom Ha Haddr Hgone.
  destruct (start_allocator_cleans pool_at listed up getPod (rq_HostName req) w Hup)
    as (Hup' & Hclean & Hold).
  specialize (Hclean name spec Hp Hhost). rewrite (alive_none _ _ Hgone) in Hclean.
  destruct (up_list _ sel Hup') as (m & Hlist & Hm).
  destruct (AllocateIP_grants pool_at listed up fs clk req (start_allocator getPod (rq_HostName req) w)
    m name (set_Allocations spec []) first (a_Address a)) as (d & rs & rsp & ? & _ & ?); try done.
  - intros n s [(s0 & l & Hs0 & ->)%Hold Hl]%Hm. by apply (Htexts n s0).
  - intros n s [(s0 & l & Hs0 & ->)%Hold Hl]%Hm. by apply (Honly n s0).
  - by apply Hm.
  - rewrite start_offset, (nextAllocation_eq (set_Allocations spec []) ip p 1 Hnet). cbv zeta.
    fold first. by rewrite (proj2 (Z.ltb_lt _ _) Hroom), Haddr.
  - by exists d, rs, rsp.
Qed.
End theorems.

(** ** The example cluster *)

#[local] Existing Instance map_to_list_range.

(** an in-memory cluster that answers, with the given labels *)
Definition mem_up (labels : gmap string (gmap string string)) (w : memstore) : Prop :=
  ms_down w = false ∧ fst <$> ms_pools w = labels.

Definition mem_listed (labels : gmap string (gmap string string)) (sel : list (string * string))
    (name : string) : Prop :=
  from_option (λ l, selects sel l = true) False (labels !! name).

#[export] Instance mem_available labels :
  Available memstore mem_pool_at (mem_listed labels) (mem_up labels).
Proof.
  split.
  - intros w sel [Hd <-]. simpl. rewrite Hd. eexists. split; [done|]. intros name spec.
    unfold mem_pool_at, mem_listed. rewrite !lookup_fmap, !fmap_Some. split.
    + intros ([l s] & [Hl Hs]%map_lookup_filter_Some & ->). rewrite Hl. simpl in *. eauto.
    + intros [([l s] & Hl & ->) Hs]. rewrite Hl in Hs. simpl in Hs. exists (l, s).
      split; [|done]. by apply map_lookup_filter_Some.
  - intros w name l [Hd <-] [spec Hs]. unfold mem_pool_at in Hs. simpl. rewrite Hd.
    destruct (ms_pools w !! name) as [[lb s]|] eqn:Hn; [|done]. eexists. split; [done|].
    split; [done|]. simpl. rewrite fmap_insert. simpl. apply insert_id.
    by rewrite lookup_fmap, Hn.
Qed.

Definition ex_labels_of : gmap string (gmap string string) := {["net-192.168.0.0-29" := ex_labels]}.

Lemma ex_only l n s :
  mem_pool_at (d_world (ex_daemon l false)) n = Some s → n = "net-192.168.0.0-29" ∧ s = ex_pool l.
Proof.
  unfold mem_pool_at. intros ([lb s'] & Hl & ->)%fmap_Some.
  simpl in Hl. by apply lookup_singleton_Some in Hl as [<- [= <- <-]].
Qed.

Lemma ex_up l : mem_up ex_labels_of (d_world (ex_daemon l false)).
Proof. by split; vm_compute. Qed.

Lemma ex_pool_texts l : pool_texts (ex_pool l).
Proof.
  split; [exists [192; 168; 0; 0], 29|exists [192; 168; 0; 0], 18].
  - exists "192.168.0.0", "29". by vm_compute.
  - exists "192.168.0.0", "18". by vm_compute.
Qed.

Lemma AllocateIP_serves_witness :
  ∃ d' rs rsp, AllocateIP no_vf (λ _, 0) (ex_req "b") (ex_daemon [al "a" 1] false) = Done d' rs ∧
    d_locked d' = false ∧ (rsp ∈ rs) ∧ rs_InterfaceName rsp = "eth1" ∧
    rs_IPAddress rsp = "192.168.0.3".
Proof.
  apply (AllocateIP_serves mem_pool_at (mem_listed ex_labels_of) (mem_up ex_labels_of)
           no_vf (λ _, 0) (ex_req "b") (ex_daemon [al "a" 1] false) "net-192.168.0.0-29"
           (ex_pool [al "a" 1]) [192; 168; 0; 0] 29).
  - apply memstore_laws.
  - apply mem_available.
  - reflexivity.
  - apply ex_up.
  - intros n s [_ ->]%ex_only _. apply ex_pool_texts.
  - by intros n s [-> _]%ex_only.
  - by vm_compute.
  - by vm_compute.
  - apply list_elem_of_here.
  - repeat constructor.
  - apply ex_pool_net.
  - by vm_compute.
Defined.

(** pod "b" gets the address that pod "a" has *)
Lemma restart_reissues_address_witness :
  ∃ d rs rsp,
    AllocateIP no_vf (λ _, 0) (ex_req "b")
      (start_allocator (λ _ _, false) "host1" (d_world (ex_daemon [al "a" 3] false))) = Done d rs ∧
    (rsp ∈ rs) ∧ rs_InterfaceName rsp = "eth1" ∧ rs_IPAddress rsp = a_Address (al "a" 3).
Proof.
  apply (restart_reissues_address mem_pool_at (mem_listed ex_labels_of) (mem_up ex_labels_of)
           no_vf (λ _, 0) (λ _ _, false) (ex_req "b") (d_world (ex_daemon [al "a" 3] false))
           "net-192.168.0.0-29" (ex_pool [al "a" 3]) [192; 168; 0; 0] 29 (al "a" 3)).
  - apply memstore_laws.
  - apply mem_available.
  - apply ex_up.
  - intros n s [_ ->]%ex_only _. apply ex_pool_texts.
  - by intros n s [-> _]%ex_only.
  - by vm_compute.
  - by vm_compute.
  - by vm_compute.
  - apply list_elem_of_here.
  - repeat constructor.
  - apply ex_pool_net.
  - by vm_compute.
  - apply list_elem_of_here.
  - by vm_compute.
  - reflexivity.
Defined.
