(* ===== verification/K8s.v ===== *)
(** * The cluster and the operator's caches

    The operator talks to the API server through controller-runtime's
    [client.Client]; the interface [Client] has its operations for one kind of
    object, and [ClientLaws] what the operator relies on, relative to an
    abstract view of the stored objects.  [SafeCache] is
    [controllers/safe_cache_handler.go], the locked map each handler keeps. *)

From S2P Require Import Prelude GoLib.

(** an API error: [IsNotFound], [IsAlreadyExists] or another *)
Inductive kerr := NotFound | AlreadyExists | Failure (msg : string).

#[export] Instance kerr_eq_dec : EqDecision kerr.
Proof. solve_decision. Defined.

(** [client.Client] for objects [O] stored in the cluster state [W] *)
Class Client (W O : Type) := {
  cl_Get : W → string → O + kerr;
  cl_List : W → list (string * O) + kerr;
  cl_Create : W → string → O → W * option kerr;
  cl_Update : W → string → O → W * option kerr;
  cl_Delete : W → string → W * option kerr;
  (** [Patch] with [MergeFrom]: the copy the patch starts from, the new object *)
  cl_Patch : W → string → O → O → W * option kerr
}.

(** What every kind of object has: reads tell what is stored, an answer with an
    error changed nothing, and no operation touches another object.  An update
    stores the given object, or removes it: an object that is being deleted goes
    when it loses its last finalizer.  Nothing is said here of the object after its
    deletion, which may wait for finalizers. *)
Class ClientFrame (W O : Type) `{Client W O} (obj_at : W → string → option O) := {
  get_sound : ∀ w n o, cl_Get w n = inl o → obj_at w n = Some o;
  get_complete : ∀ w n, cl_Get w n = inr NotFound → obj_at w n = None;
  create_err : ∀ w w' n o e, cl_Create w n o = (w', Some e) → obj_at w' n = obj_at w n;
  create_other : ∀ w w' n m o e, cl_Create w n o = (w', e) → n ≠ m → obj_at w' m = obj_at w m;
  update_set : ∀ w w' n o o', cl_Update w n o = (w', None) → obj_at w' n = Some o' → o' = o;
  update_err : ∀ w w' n o e, cl_Update w n o = (w', Some e) → obj_at w' n = obj_at w n;
  update_other : ∀ w w' n m o e, cl_Update w n o = (w', e) → n ≠ m → obj_at w' m = obj_at w m;
  delete_err : ∀ w w' n e, cl_Delete w n = (w', Some e) → obj_at w' n = obj_at w n;
  delete_other : ∀ w w' n m e, cl_Delete w n = (w', e) → n ≠ m → obj_at w' m = obj_at w m;
  patch_err : ∀ w w' n old o e, cl_Patch w n old o = (w', Some e) → obj_at w' n = obj_at w n;
  patch_frame : ∀ w w' n m old o e, cl_Patch w n old o = (w', e) → n ≠ m →
    obj_at w' m = obj_at w m
}.

(** objects seen without their finalizers and marks: a write keeps both, so the
    object it wrote is there afterwards *)
Class ClientLaws (W O : Type) `{Client W O} (obj_at : W → string → option O) := {
  client_frame :: ClientFrame W O obj_at;
  create_ok : ∀ w w' n o, cl_Create w n o = (w', None) →
    obj_at w n = None ∧ obj_at w' n = Some o;
  update_ok : ∀ w w' n o, cl_Update w n o = (w', None) → obj_at w' n = Some o;
  patch_merge : ∀ w w' n old o, cl_Patch w n old o = (w', None) → obj_at w n = Some old →
    obj_at w' n = Some o
}.

(** deletion: an object with finalizers is only marked, and goes when they are
    gone; a mark stays *)
Class DeletionLaws (W O : Type) `{Client W O} (obj_at : W → string → option O)
    (marked : W → string → Prop) := {
  delete_marks : ∀ w w' n, cl_Delete w n = (w', None) → obj_at w' n = None ∨ marked w' n;
  marked_delete : ∀ w w' n m e, cl_Delete w n = (w', e) → marked w m →
    obj_at w' m = None ∨ marked w' m;
  marked_patch : ∀ w w' n m old o e, cl_Patch w n old o = (w', e) → marked w m →
    obj_at w' m = None ∨ marked w' m
}.

(** the map a [List] handler builds: the last item of a name stays *)
Definition list_map {O} (l : list (string * O)) : gmap string O :=
  foldl (λ m kv, <[kv.1 := kv.2]> m) ∅ l.

(** ** An in-memory store of one kind of object *)

Record kstore (O : Type) := mkK { k_objs : gmap string O; k_down : bool }.
Arguments mkK {O} _ _.
Arguments k_objs {O} _.
Arguments k_down {O} _.

Definition kstore_get {O} (w : kstore O) (n : string) : O + kerr :=
  if k_down w then inr (Failure "unavailable")
  else match k_objs w !! n with Some o => inl o | None => inr NotFound end.

Definition kstore_create {O} (w : kstore O) (n : string) (o : O) : kstore O * option kerr :=
  if k_down w then (w, Some (Failure "unavailable"))
  else match k_objs w !! n with
       | Some _ => (w, Some AlreadyExists)
       | None => (mkK (<[n := o]> (k_objs w)) false, None)
       end.

Definition kstore_update {O} (w : kstore O) (n : string) (o : O) : kstore O * option kerr :=
  if k_down w then (w, Some (Failure "unavailable"))
  else match k_objs w !! n with
       | None => (w, Some NotFound)
       | Some _ => (mkK (<[n := o]> (k_objs w)) false, None)
       end.

Definition kstore_delete {O} (w : kstore O) (n : string) : kstore O * option kerr :=
  if k_down w then (w, Some (Failure "unavailable"))
  else match k_objs w !! n with
       | None => (w, Some NotFound)
       | Some _ => (mkK (delete n (k_objs w)) false, None)
       end.

#[export] Instance kstore_client {O} : Client (kstore O) O := {|
  cl_Get := kstore_get;
  cl_List w := if k_down w then inr (Failure "unavailable") else inl (map_to_list (k_objs w));
  cl_Create := kstore_create;
  cl_Update := kstore_update;
  cl_Delete := kstore_delete;
  cl_Patch w n _ o := kstore_update w n o
|}.

Definition kstore_at {O} (w : kstore O) (n : string) : option O := k_objs w !! n.

(** a law of a store that is a finite map *)
Ltac store_law :=
  intros; repeat case_match; simplify_eq/=; split_and?;
  rewrite ?lookup_insert_eq, ?lookup_delete_eq, ?lookup_insert_ne, ?lookup_delete_ne by done;
  repeat match goal with
  | H : <[_ := _]> _ !! _ = Some _ |- _ => rewrite lookup_insert_eq in H
  | H : delete _ _ !! _ = Some _ |- _ => rewrite lookup_delete_eq in H
  end; simplify_eq; done.

Ltac kstore_solve :=
  simpl; unfold kstore_at, kstore_get, kstore_create, kstore_update, kstore_delete; store_law.

#[export] Instance kstore_laws {O} : ClientLaws (kstore O) O kstore_at.
Proof. split; [split|..]; kstore_solve. Qed.

(** the store of one kind as a part of a larger state *)
Definition part_client {C O} (get : C → kstore O) (set : C → kstore O → C) : Client C O := {|
  cl_Get c n := kstore_get (get c) n;
  cl_List c := cl_List (get c);
  cl_Create c n o := let '(s, e) := kstore_create (get c) n o in (set c s, e);
  cl_Update c n o := let '(s, e) := kstore_update (get c) n o in (set c s, e);
  cl_Delete c n := let '(s, e) := kstore_delete (get c) n in (set c s, e);
  cl_Patch c n _ o := let '(s, e) := kstore_update (get c) n o in (set c s, e)
|}.

Lemma part_laws {C O} (get : C → kstore O) (set : C → kstore O → C) :
  (∀ c s, get (set c s) = s) →
  @ClientLaws C O (part_client get set) (λ c n, kstore_at (get c) n).
Proof.
  intros Hgs. split; [split|..]; simpl; unfold kstore_at, kstore_get, kstore_create, kstore_update,
    kstore_delete; intros; repeat case_match; simplify_eq/=; rewrite ?Hgs in *; simpl in *; store_law.
Qed.

(** ** controllers/safe_cache_handler.go

    Each method takes the lock for its whole body, so it is one step on the
    map; a missing key gives nil. *)

Abbreviation SafeCache V := (gmap string V).

Section cache.
Context {V : Type}.

Definition InitSafeCache : SafeCache V := ∅.
Definition SetCache (s : SafeCache V) (key : string) (value : V) : SafeCache V := <[key := value]> s.
Definition UnsetCache (s : SafeCache V) (key : string) : SafeCache V := delete key s.
Definition CacheContains (s : SafeCache V) (key : string) : bool := bool_decide (is_Some (s !! key)).
Definition GetCache (s : SafeCache V) (key : string) : option V := s !! key.
Definition GetSize (s : SafeCache V) : Z := Z.of_nat (size s).
Definition Clear (s : SafeCache V) : SafeCache V := ∅.
(** the snapshot a handler's [ListCache] copies under the read lock *)
Definition ListCache (s : SafeCache V) : gmap string V := s.
End cache.
