(* ===== verification/IPPool.v ===== *)
(** * controllers/ippool_handler.go: the operator's IPPools

    For every pod CIDR of a network and host the operator keeps an IPPool with
    the exclusions that fall into it; the daemon allocates from it. *)

From S2P Require Import Prelude GoLib Types K8s.
From S2P Require Compute.

(** the object: its labels and its spec *)
Record IPPool := mkIPPool { ip_Labels : gmap string string; ip_Spec : IPPoolSpec }.

#[export] Instance IPPool_eq_dec : EqDecision IPPool.
Proof. solve_decision. Defined.

(** [internal/vars]: the labels the daemon selects pools by *)
Definition HostNameLabel : string := "hostname".
Definition DefNameLabel : string := "netname".

Definition pool_labels (hostName netAttachDef : string) : gmap string string :=
  {[HostNameLabel := hostName; DefNameLabel := netAttachDef]}.

Definition GetIPPoolName (netAttachDef podCIDR : string) : string :=
  netAttachDef +:+ "-" +:+ Strings.ReplaceAll podCIDR "/"%char "-"%char.

(** one round of the loop of [extractMatchExcludesFromPodCIDR]: whether the
    exclusion is kept for the pod CIDR *)
Definition match_exclude (podCIDR excludeCIDR : string) : go bool :=
  let podSubnet := snd <$> Net.ParseCIDR podCIDR in
  let excludeIPSplits := Strings.Split excludeCIDR "/"%char in
  let excludeIPStr := Compute.before_slash excludeCIDR in
  let excludeBlock :=
    match excludeIPSplits with
    | _ :: b :: _ => fst (Strconv.ParseInt b 10)
    | _ => 32
    end in
  podBlockStr ← Compute.after_slash podCIDR;
  let podBlock := fst (Strconv.ParseInt podBlockStr 10) in
  if excludeBlock <=? podBlock then Ret false
  else
    let excludeIP :=
      fst <$> Net.ParseCIDR (excludeIPStr +:+ "/" +:+ Strconv.Itoa excludeBlock) in
    match podSubnet with
    | None => Panic
    | Some podSubnet => Ret (Net.Contains podSubnet excludeIP)
    end.

Fixpoint extractMatchExcludesFromPodCIDR (excludes : list Compute.IPValue) (podCIDR : string)
    : go (list string) :=
  match excludes with
  | [] => Ret []
  | item :: rest =>
      let excludeCIDR := Compute.Address item in
      keep ← match_exclude podCIDR excludeCIDR;
      excludesInterface ← extractMatchExcludesFromPodCIDR rest podCIDR;
      Ret (if keep : bool then excludeCIDR :: excludesInterface else excludesInterface)
  end.

(** the spec has no allocations yet *)
Definition initIPPool (netAttachDef podCIDR vlanCIDR hostName interfaceName : string)
    (excludes : list Compute.IPValue) : go (string * IPPoolSpec * list string) :=
  excludesInterface ← extractMatchExcludesFromPodCIDR excludes podCIDR;
  let spec :=
    mkIPPoolSpec podCIDR vlanCIDR netAttachDef hostName interfaceName excludesInterface [] in
  Ret (GetIPPoolName netAttachDef podCIDR, spec, excludesInterface).

Fixpoint check_excludes (excludeCIDRs : list string) (allocation : Allocation)
    : go (list Allocation) :=
  match excludeCIDRs with
  | [] => Ret []
  | cidr :: rest =>
      let ip := fst <$> Net.ParseCIDR (a_Address allocation +:+ "/32") in
      match Net.ParseCIDR cidr with
      | None => Panic (* subnet is nil *)
      | Some (_, subnet) =>
          invalid ← check_excludes rest allocation;
          Ret (if Net.Contains subnet ip then allocation :: invalid else invalid)
      end
  end.

Fixpoint checkPoolValidity (excludeCIDRs : list string) (allocations : list Allocation)
    : go (list Allocation) :=
  match allocations with
  | [] => Ret []
  | allocation :: rest =>
      here ← check_excludes excludeCIDRs allocation;
      invalidAllocations ← checkPoolValidity excludeCIDRs rest;
      Ret (here ++ invalidAllocations)
  end.

Section client.
Context {W : Type} {client : Client W IPPool}.

Definition GetIPPool (w : W) (name : string) : IPPool + kerr := cl_Get w name.

Definition ListIPPool (w : W) : gmap string IPPool * option kerr :=
  match cl_List w with
  | inl poolList => (list_map poolList, None)
  | inr err => (∅, Some err)
  end.

Definition DeleteIPPool (w : W) (netAttachDef podCIDR : string) : W * option kerr :=
  let name := GetIPPoolName netAttachDef podCIDR in
  match GetIPPool w name with
  | inl _ => cl_Delete w name
  | inr err => (w, Some err)
  end.

(** a panic of the validity report comes after the update of the object *)
Definition UpdateIPPool (w : W)
    (netAttachDef podCIDR vlanCIDR hostName interfaceName : string)
    (excludes : list Compute.IPValue) : W * go (option kerr) :=
  let labels := pool_labels hostName netAttachDef in
  match initIPPool netAttachDef podCIDR vlanCIDR hostName interfaceName excludes with
  | Panic => (w, Panic)
  | Ret (ippoolName, spec, excludesInterface) =>
      match GetIPPool w ippoolName with
      | inl ippool =>
          let prevSpec := ip_Spec ippool in
          let ippool := mkIPPool labels (set_Allocations spec (p_Allocations prevSpec)) in
          let '(w', err) := cl_Update w ippoolName ippool in
          if bool_decide (p_Excludes prevSpec = excludesInterface) then (w', Ret err)
          else
            match checkPoolValidity excludesInterface (p_Allocations prevSpec) with
            | Panic => (w', Panic)
            | Ret _ => (w', Ret err)
            end
      | inr _ =>
          let newIPPool := mkIPPool labels (set_Allocations spec []) in
          let '(w', err) := cl_Create w ippoolName newIPPool in
          (w', Ret err)
      end
  end.

Definition PatchIPPoolAllocations (w : W) (ippoolName : string) (newAllocations : list Allocation)
    : W * option kerr :=
  match GetIPPool w ippoolName with
  | inr err => (w, Some err)
  | inl ippool =>
      cl_Patch w ippoolName ippool
        (mkIPPool (ip_Labels ippool) (set_Allocations (ip_Spec ippool) newAllocations))
  end.

Fixpoint UpdateIPPools_hosts (w : W) (defName vlanCIDR : string) (hosts : list HostInterfaceInfo)
    (excludes : list Compute.IPValue) : W * go () :=
  match hosts with
  | [] => (w, Ret ())
  | host :: rest =>
      match UpdateIPPool w defName (h_PodCIDR host) vlanCIDR (h_HostName host)
              (h_InterfaceName host) excludes with
      | (w', Panic) => (w', Panic)
      | (w', Ret _) => UpdateIPPools_hosts w' defName vlanCIDR rest excludes
      end
  end.

Fixpoint UpdateIPPools (w : W) (defName : string) (entries : list CIDREntry)
    (excludes : list Compute.IPValue) : W * go () :=
  match entries with
  | [] => (w, Ret ())
  | entry :: rest =>
      match UpdateIPPools_hosts w defName (e_VlanCIDR entry) (e_Hosts entry) excludes with
      | (w', Panic) => (w', Panic)
      | (w', Ret _) => UpdateIPPools w' defName rest excludes
      end
  end.

Definition AddLabel (w : W) (name : string) (ippool : IPPool) : W * option kerr :=
  let hostName := p_HostName (ip_Spec ippool) in
  let netAttachDef := p_NetAttachDefName (ip_Spec ippool) in
  cl_Patch w name ippool (mkIPPool (pool_labels hostName netAttachDef) (ip_Spec ippool)).
End client.

Example extract_ex :
  extractMatchExcludesFromPodCIDR
    (Compute.SortAddress ["192.168.0.0/28"; "192.168.0.64"; "192.168.1.0/28"; "192.168.0.0/16"])
    "192.168.0.0/24"
  = Ret ["192.168.0.0/28"; "192.168.0.64"].
Proof. vm_compute. reflexivity. Qed.
