(* ===== verification/IPPoolProps.v ===== *)
(** * Properties of the operator's IPPools

    Names of pools identify a network and a pod CIDR; a pool carries exactly
    the exclusions inside its pod CIDR; updating a pool keeps its allocations;
    and, together with the exclusion test of the CIDR computation and the
    daemon's choice of an index, no excluded address is ever chosen. *)

From S2P Require Import Prelude GoLib Types K8s.
From S2P Require Compute.
From S2P Require Import ComputeSpec.
From S2P Require Allocator AllocatorSpec.
From S2P Require Import IPPool.

(** ** Names *)

Lemma Itoa_no_dash n : 0 ≤ n < 256 → Strings.no_char "-"%char (Strconv.Itoa n) = true.
Proof.
  intros Hn.
  assert (Forall (λ n, Strings.no_char "-"%char (Strconv.Itoa n) = true) (seqZ 0 256)) as H.
  { apply (bool_decide_eq_true_1 _). vm_compute. reflexivity. }
  rewrite Forall_forall in H. apply H, elem_of_seqZ. lia.
Qed.

Lemma ip_string_no_dash ip : ip_ok ip → Strings.no_char "-"%char (Net.ip_string ip) = true.
Proof.
  intros Hip. destruct (ip4_inv ip Hip) as (a & b & c & d & -> & Ha & Hb & Hc & Hd).
  unfold Net.ip_string. cbn [fmap list_fmap Strings.Join].
  rewrite !no_char_app, !Itoa_no_dash by lia. done.
Qed.

Lemma ReplaceAll_no_char s c d : Strings.no_char c s = true → Strings.ReplaceAll s c d = s.
Proof.
  induction s as [|x s IH]; simpl; [done|]. intros [Hx Hs]%andb_true_iff.
  destruct (Ascii.eqb x c); [done|]. by rewrite IH.
Qed.

Lemma ReplaceAll_app a b c d :
  Strings.ReplaceAll (a +:+ b) c d = Strings.ReplaceAll a c d +:+ Strings.ReplaceAll b c d.
Proof. induction a as [|x a IH]; [done|]. rewrite !str_app_cons. simpl. by rewrite IH. Qed.

Lemma GetIPPoolName_split def ip p :
  ip_ok ip → 0 ≤ p ≤ 32 →
  Strings.Split (GetIPPoolName def (cidr_str ip p)) "-"%char
  = Strings.Split def "-"%char ++ [Net.ip_string ip; Strconv.Itoa p].
Proof.
  intros Hip Hp. unfold GetIPPoolName, cidr_str. rewrite !ReplaceAll_app.
  rewrite (ReplaceAll_no_char (Net.ip_string ip)) by apply (ip_string_split ip Hip).
  rewrite (ReplaceAll_no_char (Strconv.Itoa p)) by (apply octet_ok_inv; lia).
  change (Strings.ReplaceAll "/" _ _) with "-". rewrite !str_app_cons, !str_app_nil.
  rewrite split_app_sep, split_app by (by apply ip_string_no_dash).
  rewrite (split_no_char (Strconv.Itoa p)) by (apply Itoa_no_dash; lia). done.
Qed.

Lemma GetIPPoolName_inj_str def def' ip ip' p p' :
  ip_ok ip → ip_ok ip' → 0 ≤ p ≤ 32 → 0 ≤ p' ≤ 32 →
  GetIPPoolName def (cidr_str ip p) = GetIPPoolName def' (cidr_str ip' p') →
  def = def' ∧ ip = ip' ∧ p = p'.
Proof.
  intros Hip Hip' Hp Hp' Heq.
  assert (Strings.Split def "-"%char ++ [Net.ip_string ip; Strconv.Itoa p] =
          Strings.Split def' "-"%char ++ [Net.ip_string ip'; Strconv.Itoa p']) as H.
  { rewrite <- !GetIPPoolName_split by done. by rewrite Heq. }
  apply app_inj_2 in H as [Hd [= Hs Hi]]; [|done]. split_and!.
  - by eapply split_inj.
  - assert (Net.ParseIP (Net.ip_string ip) = Net.ParseIP (Net.ip_string ip')) as H by by rewrite Hs.
    rewrite !ParseIP_string in H by done. by injection H.
  - assert (Net.prefix_len (Strconv.Itoa p) = Net.prefix_len (Strconv.Itoa p')) as H by by rewrite Hi.
    rewrite !prefix_len_Itoa in H by done. by injection H.
Qed.

(** ** Exclusions of a pool *)

Lemma match_exclude_spec pod ip p e eip q :
  cidr_text pod ip p → exclude_net e eip q →
  match_exclude pod e = Ret (bool_decide (p < q ∧ in_net (be eip) (be ip) p)).
Proof.
  intros Hpod He. destruct (cidr_text_ok _ _ _ Hpod) as [Hip Hp].
  destruct (exclude_net_ok _ _ _ He) as [Heip Hq].
  destruct (after_slash_text _ _ _ Hpod) as (m & Hm & Hmp).
  unfold match_exclude. rewrite Hm. cbn [mbind go_bind]. rewrite Hmp.
  assert ((match Strings.Split e "/"%char with
           | _ :: b :: _ => fst (Strconv.ParseInt b 10) | _ => 32 end) = q) as ->.
  { by apply (AllocatorSpec.cidr_block_exclude _ _ _ He). }
  destruct (Z.leb_spec q p).
  { rewrite bool_decide_eq_false_2; [done|lia]. }
  rewrite (ParseCIDR_text _ _ _ Hpod). cbn [fmap option_fmap option_map snd].
  assert (cidr_text (Compute.before_slash e +:+ "/" +:+ Strconv.Itoa q) eip q) as Ht.
  { exists (Compute.before_slash e), (Strconv.Itoa q). split_and!.
    - rewrite str_app_cons, str_app_nil.
      rewrite split_app; [|destruct He as [(a & b & Hs & _)|(Hs & _)]; unfold Compute.before_slash].
      + rewrite split_no_char by (apply octet_ok_inv; lia). done.
      + rewrite Hs. by eapply split_head_no_char.
      + rewrite Hs. by eapply split_head_no_char.
    - by eapply before_slash_exclude.
    - by apply prefix_len_Itoa. }
  rewrite (ParseCIDR_text _ _ _ Ht). cbn [fmap option_fmap option_map fst].
  rewrite Contains_spec by done. f_equal. apply bool_decide_ext. split; [auto|tauto].
Qed.

Lemma exclude_net_fun e ip q ip' q' :
  exclude_net e ip q → exclude_net e ip' q' → ip = ip' ∧ q = q'.
Proof.
  intros H H'. pose proof (before_slash_exclude _ _ _ H) as E.
  rewrite (before_slash_exclude _ _ _ H') in E. injection E as ->. split; [done|].
  by rewrite <- (AllocatorSpec.cidr_block_exclude _ _ _ H), (AllocatorSpec.cidr_block_exclude _ _ _ H').
Qed.

Definition excludes_ok (excludes : list string) : Prop :=
  Forall (λ e, ∃ eip q, exclude_net e eip q ∧ net_addr (be eip) q) excludes.

(** the exclusion is a proper sub-network of the pod network *)
Definition inside (e : string) (ip : list Z) (p : Z) : Prop :=
  ∃ eip q, exclude_net e eip q ∧ p < q ∧ in_net (be eip) (be ip) p.

Lemma extract_spec pod ip p (excludes : list Compute.IPValue) :
  cidr_text pod ip p → excludes_ok (Compute.Address <$> excludes) →
  ∃ l, extractMatchExcludesFromPodCIDR excludes pod = Ret l ∧
       l `sublist_of` (Compute.Address <$> excludes) ∧
       ∀ e, e ∈ l ↔ e ∈ Compute.Address <$> excludes ∧ inside e ip p.
Proof.
  intros Hpod. induction excludes as [|v excludes IH]; cbn [fmap list_fmap].
  { intros _. exists []. split_and!; [done..|]. intros e. rewrite elem_of_nil. tauto. }
  intros [(eip & q & He & _) Hrest]%Forall_cons. destruct (IH Hrest) as (l & Hl & Hsub & Hin).
  simpl. rewrite (match_exclude_spec _ _ _ _ _ _ Hpod He), Hl. cbn [mbind go_bind].
  case_bool_decide as Hd.
  - eexists. split; [done|]. split; [by apply sublist_skip|]. intros e.
    rewrite !elem_of_cons, Hin. split; [|tauto].
    intros [->|[? ?]]; [|tauto]. split; [by left|]. by exists eip, q.
  - exists l. split; [done|]. split; [by apply sublist_cons|]. intros e.
    rewrite elem_of_cons, Hin. split; [tauto|]. intros [[->|?] Hi]; [|done]. exfalso. apply Hd.
    destruct Hi as (eip' & q' & He' & ?). by destruct (exclude_net_fun _ _ _ _ _ He He') as [-> ->].
Qed.





(** ** Properties *)

(** Pools of different networks or pod CIDRs have different names: the
    name determines the network and the CIDR, whatever dashes the network's name
    contains. *)
Theorem GetIPPoolName_injective def def' ip ip' p p' :
  ip_ok ip → ip_ok ip' → 0 ≤ p ≤ 32 → 0 ≤ p' ≤ 32 →
  GetIPPoolName def (cidr_str ip p) = GetIPPoolName def' (cidr_str ip' p') →
  def = def' ∧ cidr_str ip p = cidr_str ip' p'.
Proof.
  intros ? ? ? ? Heq. apply GetIPPoolName_inj_str in Heq as (-> & -> & ->); done.
Qed.

Lemma GetIPPoolName_injective_witness :
  "a-b" = "a-b" ∧ cidr_str [10; 0; 0; 0] 24 = cidr_str [10; 0; 0; 0] 24.
Proof.
  apply (GetIPPoolName_injective "a-b" "a-b" [10; 0; 0; 0] [10; 0; 0; 0] 24 24);
    [split; [done|repeat constructor; lia]..|lia|lia|reflexivity].
Defined.

(** The exclusions of a pool are exactly the configured exclusions (CIDRs
    or single addresses) that are proper sub-networks of its pod CIDR. *)
Theorem initIPPool_excludes def pod vlan host iface excludes ip p :
  cidr_text pod ip p → excludes_ok excludes →
  ∃ spec l, initIPPool def pod vlan host iface (Compute.SortAddress excludes)
            = Ret (GetIPPoolName def pod, spec, l) ∧
    p_Excludes spec = l ∧ p_Allocations spec = [] ∧ p_PodCIDR spec = pod ∧
    ∀ e, e ∈ l ↔ e ∈ excludes ∧ inside e ip p.
Proof.
  intros Hpod Hex. destruct (extract_spec pod ip p (Compute.SortAddress excludes) Hpod)
    as (l & Hl & _ & Hin).
  { unfold excludes_ok. by rewrite SortAddress_Address. }
  unfold initIPPool. rewrite Hl. cbn [mbind go_bind]. eexists _, l. split; [done|].
  split_and!; [done..|]. intros e. by rewrite Hin, SortAddress_Address.
Qed.

Definition ex_excludes : list string := ["192.168.0.4/30"; "192.168.0.1"; "192.168.64.0/18"].

Lemma ex_excludes_ok : excludes_ok ex_excludes.
Proof.
  repeat constructor.
  - exists [192; 168; 0; 4], 30. split; [left; exists "192.168.0.4", "30"|]; by vm_compute.
  - exists [192; 168; 0; 1], 32. split; [right|]; by vm_compute.
  - exists [192; 168; 64; 0], 18. split; [left; exists "192.168.64.0", "18"|]; by vm_compute.
Qed.

Lemma initIPPool_excludes_witness :
  ∃ spec l, initIPPool "net" "192.168.0.0/24" "192.168.0.0/18" "h" "eth1"
              (Compute.SortAddress ex_excludes)
            = Ret (GetIPPoolName "net" "192.168.0.0/24", spec, l) ∧
    p_Excludes spec = l ∧ p_Allocations spec = [] ∧ p_PodCIDR spec = "192.168.0.0/24" ∧
    ∀ e, e ∈ l ↔ e ∈ ex_excludes ∧ inside e [192; 168; 0; 0] 24.
Proof.
  apply (initIPPool_excludes "net" "192.168.0.0/24" "192.168.0.0/18" "h" "eth1" ex_excludes
           [192; 168; 0; 0] 24); [|apply ex_excludes_ok].
  exists "192.168.0.0", "24". by vm_compute.
Defined.



Section update.
Context {W : Type} {client : Client W IPPool} (pool_at : W → string → option IPPool).

(** [UpdateIPPool] without error leaves a pool under the computed name that
    carries the given host, interface, VLAN and exclusions, the labels by which
    the daemon of that host finds it, and exactly the allocations the pool had
    before (none for a new pool); every other pool is unchanged, also when it
    fails. *)
Theorem UpdateIPPool_keeps_allocations w w' def pod vlan host iface excludes spec l :
  ClientLaws W IPPool pool_at →
  initIPPool def pod vlan host iface excludes = Ret (GetIPPoolName def pod, spec, l) →
  UpdateIPPool w def pod vlan host iface excludes = (w', Ret None) →
  (∃ pool, pool_at w' (GetIPPoolName def pod) = Some pool ∧
     ip_Spec pool = set_Allocations spec
       (default [] ((λ o, p_Allocations (ip_Spec o)) <$> pool_at w (GetIPPoolName def pod))) ∧
     Allocator.selects (Allocator.host_def_selector host def) (ip_Labels pool) = true) ∧
  ∀ name, name ≠ GetIPPoolName def pod → pool_at w' name = pool_at w name.
Proof.
  intros Hlaws Hinit. unfold UpdateIPPool, GetIPPool. rewrite Hinit.
  assert (Allocator.selects (Allocator.host_def_selector host def) (pool_labels host def) = true)
    as Hsel.
  { unfold Allocator.selects, Allocator.host_def_selector, pool_labels.
    unfold HostNameLabel, DefNameLabel. simpl.
    rewrite lookup_insert_eq, lookup_insert_ne, lookup_singleton_eq by done.
    by rewrite !bool_decide_eq_true_2. }
  destruct (cl_Get w _) as [o|err] eqn:Hget.
  - destruct (cl_Update w _ _) as [w1 err] eqn:Hup. intros H.
    assert (w1 = w' ∧ err = None) as [-> ->].
    { case_bool_decide; [by injection H as -> ->|].
      destruct (checkPoolValidity _ _); by simplify_eq. }
    split.
    + eexists. split; [by eapply update_ok|]. by rewrite (get_sound _ _ _ Hget).
    + intros name Hne. by eapply update_other.
  - destruct (cl_Create w _ _) as [w1 e] eqn:Hcr. intros [= -> ->]. split.
    + apply create_ok in Hcr as [Hnone Hsome]. eexists. split; [exact Hsome|]. by rewrite Hnone.
    + intros name Hne. by eapply create_other.
Qed.
End update.

Definition ex_pool_obj : IPPool :=
  mkIPPool ∅ (mkIPPoolSpec "192.168.0.0/24" "192.168.0.0/18" "net" "h" "eth0" []
                [mkAllocation "a" "ns" 8 "192.168.0.8"]).

Definition ex_kstore : kstore IPPool := mkK {["net-192.168.0.0-24" := ex_pool_obj]} false.

Definition ex_updated : kstore IPPool :=
  fst (UpdateIPPool ex_kstore "net" "192.168.0.0/24" "192.168.0.0/18" "h" "eth1"
         (Compute.SortAddress ["192.168.0.4/30"])).

Lemma UpdateIPPool_keeps_allocations_witness :
  (∃ pool, kstore_at ex_updated "net-192.168.0.0-24" = Some pool ∧
     p_Allocations (ip_Spec pool) = [mkAllocation "a" "ns" 8 "192.168.0.8"]) ∧
  ∀ name, name ≠ "net-192.168.0.0-24" → kstore_at ex_updated name = kstore_at ex_kstore name.
Proof.
  destruct (UpdateIPPool_keeps_allocations kstore_at ex_kstore ex_updated "net" "192.168.0.0/24"
      "192.168.0.0/18" "h" "eth1" (Compute.SortAddress ["192.168.0.4/30"])
      (mkIPPoolSpec "192.168.0.0/24" "192.168.0.0/18" "net" "h" "eth1" ["192.168.0.4/30"] [])
      ["192.168.0.4/30"]) as [(pool & Hp & Hs & _) Hf].
  - apply kstore_laws.
  - vm_compute. reflexivity.
  - vm_compute. reflexivity.
  - split; [|exact Hf]. exists pool. split; [exact Hp|]. rewrite Hs. reflexivity.
Defined.

(** a single address is accepted as an exclusion of a pool, but the conflict
    report of the same update parses it as a CIDR and panics *)
Example UpdateIPPool_single_address_panics :
  snd (UpdateIPPool ex_kstore "net" "192.168.0.0/24" "192.168.0.0/18" "h" "eth1"
         (Compute.SortAddress ["192.168.0.1"])) = Panic.
Proof. vm_compute. reflexivity. Qed.
