(* ===== verification/Cidr.v ===== *)
(** * controllers/cidr_handler.go: the address plan of a network

    A network's CIDR resource has one entry per interface network, with the VLAN
    CIDR of that interface inside the subnet, and in each entry one host record
    per node, with the pod CIDR of that node inside the VLAN CIDR.  This file has
    the computation of the plan: new interface entries, new hosts, and the update
    of all entries from the cached HostInterfaces.  Loops whose end the code
    does not bound take fuel. *)

From S2P Require Import Prelude GoLib Types K8s Compute.
From S2P Require Import IPPool.

(** ** New hosts *)

Definition getHostIndex_from (hosts : list HostInterfaceInfo) (hostName : string) : option nat :=
  fst <$> list_find (λ host, hostName = h_HostName host) hosts.

(** -1 when the host has no record *)
Definition getHostIndex (hosts : list HostInterfaceInfo) (hostName : string) : Z :=
  match getHostIndex_from hosts hostName with Some i => Z.of_nat i | None => -1 end.

(** the loop of [addNewHost] *)
(** the index the loop tries next; none: every index is assigned *)
Definition next_host_index (excludedIndexes : list Z) (maxHostIndex : Z) : option Z :=
  match last excludedIndexes with
  | None => Some 0
  | Some lastIndex =>
      if maxHostIndex <? lastIndex + 1 then
        let nodeIndex := FindAvailableIndex excludedIndexes 0 0 in
        if nodeIndex =? -1 then None else Some nodeIndex
      else Some (lastIndex + 1)
  end.

Fixpoint addNewHost_loop (fuel : nat) (excludedIndexes : list Z) (maxHostIndex : Z)
    (vlanCIDR : string) (nodeBlock : Z) (excludes : list string) : run (result (string * Z)) :=
  match fuel with
  | O => OutOfFuel
  | S fuel' =>
      let excludedIndexes := sort_ints excludedIndexes in
      match next_host_index excludedIndexes maxHostIndex with
      | None => Fin (Err "wrong request (no available host index)")
      | Some nodeIndex =>
          vlanInByte ← lift (ComputeNet vlanCIDR nodeIndex nodeBlock);
          match vlanInByte with
          | Ok vlanInByte =>
              tabu ← lift (CheckIfTabuIndex vlanCIDR nodeIndex nodeBlock excludes);
              if tabu : bool
              then addNewHost_loop fuel' (excludedIndexes ++ [nodeIndex]) maxHostIndex
                     vlanCIDR nodeBlock excludes
              else
                podCIDR ← lift (GetCIDRFromByte vlanInByte vlanCIDR nodeBlock);
                Fin (Ok (podCIDR, nodeIndex))
          | Err _ =>
              addNewHost_loop fuel' (excludedIndexes ++ [nodeIndex]) maxHostIndex
                vlanCIDR nodeBlock excludes
          end
      end
  end.

Definition addNewHost (fuel : nat) (hosts : list HostInterfaceInfo) (maxHostIndex : Z)
    (vlanCIDR : string) (nodeBlock : Z) (excludes : list string) : run (result (string * Z)) :=
  if maxHostIndex =? 0 then Fin (Ok (vlanCIDR, 0)) (* podCIDR = vlanCIDR *)
  else addNewHost_loop fuel (h_HostIndex <$> hosts) maxHostIndex vlanCIDR nodeBlock excludes.

Definition tryAddNewHost (fuel : nat) (existingHosts : list HostInterfaceInfo) (entry : CIDREntry)
    (maxHostIndex : Z) (def : PluginConfig) (hostName interfaceName hostIP : string)
    : run (CIDREntry * bool) :=
  r ← addNewHost fuel existingHosts maxHostIndex (e_VlanCIDR entry) (pc_HostBlock def)
        (pc_ExcludeCIDRs def);
  match r with
  | Ok (podCIDR, hostIndex) =>
      let ippoolName := GetIPPoolName (pc_Name def) podCIDR in
      let newHost :=
        mkHostInterfaceInfo hostIndex hostName interfaceName hostIP podCIDR ippoolName in
      let hosts := sort_by h_HostIndex (existingHosts ++ [newHost]) in
      Fin (set_Hosts entry hosts, true)
  | Err _ => Fin (entry, false)
  end.

(** ** New interface entries *)

Fixpoint getInterfaceEntry_loop (fuel : nat) (def : PluginConfig) (excludedIndexes : list Z)
    : run (option (Z * string)) :=
  match fuel with
  | O => OutOfFuel
  | S fuel' =>
      let maxInterfaceIndex := pow2_minus 1 (pc_InterfaceBlock def) in
      let excludedIndexes := sort_ints excludedIndexes in
      let masterIndex :=
        let found := FindAvailableIndex excludedIndexes 0 0 in
        if found <? 0
        then match last excludedIndexes with Some l => l + 1 | None => 0 end
        else found in
      if maxInterfaceIndex <? masterIndex then Fin None
      else
        tabu ← lift (CheckIfTabuIndex (pc_Subnet def) masterIndex (pc_InterfaceBlock def)
                       (pc_ExcludeCIDRs def));
        if tabu : bool then getInterfaceEntry_loop fuel' def (excludedIndexes ++ [masterIndex])
        else
          vlanInByte ← lift (ComputeNet (pc_Subnet def) masterIndex (pc_InterfaceBlock def));
          match vlanInByte with
          | Err _ => getInterfaceEntry_loop fuel' def (excludedIndexes ++ [masterIndex])
          | Ok vlanInByte =>
              vlanCIDR ← lift (GetCIDRFromByte vlanInByte (pc_Subnet def) (pc_InterfaceBlock def));
              Fin (Some (masterIndex, vlanCIDR))
          end
  end.

Section plan.
Context {ord : MapRange}.

Definition getInterfaceEntry (fuel : nat) (def : PluginConfig) (entriesMap : gmap string CIDREntry)
    (newNetAdress : string) : run (option CIDREntry) :=
  match entriesMap !! newNetAdress with
  | Some entry => Fin (Some entry)
  | None =>
      if bool_decide (pc_Subnet def = "") then
        let index := Z.of_nat (size entriesMap) in
        Fin (Some (mkCIDREntry newNetAdress index newNetAdress []))
      else
        let excludedIndexes := (λ kv, e_InterfaceIndex kv.2) <$> range_map entriesMap in
        r ← getInterfaceEntry_loop fuel def excludedIndexes;
        Fin (match r with
             | None => None
             | Some (masterIndex, vlanCIDR) =>
                 Some (mkCIDREntry newNetAdress masterIndex vlanCIDR [])
             end)
  end.

(** ** NewCIDR *)

(** the inner loop: the next interface index whose network is not excluded; an
    index that [ComputeNet] refuses is skipped without a bound *)
Fixpoint NewCIDR_vlan (fuel : nat) (def : PluginConfig) (maxInterfaceIndex masterIndex : Z)
    : run (result (string * Z)) :=
  match fuel with
  | O => OutOfFuel
  | S fuel' =>
      vlanInByte ← lift (ComputeNet (pc_Subnet def) masterIndex (pc_InterfaceBlock def));
      match vlanInByte with
      | Err _ => NewCIDR_vlan fuel' def maxInterfaceIndex (masterIndex + 1)
      | Ok vlanInByte =>
          tabu ← lift (CheckIfTabuIndex (pc_Subnet def) masterIndex (pc_InterfaceBlock def)
                         (pc_ExcludeCIDRs def));
          if tabu : bool then
            if maxInterfaceIndex <? masterIndex + 1
            then Fin (Err "wrong request (overflow interface index)")
            else NewCIDR_vlan fuel' def maxInterfaceIndex (masterIndex + 1)
          else
            vlanCIDR ← lift (GetCIDRFromByte vlanInByte (pc_Subnet def) (pc_InterfaceBlock def));
            Fin (Ok (vlanCIDR, masterIndex))
      end
  end.

Fixpoint NewCIDR_entries (fuel : nat) (def : PluginConfig) (maxInterfaceIndex masterIndex : Z)
    (masters : list string) : run (result (list CIDREntry)) :=
  match masters with
  | [] => Fin (Ok [])
  | master :: rest =>
      r ← NewCIDR_vlan fuel def maxInterfaceIndex masterIndex;
      match r with
      | Err e => Fin (Err e)
      | Ok (vlanCIDR, masterIndex) =>
          let entry := mkCIDREntry master masterIndex vlanCIDR [] in
          entries ← NewCIDR_entries fuel def maxInterfaceIndex (masterIndex + 1) rest;
          Fin (match entries with Ok l => Ok (entry :: l) | Err e => Err e end)
      end
  end.

(** *** GenerateCIDRFromHostSubnet *)

(** [vlanIndexMap] and [entryMap] have the same keys, and [lastIndex] is their
    number *)
Fixpoint GenerateCIDR_ifaces (fuel : nat) (def : PluginConfig) (maxHostIndex : Z) (hostName : string)
    (ifaces : list InterfaceInfoType) (entryMap : gmap string CIDREntry) (lastIndex : Z)
    : run (result (gmap string CIDREntry * Z)) :=
  match ifaces with
  | [] => Fin (Ok (entryMap, lastIndex))
  | iface :: rest =>
      let netAddr := i_NetAddress iface in
      let '(entry, lastIndex) :=
        match entryMap !! netAddr with
        | Some entry => (entry, lastIndex)
        | None => (mkCIDREntry netAddr lastIndex netAddr [], lastIndex + 1)
        end in
      r ← tryAddNewHost fuel (e_Hosts entry) entry maxHostIndex def hostName
            (i_InterfaceName iface) (i_HostIP iface);
      let '(entry, changed) := r in
      if changed : bool
      then GenerateCIDR_ifaces fuel def maxHostIndex hostName rest
             (<[netAddr := entry]> entryMap) lastIndex
      else Fin (Err "failed to add host to CIDR entry")
  end.

Fixpoint GenerateCIDR_hosts (fuel : nat) (def : PluginConfig) (maxHostIndex : Z)
    (snapshot : list (string * HostInterfaceSpec)) (entryMap : gmap string CIDREntry)
    (lastIndex : Z) : run (result (gmap string CIDREntry)) :=
  match snapshot with
  | [] => Fin (Ok entryMap)
  | (hostName, hif) :: rest =>
      r ← GenerateCIDR_ifaces fuel def maxHostIndex hostName (hi_Interfaces hif) entryMap lastIndex;
      match r with
      | Err e => Fin (Err e)
      | Ok (entryMap, lastIndex) =>
          GenerateCIDR_hosts fuel def maxHostIndex rest entryMap lastIndex
      end
  end.

Definition GenerateCIDRFromHostSubnet (fuel : nat) (snapshot : gmap string HostInterfaceSpec)
    (def : PluginConfig) : run (result CIDRSpec) :=
  let maxHostIndex := if 0 <? pc_HostBlock def then pow2_minus 1 (pc_HostBlock def) else 0 in
  r ← GenerateCIDR_hosts fuel def maxHostIndex (range_map snapshot) ∅ 0;
  Fin (match r with
       | Ok entryMap => Ok (mkCIDRSpec def (snd <$> range_map entryMap))
       | Err e => Err e
       end).

Definition NewCIDR (fuel : nat) (snapshot : gmap string HostInterfaceSpec) (def : PluginConfig)
    : run (result CIDRSpec) :=
  if bool_decide (pc_Subnet def = "") then GenerateCIDRFromHostSubnet fuel snapshot def
  else
    let maxInterfaceIndex := pow2_minus 1 (pc_InterfaceBlock def) in
    r ← NewCIDR_entries fuel def maxInterfaceIndex 0 (pc_MasterNetAddrs def);
    Fin (match r with Ok entries => Ok (mkCIDRSpec def entries) | Err e => Err e end).

(** ** UpdateEntries *)

(** what the API server answers for a node: not found, another error, or the
    node, terminated or not *)
Inductive node_answer := NodeNotFound | NodeError | NodeFound (terminated : bool).

Definition node_died (a : node_answer) : bool :=
  match a with NodeNotFound => true | NodeError => false | NodeFound t => t end.

Definition has_net (hif : HostInterfaceSpec) (netAddress : string) : bool :=
  existsb (λ iface, bool_decide (i_NetAddress iface = netAddress)) (hi_Interfaces hif).

(** the hosts of one entry that stay *)
Fixpoint keep_hosts (snapshot : gmap string HostInterfaceSpec) (getNode : string → node_answer)
    (netAddress : string) (hosts : list HostInterfaceInfo) (diedHost : gset string) (changed : bool)
    : list HostInterfaceInfo * gset string * bool :=
  match hosts with
  | [] => ([], diedHost, changed)
  | host :: rest =>
      match snapshot !! h_HostName host with
      | Some hif =>
          let '(newHostList, died, ch) :=
            keep_hosts snapshot getNode netAddress rest diedHost changed in
          (if has_net hif netAddress then host :: newHostList else newHostList, died, ch)
      | None =>
          if bool_decide (h_HostName host ∈ diedHost)
          then keep_hosts snapshot getNode netAddress rest diedHost true
          else if node_died (getNode (h_HostName host))
          then keep_hosts snapshot getNode netAddress rest ({[h_HostName host]} ∪ diedHost) changed
          else
            let '(newHostList, died, ch) :=
              keep_hosts snapshot getNode netAddress rest diedHost changed in
            (host :: newHostList, died, ch)
      end
  end.

(** first loop: the entries map, the died hosts, and whether anything changed *)
Fixpoint keep_entries (snapshot : gmap string HostInterfaceSpec) (getNode : string → node_answer)
    (entries : list CIDREntry) (entriesMap : gmap string CIDREntry) (diedHost : gset string)
    (changed : bool) : gmap string CIDREntry * gset string * bool :=
  match entries with
  | [] => (entriesMap, diedHost, changed)
  | entry :: rest =>
      let '(newHostList, diedHost, changed) :=
        keep_hosts snapshot getNode (e_NetAddress entry) (e_Hosts entry) diedHost changed in
      let changed :=
        if negb (length (e_Hosts entry) =? length newHostList)%nat
           || bool_decide (diedHost ≠ ∅) then true else changed in
      let entriesMap :=
        if bool_decide (e_Hosts entry = []) || bool_decide (newHostList ≠ [])
        then <[e_NetAddress entry := set_Hosts entry newHostList]> entriesMap
        else entriesMap in
      keep_entries snapshot getNode rest entriesMap diedHost changed
  end.

(** the fields of a record that follow the HostInterface *)
Definition refresh_host (def : PluginConfig) (host : HostInterfaceInfo)
    (podCIDR interfaceName hostIP : string) : HostInterfaceInfo * bool :=
  let ippool :=
    if bool_decide (h_IPPool host = "") then GetIPPoolName (pc_Name def) podCIDR
    else h_IPPool host in
  (mkHostInterfaceInfo (h_HostIndex host) (h_HostName host) interfaceName hostIP podCIDR ippool,
   negb (bool_decide (podCIDR = h_PodCIDR host)) ||
   negb (bool_decide (interfaceName = h_InterfaceName host)) ||
   negb (bool_decide (hostIP = h_HostIP host)) || bool_decide (h_IPPool host = "")).

(** one interface of one HostInterface.  Removing the record [i] by
    [append(entry.Hosts[0:i], entry.Hosts[i+1:]...)] moves the later records in
    the array that [existingHosts] still covers with its old length, and the new
    host is appended to that. *)
Definition update_iface (fuel : nat) (def : PluginConfig) (excludesInStr : list string)
    (maxHostIndex : Z) (hostName : string) (iface : InterfaceInfoType)
    (st : gmap string CIDREntry * bool) : run (gmap string CIDREntry * bool) :=
  let '(entriesMap, changed) := st in
  let interfaceNetAddress := i_NetAddress iface in
  if bool_decide (pc_MasterNetAddrs def ≠ [])
     && negb (bool_decide (interfaceNetAddress ∈ pc_MasterNetAddrs def))
  then Fin st
  else
    let interfaceName := i_InterfaceName iface in
    let hostIP := i_HostIP iface in
    e ← getInterfaceEntry fuel def entriesMap interfaceNetAddress;
    match e with
    | None => Fin st
    | Some entry =>
        let vlanCIDR := e_VlanCIDR entry in
        let existingHosts := e_Hosts entry in
        r ← match getHostIndex_from existingHosts hostName with
            | None =>
                tryAddNewHost fuel existingHosts entry maxHostIndex def hostName interfaceName hostIP
            | Some itemIndex =>
                match existingHosts !! itemIndex with
                | None => Crash
                | Some host =>
                    let removed := set_Hosts entry (remove_at existingHosts itemIndex) in
                    let stale := overwrite existingHosts itemIndex (drop (S itemIndex) existingHosts) in
                    podInByte ← lift (ComputeNet vlanCIDR (h_HostIndex host) (pc_HostBlock def));
                    match podInByte with
                    | Err _ =>
                        tryAddNewHost fuel stale removed maxHostIndex def hostName interfaceName hostIP
                    | Ok podInByte =>
                        tabu ← lift (CheckIfTabuIndex vlanCIDR (h_HostIndex host)
                                       (pc_HostBlock def) excludesInStr);
                        if tabu : bool then
                          tryAddNewHost fuel stale removed maxHostIndex def hostName interfaceName hostIP
                        else
                          podCIDR ← lift (GetCIDRFromByte podInByte vlanCIDR (pc_HostBlock def));
                          let '(host', ch) := refresh_host def host podCIDR interfaceName hostIP in
                          Fin (set_Hosts entry (<[itemIndex := host']> existingHosts), ch || changed)
                    end
                end
            end;
        let '(entry, changed) := r in
        Fin (<[interfaceNetAddress := entry]> entriesMap, changed)
    end.

Fixpoint update_ifaces (fuel : nat) (def : PluginConfig) (excludesInStr : list string)
    (maxHostIndex : Z) (hostName : string) (ifaces : list InterfaceInfoType)
    (st : gmap string CIDREntry * bool) : run (gmap string CIDREntry * bool) :=
  match ifaces with
  | [] => Fin st
  | iface :: rest =>
      st ← update_iface fuel def excludesInStr maxHostIndex hostName iface st;
      update_ifaces fuel def excludesInStr maxHostIndex hostName rest st
  end.

Fixpoint update_hifs (fuel : nat) (def : PluginConfig) (excludesInStr : list string)
    (maxHostIndex : Z) (hifs : list (string * HostInterfaceSpec))
    (st : gmap string CIDREntry * bool) : run (gmap string CIDREntry * bool) :=
  match hifs with
  | [] => Fin st
  | (_, hif) :: rest =>
      st ← update_ifaces fuel def excludesInStr maxHostIndex (hi_HostName hif) (hi_Interfaces hif) st;
      update_hifs fuel def excludesInStr maxHostIndex rest st
  end.

(** last loop: an entry is rewritten unless no host of it is alive *)
Definition drop_died (diedHost : gset string) (entry : CIDREntry) : CIDREntry :=
  let aliveHosts := filter (λ host, h_HostName host ∉ diedHost) (e_Hosts entry) in
  if bool_decide (aliveHosts = []) then entry else set_Hosts entry aliveHosts.

Definition finish_entries (diedHost : gset string) (st : gmap string CIDREntry * bool)
    : gmap string CIDREntry * bool :=
  (if bool_decide (diedHost = ∅) then fst st else drop_died diedHost <$> fst st, snd st).

Definition UpdateEntries (fuel : nat) (snapshot : gmap string HostInterfaceSpec)
    (getNode : string → node_answer) (cidrSpec : CIDRSpec) (excludes : list IPValue) (changed : bool)
    : run (gmap string CIDREntry * bool) :=
  match keep_entries snapshot getNode (c_CIDRs cidrSpec) ∅ ∅ changed with
  | (entriesMap, diedHost, changed) =>
      let def := c_Config cidrSpec in
      let maxHostIndex := pow2_minus 1 (pc_HostBlock def) in
      st ← update_hifs fuel def (Address <$> excludes) maxHostIndex (range_map snapshot)
             (entriesMap, changed);
      Fin (finish_entries diedHost st)
  end.

(** ** Views of the plan *)

Definition add_host_index (ifaceIndex : Z)
    (m : gmap string (gmap Z HostInterfaceInfo)) (host : HostInterfaceInfo)
    : gmap string (gmap Z HostInterfaceInfo) :=
  <[h_HostName host := <[ifaceIndex := host]> (default ∅ (m !! h_HostName host))]> m.

Definition GetHostInterfaceIndexMap (entries : list CIDREntry)
    : gmap string (gmap Z HostInterfaceInfo) :=
  foldl (λ m entry, foldl (add_host_index (e_InterfaceIndex entry)) m (e_Hosts entry)) ∅ entries.

Definition GetAllNetAddrs (snapshot : gmap string HostInterfaceSpec) : list string :=
  foldl (λ netAddrSet netAddr,
           if bool_decide (netAddr ∈ netAddrSet) then netAddrSet else netAddrSet ++ [netAddr])
    [] (range_map snapshot ≫= λ kv, i_NetAddress <$> hi_Interfaces kv.2).

Definition GetHostAddressesToExclude (snapshot : gmap string HostInterfaceSpec) : list string :=
  range_map snapshot ≫= λ kv, (λ iface, i_HostIP iface +:+ "/32") <$> hi_Interfaces kv.2.
End plan.

(** ** The table of cidr_handler_test.go, in small *)

Definition ex_def : PluginConfig :=
  mkPluginConfig "net" "multi-nic" "192.168.0.0/16" ["10.242.0.0/24"; "10.242.1.0/24"] 6 2
    ["192.168.64.0/18"] "l3".

Definition ex_hif (name ip1 ip2 : string) : HostInterfaceSpec :=
  mkHostInterfaceSpec name
    [mkInterfaceInfo "eth1" "10.242.0.0/24" ip1 "" "" "";
     mkInterfaceInfo "eth2" "10.242.1.0/24" ip2 "" "" ""].

Definition ex_snapshot : gmap string HostInterfaceSpec :=
  {["hostA" := ex_hif "hostA" "10.242.0.1" "10.242.1.1";
    "hostB" := ex_hif "hostB" "10.242.0.2" "10.242.1.2"]}.

Example NewCIDR_ex :
  (@NewCIDR map_to_list_range 10 ∅ ex_def)
  = Fin (Ok (mkCIDRSpec ex_def
      [mkCIDREntry "10.242.0.0/24" 0 "192.168.0.0/18" [];
       mkCIDREntry "10.242.1.0/24" 2 "192.168.128.0/18" []])).
Proof. vm_compute. reflexivity. Qed.

Example UpdateEntries_ex :
  (r ← @NewCIDR map_to_list_range 10 ∅ ex_def;
   match r with
   | Err e => Fin []
   | Ok spec =>
       r ← @UpdateEntries map_to_list_range 10 ex_snapshot (λ _, NodeFound false) spec [] true;
       Fin (h_PodCIDR <$> (map_to_list (fst r) ≫= λ kv, e_Hosts kv.2))
   end)
  = Fin ["192.168.128.0/24"; "192.168.129.0/24"; "192.168.0.0/24"; "192.168.1.0/24"].
Proof. vm_compute. reflexivity. Qed.
