(* ===== verification/CidrSpec.v ===== *)
(** * Correctness of the address plan

    Lemmas about [Cidr]: the searches for a new host and for a new interface
    entry end and return a fresh, non-excluded network; the update of the
    entries keeps the plan well formed, so that the pod networks of different
    hosts and interfaces never overlap. *)

From S2P Require Import Prelude GoLib Types K8s Compute ComputeSpec IPPool Cidr.

(** ** Choosing an index in a range *)

(** indexes already taken: distinct, between 0 and [n - 1] *)
Definition taken_ok (l : list Z) (n : Z) : Prop := NoDup l ∧ Forall (λ x, 0 ≤ x < n) l.

Lemma taken_ok_length l n : taken_ok l n → 0 ≤ n → Z.of_nat (length l) ≤ n.
Proof.
  intros [Hnd Hr] Hn. assert (l ⊆+ seqZ 0 n) as Hs.
  { apply NoDup_submseteq; [done|]. intros x Hx. rewrite Forall_forall in Hr.
    apply elem_of_seqZ. specialize (Hr x Hx). lia. }
  apply submseteq_length in Hs. rewrite length_seqZ in Hs. lia.
Qed.

Lemma taken_ok_app l n i : taken_ok l n → 0 ≤ i < n → i ∉ l → taken_ok (sort_ints l ++ [i]) n.
Proof.
  intros [Hnd Hr] Hi Hni. unfold taken_ok. rewrite sort_ints_perm. split.
  - apply NoDup_app. split_and!; [done| |apply NoDup_singleton].
    intros x Hx ->%list_elem_of_singleton. done.
  - apply Forall_app. split; [done|]. by apply Forall_singleton.
Qed.

Lemma taken_gap l n :
  taken_ok l n → gap_spec (sort_ints l) 0 (FindAvailableIndex (sort_ints l) 0 0).
Proof.
  intros [Hnd Hr]. apply (fia_gap (S (length (sort_ints l))) _ 0 0); [lia|by apply sort_ints_lt|lia|].
  rewrite sort_ints_perm. eapply Forall_impl; [exact Hr|]. simpl. lia.
Qed.

(** the index after the last one, or a gap when that is too large *)
Definition next_index (l : list Z) (n : Z) : Z :=
  match last (sort_ints l) with
  | None => 0
  | Some lastIndex =>
      if n - 1 <? lastIndex + 1 then FindAvailableIndex (sort_ints l) 0 0 else lastIndex + 1
  end.

Lemma next_host_index_eq l n :
  taken_ok l n →
  next_host_index (sort_ints l) (n - 1)
  = if next_index l n =? -1 then None else Some (next_index l n).
Proof.
  intros [_ Hr]. unfold next_host_index, next_index.
  destruct (last (sort_ints l)) as [x|] eqn:E; [|done].
  destruct (_ <? _); [done|]. apply last_Some_elem_of in E. rewrite elem_of_sort_ints in E.
  rewrite Forall_forall in Hr. specialize (Hr x E).
  destruct (Z.eqb_spec (x + 1) (-1)); [lia|done].
Qed.

Lemma next_index_spec l n :
  taken_ok l n → 0 < n →
  (0 ≤ next_index l n < n ∧ next_index l n ∉ l) ∨
  (next_index l n = -1 ∧ ∀ k, k ∈ l ↔ 0 ≤ k < n).
Proof.
  intros Hl Hn. pose proof (taken_gap l n Hl) as Hgap. destruct Hl as [Hnd Hr].
  rewrite Forall_forall in Hr. unfold next_index.
  destruct (last (sort_ints l)) as [x|] eqn:E.
  - pose proof (sorted_last_max _ _ (sort_ints_sorted l) E) as Hmax.
    apply last_Some_elem_of in E. rewrite elem_of_sort_ints in E.
    destruct (Z.ltb_spec (n - 1) (x + 1)) as [Hlt|Hge].
    + destruct Hgap as [[-> Hall]|(Hb & Hout & _ & y & Hy & Hry)].
      * right. split; [done|]. assert (∀ k, k ∈ l ↔ 0 ≤ k < 0 + Z.of_nat (length (sort_ints l))) as Hl.
        { intros k. by rewrite <- Hall, elem_of_sort_ints. }
        pose proof (proj1 (Hl x) E).
        pose proof (Hr _ (proj2 (Hl (Z.of_nat (length (sort_ints l)) - 1)) ltac:(lia))).
        intros k. rewrite Hl. lia.
      * left. rewrite elem_of_sort_ints in Hout, Hy. split; [|done]. specialize (Hr y Hy). lia.
    + left. specialize (Hr x E). split; [lia|]. intros Hin. rewrite <- elem_of_sort_ints in Hin.
      apply Hmax in Hin. lia.
  - left. split; [lia|]. apply last_None in E. rewrite <- elem_of_sort_ints, E.
    apply not_elem_of_nil.
Qed.

(** ** Adding a host *)

Section add_host.
Context (vlan : string) (vip : list Z) (pv hb : Z) (excludes : list string).
Hypothesis (Hvt : cidr_text vlan vip pv) (Hvn : net_addr (be vip) pv).
Hypothesis (Hhb : 1 ≤ hb) (Hpb : pv + hb ≤ 32) (Hex : Forall exclude_ok excludes).

(** the pod network of a host index *)
Definition host_cidr (idx : Z) (pod : string) : Prop :=
  ∃ hip, ip_ok hip ∧ be hip = sub_addr (be vip) pv hb idx ∧ pod = cidr_str hip (pv + hb).

Definition host_covered (idx : Z) : Prop := covered (sub_addr (be vip) pv hb idx) (pv + hb) excludes.

Lemma host_compute idx :
  0 ≤ idx < 2 ^ hb →
  ∃ out (t : bool) pod, ComputeNet vlan idx hb = Ret (Ok out) ∧
    CheckIfTabuIndex vlan idx hb excludes = Ret t ∧ (t = true ↔ host_covered idx) ∧
    GetCIDRFromByte out vlan hb = Ret pod ∧ host_cidr idx pod.
Proof.
  intros Hi. destruct (ComputeNet_ok _ _ _ hb idx Hvt Hvn) as (out & Hc & Hok & Hbe); [lia..|].
  destruct (CheckIfTabuIndex_spec _ _ _ hb idx Hvt Hvn ltac:(lia) Hpb Hi excludes Hex) as (t & Ht & Hcov).
  exists out, t, (cidr_str out (pv + hb)). split_and!; [done..|by eapply GetCIDRFromByte_text|].
  by exists out.
Qed.

(** the loop ends within [2^hb + 1 - length l] rounds: with a free index, or
    with an error when every index is taken or excluded *)
Lemma addNewHost_loop_spec fuel : ∀ l,
  taken_ok l (2 ^ hb) → 2 ^ hb - Z.of_nat (length l) < Z.of_nat fuel →
  (∃ pod idx, addNewHost_loop fuel l (2 ^ hb - 1) vlan hb excludes = Fin (Ok (pod, idx)) ∧
     0 ≤ idx < 2 ^ hb ∧ (idx ∉ l) ∧ ~ host_covered idx ∧ host_cidr idx pod) ∨
  (addNewHost_loop fuel l (2 ^ hb - 1) vlan hb excludes
     = Fin (Err "wrong request (no available host index)") ∧
   ∀ idx, 0 ≤ idx < 2 ^ hb → idx ∈ l ∨ host_covered idx).
Proof.
  induction fuel as [|fuel IH]; intros l Hl Hf.
  { pose proof (pow2_pos hb ltac:(lia)). pose proof (taken_ok_length l _ Hl). lia. }
  pose proof (pow2_pos hb ltac:(lia)) as Hpos. cbn [addNewHost_loop].
  rewrite next_host_index_eq by done.
  destruct (next_index_spec l (2 ^ hb) Hl Hpos) as [[Hi Hni]|[-> Hall]].
  - destruct (Z.eqb_spec (next_index l (2 ^ hb)) (-1)); [lia|].
    destruct (host_compute _ Hi) as (out & t & pod & Hc & Htb & Ht & Hg & Hpod).
    rewrite Hc, Htb. cbn [mbind run_bind lift]. destruct t.
    + destruct (IH (sort_ints l ++ [next_index l (2 ^ hb)])) as [H|[H Hcov]].
      * by apply taken_ok_app.
      * rewrite length_app, sort_ints_perm. simpl. lia.
      * destruct H as (pod' & idx & -> & ? & Hin & ? & ?). left. exists pod', idx.
        split_and!; try done; try lia. intros Hin'. apply Hin, elem_of_app. left.
        by apply elem_of_sort_ints.
      * right. split; [done|]. intros idx Hidx. destruct (Hcov idx Hidx) as [Hin|?]; [|by right].
        rewrite elem_of_app, elem_of_sort_ints in Hin.
        destruct Hin as [?| ->%list_elem_of_singleton]; [by left|]. right. by apply Ht.
    + rewrite Hg. left. exists pod, (next_index l (2 ^ hb)).
      split_and!; [done|lia|lia|done| |done]. intros Hcv%Ht. done.
  - rewrite Z.eqb_refl. right. split; [done|]. intros idx Hidx. left. by apply Hall.
Qed.

(** a host record of the VLAN network *)
Definition host_ok (h : HostInterfaceInfo) : Prop :=
  0 ≤ h_HostIndex h < 2 ^ hb ∧ host_cidr (h_HostIndex h) (h_PodCIDR h) ∧
  ~ host_covered (h_HostIndex h).

Definition hosts_ok (hosts : list HostInterfaceInfo) : Prop :=
  NoDup (h_HostIndex <$> hosts) ∧ NoDup (h_HostName <$> hosts) ∧ Forall host_ok hosts.

Lemma hosts_ok_taken hosts : hosts_ok hosts → taken_ok (h_HostIndex <$> hosts) (2 ^ hb).
Proof.
  intros (Hnd & _ & Hh). split; [done|]. apply Forall_fmap.
  eapply Forall_impl; [exact Hh|]. intros h [? _]. done.
Qed.

Lemma hosts_ok_perm hosts hosts' : hosts ≡ₚ hosts' → hosts_ok hosts → hosts_ok hosts'.
Proof. intros Hp. unfold hosts_ok. by rewrite Hp. Qed.

Lemma hosts_ok_snoc hosts h :
  hosts_ok hosts → host_ok h → h_HostIndex h ∉ h_HostIndex <$> hosts →
  h_HostName h ∉ h_HostName <$> hosts → hosts_ok (hosts ++ [h]).
Proof.
  intros (Hi & Hn & Hh) Hok Hni Hnn. unfold hosts_ok. rewrite !fmap_app, Forall_app. simpl.
  split_and!; [| |done|by apply Forall_singleton];
    (apply NoDup_app; split_and!; [done| |apply NoDup_singleton];
     intros x Hx ->%list_elem_of_singleton; done).
Qed.

(** adding a host to a well-formed entry: with enough fuel the host is added
    with a fresh index and a pod network of its own, or the entry is returned
    unchanged because every index is taken or excluded *)
Lemma tryAddNewHost_spec fuel hosts e def name iface hip :
  hosts_ok hosts → e_VlanCIDR e = vlan → pc_HostBlock def = hb → pc_ExcludeCIDRs def = excludes →
  2 ^ hb < Z.of_nat fuel → name ∉ h_HostName <$> hosts →
  (∃ h, tryAddNewHost fuel hosts e (2 ^ hb - 1) def name iface hip
        = Fin (set_Hosts e (sort_by h_HostIndex (hosts ++ [h])), true) ∧
     hosts_ok (sort_by h_HostIndex (hosts ++ [h])) ∧
     h_HostName h = name ∧ h_InterfaceName h = iface ∧ h_HostIP h = hip ∧
     h_IPPool h = GetIPPoolName (pc_Name def) (h_PodCIDR h)) ∨
  (tryAddNewHost fuel hosts e (2 ^ hb - 1) def name iface hip = Fin (e, false) ∧
   ∀ idx, 0 ≤ idx < 2 ^ hb → idx ∈ h_HostIndex <$> hosts ∨ host_covered idx).
Proof.
  intros Hok Hv Hb He Hf Hn. unfold tryAddNewHost, addNewHost. rewrite Hv, Hb, He.
  pose proof (pow2_mono 1 hb ltac:(lia)) as H2. destruct (Z.eqb_spec (2 ^ hb - 1) 0); [lia|].
  destruct (addNewHost_loop_spec fuel (h_HostIndex <$> hosts)) as [H|[-> Hall]].
  - by apply hosts_ok_taken.
  - lia.
  - destruct H as (pod & idx & -> & Hi & Hni & Hcov & Hpod). left. cbn [mbind run_bind].
    eexists. split; [done|]. split; [|done]. eapply hosts_ok_perm; [by rewrite sort_by_perm|].
    apply hosts_ok_snoc; [done|done|done|done].
  - right. done.
Qed.
End add_host.

(** ** Adding an interface entry *)

(** the first gap, or the index after the last one *)
Definition iface_index (l : list Z) : Z :=
  let found := FindAvailableIndex (sort_ints l) 0 0 in
  if found <? 0
  then match last (sort_ints l) with Some x => x + 1 | None => 0 end
  else found.

Lemma iface_index_spec l n :
  taken_ok l n → 0 < n →
  0 ≤ iface_index l ∧ (iface_index l ∉ l) ∧
  (n ≤ iface_index l → ∀ k, 0 ≤ k < n → k ∈ l).
Proof.
  intros Hl Hn. pose proof (taken_gap l n Hl) as Hgap. destruct Hl as [Hnd Hr].
  rewrite Forall_forall in Hr. unfold iface_index.
  destruct Hgap as [[-> Hall]|(Hb & Hout & _ & y & Hy & Hry)]; simpl.
  - assert (∀ k, k ∈ l ↔ 0 ≤ k < 0 + Z.of_nat (length (sort_ints l))) as Hl.
    { intros k. by rewrite <- Hall, elem_of_sort_ints. }
    destruct (last (sort_ints l)) as [x|] eqn:E.
    + pose proof (sorted_last_max _ _ (sort_ints_sorted l) E) as Hmax.
      apply last_Some_elem_of in E. rewrite elem_of_sort_ints in E. specialize (Hr x E).
      assert (∀ y, y ∈ l → y ≤ x) as Hm by (intros y Hy; apply Hmax; by rewrite elem_of_sort_ints).
      pose proof (proj1 (Hl x) E).
      split_and!; [lia|intros Hin%Hm; lia|]. intros Hge k Hk. apply Hl. lia.
    + apply last_None in E. rewrite E in Hall. split_and!; [lia| |lia].
      rewrite <- elem_of_sort_ints, E. apply not_elem_of_nil.
  - rewrite elem_of_sort_ints in Hout, Hy. specialize (Hr y Hy).
    destruct (Z.ltb_spec (FindAvailableIndex (sort_ints l) 0 0) 0); [lia|].
    split_and!; [done|done|lia].
Qed.

(** a network definition whose blocks fit into the subnet *)
Definition def_ok (def : PluginConfig) (ip : list Z) (p : Z) : Prop :=
  cidr_text (pc_Subnet def) ip p ∧ net_addr (be ip) p ∧
  0 ≤ pc_InterfaceBlock def ∧ 1 ≤ pc_HostBlock def ∧
  p + pc_InterfaceBlock def + pc_HostBlock def ≤ 32 ∧
  Forall exclude_ok (pc_ExcludeCIDRs def).

Definition fuel_ok (def : PluginConfig) (fuel : nat) : Prop :=
  2 ^ pc_InterfaceBlock def < Z.of_nat fuel ∧ 2 ^ pc_HostBlock def < Z.of_nat fuel.

Section entries.
Context (def : PluginConfig) (ip : list Z) (p : Z) (Hdef : def_ok def ip p).

#[local] Abbreviation ib := (pc_InterfaceBlock def).
#[local] Abbreviation hb := (pc_HostBlock def).

Lemma def_ok_prefix : 0 ≤ p.
Proof. destruct Hdef as (Ht & _). by apply cidr_text_ok in Ht as [_ ?]; lia. Qed.

(** the VLAN network of an interface index *)
Definition vlan_at (idx : Z) (vip : list Z) : Prop :=
  ip_ok vip ∧ be vip = sub_addr (be ip) p ib idx.

Definition entry_ok (e : CIDREntry) : Prop :=
  0 ≤ e_InterfaceIndex e < 2 ^ ib ∧
  ∃ vip, vlan_at (e_InterfaceIndex e) vip ∧ e_VlanCIDR e = cidr_str vip (p + ib) ∧
         hosts_ok vip (p + ib) hb (pc_ExcludeCIDRs def) (e_Hosts e).

Definition entries_ok (m : gmap string CIDREntry) : Prop :=
  (∀ k e, m !! k = Some e → entry_ok e) ∧
  (∀ k k' e e', m !! k = Some e → m !! k' = Some e' →
     e_InterfaceIndex e = e_InterfaceIndex e' → k = k').

Lemma vlan_net idx vip :
  vlan_at idx vip → cidr_text (cidr_str vip (p + ib)) vip (p + ib) ∧ net_addr (be vip) (p + ib).
Proof.
  intros [Hok Hbe]. pose proof def_ok_prefix. destruct Hdef as (_ & Hn & ? & ? & ? & _).
  split; [apply cidr_str_text; [done|lia]|]. rewrite Hbe. apply sub_addr_net_addr; done || lia.
Qed.

Lemma getInterfaceEntry_loop_spec fuel : ∀ l,
  taken_ok l (2 ^ ib) → 2 ^ ib - Z.of_nat (length l) < Z.of_nat fuel →
  (∃ idx vip, getInterfaceEntry_loop fuel def l = Fin (Some (idx, cidr_str vip (p + ib))) ∧
     0 ≤ idx < 2 ^ ib ∧ (idx ∉ l) ∧ vlan_at idx vip ∧
     ~ covered (be vip) (p + ib) (pc_ExcludeCIDRs def)) ∨
  (getInterfaceEntry_loop fuel def l = Fin None ∧
   ∀ idx, 0 ≤ idx < 2 ^ ib →
     idx ∈ l ∨ covered (sub_addr (be ip) p ib idx) (p + ib) (pc_ExcludeCIDRs def)).
Proof.
  pose proof def_ok_prefix as Hp. destruct Hdef as (Ht & Hn & Hib & Hhb & Hfit & Hex).
  pose proof (pow2_pos ib ltac:(lia)) as Hpos.
  induction fuel as [|fuel IH]; intros l Hl Hf.
  { pose proof (taken_ok_length l _ Hl). lia. }
  cbn [getInterfaceEntry_loop]. rewrite pow2_minus_1 by lia. fold (iface_index l). cbv zeta.
  destruct (iface_index_spec l (2 ^ ib) Hl Hpos) as (H0 & Hni & Hfull).
  destruct (Z.ltb_spec (2 ^ ib - 1) (iface_index l)) as [Hlt|Hge].
  { right. split; [done|]. intros idx Hidx. left. apply Hfull; lia. }
  destruct (ComputeNet_ok _ _ _ ib (iface_index l) Ht Hn) as (out & Hc & Hok & Hbe); [lia..|].
  destruct (CheckIfTabuIndex_spec _ _ _ ib (iface_index l) Ht Hn ltac:(lia) ltac:(lia) ltac:(lia) _ Hex)
    as (t & Htb & Hcov).
  rewrite Htb. cbn [mbind run_bind lift]. destruct t.
  - destruct (IH (sort_ints l ++ [iface_index l])) as [H|[H Hall]].
    + apply taken_ok_app; [done|lia|done].
    + rewrite length_app, sort_ints_perm. simpl. lia.
    + destruct H as (idx & vip & -> & ? & Hin & ? & ?). left. exists idx, vip.
      split_and!; try done; try lia. intros Hin'. apply Hin, elem_of_app. left.
      by apply elem_of_sort_ints.
    + right. split; [done|]. intros idx Hidx. destruct (Hall idx Hidx) as [Hin|?]; [|by right].
      rewrite elem_of_app, elem_of_sort_ints in Hin.
      destruct Hin as [?| ->%list_elem_of_singleton]; [by left|]. right. by apply Hcov.
  - rewrite Hc. cbn [mbind run_bind lift]. rewrite (GetCIDRFromByte_text _ _ _ _ _ Ht).
    left. exists (iface_index l), out. rewrite Hbe. split_and!; [done|lia|lia|done|by split|].
    intros Hc'%Hcov. done.
Qed.

Context {ord : MapRange} (fuel : nat) (Hfuel : fuel_ok def fuel).

Lemma entries_taken m :
  entries_ok m → taken_ok ((λ kv, e_InterfaceIndex kv.2) <$> range_map m) (2 ^ ib).
Proof.
  intros [Hok Hinj]. split.
  - apply NoDup_fmap_2_strong; [|rewrite range_map_perm; apply NoDup_map_to_list].
    intros [k e] [k' e'] Hin Hin' Heq. apply elem_of_range_map in Hin, Hin'. simpl in Heq.
    pose proof (Hinj _ _ _ _ Hin Hin' Heq) as ->. congruence.
  - apply Forall_fmap, Forall_forall. intros [k e] Hin%elem_of_range_map. by apply (Hok k e).
Qed.

(** the entry of an interface network: the one in the map, or a new one with a
    fresh index and no hosts, or none when the indexes are exhausted *)
Lemma getInterfaceEntry_spec m net :
  entries_ok m →
  ∃ r, getInterfaceEntry fuel def m net = Fin r ∧
    match r with
    | None => m !! net = None ∧
        ∀ idx, 0 ≤ idx < 2 ^ ib → (∃ k e, m !! k = Some e ∧ e_InterfaceIndex e = idx) ∨
          covered (sub_addr (be ip) p ib idx) (p + ib) (pc_ExcludeCIDRs def)
    | Some e => entry_ok e ∧
        (m !! net = Some e ∨
         (m !! net = None ∧ e_Hosts e = [] ∧ e_NetAddress e = net ∧
          ∀ k e', m !! k = Some e' → e_InterfaceIndex e' ≠ e_InterfaceIndex e))
    end.
Proof.
  intros Hm. unfold getInterfaceEntry. destruct (m !! net) as [e|] eqn:E.
  { exists (Some e). split; [done|]. split; [by eapply Hm|by left]. }
  rewrite bool_decide_eq_false_2.
  2:{ destruct Hdef as ((a & x & Hs & _) & _). intros Heq. rewrite Heq in Hs. done. }
  pose proof (entries_taken m Hm) as Ht. destruct Hfuel as [Hf _].
  destruct (getInterfaceEntry_loop_spec fuel _ Ht) as [H|[-> Hall]]; [lia|..].
  - destruct H as (idx & vip & -> & Hi & Hni & Hv & _). cbn [mbind run_bind]. eexists.
    split; [done|]. simpl. split.
    + split; [done|]. exists vip. split_and!; [done..|]. repeat constructor.
    + right. split_and!; [done..|]. intros k e' Hk Heq. apply Hni, list_elem_of_fmap.
      exists (k, e'). split; [done|]. by apply elem_of_range_map.
  - cbn [mbind run_bind]. exists None. split; [done|]. split; [done|].
    intros idx Hidx. destruct (Hall idx Hidx) as [Hin|?]; [|by right]. left.
    apply list_elem_of_fmap in Hin as ([k e] & -> & Hin). exists k, e.
    by apply elem_of_range_map in Hin.
Qed.

(** replacing the hosts of an entry of the map, or adding a new entry *)
Lemma entries_ok_insert m net e e' :
  entries_ok m → entry_ok e' → e_InterfaceIndex e' = e_InterfaceIndex e →
  (m !! net = Some e ∨ (∀ k x, m !! k = Some x → e_InterfaceIndex x ≠ e_InterfaceIndex e)) →
  entries_ok (<[net := e']> m).
Proof.
  intros [Hok Hinj] He' Hidx Hcase. split.
  - intros k x [[<- <-]|[_ ?]]%lookup_insert_Some; [done|by eapply Hok].
  - assert (∀ k x, k ≠ net → m !! k = Some x → e_InterfaceIndex x ≠ e_InterfaceIndex e') as Hne.
    { intros k x Hk Hx Heq. destruct Hcase as [Hn|Hfresh].
      - apply Hk. eapply Hinj; [done..|]. congruence.
      - apply (Hfresh _ _ Hx). congruence. }
    intros k k' x x' [[<- <-]|[Hk Hx]]%lookup_insert_Some [[<- <-]|[Hk' Hx']]%lookup_insert_Some Heq;
      [done|..].
    + exfalso. by eapply (Hne k' x').
    + exfalso. by eapply (Hne k x).
    + by eapply Hinj.
Qed.

Lemma getHostIndex_from_spec hosts name :
  match getHostIndex_from hosts name with
  | None => name ∉ h_HostName <$> hosts
  | Some i => ∃ h, hosts !! i = Some h ∧ h_HostName h = name
  end.
Proof.
  unfold getHostIndex_from. destruct (list_find _ hosts) as [[i h]|] eqn:E; simpl.
  - apply list_find_Some in E as (? & ? & _). eauto.
  - apply list_find_None in E. intros (h & Hn & Hin)%list_elem_of_fmap.
    rewrite Forall_forall in E. by apply (E h).
Qed.

Lemma hosts_ok_refresh vip pv hosts i h h' :
  hosts_ok vip pv hb (pc_ExcludeCIDRs def) hosts → hosts !! i = Some h →
  h_HostIndex h' = h_HostIndex h → h_HostName h' = h_HostName h → h_PodCIDR h' = h_PodCIDR h →
  hosts_ok vip pv hb (pc_ExcludeCIDRs def) (<[i := h']> hosts).
Proof.
  intros (Hi & Hn & Hh) Hlk Hidx Hname Hpod. unfold hosts_ok.
  rewrite !list_fmap_insert, Hidx, Hname.
  rewrite !list_insert_id by (by rewrite list_lookup_fmap, Hlk). split_and!; [done..|].
  apply Forall_insert; [done|]. unfold host_ok. rewrite Hidx, Hpod.
  by eapply Forall_lookup_1 in Hh.
Qed.

(** one interface: the plan stays well formed *)
Lemma update_iface_ok exstr hostName iface st :
  exstr ≡ₚ pc_ExcludeCIDRs def → entries_ok (fst st) →
  ∃ st', update_iface fuel def exstr (2 ^ hb - 1) hostName iface st = Fin st' ∧
         entries_ok (fst st').
Proof.
  intros Hex Hm. destruct st as [m ch]. simpl in Hm. unfold update_iface.
  destruct (_ && _); [eauto|].
  destruct (getInterfaceEntry_spec m (i_NetAddress iface) Hm) as (r & -> & Hr).
  cbn [mbind run_bind]. destruct r as [e|]; [|eauto].
  destruct Hr as [(Hidx & vip & Hv & Hvlan & Hhosts) Hcase].
  destruct (vlan_net _ _ Hv) as [Hvt Hvn]. pose proof def_ok_prefix as Hp0.
  destruct Hdef as (_ & _ & Hib & Hhb & Hfit & Hexok). destruct Hfuel as [_ Hf].
  assert (∀ e', e_InterfaceIndex e' = e_InterfaceIndex e → e_VlanCIDR e' = e_VlanCIDR e →
    hosts_ok vip (p + ib) hb (pc_ExcludeCIDRs def) (e_Hosts e') →
    entries_ok (<[i_NetAddress iface := e']> m)) as Hins.
  { intros e' Hi' Hv' Hh'. apply (entries_ok_insert m _ e); [done| |done|].
    - split; [by rewrite Hi'|]. exists vip. rewrite Hi', Hv'. done.
    - destruct Hcase as [?|(_ & _ & _ & ?)]; auto. }
  pose proof (getHostIndex_from_spec (e_Hosts e) hostName) as Hidx'.
  destruct (getHostIndex_from (e_Hosts e) hostName) as [i|].
  - destruct Hidx' as (h & Hlk & Hname). rewrite Hlk.
    pose proof (proj2 (proj2 Hhosts)) as Hall. eapply Forall_lookup_1 in Hall; [|exact Hlk].
    destruct Hall as (Hhi & Hpod & Hncov).
    destruct (host_compute (e_VlanCIDR e) vip (p + ib) hb exstr) with (idx := h_HostIndex h)
      as (out & t & pod & Hc & Htb & Ht & Hg & Hpod'); [by rewrite Hvlan|done|done|lia| |done|].
    { by rewrite Hex. }
    rewrite Hc, Htb. cbn [mbind run_bind lift]. destruct t.
    { exfalso. apply Hncov. unfold host_covered in *.
      rewrite <- (covered_perm _ _ _ _ Hex). by apply Ht. }
    rewrite Hg. cbn [mbind run_bind lift refresh_host]. eexists. split; [done|]. simpl.
    apply Hins; [done..|]. simpl. eapply hosts_ok_refresh; [done..|]. simpl.
    destruct Hpod as (hip & ? & Hb1 & ->), Hpod' as (hip' & ? & Hb2 & ->).
    f_equal. apply ip_eq; congruence.
  - destruct (tryAddNewHost_spec (e_VlanCIDR e) vip (p + ib) hb (pc_ExcludeCIDRs def))
      with (fuel := fuel) (hosts := e_Hosts e) (e := e) (def := def) (name := hostName)
           (iface := i_InterfaceName iface) (hip := i_HostIP iface)
      as [(h & -> & Hok & _)|[-> _]]; try done; try lia; [by rewrite Hvlan|..];
      cbn [mbind run_bind]; eexists; (split; [done|]); simpl; by apply Hins.
Qed.

Lemma update_ifaces_ok exstr hostName ifaces : ∀ st,
  exstr ≡ₚ pc_ExcludeCIDRs def → entries_ok (fst st) →
  ∃ st', update_ifaces fuel def exstr (2 ^ hb - 1) hostName ifaces st = Fin st' ∧
         entries_ok (fst st').
Proof.
  induction ifaces as [|iface ifaces IH]; intros st Hex Hm; [by eauto|]. simpl.
  destruct (update_iface_ok exstr hostName iface st Hex Hm) as (st' & -> & Hm').
  by apply IH.
Qed.

Lemma update_hifs_ok exstr hifs : ∀ st,
  exstr ≡ₚ pc_ExcludeCIDRs def → entries_ok (fst st) →
  ∃ st', update_hifs fuel def exstr (2 ^ hb - 1) hifs st = Fin st' ∧ entries_ok (fst st').
Proof.
  induction hifs as [|[k hif] hifs IH]; intros st Hex Hm; [by eauto|]. simpl.
  destruct (update_ifaces_ok exstr (hi_HostName hif) (hi_Interfaces hif) st Hex Hm)
    as (st' & -> & Hm'). by apply IH.
Qed.

(** *** The entries that stay *)

Lemma keep_hosts_sublist snapshot getNode net hosts : ∀ died ch,
  (keep_hosts snapshot getNode net hosts died ch).1.1 `sublist_of` hosts.
Proof.
  induction hosts as [|h hosts IH]; intros died ch; [done|]. simpl.
  destruct (snapshot !! h_HostName h) as [hif|].
  - specialize (IH died ch). destruct (keep_hosts _ _ _ hosts died ch) as [[l d] c]. simpl in *.
    destruct (has_net hif net); [by apply sublist_skip|by apply sublist_cons].
  - case_bool_decide; [apply sublist_cons, IH|]. destruct (node_died _); [apply sublist_cons, IH|].
    specialize (IH died ch). destruct (keep_hosts _ _ _ hosts died ch) as [[l d] c].
    by apply sublist_skip.
Qed.

Lemma hosts_ok_sublist vip pv hosts hosts' :
  hosts' `sublist_of` hosts → hosts_ok vip pv hb (pc_ExcludeCIDRs def) hosts →
  hosts_ok vip pv hb (pc_ExcludeCIDRs def) hosts'.
Proof.
  intros Hs (Hi & Hn & Hh). split_and!.
  - eapply sublist_NoDup; [exact Hi|]. by apply fmap_sublist.
  - eapply sublist_NoDup; [exact Hn|]. by apply fmap_sublist.
  - rewrite Forall_forall in *. intros h Hin. apply Hh. by eapply elem_of_sublist.
Qed.

Lemma entry_ok_sublist e hosts :
  entry_ok e → hosts `sublist_of` e_Hosts e → entry_ok (set_Hosts e hosts).
Proof.
  intros (Hi & vip & Hv & Hvl & Hh) Hs. split; [done|]. exists vip. split_and!; [done..|].
  by eapply hosts_ok_sublist.
Qed.

(** the stored entries: well formed, one per interface network and per index *)
Definition cidrs_ok (entries : list CIDREntry) : Prop :=
  Forall entry_ok entries ∧ NoDup (e_InterfaceIndex <$> entries).

Lemma keep_entries_ok snapshot getNode entries : ∀ m died ch,
  cidrs_ok entries → entries_ok m →
  (∀ k x e, m !! k = Some x → e ∈ entries → e_InterfaceIndex x ≠ e_InterfaceIndex e) →
  entries_ok (keep_entries snapshot getNode entries m died ch).1.1.
Proof.
  induction entries as [|e entries IH]; intros m died ch [Hall Hnd] Hm Hfresh; [done|].
  apply Forall_cons in Hall as [He Hall]. simpl in Hnd. apply NoDup_cons in Hnd as [Hne Hnd].
  simpl. pose proof (keep_hosts_sublist snapshot getNode (e_NetAddress e) (e_Hosts e) died ch) as Hs.
  destruct (keep_hosts _ _ _ _ _ _) as [[l d] c]. simpl in Hs.
  destruct (_ || bool_decide (l ≠ [])).
  - apply IH; [done| |].
    + apply (entries_ok_insert m _ e); [done|by apply entry_ok_sublist|done|].
      right. intros k x Hx. apply (Hfresh k x e Hx). by left.
    + intros k x e' [[<- <-]|[_ Hx]]%lookup_insert_Some Hin; simpl.
      * intros Heq. apply Hne. rewrite Heq. by apply list_elem_of_fmap_2.
      * apply (Hfresh k x e' Hx). by right.
  - apply IH; [done|done|]. intros k x e' Hx Hin. apply (Hfresh k x e' Hx). by right.
Qed.

Lemma drop_died_ok died e : entry_ok e → entry_ok (drop_died died e).
Proof.
  intros He. unfold drop_died. case_bool_decide; [done|]. apply entry_ok_sublist; [done|].
  apply sublist_filter.
Qed.

Lemma finish_entries_ok died st : entries_ok (fst st) → entries_ok (fst (finish_entries died st)).
Proof.
  intros [Hok Hinj]. unfold finish_entries. simpl. case_bool_decide; [done|]. split.
  - intros k e. rewrite lookup_fmap, fmap_Some. intros (x & Hx & ->). by eapply drop_died_ok, Hok.
  - assert (∀ e, e_InterfaceIndex (drop_died died e) = e_InterfaceIndex e) as Hidx.
    { intros e. unfold drop_died. by case_bool_decide. }
    intros k k' e e'. rewrite !lookup_fmap, !fmap_Some. intros (x & Hx & ->) (x' & Hx' & ->).
    rewrite !Hidx. by apply Hinj.
Qed.

Lemma entries_ok_empty : entries_ok ∅.
Proof. split; intros *; by rewrite lookup_empty. Qed.

Lemma UpdateEntries_ok snapshot getNode entries ch :
  cidrs_ok entries →
  ∃ m ch', UpdateEntries fuel snapshot getNode (mkCIDRSpec def entries)
             (SortAddress (pc_ExcludeCIDRs def)) ch = Fin (m, ch') ∧ entries_ok m.
Proof.
  intros Hc. unfold UpdateEntries. cbn [c_CIDRs c_Config].
  pose proof (keep_entries_ok snapshot getNode entries ∅ ∅ ch Hc entries_ok_empty) as Hk.
  destruct (keep_entries _ _ _ _ _ _) as [[m d] c]. simpl in Hk.
  rewrite pow2_minus_1 by (destruct Hdef as (Ht & _ & ? & ? & ? & _);
    apply cidr_text_ok in Ht as [_ ?]; lia).
  destruct (update_hifs_ok (Address <$> SortAddress (pc_ExcludeCIDRs def)) (range_map snapshot) (m, c))
    as (st & -> & Hst); [apply SortAddress_Address|apply Hk; intros *; by rewrite lookup_empty|].
  cbn [mbind run_bind]. destruct (finish_entries d st) as [m' c'] eqn:E. exists m', c'.
  split; [done|]. pose proof (finish_entries_ok d st Hst) as Hfin. by rewrite E in Hfin.
Qed.

(** the pod networks of two records in well-formed entries: of the same entry, or
    of entries with different indexes *)
Lemma entry_pods_disjoint e e' h h' :
  entry_ok e → entry_ok e' → h ∈ e_Hosts e → h' ∈ e_Hosts e' →
  (e = e' ∧ h_HostName h ≠ h_HostName h') ∨ e_InterfaceIndex e ≠ e_InterfaceIndex e' →
  ∃ a a', h_PodCIDR h = cidr_str a (p + ib + hb) ∧ h_PodCIDR h' = cidr_str a' (p + ib + hb) ∧
    ip_ok a ∧ ip_ok a' ∧ nets_disjoint (be a) (p + ib + hb) (be a') (p + ib + hb) ∧
    subnet_of (be a) (p + ib + hb) (be ip) p.
Proof.
  intros (Hi & v & Hv & _ & Hhosts) (Hi' & v' & Hv' & _ & Hhosts') Hh Hh' Hne.
  pose proof def_ok_prefix as Hp0.
  destruct (vlan_net _ _ Hv) as [_ Hvn]. destruct (vlan_net _ _ Hv') as [_ Hvn'].
  destruct Hdef as (_ & Hn & Hib & Hhb & Hfit & _).
  pose proof (proj2 (proj2 Hhosts)) as Hall. pose proof (proj2 (proj2 Hhosts')) as Hall'.
  rewrite Forall_forall in Hall, Hall'.
  destruct (Hall h Hh) as (Hx & (a & Ha & Hab & Hap) & _).
  destruct (Hall' h' Hh') as (Hx' & (a' & Ha' & Hab' & Hap') & _).
  assert (subnet_of (be a) (p + ib + hb) (be v) (p + ib)) as Hsub
    by (rewrite Hab; apply sub_addr_subnet; done || lia).
  assert (subnet_of (be a') (p + ib + hb) (be v') (p + ib)) as Hsub'
    by (rewrite Hab'; apply sub_addr_subnet; done || lia).
  exists a, a'. split_and!; [done..| |].
  - destruct Hne as [[<- Hname]|Hidx].
    + destruct Hv as [Hvo Hvb], Hv' as [Hvo' Hvb'].
      assert (v' = v) as -> by (apply ip_eq; congruence).
      rewrite Hab, Hab'. apply sub_addr_disjoint; [lia..| |done].
      intros Heq. destruct Hhosts as (Hnd & _ & _). apply Hname.
      apply list_elem_of_lookup in Hh as [x Hlx], Hh' as [y Hly].
      assert (x = y) as ->; [|congruence].
      eapply (NoDup_lookup (h_HostIndex <$> e_Hosts e)); [done|rewrite list_lookup_fmap, Hlx; done|].
      rewrite list_lookup_fmap, Hly. simpl. by rewrite Heq.
    + eapply nets_disjoint_sub; [|exact Hsub|exact Hsub'].
      destruct Hv as [_ ->], Hv' as [_ ->]. by apply sub_addr_disjoint; [lia..| |done].
  - eapply subnet_of_trans; [exact Hsub|]. destruct Hv as [_ ->]. apply sub_addr_subnet; done || lia.
Qed.

(** the pod networks of a well-formed plan do not overlap *)
Lemma entries_ok_disjoint m k k' e e' h h' :
  entries_ok m → m !! k = Some e → m !! k' = Some e' → h ∈ e_Hosts e → h' ∈ e_Hosts e' →
  (k, h_HostName h) ≠ (k', h_HostName h') →
  ∃ a a', h_PodCIDR h = cidr_str a (p + ib + hb) ∧ h_PodCIDR h' = cidr_str a' (p + ib + hb) ∧
    ip_ok a ∧ ip_ok a' ∧ nets_disjoint (be a) (p + ib + hb) (be a') (p + ib + hb) ∧
    subnet_of (be a) (p + ib + hb) (be ip) p.
Proof.
  intros [Hok Hinj] Hk Hk' Hh Hh' Hne.
  apply (entry_pods_disjoint e e'); [by eapply Hok|by eapply Hok|done|done|].
  destruct (decide (k = k')) as [<-|Hkk].
  - left. split; [congruence|]. intros Heq. apply Hne. by rewrite Heq.
  - right. intros Heq. apply Hkk. by eapply Hinj.
Qed.

(** *** NewCIDR *)

(** an interface index whose VLAN network is not excluded *)
Definition free_index (i : Z) : Prop :=
  CheckIfTabuIndex (pc_Subnet def) i ib (pc_ExcludeCIDRs def) = Ret false.

#[local] Instance free_index_dec i : Decision (free_index i).
Proof. unfold free_index. apply _. Defined.

Definition free_from (m0 : Z) : list Z := filter free_index (seqZ m0 (2 ^ ib - m0)).

Lemma free_from_cons m0 :
  m0 < 2 ^ ib →
  free_from m0 = if decide (free_index m0) then m0 :: free_from (m0 + 1) else free_from (m0 + 1).
Proof.
  intros Hm. unfold free_from. rewrite seqZ_cons by lia. rewrite filter_cons.
  replace (2 ^ ib - (m0 + 1)) with (Z.pred (2 ^ ib - m0)) by lia.
  by replace (Z.succ m0) with (m0 + 1) by lia.
Qed.

Lemma vlan_compute i :
  0 ≤ i < 2 ^ ib →
  ∃ vip (t : bool), ComputeNet (pc_Subnet def) i ib = Ret (Ok vip) ∧ vlan_at i vip ∧
    GetCIDRFromByte vip (pc_Subnet def) ib = Ret (cidr_str vip (p + ib)) ∧
    CheckIfTabuIndex (pc_Subnet def) i ib (pc_ExcludeCIDRs def) = Ret t.
Proof.
  intros Hi. destruct Hdef as (Ht & Hn & Hib & Hhb & Hfit & Hex).
  destruct (ComputeNet_ok _ _ _ ib i Ht Hn) as (out & Hc & Hok & Hbe); [lia..|].
  destruct (CheckIfTabuIndex_spec _ _ _ ib i Ht Hn ltac:(lia) ltac:(lia) ltac:(lia) _ Hex)
    as (t & Htb & _).
  exists out, t. split_and!; [done|done|by eapply GetCIDRFromByte_text|done].
Qed.

Lemma NewCIDR_vlan_find f : ∀ m0,
  0 ≤ m0 → 2 ^ ib - m0 < Z.of_nat f → free_from m0 ≠ [] →
  ∃ i vip, NewCIDR_vlan f def (2 ^ ib - 1) m0 = Fin (Ok (cidr_str vip (p + ib), i)) ∧
    m0 ≤ i < 2 ^ ib ∧ vlan_at i vip ∧ free_from m0 = i :: free_from (i + 1).
Proof.
  induction f as [|f IH]; intros m0 Hm Hf Hfree.
  { exfalso. apply Hfree. unfold free_from. rewrite seqZ_nil by lia. done. }
  destruct (Z.lt_ge_cases m0 (2 ^ ib)) as [Hlt|Hge].
  2: { exfalso. apply Hfree. unfold free_from. rewrite seqZ_nil by lia. done. }
  rewrite free_from_cons in * by done.
  destruct (vlan_compute m0 ltac:(lia)) as (vip & t & Hc & Hv & Hg & Htb).
  simpl. rewrite Hc, Htb. cbn [mbind run_bind lift].
  destruct (decide (free_index m0)) as [Hfr|Hfr].
  - unfold free_index in Hfr. rewrite Htb in Hfr. injection Hfr as ->. rewrite Hg.
    exists m0, vip. split_and!; done || lia.
  - destruct t; [|done]. destruct (Z.ltb_spec (2 ^ ib - 1) (m0 + 1)).
    { exfalso. apply Hfree. unfold free_from. rewrite seqZ_nil by lia. done. }
    destruct (IH (m0 + 1)) as (i & v & -> & Hi & Hvi & Heq); [lia|lia|done|].
    exists i, v. split_and!; done || lia.
Qed.

Lemma NewCIDR_entries_ok masters : ∀ m0,
  0 ≤ m0 → (length masters ≤ length (free_from m0))%nat →
  ∃ entries, NewCIDR_entries fuel def (2 ^ ib - 1) m0 masters = Fin (Ok entries) ∧
    e_NetAddress <$> entries = masters ∧ Forall entry_ok entries ∧
    NoDup (e_InterfaceIndex <$> entries) ∧
    Forall (λ e, m0 ≤ e_InterfaceIndex e ∧ e_Hosts e = [] ∧ free_index (e_InterfaceIndex e)) entries.
Proof.
  induction masters as [|m masters IH]; intros m0 Hm Hlen.
  { exists []. split_and!; [done|done|constructor|constructor|constructor]. }
  simpl in *. destruct Hfuel as [Hf _].
  destruct (NewCIDR_vlan_find fuel m0) as (i & vip & -> & Hi & Hv & Heq); [lia|lia| |].
  { intros Heq. rewrite Heq in Hlen. simpl in Hlen. lia. }
  cbn [mbind run_bind]. rewrite Heq in Hlen. simpl in Hlen.
  destruct (IH (i + 1)) as (entries & -> & Hn & Hok & Hnd & Hge); [lia|lia|].
  cbn [mbind run_bind]. eexists. split; [done|]. simpl. split_and!.
  - by f_equal.
  - constructor; [|done]. split; [simpl; lia|]. exists vip. split; [done|]. split; [done|].
    repeat constructor.
  - apply NoDup_cons. split; [|done]. intros (e & Hi' & Hin)%list_elem_of_fmap.
    rewrite Forall_forall in Hge. destruct (Hge e Hin). lia.
  - constructor; [|eapply Forall_impl; [exact Hge|]; simpl; intuition lia]. simpl.
    split_and!; [lia|done|]. assert (i ∈ free_from m0) as Hin by (rewrite Heq; by left).
    unfold free_from in Hin. by apply list_elem_of_filter in Hin as [? _].
Qed.

(** beyond the last index every round is refused and the search goes on *)
Lemma NewCIDR_vlan_diverges f : ∀ mx m0,
  2 ^ ib ≤ m0 → NewCIDR_vlan f def mx m0 = OutOfFuel.
Proof.
  induction f as [|f IH]; intros mx m0 Hm; [done|]. simpl.
  destruct Hdef as (Ht & _ & Hib & Hhb & Hfit & _). pose proof (cidr_text_ok _ _ _ Ht) as [_ ?].
  rewrite (ComputeNet_overflow _ _ _ ib m0 Ht) by lia. cbn [mbind run_bind lift]. apply IH. lia.
Qed.

Lemma NewCIDR_entries_diverges f masters : ∀ m0,
  pc_ExcludeCIDRs def = [] → 0 ≤ m0 ≤ 2 ^ ib → 2 ^ ib - m0 < Z.of_nat (length masters) →
  NewCIDR_entries f def (2 ^ ib - 1) m0 masters = OutOfFuel.
Proof.
  induction masters as [|m masters IH]; intros m0 Hex Hm Hlen; simpl in Hlen; [lia|].
  cbn [NewCIDR_entries]. destruct (Z.eq_dec m0 (2 ^ ib)) as [->|Hne].
  { by rewrite NewCIDR_vlan_diverges by lia. }
  destruct f as [|f]; [done|]. cbn [NewCIDR_vlan].
  destruct (vlan_compute m0 ltac:(lia)) as (vip & t & -> & Hv & Hg & Htb).
  rewrite Hex in Htb |- *. assert (t = false) as ->.
  { unfold CheckIfTabuIndex in Htb. destruct Hdef as (Ht & _).
    destruct (after_slash_text _ _ _ Ht) as (x & Hx & _). rewrite Hx in Htb. simpl in Htb.
    by injection Htb. }
  cbn [mbind run_bind lift]. rewrite Htb. cbn [mbind run_bind lift]. rewrite Hg.
  cbn [mbind run_bind lift]. rewrite IH; [done|done|lia|lia].
Qed.
End entries.
