(* ===== verification/CidrProps.v ===== *)
(** * Properties of the address plan

    The guarantees of [NewCIDR], [tryAddNewHost] and [UpdateEntries], with
    instances on the plan of [Cidr.ex_def], and the executions in which the
    code does not end or loses a record. *)

From S2P Require Import Prelude GoLib Types K8s Compute ComputeSpec IPPool Cidr CidrSpec.

#[local] Existing Instance map_to_list_range.

Lemma ex_def_ok : def_ok ex_def [192; 168; 0; 0] 16.
Proof.
  split_and!; try (simpl; lia).
  - exists "192.168.0.0", "16". by vm_compute.
  - by vm_compute.
  - constructor; [|constructor]. left. exists [192; 168; 64; 0], 18.
    exists "192.168.64.0", "18". by vm_compute.
Qed.

Lemma ex_fuel_ok : fuel_ok ex_def 65.
Proof. split; simpl; lia. Qed.

Definition ex_entries : list CIDREntry :=
  [mkCIDREntry "10.242.0.0/24" 0 "192.168.0.0/18" [];
   mkCIDREntry "10.242.1.0/24" 2 "192.168.128.0/18" []].

Lemma ex_entries_ok : cidrs_ok ex_def [192; 168; 0; 0] 16 ex_entries.
Proof.
  split; [|by apply (bool_decide_eq_true_1 _); vm_compute].
  constructor; [|constructor; [|constructor]]; (split; [simpl; lia|]).
  - exists [192; 168; 0; 0]. split_and!; [split; [split; [done|repeat constructor; lia]|by vm_compute]|by vm_compute|].
    repeat constructor.
  - exists [192; 168; 128; 0]. split_and!; [split; [split; [done|repeat constructor; lia]|by vm_compute]|by vm_compute|].
    repeat constructor.
Qed.

(** C6: the update of a network's entries from the HostInterface cache ends
    (fuel above the number of interface and host indexes is enough, whatever the
    cache, the answers about nodes and the map orders) and keeps the plan well
    formed: every entry has an interface index of its own and the VLAN network of
    that index; the hosts of an entry have distinct indexes and names, and each
    pod CIDR is the network of its host index, outside every exclusion that
    covers it. *)
Theorem UpdateEntries_preserves_plan {ord : MapRange} def ip p fuel snapshot getNode entries ch :
  def_ok def ip p → fuel_ok def fuel → cidrs_ok def ip p entries →
  ∃ m ch', UpdateEntries fuel snapshot getNode (mkCIDRSpec def entries)
             (SortAddress (pc_ExcludeCIDRs def)) ch = Fin (m, ch') ∧ entries_ok def ip p m.
Proof. intros. by apply UpdateEntries_ok. Qed.

Lemma UpdateEntries_preserves_plan_witness :
  ∃ m ch', UpdateEntries 65 ex_snapshot (λ _, NodeError) (mkCIDRSpec ex_def ex_entries)
             (SortAddress (pc_ExcludeCIDRs ex_def)) false = Fin (m, ch') ∧
           entries_ok ex_def [192; 168; 0; 0] 16 m.
Proof.
  apply (UpdateEntries_preserves_plan ex_def [192; 168; 0; 0] 16 65 ex_snapshot (λ _, NodeError)
           ex_entries false); [apply ex_def_ok|apply ex_fuel_ok|apply ex_entries_ok].
Defined.

(** After the update, the pod networks of any two records of the network
    (different interface networks or different hosts) share no address, and each
    lies inside the network's subnet. *)
Theorem UpdateEntries_pods_disjoint {ord : MapRange} def ip p fuel snapshot getNode entries ch m ch'
    k k' e e' h h' :
  def_ok def ip p → fuel_ok def fuel → cidrs_ok def ip p entries →
  UpdateEntries fuel snapshot getNode (mkCIDRSpec def entries)
    (SortAddress (pc_ExcludeCIDRs def)) ch = Fin (m, ch') →
  m !! k = Some e → m !! k' = Some e' → h ∈ e_Hosts e → h' ∈ e_Hosts e' →
  (k, h_HostName h) ≠ (k', h_HostName h') →
  ∃ a a' q, h_PodCIDR h = cidr_str a q ∧ h_PodCIDR h' = cidr_str a' q ∧ ip_ok a ∧ ip_ok a' ∧
    nets_disjoint (be a) q (be a') q ∧ subnet_of (be a) q (be ip) p.
Proof.
  intros Hdef Hfuel Hc Hup Hk Hk' Hh Hh' Hne.
  destruct (UpdateEntries_ok def ip p Hdef fuel Hfuel snapshot getNode entries ch Hc)
    as (m1 & c1 & Heq & Hm). rewrite Hup in Heq. injection Heq as <- <-.
  destruct (entries_ok_disjoint def ip p Hdef _ _ _ _ _ _ _ Hm Hk Hk' Hh Hh' Hne)
    as (a & a' & ? & ? & ? & ? & ? & ?).
  by exists a, a', (p + pc_InterfaceBlock def + pc_HostBlock def).
Qed.

Definition ex_updated : gmap string CIDREntry * bool :=
  match UpdateEntries 65 ex_snapshot (λ _, NodeError) (mkCIDRSpec ex_def ex_entries)
          (SortAddress (pc_ExcludeCIDRs ex_def)) false with
  | Fin r => r
  | _ => (∅, false)
  end.

Definition ex_host (i : Z) (name iface ip pod : string) : HostInterfaceInfo :=
  mkHostInterfaceInfo i name iface ip pod (GetIPPoolName "net" pod).

Lemma UpdateEntries_pods_disjoint_witness :
  ∃ a a' q, "192.168.0.0/24" = cidr_str a q ∧ "192.168.129.0/24" = cidr_str a' q ∧
    ip_ok a ∧ ip_ok a' ∧ nets_disjoint (be a) q (be a') q ∧
    subnet_of (be a) q (be [192; 168; 0; 0]) 16.
Proof.
  apply (UpdateEntries_pods_disjoint ex_def [192; 168; 0; 0] 16 65 ex_snapshot (λ _, NodeError)
           ex_entries false (fst ex_updated) (snd ex_updated) "10.242.0.0/24" "10.242.1.0/24"
           (mkCIDREntry "10.242.0.0/24" 0 "192.168.0.0/18"
              [ex_host 0 "hostA" "eth1" "10.242.0.1" "192.168.0.0/24";
               ex_host 1 "hostB" "eth1" "10.242.0.2" "192.168.1.0/24"])
           (mkCIDREntry "10.242.1.0/24" 2 "192.168.128.0/18"
              [ex_host 0 "hostA" "eth2" "10.242.1.1" "192.168.128.0/24";
               ex_host 1 "hostB" "eth2" "10.242.1.2" "192.168.129.0/24"])
           (ex_host 0 "hostA" "eth1" "10.242.0.1" "192.168.0.0/24")
           (ex_host 1 "hostB" "eth2" "10.242.1.2" "192.168.129.0/24")).
  - apply ex_def_ok.
  - apply ex_fuel_ok.
  - apply ex_entries_ok.
  - vm_compute. reflexivity.
  - vm_compute. reflexivity.
  - vm_compute. reflexivity.
  - apply list_elem_of_here.
  - apply list_elem_of_further, list_elem_of_here.
  - done.
Defined.

(** Adding a host to a well-formed entry ends within 2^HostBlock rounds of
    the search; it either appends one record with the given name, interface and
    address, whose pod CIDR is the network of an index unused in the entry and
    not covered by an exclusion, keeping the records sorted by index; or it
    leaves the entry as it is, and then every index is used or excluded. *)
Theorem tryAddNewHost_correct vlan vip pv hosts e def fuel name iface hip :
  let hb := pc_HostBlock def in
  cidr_text vlan vip pv → net_addr (be vip) pv → 1 ≤ hb → pv + hb ≤ 32 →
  Forall exclude_ok (pc_ExcludeCIDRs def) →
  hosts_ok vip pv hb (pc_ExcludeCIDRs def) hosts → e_VlanCIDR e = vlan →
  2 ^ hb < Z.of_nat fuel → name ∉ h_HostName <$> hosts →
  (∃ h hosts', tryAddNewHost fuel hosts e (2 ^ hb - 1) def name iface hip
               = Fin (set_Hosts e hosts', true) ∧
     hosts' ≡ₚ h :: hosts ∧ StronglySorted (λ a b, h_HostIndex a ≤ h_HostIndex b) hosts' ∧
     hosts_ok vip pv hb (pc_ExcludeCIDRs def) hosts' ∧
     h_HostName h = name ∧ h_InterfaceName h = iface ∧ h_HostIP h = hip) ∨
  (tryAddNewHost fuel hosts e (2 ^ hb - 1) def name iface hip = Fin (e, false) ∧
   ∀ idx, 0 ≤ idx < 2 ^ hb →
     idx ∈ h_HostIndex <$> hosts ∨ host_covered vip pv hb (pc_ExcludeCIDRs def) idx).
Proof.
  intros hb Hvt Hvn Hhb Hpb Hex Hok Hv Hf Hn.
  destruct (tryAddNewHost_spec vlan vip pv hb (pc_ExcludeCIDRs def) Hvt Hvn Hhb Hpb Hex
              fuel hosts e def name iface hip Hok Hv eq_refl eq_refl Hf Hn)
    as [(h & -> & Hok' & ? & ? & ? & _)|[-> ?]]; [left|by right].
  exists h, (sort_by h_HostIndex (hosts ++ [h])). split_and!; try done.
  - by rewrite sort_by_perm, Permutation_app_comm.
  - apply sort_by_sorted.
Qed.

Lemma tryAddNewHost_correct_witness :
  let e := mkCIDREntry "10.242.0.0/24" 0 "192.168.0.0/18" [] in
  (∃ h hosts', tryAddNewHost 65 [] e (2 ^ 6 - 1) ex_def "hostC" "eth1" "10.242.0.3"
               = Fin (set_Hosts e hosts', true) ∧
     hosts' ≡ₚ [h] ∧ StronglySorted (λ a b, h_HostIndex a ≤ h_HostIndex b) hosts' ∧
     hosts_ok [192; 168; 0; 0] 18 6 ["192.168.64.0/18"] hosts' ∧
     h_HostName h = "hostC" ∧ h_InterfaceName h = "eth1" ∧ h_HostIP h = "10.242.0.3") ∨
  (tryAddNewHost 65 [] e (2 ^ 6 - 1) ex_def "hostC" "eth1" "10.242.0.3" = Fin (e, false) ∧
   ∀ idx, 0 ≤ idx < 2 ^ 6 →
     idx ∈ ([] : list Z) ∨ host_covered [192; 168; 0; 0] 18 6 ["192.168.64.0/18"] idx).
Proof.
  apply (tryAddNewHost_correct "192.168.0.0/18" [192; 168; 0; 0] 18 []
           (mkCIDREntry "10.242.0.0/24" 0 "192.168.0.0/18" []) ex_def 65).
  - exists "192.168.0.0", "18". by vm_compute.
  - by vm_compute.
  - simpl. lia.
  - simpl. lia.
  - apply ex_def_ok.
  - repeat constructor.
  - reflexivity.
  - simpl. lia.
  - apply not_elem_of_nil.
Defined.

(** ** Plans of networks without a subnet *)

(** the interfaces of all hosts, with the host they belong to *)
Definition iface_rows (snapshot : list (string * HostInterfaceSpec))
    : list (string * InterfaceInfoType) :=
  snapshot ≫= λ kv, pair kv.1 <$> hi_Interfaces kv.2.

Definition on_net (net : string) (rows : list (string * InterfaceInfoType))
    : list (string * InterfaceInfoType) :=
  filter (λ r, i_NetAddress r.2 = net) rows.

(** the record of an interface: its pod network is the network it is on *)
Definition shared_host (def : PluginConfig) (r : string * InterfaceInfoType) : HostInterfaceInfo :=
  mkHostInterfaceInfo 0 r.1 (i_InterfaceName r.2) (i_HostIP r.2) (i_NetAddress r.2)
    (GetIPPoolName (pc_Name def) (i_NetAddress r.2)).

(** the entry of a network after the interfaces [rows] *)
Definition shared_entry (def : PluginConfig) (rows : list (string * InterfaceInfoType))
    (last : Z) (net : string) (e : CIDREntry) : Prop :=
  e_NetAddress e = net ∧ e_VlanCIDR e = net ∧ 0 ≤ e_InterfaceIndex e < last ∧
  e_Hosts e = shared_host def <$> on_net net rows.

Definition shared_map (def : PluginConfig) (rows : list (string * InterfaceInfoType))
    (m : gmap string CIDREntry) (last : Z) : Prop :=
  last = Z.of_nat (size m) ∧ map_Forall (shared_entry def rows last) m ∧
  (∀ n n' e e', m !! n = Some e → m !! n' = Some e' →
     e_InterfaceIndex e = e_InterfaceIndex e' → n = n') ∧
  (∀ net, is_Some (m !! net) ↔ net ∈ (λ r, i_NetAddress r.2) <$> rows).

Lemma shared_host_add fuel def rows r entry :
  e_VlanCIDR entry = i_NetAddress r.2 →
  e_Hosts entry = shared_host def <$> rows →
  tryAddNewHost fuel (e_Hosts entry) entry 0 def r.1 (i_InterfaceName r.2) (i_HostIP r.2)
  = Fin (set_Hosts entry (shared_host def <$> rows ++ [r]), true).
Proof.
  intros Hv Hh. unfold tryAddNewHost, addNewHost. cbn. rewrite Hh, Hv.
  rewrite (sort_by_id h_HostIndex); [by rewrite fmap_app|].
  change [mkHostInterfaceInfo _ _ _ _ _ _] with (shared_host def <$> [r]). rewrite <- fmap_app.
  generalize (rows ++ [r]). induction l as [|x l IH]; constructor; [done|].
  apply Forall_fmap, Forall_forall. simpl. lia.
Qed.

Lemma on_net_snoc net rows r :
  on_net net (rows ++ [r]) = on_net net rows ++ (if decide (i_NetAddress r.2 = net) then [r] else []).
Proof. unfold on_net. rewrite filter_app, filter_cons, filter_nil. by case_decide. Qed.

(** one interface more: the entry of its network gets a record *)
Lemma shared_map_insert def rows m last r e last' :
  shared_map def rows m last →
  (m !! i_NetAddress r.2 = Some e ∧ last' = last ∨
   m !! i_NetAddress r.2 = None ∧ last' = last + 1 ∧
     e = mkCIDREntry (i_NetAddress r.2) last (i_NetAddress r.2) []) →
  shared_entry def rows last' (i_NetAddress r.2) e ∧
  shared_map def (rows ++ [r])
    (<[i_NetAddress r.2 :=
         set_Hosts e (shared_host def <$> on_net (i_NetAddress r.2) rows ++ [r])]> m) last'.
Proof.
  intros (Hl & Hall & Hinj & Hdom) He. set (n0 := i_NetAddress r.2) in *.
  assert (last ≤ last') as Hle by (destruct He as [[_ ->]|(_ & -> & _)]; lia).
  assert (shared_entry def rows last' n0 e) as H0.
  { destruct He as [[He ->]|(He & -> & ->)]; [by apply Hall|].
    split_and!; [done..|simpl; lia|simpl; lia|]. simpl.
    assert (on_net n0 rows = []) as ->; [|done].
    unfold on_net. apply elem_of_nil_inv. intros x [Hx Hin]%list_elem_of_filter.
    apply eq_None_not_Some in He. apply He, Hdom, list_elem_of_fmap. by exists x. }
  split; [done|]. unfold shared_map. split_and!.
  - destruct He as [[He ->]|(He & -> & _)].
    + rewrite map_size_insert_Some by by eexists. done.
    + rewrite map_size_insert_None by done. lia.
  - intros n e' [[<- <-]|[Hne Hn]]%lookup_insert_Some.
    + destruct H0 as (? & ? & ? & _). split_and!; [done|done|simpl; lia|simpl; lia|].
      simpl. rewrite on_net_snoc. by rewrite decide_True.
    + destruct (Hall n e' Hn) as (? & ? & ? & Hh). split_and!; [done|done|lia|lia|].
      rewrite on_net_snoc, decide_False by done. by rewrite app_nil_r.
  - assert (∀ n e', n0 ≠ n → m !! n = Some e' → e_InterfaceIndex e ≠ e_InterfaceIndex e') as Hsep.
    { intros n e' Hne Hn Heq. destruct He as [[He _]|(_ & _ & ->)].
      - by apply Hne, (Hinj n0 n e e').
      - destruct (Hall n e' Hn) as (_ & _ & ? & _). simpl in Heq. lia. }
    intros n n' e1 e2 [[<- <-]|[Hne Hn]]%lookup_insert_Some [[<- <-]|[Hne' Hn']]%lookup_insert_Some;
      simpl; intros Heq; [done| | |by eapply Hinj].
    + by destruct (Hsep n' e2).
    + by destruct (Hsep n e1).
  - intros n. rewrite lookup_insert_is_Some, Hdom, fmap_app, elem_of_app. cbn [fmap list_fmap]. rewrite list_elem_of_singleton. fold n0.
    destruct (decide (n0 = n)) as [<-|]; [naive_solver|]. naive_solver.
Qed.

Lemma GenerateCIDR_ifaces_shared fuel def host ifaces : ∀ rows m last,
  shared_map def rows m last →
  ∃ m' last', GenerateCIDR_ifaces fuel def 0 host ifaces m last = Fin (Ok (m', last')) ∧
    shared_map def (rows ++ (pair host <$> ifaces)) m' last'.
Proof.
  induction ifaces as [|i ifaces IH]; intros rows m last Hm.
  { exists m, last. by rewrite app_nil_r. }
  cbn [GenerateCIDR_ifaces fmap list_fmap].
  rewrite cons_middle, app_assoc.
  destruct (m !! i_NetAddress i) as [e|] eqn:He.
  - destruct (shared_map_insert def rows m last (host, i) e last Hm) as [He' Hm']; [by left|].
    pose proof He' as (_ & Hv & _ & Hh).
    pose proof (shared_host_add fuel def (on_net (i_NetAddress i) rows) (host, i) e Hv Hh) as Hadd.
    cbn [fst snd] in Hadd. cbv beta iota zeta. rewrite Hadd. cbn [mbind run_bind]. by apply IH.
  - set (e := mkCIDREntry (i_NetAddress i) last (i_NetAddress i) []).
    destruct (shared_map_insert def rows m last (host, i) e (last + 1) Hm) as [He' Hm']; [by right|].
    pose proof He' as (_ & Hv & _ & Hh).
    pose proof (shared_host_add fuel def (on_net (i_NetAddress i) rows) (host, i) e Hv Hh) as Hadd.
    cbn [fst snd] in Hadd. cbv beta iota zeta. rewrite Hadd. cbn [mbind run_bind]. by apply IH.
Qed.

Lemma GenerateCIDR_hosts_shared fuel def snapshot : ∀ rows m last,
  shared_map def rows m last →
  ∃ m' last', GenerateCIDR_hosts fuel def 0 snapshot m last = Fin (Ok m') ∧
    shared_map def (rows ++ iface_rows snapshot) m' last'.
Proof.
  induction snapshot as [|[host hif] snapshot IH]; intros rows m last Hm.
  { exists m, last. by rewrite app_nil_r. }
  cbn [GenerateCIDR_hosts].
  destruct (GenerateCIDR_ifaces_shared fuel def host (hi_Interfaces hif) rows m last Hm)
    as (m1 & last1 & -> & Hm1). cbn [mbind run_bind].
  destruct (IH _ _ _ Hm1) as (m2 & last2 & -> & Hm2). exists m2, last2. split; [done|].
  by rewrite <- app_assoc in Hm2.
Qed.

Lemma shared_map_entries {ord : MapRange} def rows m last :
  shared_map def rows m last →
  let entries := snd <$> range_map m in
  NoDup (e_InterfaceIndex <$> entries) ∧
  (∀ net, net ∈ e_NetAddress <$> entries ↔ net ∈ (λ r, i_NetAddress r.2) <$> rows) ∧
  Forall (λ e, 0 ≤ e_InterfaceIndex e < Z.of_nat (length entries) ∧
            e_VlanCIDR e = e_NetAddress e ∧
            e_Hosts e = shared_host def <$> on_net (e_NetAddress e) rows) entries.
Proof.
  intros (Hl & Hall & Hinj & Hdom) entries. split_and!.
  - subst entries. rewrite <- list_fmap_compose. pose proof (range_map_keys_nodup m) as Hnd.
    apply NoDup_fmap_2_strong; [|by eapply NoDup_fmap_1].
    intros [n e] [n' e'] Hin%elem_of_range_map Hin'%elem_of_range_map Heq. simpl in Heq.
    assert (n = n') as <- by (by eapply Hinj). congruence.
  - intros net. rewrite <- Hdom. rewrite list_elem_of_fmap. split.
    + intros (e & -> & ([n e'] & -> & Hin%elem_of_range_map)%list_elem_of_fmap).
      simpl. destruct (Hall _ _ Hin) as [-> _]. by eexists.
    + intros [e He]. exists e. destruct (Hall _ _ He) as [-> _]. split; [done|].
      apply list_elem_of_fmap. exists (net, e). by rewrite elem_of_range_map.
  - apply Forall_fmap, Forall_forall. intros [n e] Hin%elem_of_range_map. simpl.
    destruct (Hall _ _ Hin) as (-> & -> & ? & ->). subst entries.
    rewrite length_fmap, length_range_map. split_and!; (done || lia).
Qed.

(** C17: [NewCIDR] answers. With a canonical subnet, at least one host bit,
    blocks that fit into the 32 bits, parseable exclusions and at least as many
    non-excluded interface indexes as master networks: one entry per master
    network in order, a well-formed plan without hosts, on interface indexes whose
    networks are not excluded. With an empty subnet and no host bits: one entry
    per network that an interface of a host is on, with distinct interface indexes
    below their number, and in it exactly the interfaces on that network in the
    order of the cache, each with host index 0 and the network itself as VLAN and
    pod CIDR. An empty subnet with host bits is outside this claim. *)
Theorem NewCIDR_plan {ord : MapRange} def ip p fuel snapshot :
  (def_ok def ip p → fuel_ok def fuel →
   (length (pc_MasterNetAddrs def) ≤ length (free_from def 0))%nat →
   ∃ entries, NewCIDR fuel snapshot def = Fin (Ok (mkCIDRSpec def entries)) ∧
     e_NetAddress <$> entries = pc_MasterNetAddrs def ∧ cidrs_ok def ip p entries ∧
     Forall (λ e, e_Hosts e = [] ∧
               CheckIfTabuIndex (pc_Subnet def) (e_InterfaceIndex e) (pc_InterfaceBlock def)
                 (pc_ExcludeCIDRs def) = Ret false) entries) ∧
  (pc_Subnet def = "" → pc_HostBlock def ≤ 0 →
   let rows := iface_rows (range_map snapshot) in
   ∃ entries, NewCIDR fuel snapshot def = Fin (Ok (mkCIDRSpec def entries)) ∧
     NoDup (e_InterfaceIndex <$> entries) ∧
     (∀ net, net ∈ e_NetAddress <$> entries ↔ net ∈ (λ r, i_NetAddress r.2) <$> rows) ∧
     Forall (λ e, 0 ≤ e_InterfaceIndex e < Z.of_nat (length entries) ∧
               e_VlanCIDR e = e_NetAddress e ∧
               e_Hosts e = shared_host def <$> on_net (e_NetAddress e) rows) entries).
Proof.
  split.
  - intros Hdef Hfuel Hlen. unfold NewCIDR. rewrite bool_decide_eq_false_2.
    2: { destruct Hdef as ((a & x & Hs & _) & _). intros Heq. by rewrite Heq in Hs. }
    assert (0 ≤ pc_InterfaceBlock def ≤ 53).
    { destruct Hdef as (Ht & _ & ? & ? & ? & _). apply cidr_text_ok in Ht as [_ ?]. lia. }
    rewrite pow2_minus_1 by lia.
    destruct (NewCIDR_entries_ok def ip p Hdef fuel Hfuel (pc_MasterNetAddrs def) 0)
      as (entries & -> & ? & ? & ? & Hall); [lia|done|].
    exists entries. split; [done|]. split_and!; [done..|].
    eapply Forall_impl; [exact Hall|]. simpl. intros e (_ & ? & ?). done.
  - intros Hs Hb rows. unfold NewCIDR, GenerateCIDRFromHostSubnet.
    rewrite bool_decide_eq_true_2 by done. rewrite (proj2 (Z.ltb_ge _ _)) by lia.
    destruct (GenerateCIDR_hosts_shared fuel def (range_map snapshot) [] ∅ 0)
      as (m & last & -> & Hm).
    { split_and!; [done|apply map_Forall_empty|intros ? ? ? ? H; by apply lookup_empty_Some in H|].
      intros net. rewrite lookup_empty. split; [by intros [? ?]|by intros ?%elem_of_nil]. }
    exists (snd <$> range_map m). split; [done|]. by eapply shared_map_entries.
Qed.

Definition ex_def_unmanaged : PluginConfig :=
  mkPluginConfig "net" "multi-nic" "" [] 0 0 [] "l2".

Lemma NewCIDR_plan_witness :
  (∃ entries, NewCIDR 65 ∅ ex_def = Fin (Ok (mkCIDRSpec ex_def entries)) ∧
    e_NetAddress <$> entries = ["10.242.0.0/24"; "10.242.1.0/24"] ∧
    cidrs_ok ex_def [192; 168; 0; 0] 16 entries ∧
    Forall (λ e, e_Hosts e = [] ∧
              CheckIfTabuIndex "192.168.0.0/16" (e_InterfaceIndex e) 2 ["192.168.64.0/18"] = Ret false)
      entries) ∧
  ∃ entries, NewCIDR 65 ex_snapshot ex_def_unmanaged = Fin (Ok (mkCIDRSpec ex_def_unmanaged entries)) ∧
    NoDup (e_InterfaceIndex <$> entries) ∧ ∃ e, e ∈ entries ∧ e_NetAddress e = "10.242.0.0/24".
Proof.
  split.
  - apply (proj1 (NewCIDR_plan ex_def [192; 168; 0; 0] 16 65 ∅)); [apply ex_def_ok|apply ex_fuel_ok|].
    vm_compute. lia.
  - pose proof (NewCIDR_plan ex_def_unmanaged [] 0 65 ex_snapshot) as [_ Hplan].
    destruct (Hplan eq_refl (Z.le_refl 0)) as (entries & H & Hnd & Hdom & _).
    exists entries. split; [exact H|]. split; [exact Hnd|].
    assert ("10.242.0.0/24" ∈ e_NetAddress <$> entries) as Hin.
    2: { apply list_elem_of_fmap in Hin as (e & Heq & He). exists e. split; [exact He|exact (eq_sym Heq)]. }
    apply Hdom, (bool_decide_unpack _). vm_compute. reflexivity.
Defined.

(** with more master networks than interface indexes (and no exclusions),
    [NewCIDR] never returns: no amount of fuel is enough, because an index that
    does not fit is skipped without comparing it with the maximum. *)
Theorem NewCIDR_too_many_masters_diverges {ord : MapRange} def ip p fuel snapshot :
  def_ok def ip p → pc_ExcludeCIDRs def = [] →
  2 ^ pc_InterfaceBlock def < Z.of_nat (length (pc_MasterNetAddrs def)) →
  NewCIDR fuel snapshot def = OutOfFuel.
Proof.
  intros Hdef Hex Hlen. unfold NewCIDR. rewrite bool_decide_eq_false_2.
  2: { destruct Hdef as ((a & x & Hs & _) & _). intros Heq. by rewrite Heq in Hs. }
  assert (0 ≤ pc_InterfaceBlock def ≤ 53).
  { destruct Hdef as (Ht & _ & ? & ? & ? & _). apply cidr_text_ok in Ht as [_ ?]. lia. }
  rewrite pow2_minus_1 by lia. pose proof (pow2_pos (pc_InterfaceBlock def) ltac:(lia)).
  rewrite (NewCIDR_entries_diverges def ip p Hdef); [done|done|lia|lia].
Qed.

Definition ex_def_small : PluginConfig :=
  mkPluginConfig "net" "multi-nic" "192.168.0.0/16"
    ["10.242.0.0/24"; "10.242.1.0/24"; "10.242.2.0/24"] 6 1 [] "l3".

Lemma NewCIDR_too_many_masters_diverges_witness :
  NewCIDR 1000 ∅ ex_def_small = OutOfFuel.
Proof.
  apply (NewCIDR_too_many_masters_diverges ex_def_small [192; 168; 0; 0] 16 1000 ∅);
    [|reflexivity|simpl; lia].
  split_and!; try (simpl; lia).
  - exists "192.168.0.0", "16". by vm_compute.
  - by vm_compute.
  - constructor.
Defined.

(** ** A record recomputed after a new exclusion

    hostA's pod CIDR becomes excluded: its record is removed from the entry, but
    the new record is added to the old slice, whose tail has moved by one: hostB
    is stored twice. *)

Definition ex_entry_ab : CIDREntry :=
  mkCIDREntry "10.242.0.0/24" 0 "192.168.0.0/18"
    [ex_host 0 "hostA" "eth1" "10.242.0.1" "192.168.0.0/24";
     ex_host 1 "hostB" "eth1" "10.242.0.2" "192.168.1.0/24"].

Definition ex_def_excl : PluginConfig :=
  mkPluginConfig "net" "multi-nic" "192.168.0.0/16" ["10.242.0.0/24"] 6 2 ["192.168.0.0/24"] "l3".

Example UpdateEntries_duplicates_record :
  match UpdateEntries 65 ex_snapshot (λ _, NodeError) (mkCIDRSpec ex_def_excl [ex_entry_ab])
          (SortAddress (pc_ExcludeCIDRs ex_def_excl)) false with
  | Fin (m, _) => (λ e, (λ h, (h_HostIndex h, h_HostName h)) <$> e_Hosts e) <$> m !! "10.242.0.0/24"
  | _ => None
  end = Some [(1, "hostB"); (1, "hostB"); (2, "hostA")].
Proof. vm_compute. reflexivity. Qed.

(** a refused host resets the flag: host b gets no index after host a
    changed its address, and the change is not reported *)
Example UpdateEntries_forgets_change :
  (let def := mkPluginConfig "net" "multi-nic" "192.168.0.0/16" ["10.242.0.0/24"] 1 2 [] "l3" in
   match UpdateEntries 65
           {["a" := ex_hif "a" "10.242.0.9" ""; "b" := ex_hif "b" "" ""; "c" := ex_hif "c" "" ""]}
           (λ _, NodeError)
           (mkCIDRSpec def
              [mkCIDREntry "10.242.0.0/24" 0 "192.168.0.0/18"
                 [ex_host 0 "a" "eth1" "10.242.0.1" "192.168.0.0/19";
                  ex_host 1 "c" "eth1" "" "192.168.32.0/19"]]) [] false with
   | Fin (m, ch) => (h_HostIP <$> (m !! "10.242.0.0/24" ≫= λ e, head (e_Hosts e)), ch)
   | _ => (None, false)
   end) = (Some "10.242.0.9", false).
Proof. vm_compute. reflexivity. Qed.
