(* ===== verification/Network.v ===== *)
(** * controllers/multinicnetwork_handler.go: status of a network

    The handler writes to a MultiNicNetwork's status what the operator knows of
    it: the number of hosts per interface network, the daemons, the state of the
    routes and of the configuration.  Types from
    [api/v1/multinicnetwork_types.go]. *)

From S2P Require Import Prelude GoLib Types K8s.

(** ** api/v1/multinicnetwork_types.go *)

Record AttachmentPolicy := mkPolicy { ap_Strategy : string; ap_Target : string }.

Record PluginSpec := mkPluginSpec {
  pl_CNIVersion : string;
  pl_Type : string;
  pl_CNIArgs : gmap string string
}.

Record MultiNicNetworkSpec := mkNetSpec {
  ns_MasterNetAddrs : list string;
  ns_Subnet : string;
  ns_IPAM : string;
  ns_IsMultiNICIPAM : bool;
  ns_MainPlugin : PluginSpec;
  ns_Policy : AttachmentPolicy;
  ns_Namespaces : list string
}.

(** [RouteStatus] *)
Definition RouteNoApplied : string := "N/A".
Definition ApplyingRoute : string := "WaitForRoutes".
Definition RouteUnknown : string := "Unknown".
Definition AllRouteApplied : string := "Success".
Definition SomeRouteFailed : string := "Failed".

(** [NetConfigStatus] *)
Definition WaitForConfig : string := "WaitForConfig".
Definition ConfigComplete : string := "Success".
Definition ConfigFailed : string := "Failed".

Record NicNetworkResult := mkNicResult { nr_NetAddress : string; nr_NumOfHost : Z }.

Record DiscoverStatus := mkDiscover {
  ds_ExistDaemon : Z;
  ds_InterfaceInfoAvailable : Z;
  ds_CIDRProcessedHost : Z
}.

(** [LastSyncTime]: 0 is the zero time *)
Record MultiNicNetworkStatus := mkNetStatus {
  st_ComputeResults : list NicNetworkResult;
  st_DiscoverStatus : DiscoverStatus;
  st_NetConfigStatus : string;
  st_RouteStatus : string;
  st_Message : string;
  st_LastSyncTime : Z
}.

Record MultiNicNetwork := mkNetwork {
  mn_Name : string;
  mn_Spec : MultiNicNetworkSpec;
  mn_Status : MultiNicNetworkStatus
}.

#[export] Instance NicNetworkResult_eq_dec : EqDecision NicNetworkResult.
Proof. solve_decision. Defined.
#[export] Instance DiscoverStatus_eq_dec : EqDecision DiscoverStatus.
Proof. solve_decision. Defined.
#[export] Instance MultiNicNetworkStatus_eq_dec : EqDecision MultiNicNetworkStatus.
Proof. solve_decision. Defined.

Definition empty_status : MultiNicNetworkStatus := mkNetStatus [] (mkDiscover 0 0 0) "" "" "" 0.

Definition set_Status (n : MultiNicNetwork) (s : MultiNicNetworkStatus) : MultiNicNetwork :=
  mkNetwork (mn_Name n) (mn_Spec n) s.

(** ** The handler *)

Definition RouteMessage : gmap string string :=
  {[SomeRouteFailed := "some route cannot be applied, need attention";
    RouteUnknown := "some daemon cannot be connected";
    ApplyingRoute := "waiting for route update";
    AllRouteApplied := ""]}.

Definition compute_map (results : list NicNetworkResult) : gmap string Z :=
  foldl (λ m r, <[nr_NetAddress r := nr_NumOfHost r]> m) ∅ results.

Definition NetStatusUpdated (prevStatus newStatus : MultiNicNetworkStatus) : bool :=
  if negb (bool_decide (st_Message prevStatus = st_Message newStatus))
     || negb (bool_decide (st_RouteStatus prevStatus = st_RouteStatus newStatus))
     || negb (bool_decide (st_NetConfigStatus prevStatus = st_NetConfigStatus newStatus))
     || negb (bool_decide (st_DiscoverStatus prevStatus = st_DiscoverStatus newStatus))
  then true
  else if negb (length (st_ComputeResults prevStatus) =? length (st_ComputeResults newStatus))%nat
  then true
  else
    let prevComputeMap := compute_map (st_ComputeResults prevStatus) in
    existsb (λ status, negb (bool_decide
               (prevComputeMap !! nr_NetAddress status = Some (nr_NumOfHost status))))
      (st_ComputeResults newStatus).

(** results and the greatest number of hosts of an entry *)
Definition compute_results (entries : list CIDREntry) : list NicNetworkResult :=
  (λ entry, mkNicResult (e_NetAddress entry) (Z.of_nat (length (e_Hosts entry)))) <$> entries.

Definition max_hosts (entries : list CIDREntry) : Z :=
  foldl (λ mx entry, let n := Z.of_nat (length (e_Hosts entry)) in if mx <? n then n else mx)
    0 entries.

(** the status that [updateStatus] computes *)
Definition new_status (now : Z) (instance : MultiNicNetwork) (spec : CIDRSpec) (status : string)
    (discoverStatus : DiscoverStatus) (netConfigStatus message : string) (cidrChange : bool)
    : MultiNicNetworkStatus :=
  let '(results, discoverStatus) :=
    if cidrChange
    then (compute_results (c_CIDRs spec),
          mkDiscover (ds_ExistDaemon discoverStatus) (ds_InterfaceInfoAvailable discoverStatus)
            (max_hosts (c_CIDRs spec)))
    else (st_ComputeResults (mn_Status instance), discoverStatus) in
  mkNetStatus results discoverStatus netConfigStatus status message now.

Record NetHandler := mkNetHandler {
  nh_syncFlag : bool;
  nh_cache : SafeCache MultiNicNetwork
}.

Section handler.
(** [cl_Update] of this kind is the update of the status subresource *)
Context {W : Type} {client : Client W MultiNicNetwork}.

Definition GetNetwork (w : W) (name : string) : MultiNicNetwork + kerr := cl_Get w name.

Definition updateStatus (now : Z) (w : W) (h : NetHandler) (instance : MultiNicNetwork)
    (spec : CIDRSpec) (status : string) (discoverStatus : DiscoverStatus)
    (netConfigStatus message : string) (cidrChange : bool)
    : W * NetHandler * (MultiNicNetworkStatus * option kerr) :=
  let netStatus :=
    new_status now instance spec status discoverStatus netConfigStatus message cidrChange in
  if negb (NetStatusUpdated (mn_Status instance) netStatus) then
    (w, mkNetHandler (nh_syncFlag h) (SetCache (nh_cache h) (mn_Name instance) instance),
     (netStatus, None))
  else
    let instance := set_Status instance netStatus in
    let '(w', err) := cl_Update w (mn_Name instance) instance in
    match err with
    | Some _ => (w', h, (netStatus, err))
    | None =>
        (w', mkNetHandler (nh_syncFlag h) (SetCache (nh_cache h) (mn_Name instance) instance),
         (netStatus, None))
    end.

Definition config_of_route (routeStatus netConfigStatus : string) : string :=
  if bool_decide (routeStatus = SomeRouteFailed) || bool_decide (routeStatus = ApplyingRoute)
  then WaitForConfig
  else if bool_decide (routeStatus = AllRouteApplied) then ConfigComplete
  else netConfigStatus.

Definition SyncAllStatus (now : Z) (w : W) (h : NetHandler) (name : string) (spec : CIDRSpec)
    (routeStatus : string) (daemonSize infoAvailableSize : Z) (cidrChange : bool)
    : W * NetHandler * (MultiNicNetworkStatus * option kerr) :=
  match GetNetwork w name with
  | inr err => (w, h, (empty_status, Some err))
  | inl instance =>
      if nh_syncFlag h then
        (w, h, (mn_Status instance,
                Some (Failure "syncFlag is set (skip SyncAllStatus to avoid congestion)")))
      else
        let h := mkNetHandler true (nh_cache h) in
        let netConfigStatus :=
          config_of_route routeStatus (st_NetConfigStatus (mn_Status instance)) in
        let message :=
          default (st_Message (mn_Status instance)) (RouteMessage !! routeStatus) in
        let discoverStatus :=
          mkDiscover daemonSize infoAvailableSize
            (ds_CIDRProcessedHost (st_DiscoverStatus (mn_Status instance))) in
        let '(w', h', r) :=
          updateStatus now w h instance spec routeStatus discoverStatus netConfigStatus message
            cidrChange in
        (w', mkNetHandler false (nh_cache h'), r)
  end.

Definition UpdateNetConfigStatus (now : Z) (w : W) (h : NetHandler) (instance : MultiNicNetwork)
    (netConfigStatus message : string) : W * NetHandler * option kerr :=
  let s := mn_Status instance in
  let message := if bool_decide (message = "") then st_Message s else message in
  let sync := if bool_decide (st_LastSyncTime s = 0) then now else st_LastSyncTime s in
  let instance :=
    set_Status instance
      (mkNetStatus (st_ComputeResults s) (st_DiscoverStatus s) netConfigStatus (st_RouteStatus s)
         message sync) in
  let '(w', err) := cl_Update w (mn_Name instance) instance in
  match err with
  | Some _ => (w', h, err)
  | None =>
      (w', mkNetHandler (nh_syncFlag h) (SetCache (nh_cache h) (mn_Name instance) instance), None)
  end.

Definition GetStatusCache (h : NetHandler) (key : string) : MultiNicNetworkStatus + string :=
  match GetCache (nh_cache h) key with
  | None => inr "not found"
  | Some n => inl (mn_Status n)
  end.

Definition ListStatusCache (h : NetHandler) : gmap string MultiNicNetworkStatus :=
  mn_Status <$> ListCache (nh_cache h).

Definition in_namespace (target : string) (net : MultiNicNetwork) : bool :=
  bool_decide (ns_Namespaces (mn_Spec net) = []) ||
  existsb (λ ns, bool_decide (ns = target)) (ns_Namespaces (mn_Spec net)).

Definition FilterNetworksByNamespace {ord : MapRange} (h : NetHandler) (target : string)
    : list MultiNicNetwork :=
  filter (λ net, in_namespace target net = true) (snd <$> range_map (nh_cache h)).
End handler.

(** ** Lemmas *)

Lemma compute_map_lookup results r :
  NoDup (nr_NetAddress <$> results) → r ∈ results →
  compute_map results !! nr_NetAddress r = Some (nr_NumOfHost r).
Proof.
  unfold compute_map. induction results as [|x results IH] using rev_ind; intros Hnd Hin.
  { by apply elem_of_nil in Hin. }
  rewrite foldl_app. simpl. rewrite fmap_app in Hnd. apply NoDup_app in Hnd as (Hnd & Hdis & _).
  apply elem_of_app in Hin as [Hin| ->%list_elem_of_singleton].
  - rewrite lookup_insert_ne; [by apply IH|]. intros Heq. eapply Hdis.
    + by apply list_elem_of_fmap_2.
    + rewrite <- Heq. by left.
  - by rewrite lookup_insert_eq.
Qed.

Lemma NetStatusUpdated_same s now :
  NoDup (nr_NetAddress <$> st_ComputeResults s) →
  NetStatusUpdated s (mkNetStatus (st_ComputeResults s) (st_DiscoverStatus s)
                        (st_NetConfigStatus s) (st_RouteStatus s) (st_Message s) now) = false.
Proof.
  intros Hnd. unfold NetStatusUpdated. simpl. rewrite !bool_decide_eq_true_2 by done. simpl.
  rewrite Nat.eqb_refl. simpl. apply not_true_iff_false. rewrite existsb_exists.
  intros (r & Hin%list_elem_of_In & Hr). rewrite bool_decide_eq_true_2 in Hr; [done|].
  by apply compute_map_lookup.
Qed.

Lemma max_hosts_spec entries :
  (∀ e, e ∈ entries → Z.of_nat (length (e_Hosts e)) ≤ max_hosts entries) ∧
  (max_hosts entries = 0 ∨ ∃ e, e ∈ entries ∧ max_hosts entries = Z.of_nat (length (e_Hosts e))).
Proof.
  unfold max_hosts. induction entries as [|e entries IH] using rev_ind.
  { split; [by intros e He%elem_of_nil|by left]. }
  rewrite foldl_app. simpl. destruct IH as [Hle Hmax]. zcase.
  - split; [|right; exists e; split; [apply elem_of_app; right; by left|done]].
    intros x [Hx| ->%list_elem_of_singleton]%elem_of_app; [specialize (Hle x Hx)|]; lia.
  - split; [|destruct Hmax as [?|(x & ? & ?)]; [by left|right; exists x; split; [apply elem_of_app; by left|done]]].
    intros x [Hx| ->%list_elem_of_singleton]%elem_of_app; [by apply Hle|lia].
Qed.

Lemma NetStatusUpdated_false prev new :
  NetStatusUpdated prev new = false →
  st_Message prev = st_Message new ∧ st_RouteStatus prev = st_RouteStatus new ∧
  st_NetConfigStatus prev = st_NetConfigStatus new ∧
  st_DiscoverStatus prev = st_DiscoverStatus new ∧
  length (st_ComputeResults prev) = length (st_ComputeResults new).
Proof.
  unfold NetStatusUpdated. repeat case_bool_decide; simpl; try done.
  destruct (Nat.eqb_spec (length (st_ComputeResults prev)) (length (st_ComputeResults new))); done.
Qed.

Lemma FilterNetworksByNamespace_spec {ord : MapRange} h target net :
  net ∈ FilterNetworksByNamespace h target ↔
  (∃ k, nh_cache h !! k = Some net) ∧
  (ns_Namespaces (mn_Spec net) = [] ∨ target ∈ ns_Namespaces (mn_Spec net)).
Proof.
  unfold FilterNetworksByNamespace. rewrite list_elem_of_filter, list_elem_of_fmap.
  assert ((∃ y, net = y.2 ∧ y ∈ range_map (nh_cache h)) ↔ ∃ k, nh_cache h !! k = Some net) as ->.
  { split.
    - intros ([k n] & -> & Hin%elem_of_range_map). eauto.
    - intros (k & Hk). exists (k, net). split; [done|]. by apply elem_of_range_map. }
  assert (in_namespace target net = true ↔
          ns_Namespaces (mn_Spec net) = [] ∨ target ∈ ns_Namespaces (mn_Spec net)) as ->; [|tauto].
  unfold in_namespace. rewrite orb_true_iff, bool_decide_eq_true, existsb_exists.
  f_equiv. split.
  - intros (x & Hin & ->%bool_decide_eq_true). by apply list_elem_of_In.
  - intros Hin. exists target. rewrite bool_decide_eq_true_2 by done.
    split; [by apply list_elem_of_In|done].
Qed.

Lemma config_of_route_idem r c : config_of_route r (config_of_route r c) = config_of_route r c.
Proof. unfold config_of_route. by repeat case_match. Qed.

Section sync.
Context {W : Type} {client : Client W MultiNicNetwork} (net_at : W → string → option MultiNicNetwork).

(** a successful [SyncAllStatus] after a CIDR change leaves in the cluster,
    for that network, exactly the given route status, the configuration status
    that follows from it, the given numbers of daemons and hosts with interface
    information, and the greatest number of hosts of an entry as the number of
    processed hosts; it clears the sync flag. *)
Theorem SyncAllStatus_stores now w h name spec routeStatus daemonSize infoSize w' h' s o :
  ClientLaws W MultiNicNetwork net_at →
  GetNetwork w name = inl o → mn_Name o = name →
  SyncAllStatus now w h name spec routeStatus daemonSize infoSize true = (w', h', (s, None)) →
  nh_syncFlag h' = false ∧
  ∃ o', net_at w' name = Some o' ∧ mn_Spec o' = mn_Spec o ∧
    st_RouteStatus (mn_Status o') = routeStatus ∧
    st_NetConfigStatus (mn_Status o')
      = config_of_route routeStatus (st_NetConfigStatus (mn_Status o)) ∧
    st_DiscoverStatus (mn_Status o') = mkDiscover daemonSize infoSize (max_hosts (c_CIDRs spec)).
Proof.
  intros Hlaws Hget Hname. unfold SyncAllStatus. rewrite Hget.
  destruct (nh_syncFlag h); [done|]. unfold updateStatus. cbv zeta.
  destruct (NetStatusUpdated _ _) eqn:Hup; simpl.
  - destruct (cl_Update _ _ _) as [w1 [e|]] eqn:Hcu; [done|]. intros [= <- <- <-].
    split; [done|]. eexists. rewrite Hname in Hcu. split; [by eapply update_ok|]. split_and!; reflexivity.
  - intros [= <- <- <-]. split; [done|]. exists o.
    apply NetStatusUpdated_false in Hup as (_ & Hr & Hc & Hd & _).
    split_and!; [by apply get_sound|done|exact Hr|exact Hc|exact Hd].
Qed.

(** Repeating [SyncAllStatus] with the same values is silent: it changes
    nothing in the cluster and answers the same status up to its time stamp, so
    status updates do not feed on themselves. *)
Theorem SyncAllStatus_idempotent now now' w h name spec routeStatus daemonSize infoSize w' h' s o o' :
  ClientLaws W MultiNicNetwork net_at → NoDup (e_NetAddress <$> c_CIDRs spec) →
  GetNetwork w name = inl o → mn_Name o = name →
  SyncAllStatus now w h name spec routeStatus daemonSize infoSize true = (w', h', (s, None)) →
  NetStatusUpdated (mn_Status o) s = true →
  GetNetwork w' name = inl o' →
  ∃ h'' s', SyncAllStatus now' w' h' name spec routeStatus daemonSize infoSize true
            = (w', h'', (s', None)) ∧
    s' = mkNetStatus (st_ComputeResults s) (st_DiscoverStatus s) (st_NetConfigStatus s)
           (st_RouteStatus s) (st_Message s) now'.
Proof.
  intros Hlaws Hnd Hget Hname. unfold SyncAllStatus at 1. rewrite Hget.
  destruct (nh_syncFlag h); [done|]. unfold updateStatus. cbv zeta.
  destruct (NetStatusUpdated (mn_Status o) _) eqn:Hup; simpl.
  2: { intros [= <- <- <-]. by rewrite Hup. }
  destruct (cl_Update _ _ _) as [w1 [e|]] eqn:Hcu; [done|]. intros [= <- <- <-] _ Hget'.
  rewrite Hname in Hcu. apply update_ok in Hcu.
  rewrite (get_sound _ _ _ Hget') in Hcu. injection Hcu as ->.
  unfold SyncAllStatus. rewrite Hget'. simpl. unfold updateStatus. cbv zeta.
  unfold set_Status. cbn [mn_Status mn_Name mn_Spec]. unfold new_status. cbn [st_NetConfigStatus
    st_Message st_DiscoverStatus ds_CIDRProcessedHost ds_ExistDaemon ds_InterfaceInfoAvailable].
  rewrite config_of_route_idem.
  replace (default (default (st_Message (mn_Status o)) (RouteMessage !! routeStatus))
             (RouteMessage !! routeStatus))
    with (default (st_Message (mn_Status o)) (RouteMessage !! routeStatus))
    by (by destruct (RouteMessage !! routeStatus)).
  match goal with |- context [NetStatusUpdated ?a ?b] =>
    assert (NetStatusUpdated a b = false) as Hsame end.
  { apply (NetStatusUpdated_same (mkNetStatus _ _ _ _ _ _) now'). simpl. unfold compute_results.
    rewrite <- list_fmap_compose. done. }
  rewrite Hsame. simpl. eauto.
Qed.
End sync.

Definition ex_net : MultiNicNetwork :=
  mkNetwork "net" (mkNetSpec [] "192.168.0.0/16" "" true (mkPluginSpec "0.3.0" "ipvlan" ∅)
                     (mkPolicy "none" "") []) empty_status.

Definition ex_net_store : kstore MultiNicNetwork := mkK {["net" := ex_net]} false.

Definition ex_net_handler : NetHandler := mkNetHandler false ∅.

Definition ex_net_spec : CIDRSpec :=
  mkCIDRSpec (mkPluginConfig "net" "" "" [] 6 2 [] "l3")
    [mkCIDREntry "10.0.0.0/24" 0 "192.168.0.0/18" [mkHostInterfaceInfo 0 "h" "eth1" "" "" ""]].

Definition ex_sync : kstore MultiNicNetwork * NetHandler * (MultiNicNetworkStatus * option kerr) :=
  SyncAllStatus 5 ex_net_store ex_net_handler "net" ex_net_spec AllRouteApplied 1 1 true.

Lemma SyncAllStatus_stores_witness :
  nh_syncFlag ex_sync.1.2 = false ∧
  ∃ o', kstore_at ex_sync.1.1 "net" = Some o' ∧ mn_Spec o' = mn_Spec ex_net ∧
    st_RouteStatus (mn_Status o') = AllRouteApplied ∧
    st_NetConfigStatus (mn_Status o') = config_of_route AllRouteApplied "" ∧
    st_DiscoverStatus (mn_Status o') = mkDiscover 1 1 (max_hosts (c_CIDRs ex_net_spec)).
Proof.
  apply (SyncAllStatus_stores kstore_at 5 ex_net_store ex_net_handler "net" ex_net_spec
           AllRouteApplied 1 1 ex_sync.1.1 ex_sync.1.2 ex_sync.2.1 ex_net).
  - apply kstore_laws.
  - reflexivity.
  - reflexivity.
  - vm_compute. reflexivity.
Defined.

Lemma SyncAllStatus_idempotent_witness :
  ∃ h'' s', SyncAllStatus 9 ex_sync.1.1 ex_sync.1.2 "net" ex_net_spec AllRouteApplied 1 1 true
            = (ex_sync.1.1, h'', (s', None)) ∧
    s' = mkNetStatus (st_ComputeResults ex_sync.2.1) (st_DiscoverStatus ex_sync.2.1)
           (st_NetConfigStatus ex_sync.2.1) (st_RouteStatus ex_sync.2.1)
           (st_Message ex_sync.2.1) 9.
Proof.
  apply (SyncAllStatus_idempotent kstore_at 5 9 ex_net_store ex_net_handler "net" ex_net_spec
           AllRouteApplied 1 1 ex_sync.1.1 ex_sync.1.2 ex_sync.2.1 ex_net
           (set_Status ex_net ex_sync.2.1)).
  - apply kstore_laws.
  - apply NoDup_singleton.
  - reflexivity.
  - reflexivity.
  - vm_compute. reflexivity.
  - vm_compute. reflexivity.
  - vm_compute. reflexivity.
Defined.
