(* ===== verification/Route.v ===== *)
(** * controllers/route_handler.go, daemon_connector.go, daemon_cache_handler.go

    In L3 mode the operator sends every daemon the routes to the pod CIDRs of the
    other hosts.  The daemons answer over HTTP: the state they keep and what they
    answer are the parameters [W] and [post]. *)

From S2P Require Import Prelude GoLib Types K8s Cidr.

Record DaemonPod := mkDaemonPod {
  dp_Name : string;
  dp_Namespace : string;
  dp_HostIP : string;
  dp_NodeName : string;
  dp_Labels : gmap string string
}.

#[export] Instance DaemonPod_eq_dec : EqDecision DaemonPod.
Proof. solve_decision. Defined.

(** ** daemon_cache_handler.go *)

Abbreviation DaemonCache := (SafeCache DaemonPod).

Definition Daemon_GetCache (c : DaemonCache) (key : string) : DaemonPod + string :=
  match GetCache c key with None => inr "not found" | Some d => inl d end.

(** ** daemon_connector.go *)

Record HostRoute := mkHostRoute {
  hr_Subnet : string;
  hr_NextHop : string;
  hr_InterfaceName : string
}.

Record L3ConfigRequest := mkL3 {
  l3_Name : string;
  l3_Subnet : string;
  l3_Routes : list HostRoute;
  l3_Force : bool
}.

Record RouteUpdateResponse := mkRouteResp { rr_Success : bool; rr_Message : string }.

#[export] Instance HostRoute_eq_dec : EqDecision HostRoute.
Proof. solve_decision. Defined.

Definition ConnectionRefusedError : string := "connection refused".
Definition ADD_ROUTE_PATH : string := "/addl3".
Definition DELETE_ROUTE_PATH : string := "/deletel3".

Definition GetDaemonAddressByPod (DAEMON_PORT : string) (daemon : DaemonPod) : string :=
  "http://" +:+ dp_HostIP daemon +:+ ":" +:+ DAEMON_PORT.

(** what a POST to a daemon gives: a transport error, a status other than 200, a
    body that cannot be read or parsed, or the response *)
Inductive http_answer :=
| PostError (e : string)
| BadStatus (status : string)
| BadBody (e : string)
| Body (r : RouteUpdateResponse).

Abbreviation HostInterfaceIndexMap := (gmap string (gmap Z HostInterfaceInfo)).

Section connector.
Context {W : Type} (post : W → string → L3ConfigRequest → W * http_answer) (DAEMON_PORT : string).

Definition putRouteRequest (w : W) (podAddress path cidrName subnet : string)
    (routes : list HostRoute) (forceDelete : bool)
    : W * (RouteUpdateResponse * option string) :=
  let address := podAddress +:+ path in
  let requestL3Config := mkL3 cidrName subnet routes forceDelete in
  let '(w', res) := post w address requestL3Config in
  (w', match res with
       | PostError e => (mkRouteResp false "", Some ("post fail: " +:+ e))
       | BadStatus status => (mkRouteResp false ConnectionRefusedError, Some status)
       | BadBody e => (mkRouteResp false "", Some e)
       | Body r => (r, None)
       end).

Definition ApplyL3Config (w : W) (podAddress cidrName subnet : string) (routes : list HostRoute)
    (forceDelete : bool) : W * (RouteUpdateResponse * option string) :=
  putRouteRequest w podAddress ADD_ROUTE_PATH cidrName subnet routes forceDelete.

Definition DeleteL3Config (w : W) (podAddress cidrName subnet : string)
    : W * (RouteUpdateResponse * option string) :=
  putRouteRequest w podAddress DELETE_ROUTE_PATH cidrName subnet [] false.

(** ** route_handler.go *)

(** the route of [hostName] to the pods of [host] over the interface with index
    [interfaceIndex]; a host without record in the map has the empty address *)
Definition host_route (cache : DaemonCache) (infoMap : HostInterfaceIndexMap)
    (hostName mainSrcHostIP : string) (interfaceIndex : Z) (host : HostInterfaceInfo)
    : option HostRoute :=
  let destHostName := h_HostName host in
  match Daemon_GetCache cache destHostName with
  | inr _ => None
  | inl destDaemon =>
      if bool_decide (dp_HostIP destDaemon = mainSrcHostIP) then None
      else
        match infoMap !! hostName ≫= (λ m, m !! interfaceIndex) with
        | None => None
        | Some ifaceInfo =>
            let via :=
              match infoMap !! destHostName ≫= (λ m, m !! interfaceIndex) with
              | Some dest => h_HostIP dest
              | None => ""
              end in
            Some (mkHostRoute (h_PodCIDR host) via (h_InterfaceName ifaceInfo))
        end
  end.

Definition host_routes (cache : DaemonCache) (infoMap : HostInterfaceIndexMap)
    (hostName mainSrcHostIP : string) (entries : list CIDREntry) : list HostRoute :=
  entries ≫= λ entry,
    omap (host_route cache infoMap hostName mainSrcHostIP (e_InterfaceIndex entry)) (e_Hosts entry).

(** change, and whether the connection failed *)
Definition AddRoutesToHost (w : W) (cache : DaemonCache) (cidrSpec : CIDRSpec) (hostName : string)
    (daemon : DaemonPod) (entries : list CIDREntry) (infoMap : HostInterfaceIndexMap)
    (forceDelete : bool) : W * (bool * bool) :=
  match Daemon_GetCache cache hostName with
  | inr _ => (w, (false, true))
  | inl _ =>
      let routes := host_routes cache infoMap hostName (dp_HostIP daemon) entries in
      let podAddress := GetDaemonAddressByPod DAEMON_PORT daemon in
      let '(w', (res, err)) :=
        ApplyL3Config w podAddress (pc_Name (c_Config cidrSpec)) (pc_Subnet (c_Config cidrSpec))
          routes forceDelete in
      let change :=
        match err with Some _ => false | None => if rr_Success res then true else false end in
      (w', (change, bool_decide (rr_Message res = ConnectionRefusedError)))
  end.

Fixpoint AddRoutes_loop (w : W) (cache : DaemonCache) (cidrSpec : CIDRSpec)
    (entries : list CIDREntry) (infoMap : HostInterfaceIndexMap) (forceDelete : bool)
    (daemons : list (string * DaemonPod)) (success noConnection : bool) : W * (bool * bool) :=
  match daemons with
  | [] => (w, (success, noConnection))
  | (hostName, daemon) :: rest =>
      match infoMap !! hostName with
      | None =>
          AddRoutes_loop w cache cidrSpec entries infoMap forceDelete rest success noConnection
      | Some _ =>
          let '(w', (change, connectFail)) :=
            AddRoutesToHost w cache cidrSpec hostName daemon entries infoMap forceDelete in
          let success := if negb change || connectFail then false else success in
          let noConnection := if connectFail then true else noConnection in
          AddRoutes_loop w' cache cidrSpec entries infoMap forceDelete rest success noConnection
      end
  end.

Definition AddRoutes {ord : MapRange} (w : W) (cache : DaemonCache) (cidrSpec : CIDRSpec)
    (entries : list CIDREntry) (infoMap : HostInterfaceIndexMap) (forceDelete : bool)
    : W * (bool * bool) :=
  AddRoutes_loop w cache cidrSpec entries infoMap forceDelete (range_map cache) true false.

Fixpoint DeleteRoutes_loop (w : W) (cidrSpec : CIDRSpec) (daemons : list (string * DaemonPod)) : W :=
  match daemons with
  | [] => w
  | (_, daemon) :: rest =>
      let podAddress := GetDaemonAddressByPod DAEMON_PORT daemon in
      let '(w', _) :=
        DeleteL3Config w podAddress (pc_Name (c_Config cidrSpec)) (pc_Subnet (c_Config cidrSpec)) in
      DeleteRoutes_loop w' cidrSpec rest
  end.

Definition DeleteRoutes {ord : MapRange} (w : W) (cache : DaemonCache) (cidrSpec : CIDRSpec) : W :=
  DeleteRoutes_loop w cidrSpec (range_map cache).
End connector.
