(* ===== verification/CidrHandler.v ===== *)
(** * controllers/cidr_handler.go: the operator's handling of CIDRs

    The state of the operator is the cluster [W] (IPPools, CIDRs, networks, and
    the daemons behind their HTTP interface) and the caches of its handlers.
    Here are the handlers that change it: computing and storing the plan of a
    network, the IPPools that follow from it, the synchronisation of allocations
    with the running pods, routes, and deletion. *)

From S2P Require Import Prelude GoLib Types K8s.
From S2P Require Compute.
From S2P Require Import IPPool Network Cidr Route.

(** [multinicv1.HostInterface]: labels and spec *)
Record HostInterface := mkHif { hf_Labels : gmap string string; hf_Spec : HostInterfaceSpec }.

#[export] Instance HostInterface_eq_dec : EqDecision HostInterface.
Proof. solve_decision. Defined.

Definition GetInfoAvailableSize (cache : SafeCache HostInterface) : Z :=
  Z.of_nat (size (filter (λ kv, hi_Interfaces (hf_Spec kv.2) ≠ []) cache)).

(** [vars.MaxQueueSize], the capacity of the request queue *)
Definition MaxQueueSize : Z := 100.

Record Operator (W : Type) := mkOp {
  o_w : W;
  o_ippools : SafeCache IPPoolSpec;
  o_cidrs : SafeCache CIDRSpec;
  o_hifs : SafeCache HostInterface;
  o_nets : NetHandler;
  o_daemons : DaemonCache;
  o_queue : Z;            (* tickets in UpdateRequestQueue *)
  o_closed : bool;        (* requestQueueClosed *)
  o_ready : bool          (* ConfigReady *)
}.
Arguments mkOp {W} _ _ _ _ _ _ _ _ _.
Arguments o_w {W} _.
Arguments o_ippools {W} _.
Arguments o_cidrs {W} _.
Arguments o_hifs {W} _.
Arguments o_nets {W} _.
Arguments o_daemons {W} _.
Arguments o_queue {W} _.
Arguments o_closed {W} _.
Arguments o_ready {W} _.

Definition set_w {W} (o : Operator W) (w : W) : Operator W :=
  mkOp w (o_ippools o) (o_cidrs o) (o_hifs o) (o_nets o) (o_daemons o) (o_queue o) (o_closed o) (o_ready o).
Definition set_cidrs {W} (o : Operator W) (c : SafeCache CIDRSpec) : Operator W :=
  mkOp (o_w o) (o_ippools o) c (o_hifs o) (o_nets o) (o_daemons o) (o_queue o) (o_closed o) (o_ready o).
Definition set_nets {W} (o : Operator W) (n : NetHandler) : Operator W :=
  mkOp (o_w o) (o_ippools o) (o_cidrs o) (o_hifs o) n (o_daemons o) (o_queue o) (o_closed o) (o_ready o).
Definition set_queue {W} (o : Operator W) (q : Z) : Operator W :=
  mkOp (o_w o) (o_ippools o) (o_cidrs o) (o_hifs o) (o_nets o) (o_daemons o) q (o_closed o) (o_ready o).

(** an operation: the state it leaves, and how it ends *)
Definition op (W A : Type) := Operator W → Operator W * run A.

Section handler.
Context {W : Type} {pools : Client W IPPool} {cidrs : Client W CIDRSpec}
  {nets : Client W MultiNicNetwork} {ord : MapRange}.
Context (post : W → string → L3ConfigRequest → W * http_answer) (DAEMON_PORT : string).

(** ** Get, list *)

Definition GetCIDR (w : W) (name : string) : CIDRSpec + kerr := cl_Get w name.

Definition ListCIDR (w : W) : gmap string CIDRSpec * option kerr :=
  match cl_List w with
  | inl cidrList => (list_map cidrList, None)
  | inr err => (∅, Some err)
  end.

Definition IsL3Mode (w : W) (def : PluginConfig) : bool :=
  match GetNetwork w (pc_Name def) with
  | inr _ => false
  | inl net =>
      if negb (ns_IsMultiNICIPAM (mn_Spec net)) then false
      else bool_decide (pc_VlanMode def = "l3") || bool_decide (pc_VlanMode def = "l3s")
  end.

(** ** Pools that no entry of the plan accounts for *)

Definition plan_pods (newCIDR : CIDRSpec) : gset string :=
  list_to_set (c_CIDRs newCIDR ≫= λ entry, h_PodCIDR <$> e_Hosts entry).

Fixpoint CleanPending_loop (w : W) (defName : string) (pods : gset string)
    (snapshot : list (string * IPPoolSpec)) : W :=
  match snapshot with
  | [] => w
  | (_, ippool) :: rest =>
      let w' :=
        if bool_decide (p_NetAttachDefName ippool = defName)
           && negb (bool_decide (p_PodCIDR ippool ∈ pods))
        then fst (DeleteIPPool w (p_NetAttachDefName ippool) (p_PodCIDR ippool))
        else w in
      CleanPending_loop w' defName pods rest
  end.

Definition CleanPendingIPPools (w : W) (snapshot : gmap string IPPoolSpec) (defName : string)
    (newCIDR : CIDRSpec) : W :=
  CleanPending_loop w defName (plan_pods newCIDR) (range_map snapshot).

(** ** Requests *)

Definition UpdateCIDRs : op W () := λ o,
  if o_closed o then (o, Fin ())
  else if o_queue o <? MaxQueueSize then (set_queue o (o_queue o + 1), Fin ())
  else (o, Stuck).

(** ** updateCIDR *)

(** creating or updating the CIDR object, then cleaning the pools; [None]: no
    error *)
Definition store_cidr (new : bool) (name : string) (spec : CIDRSpec) (o : Operator W)
    : Operator W * option kerr :=
  let ippoolSnapshot := ListCache (o_ippools o) in
  let stored (r : W * option kerr) : Operator W * option kerr :=
    let '(w, err) := r in
    let o := set_w o w in
    let o := match err with None => set_cidrs o (SetCache (o_cidrs o) name spec) | Some _ => o end in
    (set_w o (CleanPendingIPPools (o_w o) ippoolSnapshot name spec), err) in
  match GetCIDR (o_w o) name with
  | inl _ => stored (cl_Update (o_w o) name spec)
  | inr _ =>
      if new then stored (cl_Create (o_w o) name spec)
      else (o, Some (Failure "TryInitExistingConfig"))
  end.

(** the status of an L3 network after a change of its plan *)
Definition sync_l3_status (now : Z) (def : PluginConfig) (spec : CIDRSpec) : op W () := λ o,
  if IsL3Mode (o_w o) def then
    let daemonSize := GetSize (o_daemons o) in
    let infoAvailableSize := GetInfoAvailableSize (o_hifs o) in
    let '(w, nh, (netStatus, err)) :=
      SyncAllStatus now (o_w o) (o_nets o) (pc_Name def) spec ApplyingRoute
        daemonSize infoAvailableSize true in
    let o := set_nets (set_w o w) nh in
    match err with
    | Some _ => (o, Fin ())
    | None =>
        if bool_decide (ds_CIDRProcessedHost (st_DiscoverStatus netStatus)
                        = ds_InterfaceInfoAvailable (st_DiscoverStatus netStatus))
        then (o, Fin ())
        else UpdateCIDRs o
    end
  else (o, Fin ()).

Definition updateCIDR (fuel : nat) (now : Z) (getNode : string → node_answer) (cidrSpec : CIDRSpec)
    (new : bool) : op W (result bool) := λ o,
  if negb (o_ready o) then (o, Fin (Ok false))
  else
    let def := c_Config cidrSpec in
    let excludes := Compute.SortAddress (pc_ExcludeCIDRs def) in
    match UpdateEntries fuel (hf_Spec <$> ListCache (o_hifs o)) getNode cidrSpec excludes new with
    | Crash => (o, Crash)
    | OutOfFuel => (o, OutOfFuel)
    | Stuck => (o, Stuck)
    | Fin (entriesMap, changed) =>
        if (changed : bool) then
          let newEntries := snd <$> range_map entriesMap in
          let spec := mkCIDRSpec def newEntries in
          let '(o, err) := store_cidr new (pc_Name def) spec o in
          match err with
          | Some _ => (o, Fin (Err "cannot create or update CIDR"))
          | None =>
              let '(o, r) := sync_l3_status now def spec o in
              match r with
              | Fin _ =>
                  let '(w, r) := UpdateIPPools (o_w o) (pc_Name def) newEntries excludes in
                  (set_w o w, match r with Ret _ => Fin (Ok true) | Panic => Crash end)
              | Crash => (o, Crash)
              | OutOfFuel => (o, OutOfFuel)
              | Stuck => (o, Stuck)
              end
          end
        else (o, Fin (Ok false))
    end.

Definition NewCIDRWithNewConfig (fuel : nat) (now : Z) (getNode : string → node_answer)
    (def : PluginConfig) : op W (result bool) := λ o,
  match NewCIDR fuel (hf_Spec <$> ListCache (o_hifs o)) def with
  | Fin (Ok cidrSpec) => updateCIDR fuel now getNode cidrSpec true o
  | Fin (Err e) => (o, Fin (Err e))
  | Crash => (o, Crash)
  | OutOfFuel => (o, OutOfFuel)
  | Stuck => (o, Stuck)
  end.

(** [others i]: what the other goroutines of the operator do before the [i]-th
    update.  They run at any time, an update included; of what they change, the
    update itself reads the queue only in its own send, so requests they add
    during the update count as added before it. *)
Fixpoint update_all (fuel : nat) (now : Z) (getNode : string → node_answer)
    (others : nat → Operator W → Operator W) (i : nat)
    (snapshot : list (string * CIDRSpec)) : op W () := λ o,
  match snapshot with
  | [] => (o, Fin ())
  | (_, cidr) :: rest =>
      match updateCIDR fuel now getNode cidr false (others i o) with
      | (o, Fin _) => update_all fuel now getNode others (S i) rest o
      | (o, Crash) => (o, Crash)
      | (o, OutOfFuel) => (o, OutOfFuel)
      | (o, Stuck) => (o, Stuck)
      end
  end.

(** takes every ticket of the queue, then updates all cached CIDRs; waits when
    there is no ticket *)
Definition ProcessUpdateRequest (fuel : nat) (now : Z) (getNode : string → node_answer)
    (others : nat → Operator W → Operator W) : op W () := λ o,
  if o_queue o <=? 0 then (o, Stuck)
  else update_all fuel now getNode others 0 (range_map (o_cidrs o)) (set_queue o 0).

(** ** Routes *)

Definition SyncCIDRRoute (w : W) (daemons : DaemonCache) (cidrSpec : CIDRSpec) (forceDelete : bool)
    : W * string :=
  let def := c_Config cidrSpec in
  if IsL3Mode w def then
    let entries := c_CIDRs cidrSpec in
    let hostInterfaceInfoMap := GetHostInterfaceIndexMap entries in
    let '(w, (success, noConnection)) :=
      AddRoutes post DAEMON_PORT w daemons cidrSpec entries hostInterfaceInfoMap forceDelete in
    if (noConnection : bool) then (w, RouteUnknown)
    else if forceDelete && negb success then (w, SomeRouteFailed)
    else (w, AllRouteApplied)
  else (w, RouteNoApplied).

Definition DeleteOldRoutes (w : W) (daemons : DaemonCache) (cidrSpec : CIDRSpec) : W :=
  if IsL3Mode w (c_Config cidrSpec) then DeleteRoutes post DAEMON_PORT w daemons cidrSpec else w.

Definition deleteRoutesFromCIDR (w : W) (daemons : DaemonCache) (cidrInfo : CIDRSpec) : W :=
  if IsL3Mode w (c_Config cidrInfo) then DeleteRoutes post DAEMON_PORT w daemons cidrInfo else w.

(** ** Deletion *)

(** number of errors *)
Fixpoint delete_pools (w : W) (name : string) (podCIDRs : list string) (errors : nat) : W * nat :=
  match podCIDRs with
  | [] => (w, errors)
  | podCIDR :: rest =>
      let '(w', err) := DeleteIPPool w name podCIDR in
      delete_pools w' name rest (match err with None => errors | Some _ => S errors end)
  end.

Definition DeleteCIDR (w : W) (daemons : DaemonCache) (name : string) (cidr : CIDRSpec)
    : W * bool :=
  let w := deleteRoutesFromCIDR w daemons cidr in
  let '(w, errors) :=
    delete_pools w name (c_CIDRs cidr ≫= λ entry, h_PodCIDR <$> e_Hosts entry) 0 in
  let '(w, err) :=
    match GetCIDR w name with
    | inl _ => cl_Delete (O:=CIDRSpec) w name
    | inr err => (w, Some err)
    end in
  (w, (errors =? 0)%nat && bool_decide (err = None)).

(** ** Pools of the stored CIDRs at start-up *)

Definition pool_name (defName : string) (host : HostInterfaceInfo) : string :=
  if bool_decide (h_IPPool host = "") then GetIPPoolName defName (h_PodCIDR host) else h_IPPool host.

Fixpoint create_missing (w : W) (ippoolSnapshot : gmap string IPPoolSpec) (name vlanCIDR : string)
    (hosts : list HostInterfaceInfo) (excludes : list Compute.IPValue) : W * go () :=
  match hosts with
  | [] => (w, Ret ())
  | host :: rest =>
      match ippoolSnapshot !! pool_name name host with
      | Some _ => create_missing w ippoolSnapshot name vlanCIDR rest excludes
      | None =>
          match UpdateIPPool w name (h_PodCIDR host) vlanCIDR (h_HostName host)
                  (h_InterfaceName host) excludes with
          | (w', Panic) => (w', Panic)
          | (w', Ret _) => create_missing w' ippoolSnapshot name vlanCIDR rest excludes
          end
      end
  end.

Fixpoint create_entries (w : W) (ippoolSnapshot : gmap string IPPoolSpec) (name : string)
    (entries : list CIDREntry) (excludes : list Compute.IPValue) : W * go () :=
  match entries with
  | [] => (w, Ret ())
  | entry :: rest =>
      match create_missing w ippoolSnapshot name (e_VlanCIDR entry) (e_Hosts entry) excludes with
      | (w', Panic) => (w', Panic)
      | (w', Ret _) => create_entries w' ippoolSnapshot name rest excludes
      end
  end.

Definition createOrUpdateIPPool (o : Operator W) (ippoolSnapshot : gmap string IPPoolSpec)
    (name : string) (cidr : CIDRSpec) : Operator W * go () :=
  let o := set_cidrs o (SetCache (o_cidrs o) name cidr) in
  let excludes := Compute.SortAddress (pc_ExcludeCIDRs (c_Config cidr)) in
  let '(w, r) := create_entries (o_w o) ippoolSnapshot name (c_CIDRs cidr) excludes in
  (set_w o w, r).
End handler.
