(* ===== verification/Sync.v ===== *)
(** * controllers/cidr_handler.go: allocations and running pods

    At start-up the operator compares the allocations recorded in the IPPools
    with the addresses that the running pods report in their network status, and
    rewrites the pools accordingly. *)

From S2P Require Import Prelude GoLib Types K8s.
From S2P Require Compute.
From S2P Require Import ComputeSpec IPPool Network Cidr Route CidrHandler.

(** [plugin.NetworkStatus]: the fields used here *)
Record NetworkStatus := mkNetworkStatus { nst_Name : string; nst_IPs : list string }.

(** a pod with its network-status annotation, if any *)
Record Pod := mkPod {
  pod_Name : string;
  pod_Namespace : string;
  pod_Status : option string
}.

(** network name -> address -> allocation *)
Definition AllocationMap := gmap string (gmap string Allocation).

(** ** getCurrentAllocationMap *)

(** the last component of a possibly namespaced name *)
Definition status_def_name (name : string) : string :=
  default "" (last (Strings.Split name "/"%char)).

Definition add_status (pod : Pod) (defs : gset string) (m : AllocationMap) (status : NetworkStatus)
    : AllocationMap :=
  let defName := status_def_name (nst_Name status) in
  if bool_decide (defName ∈ defs) then
    let ips := default ∅ (m !! defName) in
    <[defName :=
        foldl (λ ips ip, <[ip := mkAllocation (pod_Name pod) (pod_Namespace pod) 0 ip]> ips)
          ips (nst_IPs status)]> m
  else m.

(** [unmarshal]: the statuses of an annotation, [None] when it is not valid JSON *)
Definition add_pod (unmarshal : string → option (list NetworkStatus)) (defs : gset string)
    (m : AllocationMap) (pod : Pod) : AllocationMap :=
  match pod_Status pod ≫= unmarshal with
  | None => m
  | Some networksStatus => foldl (add_status pod defs) m networksStatus
  end.

Definition getCurrentAllocationMap (unmarshal : string → option (list NetworkStatus))
    (pods : list Pod + kerr) (defs : gset string) : AllocationMap * option kerr :=
  match pods with
  | inl items => (foldl (add_pod unmarshal defs) ∅ items, None)
  | inr err => (∅, Some err)
  end.

(** ** GetSyncAllocations *)

(** the recorded allocation of the address, if it is the same pod's *)
Definition recorded (crAllocationMap : AllocationMap) (defName syncIP : string) (a : Allocation)
    : option Allocation :=
  match crAllocationMap !! defName ≫= (λ m, m !! syncIP) with
  | Some cr =>
      if bool_decide (a_Pod cr = a_Pod a) && bool_decide (a_Namespace cr = a_Namespace a)
      then Some cr else None
  | None => None
  end.

Definition drop_ip (m : AllocationMap) (defName syncIP : string) : AllocationMap :=
  alter (delete syncIP) defName m.

Record sync_state := mkSync {
  sy_alloc : AllocationMap;
  sy_cr : AllocationMap;
  sy_new : list Allocation;
  sy_changed : bool
}.

(** one address of the loop *)
Definition sync_step (podCIDR defName : string) (s : sync_state) (syncIP : string) (a : Allocation)
    : go sync_state :=
  r ← Compute.GetIndexInRange podCIDR (a_Address a);
  let '(contains, index) := r in
  if negb contains then Ret s
  else
    match recorded (sy_cr s) defName syncIP a with
    | Some cr =>
        Ret (mkSync (drop_ip (sy_alloc s) defName syncIP) (drop_ip (sy_cr s) defName syncIP)
               (sy_new s ++ [cr]) (sy_changed s))
    | None =>
        Ret (mkSync (drop_ip (sy_alloc s) defName syncIP) (sy_cr s)
               (sy_new s ++ [set_Index a index]) true)
    end.

Fixpoint sync_loop (podCIDR defName : string) (s : sync_state) (items : list (string * Allocation))
    : go sync_state :=
  match items with
  | [] => Ret s
  | (syncIP, a) :: rest =>
      s ← sync_step podCIDR defName s syncIP a;
      sync_loop podCIDR defName s rest
  end.

Section sync.
Context {ord : MapRange}.

(** changed, the new allocations, and the maps after the deletions *)
Definition GetSyncAllocations (ippool : IPPoolSpec) (allocationMap crAllocationMap : AllocationMap)
    : go (bool * list Allocation * AllocationMap * AllocationMap) :=
  let defName := p_NetAttachDefName ippool in
  let items :=
    match allocationMap !! defName with Some m => range_map m | None => [] end in
  s ← sync_loop (p_PodCIDR ippool) defName (mkSync allocationMap crAllocationMap [] false) items;
  let changed :=
    if (length (p_Allocations ippool) =? length (sy_new s))%nat then sy_changed s else true in
  Ret (changed, sy_new s, sy_alloc s, sy_cr s).

(** ** SyncIPPoolWithActivePods *)

(** the allocations recorded in the pools of the plans *)
Definition cr_allocations (snapshot : gmap string IPPoolSpec) (defName : string) (cidr : CIDRSpec)
    : gmap string Allocation :=
  foldl (λ m a, <[a_Address a := a]> m) ∅
    (c_CIDRs cidr ≫= λ entry, e_Hosts entry ≫= λ host,
       match snapshot !! pool_name defName host with
       | Some ippool => p_Allocations ippool
       | None => []
       end).

Section world.
Context {W : Type} {pools : Client W IPPool}.

Fixpoint delete_orphans (w : W) (defs : gset string) (snapshot : list (string * IPPoolSpec)) : W :=
  match snapshot with
  | [] => w
  | (_, ippool) :: rest =>
      let w' :=
        if bool_decide (p_NetAttachDefName ippool ∈ defs) then w
        else fst (DeleteIPPool w (p_NetAttachDefName ippool) (p_PodCIDR ippool)) in
      delete_orphans w' defs rest
  end.

Fixpoint patch_pools (w : W) (allocationMap crAllocationMap : AllocationMap)
    (snapshot : list (string * IPPoolSpec)) (outputs : gmap string (list Allocation))
    : W * go (gmap string (list Allocation)) :=
  match snapshot with
  | [] => (w, Ret outputs)
  | (ippoolName, ippool) :: rest =>
      match GetSyncAllocations ippool allocationMap crAllocationMap with
      | Panic => (w, Panic)
      | Ret (changed, newAllocations, allocationMap, crAllocationMap) =>
          let w' :=
            if (changed : bool) then fst (PatchIPPoolAllocations w ippoolName newAllocations)
            else w in
          patch_pools w' allocationMap crAllocationMap rest
            (<[ippoolName := newAllocations]> outputs)
      end
  end.

Definition SyncIPPoolWithActivePods (unmarshal : string → option (list NetworkStatus))
    (pods : list Pod + kerr) (w : W) (cidrMap : gmap string CIDRSpec)
    (ippoolSnapshot : gmap string IPPoolSpec) : W * go (gmap string (list Allocation)) :=
  let defs := dom cidrMap in
  let w := delete_orphans w defs (range_map ippoolSnapshot) in
  let crAllocationMap : AllocationMap := map_imap (λ d c, Some (cr_allocations ippoolSnapshot d c)) cidrMap in
  match getCurrentAllocationMap unmarshal pods defs with
  | (_, Some _) => (w, Ret ∅)
  | (allocationMap, None) =>
      patch_pools w allocationMap crAllocationMap (range_map ippoolSnapshot) ∅
  end.
End world.
End sync.

(** ** Lemmas *)

Lemma GetIndex_loop_total pods : ∀ cidrs index acc,
  length pods = length cidrs → ∃ r, Compute.GetIndex_loop index pods cidrs acc = Ret r.
Proof.
  induction pods as [|x pods IH]; intros [|y cidrs] index acc Hlen; try done; [by eauto|].
  simpl in *. injection Hlen as Hlen. case_bool_decide; by apply IH.
Qed.

Lemma split_slash_32 s a m :
  Strings.Split (s +:+ "/32") "/"%char = [a; m] → a = s.
Proof.
  rewrite split_app_sep. change (Strings.Split "32" "/"%char) with ["32"].
  intros H. destruct (Strings.Split s "/"%char) as [|x [|y l]] eqn:E; simplify_eq/=.
  - apply (split_inj _ _ "/"%char). rewrite E. apply split_no_char. by eapply split_head_no_char.
  - by destruct l.
Qed.

(** the range test never panics on a well-formed pod CIDR, whatever the address *)
Lemma GetIndexInRange_total pod ip p addr :
  cidr_text pod ip p → ∃ b i, Compute.GetIndexInRange pod addr = Ret (b, i).
Proof.
  intros Hpod. destruct (cidr_text_ok _ _ _ Hpod) as [Hip _].
  unfold Compute.GetIndexInRange. rewrite (ParseCIDR_text _ _ _ Hpod).
  destruct (Net.ParseCIDR (addr +:+ "/32")) as [[x n]|] eqn:E; simpl; [|eauto].
  destruct (negb _); [by eauto|].
  destruct (ParseCIDR_inv _ _ _ E) as (q & (a & m & Hs & Ha & _) & _).
  apply split_slash_32 in Hs as ->. unfold Net.ParseIP in Ha.
  destruct (Strings.Split addr "."%char) as [|x1 [|x2 [|x3 [|x4 [|? ?]]]]] eqn:Es; try done.
  rewrite (proj1 (ip_string_split ip Hip)).
  destruct (GetIndex_loop_total [x1; x2; x3; x4] (Strconv.Itoa <$> ip) 0 0) as [r ->]; [|by eauto].
  rewrite length_fmap. by destruct Hip as [-> _].
Qed.

Definition in_range (podCIDR : string) (kv : string * Allocation) : bool :=
  match Compute.GetIndexInRange podCIDR (a_Address kv.2) with Ret (b, _) => b | Panic => false end.

Definition range_index (podCIDR : string) (a : Allocation) : Z :=
  match Compute.GetIndexInRange podCIDR (a_Address a) with Ret (_, i) => i | Panic => -1 end.

(** what the pool records for an address of a running pod *)
Definition resolve (podCIDR defName : string) (cr : AllocationMap) (kv : string * Allocation)
    : Allocation :=
  match recorded cr defName kv.1 kv.2 with
  | Some c => c
  | None => set_Index kv.2 (range_index podCIDR kv.2)
  end.

Lemma drop_ip_lookup m d ip : drop_ip m d ip !! d = delete ip <$> m !! d.
Proof. apply lookup_alter_eq. Qed.

Lemma recorded_drop_other cr d ip ip' a :
  ip ≠ ip' → recorded (drop_ip cr d ip) d ip' a = recorded cr d ip' a.
Proof.
  intros Hne. unfold recorded. rewrite drop_ip_lookup. destruct (cr !! d) as [m|]; [|done]. simpl.
  by rewrite lookup_delete_ne.
Qed.

Section loop.
Context (pod : string) (ip : list Z) (p : Z) (d : string) (Hpod : cidr_text pod ip p).

Lemma sync_step_spec s k a :
  sync_step pod d s k a =
  Ret (if in_range pod (k, a)
       then mkSync (drop_ip (sy_alloc s) d k)
              (if bool_decide (is_Some (recorded (sy_cr s) d k a)) then drop_ip (sy_cr s) d k else sy_cr s)
              (sy_new s ++ [resolve pod d (sy_cr s) (k, a)])
              (if bool_decide (is_Some (recorded (sy_cr s) d k a)) then sy_changed s else true)
       else s).
Proof.
  unfold sync_step, in_range, resolve, range_index.
  destruct (GetIndexInRange_total pod ip p (a_Address a) Hpod) as (b & i & Hg).
  simpl. rewrite Hg. cbn [mbind go_bind]. destruct b; [|done]. cbn [negb].
  by destruct (recorded (sy_cr s) d k a).
Qed.

Lemma resolve_ext cr cr' (items : list (string * Allocation)) :
  (∀ k a, (k, a) ∈ items → recorded cr d k a = recorded cr' d k a) →
  resolve pod d cr <$> items = resolve pod d cr' <$> items.
Proof.
  intros H. apply list_fmap_ext. intros i [k a] Hin. unfold resolve. simpl.
  rewrite H; [done|]. by eapply list_elem_of_lookup_2.
Qed.

Lemma sync_loop_spec items : ∀ s,
  NoDup items.*1 →
  ∃ s', sync_loop pod d s items = Ret s' ∧
    sy_new s' = sy_new s ++ (resolve pod d (sy_cr s) <$> filter (λ kv, in_range pod kv = true) items) ∧
    (∀ d', d' ≠ d → sy_alloc s' !! d' = sy_alloc s !! d') ∧
    (∀ m, sy_alloc s !! d = Some m →
       ∃ m', sy_alloc s' !! d = Some m' ∧
         ∀ k, m' !! k = if bool_decide (k ∈ (filter (λ kv, in_range pod kv = true) items).*1)
                        then None else m !! k) ∧
    (sy_changed s' = false →
       sy_changed s = false ∧
       ∀ k a, (k, a) ∈ items → in_range pod (k, a) = true → is_Some (recorded (sy_cr s) d k a)).
Proof.
  induction items as [|[k a] items IH]; intros s Hnd.
  { exists s. split_and!; [done|by rewrite app_nil_r|done|eauto|].
    intros Hc. split; [done|]. by intros k a Hin%elem_of_nil. }
  apply NoDup_cons in Hnd as [Hk Hnd]. simpl. rewrite sync_step_spec. cbn [mbind go_bind].
  rewrite filter_cons. destruct (in_range pod (k, a)) eqn:Hr.
  - rewrite decide_True by done.
    match goal with |- context [sync_loop _ _ ?s1 _] => destruct (IH s1 Hnd)
      as (s' & -> & Hnew & Hoth & Halloc & Hch) end. simpl in *.
    assert (∀ k' a', (k', a') ∈ items → recorded
      (if bool_decide (is_Some (recorded (sy_cr s) d k a)) then drop_ip (sy_cr s) d k else sy_cr s) d k' a'
      = recorded (sy_cr s) d k' a') as Hrec.
    { intros k' a' Hin. case_bool_decide; [|done]. apply recorded_drop_other.
      intros ->. apply Hk. by apply (list_elem_of_fmap_2 fst _ (k', a')). }
    exists s'. split_and!; [done|..].
    + rewrite Hnew, <- app_assoc. simpl. do 2 f_equal. apply resolve_ext.
      intros k' a' [_ Hin]%list_elem_of_filter. by apply Hrec.
    + intros d' Hd. rewrite Hoth by done. by apply lookup_alter_ne.
    + intros m Hm. destruct (Halloc (delete k m)) as (m' & Hm' & Hlk).
      { rewrite drop_ip_lookup, Hm. done. }
      exists m'. split; [done|]. intros k'. rewrite Hlk. simpl. destruct (decide (k' = k)) as [->|Hne].
      * rewrite lookup_delete_eq. rewrite (bool_decide_eq_true_2 (k ∈ k :: _)); [|by left].
        match goal with |- (if ?b then _ else _) = _ => by destruct b end.
      * rewrite lookup_delete_ne by done. erewrite bool_decide_ext; [reflexivity|].
        rewrite elem_of_cons. split; [intros ?; by right|by intros [?|?]].
    + intros Hc. destruct (Hch Hc) as [Hc1 Hall].
      destruct (decide (is_Some (recorded (sy_cr s) d k a))) as [Er|Er];
        [|by rewrite bool_decide_eq_false_2 in Hc1].
      rewrite bool_decide_eq_true_2 in Hc1 by done.
      split; [done|]. intros k' a' [[= -> ->]|Hin]%elem_of_cons Hr'; [done|].
      rewrite <- (Hrec _ _ Hin). by apply Hall.
  - rewrite decide_False by congruence. destruct (IH s Hnd) as (s' & -> & Hnew & Hoth & Halloc & Hch).
    exists s'. split_and!; [done|done|done|done|]. intros Hc. destruct (Hch Hc) as [? Hall].
    split; [done|]. intros k' a' [[= -> ->]|Hin]%elem_of_cons Hr'; [congruence|by apply Hall].
Qed.
End loop.

(** ** Properties *)

Section props.
Context {ord : MapRange}.

(** the records found for the addresses [items] are allocations of the pool, each
    under its address *)
Definition own_records (ippool : IPPoolSpec) (cr : AllocationMap)
    (items : list (string * Allocation)) : Prop :=
  ∀ k a c, (k, a) ∈ items → recorded cr (p_NetAttachDefName ippool) k a = Some c →
    c ∈ p_Allocations ippool ∧ a_Address c = k.

Lemma own_records_perm ippool cr pod items :
  own_records ippool cr items → NoDup items.*1 →
  (∀ k a, (k, a) ∈ items → is_Some (recorded cr (p_NetAttachDefName ippool) k a)) →
  length (p_Allocations ippool) = length items →
  resolve pod (p_NetAttachDefName ippool) cr <$> items ≡ₚ p_Allocations ippool.
Proof.
  intros Hown Hnd Hall Hlen. set (d := p_NetAttachDefName ippool) in *.
  assert (∀ kv, kv ∈ items → resolve pod d cr kv ∈ p_Allocations ippool ∧
            a_Address (resolve pod d cr kv) = kv.1) as Hres.
  { intros [k a] Hin. destruct (Hall k a Hin) as [c Hc]. unfold resolve. simpl. fold d in Hc.
    rewrite Hc. by eapply Hown. }
  apply submseteq_length_Permutation; [|rewrite length_fmap; lia].
  apply NoDup_submseteq.
  - apply (NoDup_fmap_1 a_Address). rewrite <- list_fmap_compose.
    erewrite (list_fmap_ext _ fst); [done|]. intros i kv Hi. simpl.
    by apply Hres, (list_elem_of_lookup_2 _ i).
  - intros x (kv & -> & Hin)%list_elem_of_fmap. by apply Hres.
Qed.

(** C20: synchronising a pool on a well-formed pod CIDR never panics; the pool
    gets exactly one allocation per address of the network's running pods that
    lies in its pod CIDR: the recorded one when it is the same pod's, otherwise a
    new one with the address's index; exactly these addresses are taken off the
    map of the network, so no other pool gets them, and other networks are
    untouched. "Unchanged" is answered only when every such address was already
    recorded and the pool has as many allocations as these; when the records
    found for them are allocations of this pool (pools do not overlap), the pool's
    allocations are then exactly the new ones, so there is none to drop. *)
Theorem GetSyncAllocations_exact ippool ip p am cr m :
  cidr_text (p_PodCIDR ippool) ip p → am !! p_NetAttachDefName ippool = Some m →
  let pod := p_PodCIDR ippool in
  let d := p_NetAttachDefName ippool in
  ∃ changed news am' cr' m', GetSyncAllocations ippool am cr = Ret (changed, news, am', cr') ∧
    news ≡ₚ resolve pod d cr <$> filter (λ kv, in_range pod kv = true) (map_to_list m) ∧
    am' !! d = Some m' ∧
    (∀ k a, m' !! k = Some a ↔ m !! k = Some a ∧ in_range pod (k, a) = false) ∧
    (∀ d', d' ≠ d → am' !! d' = am !! d') ∧
    (changed = false → length news = length (p_Allocations ippool) ∧
       ∀ k a, m !! k = Some a → in_range pod (k, a) = true → is_Some (recorded cr d k a)) ∧
    (changed = false →
       own_records ippool cr (filter (λ kv, in_range pod kv = true) (map_to_list m)) →
       news ≡ₚ p_Allocations ippool).
Proof.
  intros Hpod Hm pod d. unfold GetSyncAllocations. rewrite Hm. fold d pod.
  destruct (sync_loop_spec pod ip p d Hpod (range_map m) (mkSync am cr [] false)
              (range_map_keys_nodup m)) as (s & -> & Hnew & Hoth & Halloc & Hch).
  destruct (Halloc m Hm) as (m' & Hm' & Hlk). cbn [mbind go_bind sy_new sy_cr sy_alloc sy_changed] in *.
  assert (sy_new s ≡ₚ resolve pod d cr <$> filter (λ kv, in_range pod kv = true) (map_to_list m))
    as Hperm by (rewrite Hnew; simpl; by rewrite range_map_perm).
  eexists _, (sy_new s), (sy_alloc s), (sy_cr s), m'. split; [done|]. split_and!.
  - done.
  - done.
  - intros k a. rewrite Hlk. case_bool_decide as Hin.
    + split; [done|]. intros [Hk Hr]. apply list_elem_of_fmap in Hin as ([k' a'] & -> & Hin).
      apply list_elem_of_filter in Hin as [Hr' Hin%elem_of_range_map]. simpl in *. congruence.
    + split; [|by intros [? _]]. intros Hk. split; [done|]. apply not_true_is_false. intros Hr.
      apply Hin, list_elem_of_fmap. exists (k, a). split; [done|]. apply list_elem_of_filter.
      split; [done|]. by apply elem_of_range_map.
  - done.
  - destruct (Nat.eqb_spec (length (p_Allocations ippool)) (length (sy_new s))) as [Hl|]; [|done].
    intros Hc. split; [done|]. intros k a Hk Hr. apply Hch; [done| |done].
    by apply elem_of_range_map.
  - destruct (Nat.eqb_spec (length (p_Allocations ippool)) (length (sy_new s))) as [Hl|]; [|done].
    intros Hc Hown. rewrite Hperm. apply own_records_perm; [done|..].
    + eapply sublist_NoDup; [apply (NoDup_fst_map_to_list m)|]. apply fmap_sublist, sublist_filter.
    + intros k a [Hr Hin%elem_of_map_to_list]%list_elem_of_filter. apply Hch; [done| |done].
      by apply elem_of_range_map.
    + rewrite Hl, Hperm. by rewrite length_fmap.
Qed.
End props.

Definition ex_sync_pool : IPPoolSpec :=
  mkIPPoolSpec "192.168.0.0/24" "192.168.0.0/18" "net" "h" "eth1" []
    [mkAllocation "a" "ns" 1 "192.168.0.1"].

Definition ex_running : gmap string Allocation :=
  {["192.168.0.1" := mkAllocation "a" "ns" 0 "192.168.0.1";
    "192.168.0.7" := mkAllocation "b" "ns" 0 "192.168.0.7";
    "192.168.1.7" := mkAllocation "b" "ns" 0 "192.168.1.7"]}.

Lemma GetSyncAllocations_exact_witness :
  let pod := "192.168.0.0/24" in
  let cr : AllocationMap := {["net" := {["192.168.0.1" := mkAllocation "a" "ns" 1 "192.168.0.1"]}]} in
  let am : AllocationMap := {["net" := ex_running]} in
  ∃ changed news am' cr' m',
    @GetSyncAllocations map_to_list_range ex_sync_pool am cr = Ret (changed, news, am', cr') ∧
    news ≡ₚ resolve pod "net" cr <$> filter (λ kv, in_range pod kv = true) (map_to_list ex_running) ∧
    am' !! "net" = Some m' ∧
    (∀ k a, m' !! k = Some a ↔ ex_running !! k = Some a ∧ in_range pod (k, a) = false) ∧
    (∀ d', d' ≠ "net" → am' !! d' = am !! d') ∧
    (changed = false → length news = length (p_Allocations ex_sync_pool) ∧
       ∀ k a, ex_running !! k = Some a → in_range pod (k, a) = true →
         is_Some (recorded cr "net" k a)) ∧
    (changed = false →
       own_records ex_sync_pool cr (filter (λ kv, in_range pod kv = true) (map_to_list ex_running)) →
       news ≡ₚ p_Allocations ex_sync_pool).
Proof.
  apply (@GetSyncAllocations_exact map_to_list_range ex_sync_pool [192; 168; 0; 0] 24
           {["net" := ex_running]}
           {["net" := {["192.168.0.1" := mkAllocation "a" "ns" 1 "192.168.0.1"]}]} ex_running).
  - exists "192.168.0.0", "24". by vm_compute.
  - vm_compute. reflexivity.
Defined.

Example GetSyncAllocations_ex :
  match @GetSyncAllocations map_to_list_range ex_sync_pool {["net" := ex_running]}
          {["net" := {["192.168.0.1" := mkAllocation "a" "ns" 1 "192.168.0.1"]}]} with
  | Ret (changed, news, am', _) => (changed, news, map_to_list (default ∅ (am' !! "net")))
  | Panic => (false, [], [])
  end = (true, [mkAllocation "b" "ns" 7 "192.168.0.7"; mkAllocation "a" "ns" 1 "192.168.0.1"],
         [("192.168.1.7", mkAllocation "b" "ns" 0 "192.168.1.7")]).
Proof. vm_compute. reflexivity. Qed.

(** the address of another pool's record: the numbers agree, and the pool keeps
    the allocation that no running pod has *)
Example GetSyncAllocations_foreign_record :
  match @GetSyncAllocations map_to_list_range
          (set_Allocations ex_sync_pool [mkAllocation "z" "ns" 9 "192.168.0.9"])
          {["net" := {["192.168.0.1" := mkAllocation "a" "ns" 0 "192.168.0.1"]}]}
          {["net" := {["192.168.0.1" := mkAllocation "a" "ns" 1 "192.168.0.1"]}]} with
  | Ret (changed, news, _, _) => (changed, news)
  | Panic => (true, [])
  end = (false, [mkAllocation "a" "ns" 1 "192.168.0.1"]).
Proof. vm_compute. reflexivity. Qed.
