(* ===== verification/OperatorProps.v ===== *)
(** * Properties of the operator's handlers

    The operator as a transition system on its caches: whatever HostInterfaces,
    daemons and pools come and go, every plan it caches stays well formed.  And
    what its handlers do to the cluster: pools they delete, routes they send,
    the route status they report. *)

From S2P Require Import Prelude GoLib Types K8s.
From S2P Require Import Compute ComputeSpec IPPool Network Cidr CidrSpec Route CidrHandler.
From S2P Require CidrProps IPPoolProps.

(** ** Plans in the cache *)

Definition plan_ok (spec : CIDRSpec) : Prop :=
  ∃ ip p, def_ok (c_Config spec) ip p ∧ cidrs_ok (c_Config spec) ip p (c_CIDRs spec).

(** the same for any configuration: nothing is asked of the entries of a network
    whose configuration is not [def_ok], such as one without a subnet *)
Definition plan_sound (spec : CIDRSpec) : Prop :=
  ∀ ip p, def_ok (c_Config spec) ip p → cidrs_ok (c_Config spec) ip p (c_CIDRs spec).

Definition plans_sound {W} (o : Operator W) : Prop :=
  ∀ name spec, o_cidrs o !! name = Some spec → plan_sound spec.

(** enough fuel for a configuration whose blocks fit *)
Definition fuel_for (def : PluginConfig) (fuel : nat) : Prop :=
  ∀ ip p, def_ok def ip p → fuel_ok def fuel.

Lemma plan_ok_sound spec ip p : plan_sound spec → def_ok (c_Config spec) ip p → plan_ok spec.
Proof. intros Hs Hdef. exists ip, p. split; [done|by apply Hs]. Qed.

Lemma entries_ok_cidrs {ord : MapRange} def ip p m :
  entries_ok def ip p m → cidrs_ok def ip p (snd <$> range_map m).
Proof.
  intros Hm. split.
  - apply Forall_fmap, Forall_forall. intros [k e] Hin%elem_of_range_map. by eapply Hm.
  - rewrite <- list_fmap_compose. by apply (entries_taken def ip p m Hm).
Qed.

Lemma NewCIDR_vlan_sound def ip p f : ∀ m0 v i,
  def_ok def ip p → 0 ≤ m0 →
  NewCIDR_vlan f def (2 ^ pc_InterfaceBlock def - 1) m0 = Fin (Ok (v, i)) →
  m0 ≤ i < 2 ^ pc_InterfaceBlock def ∧
  ∃ vip, vlan_at def ip p i vip ∧ v = cidr_str vip (p + pc_InterfaceBlock def).
Proof.
  induction f as [|f IH]; intros m0 v i Hdef Hm H; [done|].
  destruct (Z.lt_ge_cases m0 (2 ^ pc_InterfaceBlock def)) as [Hlt|Hge].
  2: { by rewrite (NewCIDR_vlan_diverges def ip p Hdef) in H by lia. }
  destruct (vlan_compute def ip p Hdef m0 ltac:(lia)) as (vip & t & Hc & Hv & Hg & Htb).
  simpl in H. rewrite Hc, Htb in H. cbn [mbind run_bind lift] in H. destruct t.
  - destruct (_ <? _); [done|]. apply IH in H as [? ?]; [|done|lia]. split; [lia|done].
  - rewrite Hg in H. injection H as <- <-. split; [lia|]. by exists vip.
Qed.

Lemma NewCIDR_entries_sound def ip p f masters : ∀ m0 entries,
  def_ok def ip p → 0 ≤ m0 →
  NewCIDR_entries f def (2 ^ pc_InterfaceBlock def - 1) m0 masters = Fin (Ok entries) →
  Forall (entry_ok def ip p) entries ∧ NoDup (e_InterfaceIndex <$> entries) ∧
  Forall (λ e, m0 ≤ e_InterfaceIndex e) entries.
Proof.
  induction masters as [|m masters IH]; intros m0 entries Hdef Hm H; simpl in H.
  { injection H as <-. repeat constructor. }
  destruct (NewCIDR_vlan f def _ m0) as [[[v i]|]| | |] eqn:Ev; simplify_eq/=.
  destruct (NewCIDR_entries f def _ (i + 1) masters) as [[l|]| | |] eqn:El; simplify_eq/=.
  apply (NewCIDR_vlan_sound def ip p) in Ev as [Hi (vip & Hv & ->)]; [|done..].
  apply IH in El as (Hok & Hnd & Hge); [|done|lia]. split_and!.
  - constructor; [|done]. split; [simpl; lia|]. exists vip. split; [done|]. split; [done|].
    repeat constructor.
  - simpl. apply NoDup_cons. split; [|done]. intros (e & Heq & Hin)%list_elem_of_fmap.
    rewrite Forall_forall in Hge. specialize (Hge e Hin). lia.
  - constructor; [simpl; lia|]. eapply Forall_impl; [exact Hge|]. simpl. lia.
Qed.

Lemma NewCIDR_config {ord : MapRange} def f snapshot spec :
  NewCIDR f snapshot def = Fin (Ok spec) → c_Config spec = def.
Proof.
  unfold NewCIDR, GenerateCIDRFromHostSubnet. case_bool_decide.
  - destruct (GenerateCIDR_hosts _ _ _ _ _ _) as [[m|]| | |]; by intros; simplify_eq/=.
  - destruct (NewCIDR_entries _ _ _ _ _) as [[l|]| | |]; by intros; simplify_eq/=.
Qed.

Lemma NewCIDR_sound {ord : MapRange} def f snapshot spec :
  NewCIDR f snapshot def = Fin (Ok spec) → plan_sound spec.
Proof.
  intros H ip p. rewrite (NewCIDR_config _ _ _ _ H). intros Hdef. revert H. unfold NewCIDR.
  rewrite bool_decide_eq_false_2.
  2: { destruct Hdef as ((a & x & Hs & _) & _). intros Heq. by rewrite Heq in Hs. }
  rewrite pow2_minus_1.
  2: { destruct Hdef as (Ht & _ & ? & ? & ? & _). apply cidr_text_ok in Ht as [_ ?]. lia. }
  destruct (NewCIDR_entries f def _ 0 _) as [[l|]| | |] eqn:El; intros H; simplify_eq/=.
  by apply (NewCIDR_entries_sound def ip p) in El as (? & ? & _); [|done|lia].
Qed.

(** the pod networks of different hosts or interfaces of a well-formed plan *)
Lemma plan_pods_disjoint spec sub ps e e' h h' :
  def_ok (c_Config spec) sub ps → cidrs_ok (c_Config spec) sub ps (c_CIDRs spec) →
  e ∈ c_CIDRs spec → e' ∈ c_CIDRs spec → h ∈ e_Hosts e → h' ∈ e_Hosts e' →
  (e_InterfaceIndex e, h_HostName h) ≠ (e_InterfaceIndex e', h_HostName h') →
  ∃ a a' q, cidr_text (pc_Subnet (c_Config spec)) sub ps ∧
    h_PodCIDR h = cidr_str a q ∧ h_PodCIDR h' = cidr_str a' q ∧ ip_ok a ∧ ip_ok a' ∧
    0 ≤ q ≤ 32 ∧ nets_disjoint (be a) q (be a') q ∧ subnet_of (be a) q (be sub) ps.
Proof.
  intros Hdef [Hall Hnd] He He' Hh Hh' Hne.
  rewrite Forall_forall in Hall.
  destruct (entry_pods_disjoint _ sub ps Hdef e e' h h') as (a & a' & ? & ? & ? & ? & ? & ?);
    [auto..| |].
  - destruct (Z.eq_dec (e_InterfaceIndex e) (e_InterfaceIndex e')) as [Heq|]; [left|by right].
    assert (e = e') as <- by (by eapply (NoDup_fmap_inj e_InterfaceIndex)).
    split; [done|]. intros Hn'. apply Hne. by rewrite Hn'.
  - destruct Hdef as (Ht & _ & ? & ? & ? & _). apply cidr_text_ok in Ht as Hp.
    eexists a, a', _. split_and!; try done; lia.
Qed.

Section operator.
Context {W : Type} {pools : Client W IPPool} {cidrs : Client W CIDRSpec}
  {nets : Client W MultiNicNetwork} {ord : MapRange}.

Lemma store_cidr_cache new name spec (o : Operator W) :
  o_cidrs (fst (store_cidr new name spec o)) = o_cidrs o ∨
  o_cidrs (fst (store_cidr new name spec o)) = <[name := spec]> (o_cidrs o).
Proof.
  unfold store_cidr. destruct (GetCIDR _ _).
  - destruct (cl_Update _ _ _) as [w [e|]]; simpl; auto.
  - destruct new; [|by left]. destruct (cl_Create _ _ _) as [w [e|]]; simpl; auto.
Qed.

Lemma sync_l3_status_cache now def spec (o : Operator W) :
  o_cidrs (fst (sync_l3_status now def spec o)) = o_cidrs o.
Proof.
  unfold sync_l3_status, UpdateCIDRs. destruct (IsL3Mode _ _); [|done].
  destruct (SyncAllStatus _ _ _ _ _ _ _ _ _) as [[w nh] [st [e|]]]; [done|].
  case_bool_decide; [done|]. simpl. destruct (o_closed o); [done|]. by destruct (_ <? _).
Qed.

(** an update either leaves the cached plans or replaces one by the entries it
    computed *)
Lemma updateCIDR_cache fuel now getNode spec new (o : Operator W) :
  let o' := fst (updateCIDR fuel now getNode spec new o) in
  o_cidrs o' = o_cidrs o ∨
  ∃ m, UpdateEntries fuel (hf_Spec <$> ListCache (o_hifs o)) getNode spec
         (Compute.SortAddress (pc_ExcludeCIDRs (c_Config spec))) new = Fin (m, true) ∧
    o_cidrs o' = <[pc_Name (c_Config spec) := mkCIDRSpec (c_Config spec) (snd <$> range_map m)]> (o_cidrs o).
Proof.
  unfold updateCIDR. destruct (negb (o_ready o)); [by left|].
  destruct (UpdateEntries _ _ _ _ _ _) as [[m [|]]| | |] eqn:Eu; [|by left..].
  set (spec' := mkCIDRSpec (c_Config spec) (snd <$> range_map m)).
  pose proof (store_cidr_cache new (pc_Name (c_Config spec)) spec' o) as Hs.
  destruct (store_cidr new _ spec' o) as [o1 err]. simpl in Hs.
  assert (∀ c : SafeCache CIDRSpec, c = o_cidrs o1 → c = o_cidrs o ∨
    ∃ m', Fin (m, true) = Fin (m', true) ∧
      c = <[pc_Name (c_Config spec) := mkCIDRSpec (c_Config spec) (snd <$> range_map m')]> (o_cidrs o))
    as Hend.
  { intros c ->. destruct Hs as [->| ->]; [by left|right; by exists m]. }
  destruct err; [by apply Hend|].
  pose proof (sync_l3_status_cache now (c_Config spec) spec' o1) as H2.
  destruct (sync_l3_status _ _ spec' o1) as [o2 r]. simpl in H2.
  destruct r; try by apply Hend. by destruct (UpdateIPPools _ _ _ _) as [w [|]]; apply Hend.
Qed.

Lemma updateCIDR_sound fuel now getNode spec new (o : Operator W) :
  plan_sound spec → fuel_for (c_Config spec) fuel → plans_sound o →
  plans_sound (fst (updateCIDR fuel now getNode spec new o)).
Proof.
  intros Hp Hf Ho n s.
  destruct (updateCIDR_cache fuel now getNode spec new o) as [->|(m & Eu & ->)]; [by apply Ho|].
  intros [[<- <-]|[_ ?]]%(lookup_insert_Some (M:=gmap string)); [|by eapply Ho].
  intros ip p Hdef. simpl in *. destruct spec as [def entries]. simpl in *.
  destruct (UpdateEntries_ok def ip p Hdef fuel (Hf ip p Hdef) (hf_Spec <$> ListCache (o_hifs o))
              getNode entries new (Hp ip p Hdef)) as (m' & ch & Eu' & Hm).
  rewrite Eu in Eu'. injection Eu' as <- <-. by apply entries_ok_cidrs.
Qed.

(** ** The operator as a transition system

    A state is the operator and the updates that are under way: the plans that
    the worker of the queue took out of the cache, and those that a new network
    got from NewCIDR ([true]).  [updateCIDR] holds the Mutex, so an update is one
    step; everything else may happen before it.  A network may have any
    configuration.  [step_environment] is any change of what the other components
    write: HostInterfaces, daemons, pools, the readiness flag, the queue, and the
    cluster itself. *)

Definition op_state : Type := Operator W * list (CIDRSpec * bool).

Inductive op_step : op_state → op_state → Prop :=
| step_new def fuel snapshot spec o pend :
    NewCIDR fuel snapshot def = Fin (Ok spec) →
    op_step (o, pend) (o, (spec, true) :: pend)
| step_take o pend :
    0 < o_queue o →
    op_step (o, pend) (set_queue o 0, pend ++ ((λ kv, (kv.2, false)) <$> range_map (o_cidrs o)))
| step_update fuel now getNode spec new o pend pend' :
    fuel_for (c_Config spec) fuel →
    op_step (o, pend ++ (spec, new) :: pend')
      (fst (updateCIDR fuel now getNode spec new o), pend ++ pend')
| step_delete name o pend :
    op_step (o, pend) (set_cidrs o (UnsetCache (o_cidrs o) name), pend)
| step_environment w ippools hifs nh daemons queue closed ready o pend :
    op_step (o, pend) (mkOp w ippools (o_cidrs o) hifs nh daemons queue closed ready, pend).

Definition op_steps : op_state → op_state → Prop := rtc op_step.

(** the cache and the updates under way are sound *)
Definition state_sound (s : op_state) : Prop :=
  plans_sound s.1 ∧ Forall (λ u, plan_sound u.1) s.2.

Lemma op_step_sound s s' : op_step s s' → state_sound s → state_sound s'.
Proof.
  destruct 1 as [def fuel snapshot spec o pend En|o pend|fuel now getNode spec new o pend pend' Hf
                |name o pend|]; intros [Ho Hpend]; simpl in *; (split; simpl; [|try done]).
  - done.
  - constructor; [|done]. by eapply NewCIDR_sound.
  - done.
  - apply Forall_app. split; [done|]. apply Forall_fmap, Forall_forall.
    intros [n s] Hin%elem_of_range_map. by eapply Ho.
  - apply Forall_app in Hpend as [_ [Hp _]%Forall_cons]. by apply updateCIDR_sound.
  - apply Forall_app in Hpend as [? [_ ?]%Forall_cons]. by apply Forall_app.
  - intros n s. simpl. unfold UnsetCache.
    intros [_ ?]%(lookup_delete_Some (M:=gmap string)). by eapply Ho.
  - done.
Qed.

Lemma op_steps_sound s s' : op_steps s s' → state_sound s → state_sound s'.
Proof. induction 1; [done|]. intros. by eapply IHrtc, op_step_sound. Qed.

(** the handlers are sequences of these steps *)
Lemma NewCIDRWithNewConfig_steps fuel now getNode def (o : Operator W) pend :
  fuel_for def fuel →
  op_steps (o, pend) (fst (NewCIDRWithNewConfig fuel now getNode def o), pend).
Proof.
  intros Hf. unfold NewCIDRWithNewConfig.
  destruct (NewCIDR _ _ def) as [[spec|]| | |] eqn:En; simpl; try apply rtc_refl.
  eapply rtc_l; [by eapply step_new|]. apply rtc_once.
  apply (step_update fuel now getNode spec true o [] pend).
  by rewrite (NewCIDR_config _ _ _ _ En).
Qed.

(** what a goroutine of the operator may do beside the worker *)
Definition interferes (f : Operator W → Operator W) : Prop :=
  ∀ o pend, op_steps (o, pend) (f o, pend).

Lemma update_all_steps fuel now getNode others snapshot : ∀ i (o : Operator W),
  Forall (λ kv, fuel_for (c_Config kv.2) fuel) snapshot → (∀ j, interferes (others j)) →
  ∃ pend, op_steps (o, (λ kv, (kv.2, false)) <$> snapshot)
            (fst (update_all fuel now getNode others i snapshot o), pend).
Proof.
  induction snapshot as [|[n spec] snapshot IH]; intros i o Hall Hoth; [eexists; apply rtc_refl|].
  apply Forall_cons in Hall as [Hf Hall]. cbn [update_all].
  assert (op_steps (o, (λ kv, (kv.2, false)) <$> (n, spec) :: snapshot)
    (fst (updateCIDR fuel now getNode spec false (others i o)), (λ kv, (kv.2, false)) <$> snapshot))
    as Hone.
  { eapply rtc_r; [apply Hoth|]. by apply (step_update fuel now getNode spec false _ []). }
  destruct (updateCIDR fuel now getNode spec false (others i o)) as [o1 r]. simpl in Hone.
  destruct r; try by eexists. destruct (IH (S i) o1 Hall Hoth) as [pend Hp].
  exists pend. by etrans.
Qed.

Lemma ProcessUpdateRequest_steps fuel now getNode others (o : Operator W) :
  (∀ name spec, o_cidrs o !! name = Some spec → fuel_for (c_Config spec) fuel) →
  (∀ j, interferes (others j)) →
  ∃ pend, op_steps (o, []) (fst (ProcessUpdateRequest fuel now getNode others o), pend).
Proof.
  intros Hf Hoth. unfold ProcessUpdateRequest. destruct (Z.leb_spec (o_queue o) 0);
    [eexists; apply rtc_refl|].
  destruct (update_all_steps fuel now getNode others (range_map (o_cidrs o)) 0 (set_queue o 0))
    as [pend Hp]; [|done|].
  { apply Forall_forall. intros [n spec] Hin%elem_of_range_map. by eapply Hf. }
  exists pend. eapply rtc_l; [|exact Hp]. by apply (step_take o []).
Qed.

(** C1: in every state the operator can reach from one whose cached plans and
    pending updates are well formed (for instance with an empty cache and none pending),
    through any interleaving of new networks with any configuration, of the updates of
    the request worker, of deletions and of changes of the HostInterfaces, daemons, pools and cluster,
    each cached network whose configuration has a canonical subnet, at least one
    host bit, blocks that fit into the 32 bits and parseable exclusions, has pod
    networks that are pairwise disjoint and inside its subnet. A network with
    another configuration may be cached beside it; one with an empty subnet takes
    the networks of the hosts and is outside the conclusion. *)
Theorem reachable_pods_disjoint (o0 o : Operator W) pend0 pend name spec sub ps e e' h h' :
  state_sound (o0, pend0) → op_steps (o0, pend0) (o, pend) →
  o_cidrs o !! name = Some spec → def_ok (c_Config spec) sub ps →
  e ∈ c_CIDRs spec → e' ∈ c_CIDRs spec → h ∈ e_Hosts e → h' ∈ e_Hosts e' →
  (e_InterfaceIndex e, h_HostName h) ≠ (e_InterfaceIndex e', h_HostName h') →
  ∃ a a' q, cidr_text (pc_Subnet (c_Config spec)) sub ps ∧
    h_PodCIDR h = cidr_str a q ∧ h_PodCIDR h' = cidr_str a' q ∧ ip_ok a ∧ ip_ok a' ∧
    0 ≤ q ≤ 32 ∧ nets_disjoint (be a) q (be a') q ∧ subnet_of (be a) q (be sub) ps.
Proof.
  intros H0 Hr Hn Hdef. destruct (op_steps_sound _ _ Hr H0) as [Ho _].
  eapply plan_pods_disjoint; [done|]. by eapply Ho.
Qed.
End operator.

(** ** A cluster for the examples *)

Record cluster := mkCluster {
  cs_pools : kstore IPPool;
  cs_cidrs : kstore CIDRSpec;
  cs_nets : kstore MultiNicNetwork
}.

#[export] Instance cluster_pools : Client cluster IPPool :=
  part_client cs_pools (λ c s, mkCluster s (cs_cidrs c) (cs_nets c)).
#[export] Instance cluster_cidrs : Client cluster CIDRSpec :=
  part_client cs_cidrs (λ c s, mkCluster (cs_pools c) s (cs_nets c)).
#[export] Instance cluster_nets : Client cluster MultiNicNetwork :=
  part_client cs_nets (λ c s, mkCluster (cs_pools c) (cs_cidrs c) s).

Definition ex_operator : Operator cluster :=
  mkOp (mkCluster (mkK ∅ false) (mkK ∅ false) ex_net_store) ∅ ∅
    ((λ hif, mkHif ∅ hif) <$> ex_snapshot) ex_net_handler ∅ 0 false true.

#[local] Existing Instance map_to_list_range.

Definition ex_operator1 : Operator cluster :=
  fst (NewCIDRWithNewConfig 65 0 (λ _, NodeError) ex_def ex_operator).

Example ex_operator1_pools :
  (λ kv, (kv.1, p_HostName (ip_Spec kv.2))) <$> map_to_list (k_objs (cs_pools (o_w ex_operator1)))
  = [("net-192.168.1.0-24", "hostB"); ("net-192.168.129.0-24", "hostB");
     ("net-192.168.128.0-24", "hostA"); ("net-192.168.0.0-24", "hostA")].
Proof. vm_compute. reflexivity. Qed.

Definition ex_e1 : CIDREntry :=
  mkCIDREntry "10.242.0.0/24" 0 "192.168.0.0/18"
    [CidrProps.ex_host 0 "hostA" "eth1" "10.242.0.1" "192.168.0.0/24";
     CidrProps.ex_host 1 "hostB" "eth1" "10.242.0.2" "192.168.1.0/24"].

Definition ex_e2 : CIDREntry :=
  mkCIDREntry "10.242.1.0/24" 2 "192.168.128.0/18"
    [CidrProps.ex_host 0 "hostA" "eth2" "10.242.1.1" "192.168.128.0/24";
     CidrProps.ex_host 1 "hostB" "eth2" "10.242.1.2" "192.168.129.0/24"].

(** a second network, without a subnet: it takes the networks of the hosts *)
Definition ex_unmanaged : PluginConfig :=
  mkPluginConfig "unmanaged" "multi-nic" "" ["10.242.0.0/24"; "10.242.1.0/24"] 0 0 [] "l2".

Definition ex_operator2 : Operator cluster :=
  fst (NewCIDRWithNewConfig 65 0 (λ _, NodeError) ex_unmanaged ex_operator1).

Lemma ex_unmanaged_fuel : fuel_for ex_unmanaged 65.
Proof. by intros ip p ((a & x & Hs & _) & _). Qed.

Lemma ex_operator_sound : state_sound (ex_operator, []).
Proof. split; [|done]. intros n s H. by apply (lookup_empty_Some n s) in H. Qed.

Lemma ex_operator1_reachable : op_steps (ex_operator, []) (ex_operator1, []).
Proof. apply NewCIDRWithNewConfig_steps. intros ? ? _. apply CidrProps.ex_fuel_ok. Qed.

Lemma reachable_pods_disjoint_witness :
  ∃ a a' q, cidr_text "192.168.0.0/16" [192; 168; 0; 0] 16 ∧
    "192.168.0.0/24" = cidr_str a q ∧ "192.168.129.0/24" = cidr_str a' q ∧ ip_ok a ∧ ip_ok a' ∧
    0 ≤ q ≤ 32 ∧ nets_disjoint (be a) q (be a') q ∧ subnet_of (be a) q (be [192; 168; 0; 0]) 16.
Proof.
  apply (reachable_pods_disjoint ex_operator ex_operator2 [] [] "net" (mkCIDRSpec ex_def [ex_e2; ex_e1])
           [192; 168; 0; 0] 16 ex_e1 ex_e2
           (CidrProps.ex_host 0 "hostA" "eth1" "10.242.0.1" "192.168.0.0/24")
           (CidrProps.ex_host 1 "hostB" "eth2" "10.242.1.2" "192.168.129.0/24")).
  - apply ex_operator_sound.
  - etrans; [apply ex_operator1_reachable|].
    apply NewCIDRWithNewConfig_steps, ex_unmanaged_fuel.
  - vm_compute. reflexivity.
  - apply CidrProps.ex_def_ok.
  - apply list_elem_of_further, list_elem_of_here.
  - apply list_elem_of_here.
  - apply list_elem_of_here.
  - apply list_elem_of_further, list_elem_of_here.
  - done.
Defined.

(** the unmanaged network is cached too, and its hosts share a pod network: the
    network of their interface *)
Example ex_operator2_unmanaged :
  (λ e, h_PodCIDR <$> e_Hosts e) <$>
    (default [] (c_CIDRs <$> (o_cidrs ex_operator2 !! "unmanaged")))
  = [["10.242.1.0/24"; "10.242.1.0/24"]; ["10.242.0.0/24"; "10.242.0.0/24"]].
Proof. vm_compute. reflexivity. Qed.

(** ** Cleaning pools *)

Section clean.
Context {W : Type} {pools : Client W IPPool} {ord : MapRange}.
Context (pool_at : W → string → option IPPool).

Lemma DeleteIPPool_frame {laws : ClientLaws W IPPool pool_at} w def pod w' e n :
  DeleteIPPool w def pod = (w', e) → n ≠ GetIPPoolName def pod → pool_at w' n = pool_at w n.
Proof.
  unfold DeleteIPPool, GetIPPool. destruct (cl_Get w _); [|by intros [= <- _]].
  intros H Hne. by eapply delete_other.
Qed.

Lemma CleanPending_loop_spec {laws : ClientLaws W IPPool pool_at} def pods snapshot : ∀ w n,
  pool_at (CleanPending_loop w def pods snapshot) n = pool_at w n ∨
  ∃ k ippool, (k, ippool) ∈ snapshot ∧ p_NetAttachDefName ippool = def ∧
     (p_PodCIDR ippool ∉ pods) ∧ n = GetIPPoolName def (p_PodCIDR ippool).
Proof.
  induction snapshot as [|[k ippool] snapshot IH]; intros w n; [by left|]. simpl.
  match goal with |- context [CleanPending_loop ?w1 _ _ _] => set (w1' := w1) end.
  destruct (IH w1' n) as [Heq|(k' & i' & Hin & ?)]; [|right; exists k', i'; split; [by right|done]].
  rewrite Heq. subst w1'. destruct (bool_decide _) eqn:Hd; [|by left]. apply bool_decide_eq_true in Hd.
  case_bool_decide; [by left|]. simpl. rewrite Hd.
  destruct (decide (n = GetIPPoolName def (p_PodCIDR ippool))) as [->|Hne].
  - right. exists k, ippool. split; [by left|done].
  - left. destruct (DeleteIPPool w def (p_PodCIDR ippool)) as [w' e] eqn:E.
    by apply (DeleteIPPool_frame _ _ _ _ _ _ E).
Qed.

(** C21: when the plan of a network changes, cleaning deletes no pool that the
    new plan needs and no pool of another network: the pool of every pod CIDR in
    the plan, and every pool named for another network, is left as it was. *)
Theorem CleanPendingIPPools_keeps_plan w snapshot def spec defn ip p :
  ClientLaws W IPPool pool_at →
  (∀ k ippool, snapshot !! k = Some ippool →
     ∃ ip' p', ip_ok ip' ∧ 0 ≤ p' ≤ 32 ∧ p_PodCIDR ippool = cidr_str ip' p') →
  ip_ok ip → 0 ≤ p ≤ 32 → defn ≠ def ∨ cidr_str ip p ∈ plan_pods spec →
  let n := GetIPPoolName defn (cidr_str ip p) in
  pool_at (CleanPendingIPPools w snapshot def spec) n = pool_at w n.
Proof.
  intros Hlaws Hsnap Hip Hp Hcase n. unfold CleanPendingIPPools.
  destruct (CleanPending_loop_spec def (plan_pods spec) (range_map snapshot) w n)
    as [?|(k & ippool & Hin%elem_of_range_map & _ & Hnot & Heq)]; [done|].
  exfalso. destruct (Hsnap _ _ Hin) as (ip' & p' & Hip' & Hp' & Hpod). rewrite Hpod in Hnot, Heq.
  apply IPPoolProps.GetIPPoolName_inj_str in Heq as (-> & -> & ->); [|done..].
  by destruct Hcase.
Qed.
End clean.

Definition ex_pending : gmap string IPPoolSpec :=
  {["net-192.168.9.0-24" :=
      mkIPPoolSpec "192.168.9.0/24" "192.168.0.0/18" "net" "hostZ" "eth1" [] []]}.

Lemma CleanPendingIPPools_keeps_plan_witness :
  let w := o_w ex_operator1 in
  let n := GetIPPoolName "net" (cidr_str [192; 168; 0; 0] 24) in
  kstore_at (cs_pools (CleanPendingIPPools w ex_pending "net" (mkCIDRSpec ex_def [ex_e2; ex_e1]))) n
  = kstore_at (cs_pools w) n.
Proof.
  apply (CleanPendingIPPools_keeps_plan (λ c n, kstore_at (cs_pools c) n) (o_w ex_operator1)
           ex_pending "net" (mkCIDRSpec ex_def [ex_e2; ex_e1]) "net" [192; 168; 0; 0] 24).
  - by apply part_laws.
  - unfold ex_pending. intros k ippool [<- <-]%lookup_singleton_Some. exists [192; 168; 9; 0], 24.
    split_and!; [split; [done|repeat constructor; lia]|lia|lia|by vm_compute].
  - split; [done|repeat constructor; lia].
  - lia.
  - right. by apply (bool_decide_eq_true_1 _); vm_compute.
Defined.
