(* ===== verification/ClusterProps.v ===== *)
(** * Addresses across the cluster

    The operator's plan and the daemons of all nodes together. A system is the
    cluster's pools and, per node, the daemon's mutex and history; its steps are
    requests served by any daemon, in any order, and restarts of a daemon with the
    cleaning of its pools. Pods
    on different nodes never get the same address of a network: a daemon keeps
    its pools well formed whatever the other daemons do in between, and the
    operator's plan gives the pools disjoint address ranges. *)

From S2P Require Import Prelude GoLib Types.
From S2P Require Compute.
From S2P Require Import ComputeSpec Allocator AllocatorSpec AllocatorProps AddressService.
From S2P Require Import K8s IPPool IPPoolProps Cidr CidrSpec Network CidrHandler OperatorProps.
From S2P Require CidrProps.

(** ** The daemons of all nodes over one cluster *)

(** what a daemon process keeps; the rest is in the cluster *)
Record node := mkNode { nd_locked : bool; nd_history : gmap string allocateRecord }.

(** a daemon that has just started *)
Definition fresh_node : node := mkNode false ∅.

Record system (W : Type) := mkSystem { s_world : W; s_nodes : gmap string node }.
Arguments mkSystem {W}.
Arguments s_world {W}.
Arguments s_nodes {W}.

Definition daemon_on {W} (n : node) (w : W) : daemon W := mkDaemon (nd_locked n) (nd_history n) w.

Definition put_daemon {W} (s : system W) (host : string) (d : daemon W) : system W :=
  mkSystem (d_world d) (<[host := mkNode (d_locked d) (d_history d)]> (s_nodes s)).

Section system.
Context {W : Type} {api : IPPoolAPI W} {ord : MapRange}
  (pool_at : W → string → option IPPoolSpec).

Inductive system_step (s : system W) : system W → Prop :=
  | sys_allocate host n fs clk req :
      s_nodes s !! host = Some n → has_room pool_at clk req (daemon_on n (s_world s)) →
      system_step s
        (put_daemon s host (state_of (AllocateIP fs clk req (daemon_on n (s_world s)))))
  | sys_release host n fs now req :
      s_nodes s !! host = Some n →
      system_step s
        (put_daemon s host (state_of (DeallocateIP fs now req (daemon_on n (s_world s)))))
  | sys_restart host getPod :
      system_step s (put_daemon s host (start_allocator getPod host (s_world s))).

Inductive system_run (s : system W) : system W → Prop :=
  | system_stop : system_run s s
  | system_more s1 s2 : system_run s s1 → system_step s1 s2 → system_run s s2.

(** ** The invariant *)

(** distinct indexes in the host range of the pool, each with its address *)
Definition pool_ok (spec : IPPoolSpec) : Prop :=
  ∃ ip p, pool_net spec ip p ∧ indexes_ok spec p ∧
    Forall (λ a, a_Address a = getAddressByIndex (p_PodCIDR spec) (a_Index a)) (p_Allocations spec).

Definition system_ok (s : system W) : Prop :=
  (∀ name spec, pool_at (s_world s) name = Some spec → pool_ok spec) ∧
  (∀ host n, s_nodes s !! host = Some n → history_ok (nd_history n)).

(** a pool may lose allocations *)
Lemma pool_ok_sublist spec l :
  pool_ok spec → l `sublist_of` p_Allocations spec → pool_ok (set_Allocations spec l).
Proof.
  intros (ip & p & Hnet & Hi & Ha) Hsub. exists ip, p. split; [done|].
  split; [by apply indexes_ok_sublist|]. simpl.
  rewrite Forall_forall in Ha |- *. intros x Hx. apply Ha. by eapply elem_of_sublist.
Qed.

Lemma fresh_history : history_ok (nd_history fresh_node).
Proof. intros pod r H. by apply (lookup_empty_Some pod r) in H. Qed.

Context {laws : IPPoolLaws W pool_at}.

Lemma allocate_pool_ok fs clk req d name spec :
  (∀ n s, pool_at (d_world d) n = Some s → pool_ok s) → history_ok (d_history d) →
  has_room pool_at clk req d →
  pool_at (d_world (state_of (AllocateIP fs clk req d))) name = Some spec → pool_ok spec.
Proof.
  intros Hok Hh Hroom Hp. destruct (pool_at (d_world d) name) as [spec0|] eqn:Hp0.
  2: { by rewrite (AllocateIP_absent pool_at _ _ _ _ _ Hp0) in Hp. }
  destruct (Hok _ _ Hp0) as (ip & p & Hnet & Hi & Ha).
  destruct (AllocateIP_appends pool_at fs clk req d name spec0 ip p)
    as [Hs|(new & _ & _ & Hr & Hu & Haddr & Hs)]; [by eauto..| |];
    rewrite Hs in Hp; injection Hp as <-; [by eauto|]. exists ip, p. split; [done|].
  split; [by apply indexes_ok_append|]. simpl. apply Forall_app. by repeat constructor.
Qed.

Lemma release_pool_ok fs now req d name spec :
  (∀ n s, pool_at (d_world d) n = Some s → pool_ok s) →
  pool_at (d_world (state_of (DeallocateIP fs now req d))) name = Some spec → pool_ok spec.
Proof.
  intros Hok Hp. destruct (pool_at (d_world d) name) as [spec0|] eqn:Hp0.
  2: { by rewrite (DeallocateIP_absent pool_at _ _ _ _ _ Hp0) in Hp. }
  destruct (DeallocateIP_pools pool_at fs now req d name spec0 Hp0) as [Hs|(i & a & _ & Hs)];
    rewrite Hs in Hp; injection Hp as <-; [by eauto|].
  apply pool_ok_sublist; [by eauto|apply remove_at_sublist].
Qed.

Lemma clean_pool_ok getPod host w name spec :
  (∀ n s, pool_at w n = Some s → pool_ok s) →
  pool_at (d_world (start_allocator getPod host w)) name = Some spec → pool_ok spec.
Proof.
  intros Hok. unfold start_allocator, CleanHangingAllocation. cbn [d_world].
  destruct (Allocator.ListIPPool w _) as [m|] eqn:Hlist; [|apply Hok]. cbn [fst].
  destruct (m !! name) as [spec0|] eqn:Hm.
  - pose proof (list_sound _ _ _ _ _ Hlist Hm) as Hp0.
    destruct (CleanHanging_loop_pools pool_at getPod (range_map m) w name spec0) as [Hs|Hs];
      [apply range_map_keys_nodup|by apply elem_of_range_map|done|..];
      rewrite Hs; intros [= <-]; [by eapply Hok|]. apply pool_ok_sublist; [by eapply Hok|].
    apply sublist_filter.
  - rewrite (CleanHanging_loop_frame pool_at); [apply Hok|].
    intros ([n s] & -> & Hin%elem_of_range_map)%list_elem_of_fmap. by simplify_eq/=.
Qed.

Lemma put_daemon_ok s host d :
  system_ok s → (∀ name spec, pool_at (d_world d) name = Some spec → pool_ok spec) →
  history_ok (d_history d) → system_ok (put_daemon s host d).
Proof.
  intros [_ Hn] Hp Hh. split; [done|]. simpl.
  intros h n [[_ <-]|[_ ?]]%(lookup_insert_Some (M:=gmap string)); eauto.
Qed.

Lemma system_step_ok s s' : system_step s s' → system_ok s → system_ok s'.
Proof.
  intros Hs Hok. pose proof Hok as [Hp Hn].
  destruct Hs as [host n fs clk req Hl Hroom|host n fs now req Hl|host getPod].
  - apply put_daemon_ok; [done| |by apply AllocateIP_history, (Hn _ _ Hl)].
    intros name spec. by apply allocate_pool_ok; [|eapply Hn|].
  - apply put_daemon_ok; [done| |by apply DeallocateIP_history, (Hn _ _ Hl)].
    intros name spec. by apply release_pool_ok.
  - apply put_daemon_ok; [done| |apply fresh_history]. intros name spec. by apply clean_pool_ok.
Qed.

Lemma system_run_ok s s' : system_run s s' → system_ok s → system_ok s'.
Proof. induction 1; eauto using system_step_ok. Qed.

(** ** Addresses of a pool *)

Lemma pool_ok_address spec a ip p :
  pool_ok spec → a ∈ p_Allocations spec → cidr_text (p_PodCIDR spec) ip p →
  ∃ x, a_Address a = Net.ip_string x ∧ ip_ok x ∧ be x = be ip + a_Index a ∧
    in_net (be x) (be ip) p.
Proof.
  intros (ip' & p' & [Ht Hna] & [_ Hr] & Haddr) Ha Ht'.
  destruct (cidr_text_fun _ _ _ _ _ Ht Ht') as [-> ->].
  destruct (cidr_text_ok _ _ _ Ht) as [_ Hp]. rewrite Forall_forall in Hr. rewrite Forall_forall in Haddr.
  assert (1 ≤ a_Index a ≤ 2 ^ (32 - p) - 2) by (apply Hr, elem_of_used; left; eauto).
  destruct (getAddressByIndex_text (p_PodCIDR spec) ip p (a_Index a)) as (x & Hx & Hxok & Hbe);
    [done..|lia|]. exists x. rewrite (Haddr a Ha). split_and!; [done..|].
  apply in_net_range; [done..|]. rewrite Hbe. lia.
Qed.

Lemma ip_string_inj x y : ip_ok x → ip_ok y → Net.ip_string x = Net.ip_string y → x = y.
Proof. intros Hx%ParseIP_string Hy%ParseIP_string Heq. congruence. Qed.

(** in one pool the address determines the allocation *)
Lemma pool_address_inj spec a b :
  pool_ok spec → a ∈ p_Allocations spec → b ∈ p_Allocations spec →
  a_Address a = a_Address b → a = b.
Proof.
  intros Hok Ha Hb Heq. pose proof Hok as (ip & p & [Ht _] & Hi & _).
  destruct (pool_ok_address spec a ip p) as (x & Hx & Hxok & Hbx & _); [done..|].
  destruct (pool_ok_address spec b ip p) as (y & Hy & Hyok & Hby & _); [done..|].
  assert (x = y) as -> by (apply ip_string_inj; congruence).
  apply indexes_ok_nodup in Hi.
  eapply NoDup_fmap_inj; [done..|]. lia.
Qed.
End system.

(** ** One entry of the plan per host and interface network *)

Lemma plan_host_unique spec ip p e e' h h' :
  cidrs_ok (c_Config spec) ip p (c_CIDRs spec) → e ∈ c_CIDRs spec → e' ∈ c_CIDRs spec → h ∈ e_Hosts e → h' ∈ e_Hosts e' →
  (e_InterfaceIndex e, h_HostName h) = (e_InterfaceIndex e', h_HostName h') → e = e' ∧ h = h'.
Proof.
  intros [Hall Hnd] He He' Hh Hh' [= Hi Hn].
  assert (e = e') as <- by (by eapply NoDup_fmap_inj).
  split; [done|]. rewrite Forall_forall in Hall.
  destruct (Hall e He) as (_ & vip & _ & _ & _ & Hnames & _). by eapply NoDup_fmap_inj.
Qed.

Section cluster.
Context {WO : Type} {pools : Client WO IPPool} {cidrs : Client WO CIDRSpec}
  {nets : Client WO MultiNicNetwork}.
Context {W : Type} {api : IPPoolAPI W} {ord : MapRange}
  (pool_at : W → string → option IPPoolSpec).

(** C3: pod addresses of a network are unique in the cluster. Take a cached
    network of any state the operator reaches (with networks of any configuration
    beside it) whose configuration has a canonical subnet, at least one host bit,
    blocks that fit and parseable exclusions; so networks with an empty subnet,
    which share the hosts' networks, are excluded. Take pools that start well
    formed (canonical pod networks, allocated and excluded indexes distinct and
    from 1 to the last host address, each address that of its index), daemons whose
    release histories are well formed (empty at start), and any interleaving of
    whole requests: allocations that find room behind the last used index of every
    pool, releases, and restarts of the daemons of all nodes. Then two allocations recorded in pools that carry the pod networks
    of the plan, and that differ in host, interface network or allocation, differ
    in their address. *)
Theorem cluster_addresses_unique (o0 o : Operator WO) pend0 pend net spec sub ps s0 s
    e e' h h' pool pool' a a' :
  IPPoolLaws W pool_at →
  state_sound (o0, pend0) → op_steps (o0, pend0) (o, pend) →
  o_cidrs o !! net = Some spec → def_ok (c_Config spec) sub ps →
  system_ok pool_at s0 → system_run pool_at s0 s →
  e ∈ c_CIDRs spec → e' ∈ c_CIDRs spec → h ∈ e_Hosts e → h' ∈ e_Hosts e' →
  pool_at (s_world s) (GetIPPoolName net (h_PodCIDR h)) = Some pool →
  pool_at (s_world s) (GetIPPoolName net (h_PodCIDR h')) = Some pool' →
  p_PodCIDR pool = h_PodCIDR h → p_PodCIDR pool' = h_PodCIDR h' →
  a ∈ p_Allocations pool → a' ∈ p_Allocations pool' →
  (e_InterfaceIndex e, h_HostName h, a) ≠ (e_InterfaceIndex e', h_HostName h', a') →
  a_Address a ≠ a_Address a'.
Proof.
  intros Hlaws H0 Hr Hs Hdef Hok Hrun He He' Hh Hh' Hp Hp' Hc Hc' Ha Ha' Hne Haddr.
  destruct (op_steps_sound _ _ Hr H0) as [Ho _]. pose proof (Ho net spec Hs sub ps Hdef) as Hplan.
  destruct (system_run_ok pool_at s0 s Hrun Hok) as [Hpools _].
  destruct (decide ((e_InterfaceIndex e, h_HostName h) = (e_InterfaceIndex e', h_HostName h')))
    as [Hk|Hk].
  { destruct (plan_host_unique spec sub ps e e' h h') as [<- <-]; [done..|]. simplify_eq.
    apply Hne. f_equal. by eapply pool_address_inj; [eapply Hpools|..]. }
  destruct (plan_pods_disjoint spec sub ps e e' h h')
    as (x & x' & q & _ & Hx & Hx' & Hxo & Hxo' & Hq & Hd & _); [done..|].
  destruct (pool_ok_address pool a x q) as (y & Hy & Hyo & _ & Hin);
    [by eapply Hpools|done|rewrite Hc, Hx; by apply cidr_str_text|].
  destruct (pool_ok_address pool' a' x' q) as (y' & Hy' & Hyo' & _ & Hin');
    [by eapply Hpools|done|rewrite Hc', Hx'; by apply cidr_str_text|].
  assert (y = y') as <- by (apply ip_string_inj; congruence). by apply (Hd (be y)).
Qed.
End cluster.

(** ** Two nodes of the example cluster *)

#[local] Existing Instance map_to_list_range.

(** [has_room] of an in-memory cluster, decided *)
Definition room_left (offset : Z) (spec : IPPoolSpec) : bool :=
  match Compute.after_slash (p_PodCIDR spec) with
  | Ret m =>
      let p := fst (Strconv.ParseInt m 10) in
      default 0 (last (sort_ints (used spec (2 ^ (32 - p) - 2)))) + offset <? 2 ^ (32 - p) - 2
  | Panic => true
  end.

Lemma mem_has_room clk req (d : daemon memstore) :
  map_Forall (λ _ v, room_left (offset_of clk (d_history d) (rq_PodName req)) v.2 = true)
    (ms_pools (d_world d)) →
  has_room mem_pool_at clk req d.
Proof.
  intros Hall name spec ip p Hp [Ht _]. unfold mem_pool_at in Hp.
  apply fmap_Some in Hp as ([labels s] & Hl & ->). specialize (Hall _ _ Hl). simpl in *.
  unfold room_left in Hall. destruct (after_slash_text _ _ _ Ht) as (m & Hm & Hpr).
  rewrite Hm in Hall. cbv zeta in Hall. rewrite Hpr in Hall. lia.
Qed.

Definition ex_node_pool (host cidr : string) : gmap string string * IPPoolSpec :=
  ({["hostname" := host; "netname" := "net"]},
   mkIPPoolSpec cidr "192.168.0.0/18" "net" host "eth1" [] []).

Definition ex_system : system memstore :=
  mkSystem (mkStore {["net-192.168.0.0-24" := ex_node_pool "hostA" "192.168.0.0/24";
                      "net-192.168.1.0-24" := ex_node_pool "hostB" "192.168.1.0/24"]} false)
    {["hostA" := fresh_node; "hostB" := fresh_node]}.

Definition ex_node_req (pod host : string) : IPRequest := mkIPRequest pod "ns" host "net" ["eth1"].

Definition serve_allocate (host pod : string) (s : system memstore) : system memstore :=
  put_daemon s host (state_of (AllocateIP no_vf (λ _, 0) (ex_node_req pod host)
    (daemon_on (default fresh_node (s_nodes s !! host)) (s_world s)))).

Definition ex_system2 : system memstore := serve_allocate "hostB" "b" (serve_allocate "hostA" "a" ex_system).

Lemma serve_allocate_step host pod s :
  bool_decide (is_Some (s_nodes s !! host)) = true →
  bool_decide (map_Forall (λ _ v, room_left
    (offset_of (λ _, 0) (nd_history (default fresh_node (s_nodes s !! host))) pod) v.2 = true)
    (ms_pools (s_world s))) = true →
  system_step mem_pool_at s (serve_allocate host pod s).
Proof.
  intros [n Hn]%bool_decide_eq_true Hroom%bool_decide_eq_true. unfold serve_allocate.
  rewrite Hn in Hroom |- *. apply sys_allocate; [done|]. by apply mem_has_room.
Qed.

Lemma ex_system_ok : system_ok mem_pool_at ex_system.
Proof.
  split.
  - intros name spec ([labels s] & Hl & ->)%fmap_Some. unfold ex_system in Hl. simpl in Hl.
    apply lookup_insert_Some in Hl as [[_ [= <- <-]]|[_ [_ [= <- <-]]%lookup_singleton_Some]].
    + exists [192; 168; 0; 0], 24. split; [split; [exists "192.168.0.0", "24"|]; by vm_compute|].
      split; [|constructor]. split; [constructor|constructor].
    + exists [192; 168; 1; 0], 24. split; [split; [exists "192.168.1.0", "24"|]; by vm_compute|].
      split; [|constructor]. split; [constructor|constructor].
  - intros host n Hn. unfold ex_system in Hn. simpl in Hn. assert (n = fresh_node) as -> by
      (by apply lookup_insert_Some in Hn as [[_ <-]|[_ [_ <-]%lookup_singleton_Some]]).
    apply fresh_history.
Qed.

Lemma ex_system_run : system_run mem_pool_at ex_system ex_system2.
Proof.
  eapply system_more; [eapply system_more; [apply system_stop|]|];
    apply serve_allocate_step; by vm_compute.
Qed.

Definition ex_hostA : HostInterfaceInfo := CidrProps.ex_host 0 "hostA" "eth1" "10.242.0.1" "192.168.0.0/24".

Definition ex_hostB : HostInterfaceInfo := CidrProps.ex_host 1 "hostB" "eth1" "10.242.0.2" "192.168.1.0/24".

(** both nodes have handed out their first address, and these differ *)
Example ex_system2_addresses :
  (λ name, (λ spec, (λ a, (a_Pod a, a_Address a)) <$> p_Allocations spec) <$>
     mem_pool_at (s_world ex_system2) name) <$>
  [GetIPPoolName "net" (h_PodCIDR ex_hostA); GetIPPoolName "net" (h_PodCIDR ex_hostB)]
  = [Some [("a", "192.168.0.1")]; Some [("b", "192.168.1.1")]].
Proof. vm_compute. reflexivity. Qed.

Lemma cluster_addresses_unique_witness : "192.168.0.1" ≠ "192.168.1.1".
Proof.
  apply (cluster_addresses_unique mem_pool_at ex_operator ex_operator1 [] [] "net"
           (mkCIDRSpec ex_def [ex_e2; ex_e1]) [192; 168; 0; 0] 16 ex_system ex_system2 ex_e1 ex_e1 ex_hostA ex_hostB
           (set_Allocations (ex_node_pool "hostA" "192.168.0.0/24").2
              [mkAllocation "a" "ns" 1 "192.168.0.1"])
           (set_Allocations (ex_node_pool "hostB" "192.168.1.0/24").2
              [mkAllocation "b" "ns" 1 "192.168.1.1"])
           (mkAllocation "a" "ns" 1 "192.168.0.1") (mkAllocation "b" "ns" 1 "192.168.1.1")).
  - apply memstore_laws.
  - apply ex_operator_sound.
  - apply ex_operator1_reachable.
  - vm_compute. reflexivity.
  - apply CidrProps.ex_def_ok.
  - apply ex_system_ok.
  - apply ex_system_run.
  - apply list_elem_of_further, list_elem_of_here.
  - apply list_elem_of_further, list_elem_of_here.
  - apply list_elem_of_here.
  - apply list_elem_of_further, list_elem_of_here.
  - vm_compute. reflexivity.
  - vm_compute. reflexivity.
  - reflexivity.
  - reflexivity.
  - apply list_elem_of_here.
  - apply list_elem_of_here.
  - done.
Defined.
