(* ===== verification/RouteProps.v ===== *)
(** * Properties of routes and pool cleaning

    The routes the operator sends to a host, the route status it reports, and
    the pools it deletes when a plan changes. *)

From S2P Require Import Prelude GoLib Types K8s.
From S2P Require Import Compute ComputeSpec IPPool IPPoolProps Network Cidr CidrSpec Route CidrHandler.

(** ** The index map of a plan *)

Definition info_at (m : HostInterfaceIndexMap) (n : string) (i : Z) : option HostInterfaceInfo :=
  m !! n ≫= λ x, x !! i.

Lemma info_at_add i m h n j :
  info_at (add_host_index i m h) n j =
  if bool_decide (n = h_HostName h ∧ j = i) then Some h else info_at m n j.
Proof.
  unfold info_at, add_host_index. destruct (decide (n = h_HostName h)) as [->|Hn].
  - rewrite lookup_insert_eq. cbn [mbind option_bind]. destruct (decide (j = i)) as [->|Hj].
    + by rewrite lookup_insert_eq, bool_decide_eq_true_2.
    + rewrite lookup_insert_ne by done. rewrite bool_decide_eq_false_2 by (by intros [_ ?]).
      by destruct (m !! h_HostName h).
  - rewrite lookup_insert_ne by done. rewrite bool_decide_eq_false_2; [done|]. by intros [? _].
Qed.

Lemma info_at_hosts_other i hosts : ∀ m n j,
  j ≠ i ∨ n ∉ h_HostName <$> hosts →
  info_at (foldl (add_host_index i) m hosts) n j = info_at m n j.
Proof.
  induction hosts as [|h hosts IH]; intros m n j Hne; [done|]. simpl. rewrite IH.
  - rewrite info_at_add, bool_decide_eq_false_2; [done|]. intros [-> ->].
    destruct Hne as [?|Hn]; [done|]. apply Hn. by left.
  - destruct Hne as [?|Hn]; [by left|right]. intros Hin. apply Hn. by right.
Qed.

Lemma info_at_hosts i hosts : ∀ m h,
  NoDup (h_HostName <$> hosts) → h ∈ hosts →
  info_at (foldl (add_host_index i) m hosts) (h_HostName h) i = Some h.
Proof.
  induction hosts as [|x hosts IH]; intros m h Hnd Hin; [by apply elem_of_nil in Hin|].
  simpl in *. apply NoDup_cons in Hnd as [Hx Hnd]. apply elem_of_cons in Hin as [->|Hin].
  - rewrite info_at_hosts_other by (by right). by rewrite info_at_add, bool_decide_eq_true_2.
  - by apply IH.
Qed.

Definition entries_fold (m : HostInterfaceIndexMap) (entries : list CIDREntry) : HostInterfaceIndexMap :=
  foldl (λ m entry, foldl (add_host_index (e_InterfaceIndex entry)) m (e_Hosts entry)) m entries.

Lemma info_at_entries_other entries : ∀ m n j,
  j ∉ e_InterfaceIndex <$> entries → info_at (entries_fold m entries) n j = info_at m n j.
Proof.
  induction entries as [|e entries IH]; intros m n j Hj; [done|].
  simpl in Hj. apply not_elem_of_cons in Hj as [Hne Hj]. simpl. rewrite IH by done.
  apply info_at_hosts_other. by left.
Qed.

(** the record of a host on an interface index, when both are unique *)
Lemma index_map_lookup entries e h :
  NoDup (e_InterfaceIndex <$> entries) → e ∈ entries → NoDup (h_HostName <$> e_Hosts e) →
  h ∈ e_Hosts e →
  info_at (GetHostInterfaceIndexMap entries) (h_HostName h) (e_InterfaceIndex e) = Some h.
Proof.
  change (GetHostInterfaceIndexMap entries) with (entries_fold ∅ entries).
  generalize (∅ : HostInterfaceIndexMap). induction entries as [|x entries IH];
    intros m Hnd He Hn Hh; [by apply elem_of_nil in He|].
  simpl in *. apply NoDup_cons in Hnd as [Hx Hnd]. apply elem_of_cons in He as [->|He].
  - rewrite info_at_entries_other by done. by apply info_at_hosts.
  - by apply IH.
Qed.

(** the routes sent to a host are exactly right: on a plan with distinct
    interface indexes and distinct host names per entry, a route goes to the pod
    CIDR of a record, through that record's host address on the same interface
    network, out of the sending host's own interface on that network, and only to
    hosts with a known daemon on another machine; and every such record gets its
    route. *)
Theorem host_routes_exact cache entries hostName srcIP r :
  NoDup (e_InterfaceIndex <$> entries) →
  (∀ e, e ∈ entries → NoDup (h_HostName <$> e_Hosts e)) →
  r ∈ host_routes cache (GetHostInterfaceIndexMap entries) hostName srcIP entries ↔
  ∃ e h daemon own, e ∈ entries ∧ h ∈ e_Hosts e ∧
    cache !! h_HostName h = Some daemon ∧ dp_HostIP daemon ≠ srcIP ∧
    info_at (GetHostInterfaceIndexMap entries) hostName (e_InterfaceIndex e) = Some own ∧
    r = mkHostRoute (h_PodCIDR h) (h_HostIP h) (h_InterfaceName own).
Proof.
  intros Hnd Hnames. unfold host_routes. rewrite list_elem_of_bind.
  setoid_rewrite list_elem_of_omap.
  assert (∀ e h, e ∈ entries → h ∈ e_Hosts e →
    host_route cache (GetHostInterfaceIndexMap entries) hostName srcIP (e_InterfaceIndex e) h = Some r ↔
    ∃ daemon own, cache !! h_HostName h = Some daemon ∧ dp_HostIP daemon ≠ srcIP ∧
      info_at (GetHostInterfaceIndexMap entries) hostName (e_InterfaceIndex e) = Some own ∧
      r = mkHostRoute (h_PodCIDR h) (h_HostIP h) (h_InterfaceName own)) as Hone.
  { intros e h He Hh. pose proof (index_map_lookup entries e h Hnd He (Hnames e He) Hh) as Hinfo.
    unfold host_route, Daemon_GetCache, GetCache. unfold info_at in *. rewrite Hinfo.
    destruct (cache !! h_HostName h) as [daemon|]; [|split; [done|]; by intros (? & ? & ? & _)].
    case_bool_decide as Hip.
    { split; [done|]. intros (d & own & [= <-] & ? & _). done. }
    destruct (GetHostInterfaceIndexMap entries !! hostName ≫= _) as [own|].
    - split; [intros [= <-]; eauto 10|]. by intros (d & o & [= <-] & _ & [= <-] & ->).
    - split; [done|]. by intros (d & o & _ & _ & ? & _). }
  split.
  - intros (e & (h & Hh & Hr) & He). apply Hone in Hr as (d & own & ?); [|done..].
    exists e, h, d, own. done.
  - intros (e & h & d & own & He & Hh & Hr). exists e. split; [|done]. exists h. split; [done|].
    apply Hone; [done..|]. eauto.
Qed.

Definition ex_h (name ip pod : string) : HostInterfaceInfo :=
  mkHostInterfaceInfo 0 name "eth1" ip pod "".

Definition ex_route_entries : list CIDREntry :=
  [mkCIDREntry "10.0.0.0/24" 0 "192.168.0.0/18"
     [ex_h "A" "10.0.0.1" "192.168.0.0/24"; ex_h "B" "10.0.0.2" "192.168.1.0/24"]].

Definition ex_daemons : DaemonCache :=
  {["A" := mkDaemonPod "da" "ns" "1.1.1.1" "A" ∅; "B" := mkDaemonPod "db" "ns" "1.1.1.2" "B" ∅]}.

Lemma host_routes_exact_witness :
  mkHostRoute "192.168.1.0/24" "10.0.0.2" "eth1" ∈
    host_routes ex_daemons (GetHostInterfaceIndexMap ex_route_entries) "A" "1.1.1.1" ex_route_entries ↔
  ∃ e h daemon own, e ∈ ex_route_entries ∧ h ∈ e_Hosts e ∧
    ex_daemons !! h_HostName h = Some daemon ∧ dp_HostIP daemon ≠ "1.1.1.1" ∧
    info_at (GetHostInterfaceIndexMap ex_route_entries) "A" (e_InterfaceIndex e) = Some own ∧
    mkHostRoute "192.168.1.0/24" "10.0.0.2" "eth1"
      = mkHostRoute (h_PodCIDR h) (h_HostIP h) (h_InterfaceName own).
Proof.
  apply (host_routes_exact ex_daemons ex_route_entries "A" "1.1.1.1").
  - apply NoDup_singleton.
  - intros e He%list_elem_of_singleton. subst e.
    apply (bool_decide_eq_true_1 _). vm_compute. reflexivity.
Defined.

Example host_routes_ex :
  host_routes ex_daemons (GetHostInterfaceIndexMap ex_route_entries) "A" "1.1.1.1" ex_route_entries
  = [mkHostRoute "192.168.1.0/24" "10.0.0.2" "eth1"].
Proof. vm_compute. reflexivity. Qed.

(** ** The route status *)

Section status.
Context {W : Type} {nets : Client W MultiNicNetwork} {ord : MapRange}.
Context (post : W → string → L3ConfigRequest → W * http_answer) (port : string).

(** the daemon accepted the routes of the host in some state of the cluster *)
Definition accepted (cache : DaemonCache) (spec : CIDRSpec) (force : bool)
    (hostName : string) (daemon : DaemonPod) : Prop :=
  ∃ w msg, snd (post w (GetDaemonAddressByPod port daemon +:+ ADD_ROUTE_PATH)
    (mkL3 (pc_Name (c_Config spec)) (pc_Subnet (c_Config spec))
       (host_routes cache (GetHostInterfaceIndexMap (c_CIDRs spec)) hostName (dp_HostIP daemon)
          (c_CIDRs spec)) force)) = Body (mkRouteResp true msg).

Lemma AddRoutesToHost_change w cache spec hostName daemon force w' cf :
  AddRoutesToHost post port w cache spec hostName daemon (c_CIDRs spec)
    (GetHostInterfaceIndexMap (c_CIDRs spec)) force = (w', (true, cf)) →
  accepted cache spec force hostName daemon.
Proof.
  unfold AddRoutesToHost, ApplyL3Config, putRouteRequest. destruct (Daemon_GetCache _ _); [|done].
  unfold accepted. destruct (post w _ _) as [w1 ans] eqn:E.
  intros H. exists w. rewrite E. destruct ans as [| | |[[] msg]]; simplify_eq/=. by exists msg.
Qed.

Lemma AddRoutes_loop_success cache spec force daemons : ∀ w s n w' n',
  AddRoutes_loop post port w cache spec (c_CIDRs spec)
    (GetHostInterfaceIndexMap (c_CIDRs spec)) force daemons s n = (w', (true, n')) →
  s = true ∧ ∀ hn d, (hn, d) ∈ daemons →
    is_Some (GetHostInterfaceIndexMap (c_CIDRs spec) !! hn) → accepted cache spec force hn d.
Proof.
  induction daemons as [|[h0 d0] daemons IH]; intros w s n w' n' H; simpl in H.
  { injection H as <- -> <-. split; [done|]. by intros hn d Hin%elem_of_nil. }
  destruct (GetHostInterfaceIndexMap (c_CIDRs spec) !! h0) as [info|] eqn:Ei.
  - destruct (AddRoutesToHost _ _ _ _ _ _ _ _ _ _) as [w1 [c cf]] eqn:E.
    apply IH in H as [Hs Hall]. destruct c, cf; simpl in Hs; try done. split; [done|].
    intros hn d [[= -> ->]|Hin]%elem_of_cons Hsome; [by eapply AddRoutesToHost_change|by apply Hall].
  - apply IH in H as [Hs Hall]. split; [done|].
    intros hn d [[= -> ->]|Hin]%elem_of_cons Hsome; [by rewrite Ei in Hsome; destruct Hsome|by apply Hall].
Qed.

(** When the operator reports [AllRouteApplied] for a forced
    synchronisation, every known daemon of a host in the plan has answered that
    it applied its routes. *)
Theorem SyncCIDRRoute_success_sound w daemons spec w' hn d :
  IsL3Mode w (c_Config spec) = true →
  SyncCIDRRoute post port w daemons spec true = (w', AllRouteApplied) →
  daemons !! hn = Some d → is_Some (GetHostInterfaceIndexMap (c_CIDRs spec) !! hn) →
  accepted daemons spec true hn d.
Proof.
  intros Hl3. unfold SyncCIDRRoute. rewrite Hl3. unfold AddRoutes.
  destruct (AddRoutes_loop _ _ _ _ _ _ _ _ _ _ _) as [w1 [s n]] eqn:E.
  destruct n; [done|]. destruct s; [|done]. intros _ Hd Hsome.
  apply AddRoutes_loop_success in E as [_ Hall]. apply Hall; [|done]. by apply elem_of_range_map.
Qed.

Lemma AddRoutes_loop_unreachable cache spec entries info force daemons : ∀ w s w' s' n',
  (∀ w a r, ∃ e, snd (post w a r) = PostError e) →
  (∀ hn d, (hn, d) ∈ daemons → is_Some (cache !! hn)) →
  AddRoutes_loop post port w cache spec entries info force daemons s false = (w', (s', n')) →
  n' = false.
Proof.
  intros w s w' s' n' Hpost. revert w s. induction daemons as [|[h0 d0] daemons IH];
    intros w s Hin H; simpl in H; [by injection H|].
  assert (∀ hn d, (hn, d) ∈ daemons → is_Some (cache !! hn)) as Hin'
    by (intros hn d Hd; apply (Hin hn d); by right).
  destruct (info !! h0); [|by eapply IH].
  destruct (AddRoutesToHost _ _ _ _ _ _ _ _ _ _) as [w1 [c cf]] eqn:E.
  assert (cf = false) as ->; [|by eapply IH].
  revert E. unfold AddRoutesToHost, ApplyL3Config, putRouteRequest, Daemon_GetCache, GetCache.
  destruct (Hin h0 d0) as [d1 Hd1]; [by left|]. rewrite Hd1.
  match goal with |- context [post w ?a ?r] =>
    destruct (Hpost w a r) as [e He]; destruct (post w a r) as [w2 ans] end.
  simpl in He. subst ans. by intros [= _ _ <-].
Qed.

(** an unreachable daemon is not noticed: if every request to every daemon
    fails in transport, a synchronisation that is not forced still reports
    [AllRouteApplied], and a forced one never reports [RouteUnknown]. *)
Theorem SyncCIDRRoute_unreachable w daemons spec :
  (∀ w a r, ∃ e, snd (post w a r) = PostError e) → IsL3Mode w (c_Config spec) = true →
  snd (SyncCIDRRoute post port w daemons spec false) = AllRouteApplied ∧
  snd (SyncCIDRRoute post port w daemons spec true) ≠ RouteUnknown.
Proof.
  intros Hpost Hl3. unfold SyncCIDRRoute. rewrite Hl3. unfold AddRoutes.
  assert (∀ hn d, (hn, d) ∈ range_map daemons → is_Some (daemons !! hn)) as Hin
    by (intros hn d Hd%elem_of_range_map; eauto).
  split; destruct (AddRoutes_loop _ _ _ _ _ _ _ _ _ _ _) as [w1 [s n]] eqn:E;
    apply AddRoutes_loop_unreachable in E as ->; try done. by destruct s.
Qed.
End status.

#[local] Existing Instance map_to_list_range.

Definition ex_l3_store : kstore MultiNicNetwork := ex_net_store.

Definition ex_l3_spec : CIDRSpec :=
  mkCIDRSpec (mkPluginConfig "net" "" "192.168.0.0/16" [] 6 2 [] "l3") ex_route_entries.

Definition post_ok (w : kstore MultiNicNetwork) (a : string) (r : L3ConfigRequest) :
  kstore MultiNicNetwork * http_answer := (w, Body (mkRouteResp true "")).

Definition post_dead (w : kstore MultiNicNetwork) (a : string) (r : L3ConfigRequest) :
  kstore MultiNicNetwork * http_answer := (w, PostError "connect: connection refused").

Lemma SyncCIDRRoute_success_sound_witness :
  accepted post_ok "11000" ex_daemons ex_l3_spec true "A" (mkDaemonPod "da" "ns" "1.1.1.1" "A" ∅).
Proof.
  apply (SyncCIDRRoute_success_sound post_ok "11000" ex_l3_store ex_daemons ex_l3_spec ex_l3_store).
  - vm_compute. reflexivity.
  - vm_compute. reflexivity.
  - vm_compute. reflexivity.
  - by vm_compute; eexists.
Defined.

Lemma SyncCIDRRoute_unreachable_witness :
  snd (SyncCIDRRoute post_dead "11000" ex_l3_store ex_daemons ex_l3_spec false) = AllRouteApplied ∧
  snd (SyncCIDRRoute post_dead "11000" ex_l3_store ex_daemons ex_l3_spec true) ≠ RouteUnknown.
Proof.
  apply (SyncCIDRRoute_unreachable post_dead "11000" ex_l3_store ex_daemons ex_l3_spec).
  - intros w a r. eexists. reflexivity.
  - vm_compute. reflexivity.
Defined.
