(* ===== verification/Router.v ===== *)
(** * daemon/src/router: the routing tables of a host

    [rt_table.go] keeps one routing table per CIDR, named in the file
    [/etc/iproute2/rt_tables], with the rule that selects it; [router.go] serves
    the operator's requests to fill and to delete a table.  The kernel is reached
    through the netlink package: the class [Netlink] has the calls the code makes,
    over a kernel state [K] and link handles [L].  Text is split at ASCII white
    space. *)

From S2P Require Import Prelude GoLib Types K8s Cidr Route.

(** ** bufio.Scanner, strings.Fields and strings.Replace *)

Fixpoint split_by (p : Ascii.ascii → bool) (s : string) : list string :=
  match s with
  | EmptyString => [EmptyString]
  | String c s' =>
      if p c then EmptyString :: split_by p s'
      else match split_by p s' with
           | x :: xs => String c x :: xs
           | [] => [String c EmptyString]
           end
  end.

Definition is_space (c : Ascii.ascii) : bool :=
  let n := Z.of_N (Ascii.N_of_ascii c) in (n =? 32) || ((9 <=? n) && (n <=? 13)).

Definition is_empty (s : string) : bool := match s with EmptyString => true | _ => false end.

Definition Fields (s : string) : list string :=
  filter (λ x, is_empty x = false) (split_by is_space s).

Definition newline : Ascii.ascii := Ascii.ascii_of_nat 10.
Definition tab : Ascii.ascii := Ascii.ascii_of_nat 9.
Definition carriage_return : Ascii.ascii := Ascii.ascii_of_nat 13.

(** [bufio.ScanLines] drops one carriage return at the end of a line *)
Fixpoint drop_cr (s : string) : string :=
  match s with
  | EmptyString => EmptyString
  | String c EmptyString => if Ascii.eqb c carriage_return then EmptyString else s
  | String c s' => String c (drop_cr s')
  end.

Definition MaxScanTokenSize : Z := 64 * 1024.

(** the tokens of a [bufio.Scanner], and whether it stopped at a line that does
    not fit its buffer *)
Fixpoint scan (l : list string) : list string * bool :=
  match l with
  | [] => ([], false)
  | x :: l' =>
      if is_empty x && bool_decide (l' = []) then ([], false)
      else if MaxScanTokenSize <=? Z.of_nat (String.length x) then ([], true)
      else let '(r, e) := scan l' in (drop_cr x :: r, e)
  end.

Definition scan_lines (text : string) : list string * bool :=
  scan (Strings.Split text newline).

(** [strings.Replace(s, old, new, 1)] for a non-empty [old] *)
Fixpoint Replace1 (s old new : string) : string :=
  if String.prefix old s
  then new +:+ String.substring (String.length old) (String.length s) s
  else match s with
       | EmptyString => EmptyString
       | String c s' => String c (Replace1 s' old new)
       end.

(** ** The kernel *)

Record KRoute := mkKRoute {
  kr_LinkIndex : Z;
  kr_Scope : Z;
  kr_Dst : option Net.IPNet;
  kr_Gw : option (list Z);
  kr_Table : Z
}.

Record Rule := mkRule { ru_Src : option Net.IPNet; ru_Table : Z }.

#[export] Existing Instance Net.IPNet_eq_dec.
#[export] Instance KRoute_eq_dec : EqDecision KRoute.
Proof. solve_decision. Defined.
#[export] Instance Rule_eq_dec : EqDecision Rule.
Proof. solve_decision. Defined.

Definition SCOPE_UNIVERSE : Z := 0.

(** the calls to netlink; [RouteListFiltered] is called with the table filter and
    [RouteList] with a link, both for IPv4 *)
Class Netlink (K L : Type) := {
  RuleList : K → list Rule + string;
  RuleAdd : K → Rule → K * option string;
  RuleDel : K → Rule → K * option string;
  RouteListFiltered : K → Z → list KRoute + string;
  RouteList : K → L → list KRoute + string;
  RouteAdd : K → KRoute → K * option string;
  RouteDel : K → KRoute → K * option string;
  LinkByName : K → string → K * (L + string);
  Attrs_Index : L → Z;
  Route_String : KRoute → string
}.

(** the file rt_tables: its text when it exists, and its permissions *)
Record rt_file := mkFile { f_text : option string; f_readable : bool; f_writable : bool }.

Definition MIX_TABLE_INDEX : Z := 100.

Section router.
Context {K L : Type} `{EqDecision L} `{Netlink K L} (RT_TABLE_PATH : string).

(** the order in which [range] visits a map keyed by links *)
Context (range_devs : list (L * list KRoute) → list (L * list KRoute)).

Record Host := mkHost { h_kernel : K; h_file : rt_file }.

Definition set_kernel (h : Host) (k : K) : Host := mkHost k (h_file h).
Definition set_file (h : Host) (f : rt_file) : Host := mkHost (h_kernel h) f.

(** reading the file: [os.Open] and [ioutil.ReadFile] *)
Definition ReadFile (f : rt_file) : string + string :=
  match f_text f with
  | Some text => if f_readable f then inl text else inr "permission denied"
  | None => inr "no such file or directory"
  end.

(** [ioutil.WriteFile] creates the file when it is missing *)
Definition WriteFile (f : rt_file) (text : string) : rt_file * option string :=
  if f_writable f then (mkFile (Some text) (f_readable f) true, None)
  else (f, Some "permission denied").

(** [os.OpenFile] with [O_APPEND|O_WRONLY], then [WriteString] *)
Definition AppendFile (f : rt_file) (line : string) : rt_file * option string :=
  match f_text f with
  | None => (f, Some "no such file or directory")
  | Some text => if f_writable f then (mkFile (Some (text +:+ line)) (f_readable f) true, None)
                 else (f, Some "permission denied")
  end.

(** *** rt_table.go *)

Definition getTableLine (tableID : Z) (tableName : string) : string :=
  Strconv.Itoa tableID +:+ String tab (tableName +:+ String newline EmptyString).

(** the body of the loop over the lines *)
Definition read_line (tableName : string) (acc : Z * list Z) (line : string) : Z * list Z :=
  match Fields line with
  | f0 :: f1 :: _ =>
      if Strings.Contains f0 "#" then acc
      else
        let '(tableID, err) := Strconv.ParseInt f0 10 in
        if (err : bool) then acc
        else if bool_decide (f1 = tableName) then (tableID, acc.2)
        else if MIX_TABLE_INDEX <=? tableID then (acc.1, acc.2 ++ [tableID])
        else acc
  | _ => acc
  end.

Definition getTableIDAndReservedIDs (h : Host) (tableName : string) : Z * list Z * option string :=
  match ReadFile (h_file h) with
  | inr err => (-1, [], Some err)
  | inl text =>
      let '(ls, tooLong) := scan_lines text in
      (foldl (read_line tableName) (-1, []) ls,
       if tooLong then Some "bufio.Scanner: token too long" else None)
  end.

(** the first position at which the sorted list leaves the sequence 100, 101, ... *)
Fixpoint find_gap (index : Z) (reservedIDs : list Z) : Z :=
  match reservedIDs with
  | [] => -1
  | tableID :: l =>
      if negb (index + MIX_TABLE_INDEX =? tableID) then index + MIX_TABLE_INDEX
      else find_gap (index + 1) l
  end.

(** every path of [addTable] returns a non-nil error *)
Definition addTable (h : Host) (tableName : string) (reservedIDs : list Z) : Host * Z * option string :=
  let foundID := find_gap 0 (sort_ints reservedIDs) in
  if negb (foundID =? -1) then
    let '(f, err) := AppendFile (h_file h) (getTableLine foundID tableName) in
    (set_file h f, foundID,
     Some ("failed to add table: " +:+ default "<nil>" err +:+ " (" +:+ RT_TABLE_PATH +:+ ")"))
  else (h, foundID, Some "No available ID").

Definition addRule (h : Host) (subnet : string) (tableID : Z) : Host * option string :=
  if tableID =? -1 then (h, Some "add rule tableID = -1")
  else
    let src := snd <$> Net.ParseCIDR subnet in
    let '(k, err) := RuleAdd (h_kernel h) (mkRule src tableID) in
    (set_kernel h k, err).

Definition deleteRule (h : Host) (tableID : Z) : Host * option string :=
  if tableID =? -1 then (h, Some "delete rule tableID = -1")
  else
    let '(k, err) := RuleDel (h_kernel h) (mkRule None tableID) in
    (set_kernel h k, err).

Definition isRuleExist (h : Host) (tableID : Z) : bool :=
  match RuleList (h_kernel h) with
  | inr _ => false
  | inl rules => existsb (λ rule, ru_Table rule =? tableID) rules
  end.

Definition GetTableID (h : Host) (tableName subnet : string) (addIfNotExists : bool)
    : Host * Z * option string :=
  let '(foundID, reservedIDs, err) := getTableIDAndReservedIDs h tableName in
  match err with
  | Some _ => (h, foundID, err)
  | None =>
      let '(h1, foundID, err) :=
        if addIfNotExists && (foundID =? -1) then
          let '(h1, foundID, err) := addTable h tableName reservedIDs in
          match err with
          | None =>
              let '(h2, _) := deleteRule h1 foundID in
              let '(h3, err) := addRule h2 subnet foundID in
              (h3, foundID, err)
          | Some _ => (h1, foundID, err)
          end
        else (h, foundID, err) in
      if negb (foundID =? -1) && negb (isRuleExist h1 foundID) then
        let '(h2, err) := addRule h1 subnet foundID in (h2, foundID, err)
      else (h1, foundID, err)
  end.

(** *** router.go, the listings *)

Definition GetRoutes (h : Host) (tableID : Z) : list KRoute + string :=
  RouteListFiltered (h_kernel h) tableID.

Definition same_route (a b : KRoute) : bool :=
  match kr_Gw a, kr_Gw b, kr_Dst a, kr_Dst b with
  | Some ga, Some gb, Some da, Some db =>
      bool_decide (IPNet_String da = IPNet_String db)
      && bool_decide (Net.ip_string ga = Net.ip_string gb)
  | _, _, _, _ => false
  end.

Definition isRouteExist (h : Host) (cmpRoute : KRoute) (dev : L) : bool * option string :=
  match RouteList (h_kernel h) dev with
  | inr err => (false, Some err)
  | inl routes => (existsb (λ route, same_route route cmpRoute) routes, None)
  end.

(** *** rt_table.go, deletion *)

Definition delete_route (tableID : Z) (k : K) (route : KRoute) : K :=
  if kr_Table route =? tableID then fst (RouteDel k route) else k.

Definition deleteRoutes (h : Host) (tableID : Z) : Host * option string :=
  match GetRoutes h tableID with
  | inr err => (h, Some err)
  | inl routes => (set_kernel h (foldl (delete_route tableID) (h_kernel h) routes), None)
  end.

Definition DeleteTable (h : Host) (tableName : string) (tableID : Z) : Host * option string :=
  let '(h1, err) := deleteRoutes h tableID in
  match err with
  | Some _ => (h1, err)
  | None =>
      match ReadFile (h_file h1) with
      | inr err => (h1, Some err)
      | inl input =>
          let output := Replace1 input (getTableLine tableID tableName) "" in
          let '(f, _) := WriteFile (h_file h1) output in
          deleteRule (set_file h1 f) tableID
      end
  end.

(** *** router.go, the handlers

    A request body is the decoded value or the error of reading or decoding it. *)

Definition deleteL3Config (h : Host) (tableName : string) (tableID : Z) : Host * (bool * string) :=
  if tableID =? -1 then (h, (false, "Failed to get tableID"))
  else
    let '(h1, err) := DeleteTable h tableName tableID in
    match err with
    | Some e => (h1, (false, e))
    | None => (h1, (true, ""))
    end.

(** [devRoutesMap[dev] = append(devRoutesMap[dev], route)] *)
Fixpoint add_dev_route (dev : L) (route : KRoute) (m : list (L * list KRoute))
    : list (L * list KRoute) :=
  match m with
  | [] => [(dev, [route])]
  | (d, rs) :: m' =>
      if decide (d = dev) then (d, rs ++ [route]) :: m'
      else (d, rs) :: add_dev_route dev route m'
  end.

Definition make_route (dev : L) (req : HostRoute) (tableID : Z) : KRoute :=
  mkKRoute (Attrs_Index dev) SCOPE_UNIVERSE (snd <$> Net.ParseCIDR (hr_Subnet req))
    (Net.ParseIP (hr_NextHop req)) tableID.

Fixpoint dev_routes (k : K) (tableID : Z) (routes : list HostRoute) (m : list (L * list KRoute))
    : K * list (L * list KRoute) :=
  match routes with
  | [] => (k, m)
  | hostRoute :: rest =>
      let '(k', dev) := LinkByName k (hr_InterfaceName hostRoute) in
      match dev with
      | inr _ => dev_routes k' tableID rest m
      | inl dev => dev_routes k' tableID rest (add_dev_route dev (make_route dev hostRoute tableID) m)
      end
  end.

Definition getRoutesFromL3Config (h : Host) (req : L3ConfigRequest) (addIfNotExists : bool)
    : Host * (string * Z * list (L * list KRoute) * option string) :=
  let h1 :=
    if l3_Force req then
      let '(h1, tableID, err) := GetTableID h (l3_Name req) (l3_Subnet req) false in
      match err with
      | None => fst (deleteL3Config h1 (l3_Name req) tableID)
      | Some _ => h1
      end
    else h in
  let '(h2, tableID, err) := GetTableID h1 (l3_Name req) (l3_Subnet req) addIfNotExists in
  if (tableID =? -1) || match err with Some _ => true | None => false end
  then (h2, (l3_Name req, tableID, [], err))
  else
    let '(k, m) := dev_routes (h_kernel h2) tableID (l3_Routes req) [] in
    (set_kernel h2 k, (l3_Name req, tableID, m, err)).

Definition getRoutesFromRequest (h : Host) (r : L3ConfigRequest + string) (addIfNotExists : bool)
    : Host * (string * Z * list (L * list KRoute) * option string) :=
  match r with
  | inr err => (h, ("", -1, [], Some err))
  | inl req => getRoutesFromL3Config h req addIfNotExists
  end.

(** one route of [ApplyL3Config] *)
Definition apply_route (dev : L) (acc : Host * (string * bool)) (route : KRoute)
    : Host * (string * bool) :=
  let '(h, (res_msg, success)) := acc in
  if fst (isRouteExist h route dev)
  then (h, (res_msg +:+ Route_String route +:+ " route exists;", success))
  else
    let '(k, err) := RouteAdd (h_kernel h) route in
    match err with
    | Some e => (set_kernel h k, (res_msg +:+ "AddRouteError " +:+ e +:+ ";", false))
    | None => (set_kernel h k, (res_msg +:+ "Add route " +:+ Route_String route +:+ ";", success))
    end.

Definition apply_routes (h : Host) (m : list (L * list KRoute)) : Host * (string * bool) :=
  foldl (λ acc dr, foldl (apply_route dr.1) acc dr.2) (h, ("", true)) (range_devs m).

Definition ApplyL3Config (h : Host) (r : L3ConfigRequest + string) : Host * RouteUpdateResponse :=
  let '(h1, (_, _, devRoutesMap, err)) := getRoutesFromRequest h r true in
  match err with
  | None =>
      let '(h2, (res_msg, success)) := apply_routes h1 devRoutesMap in
      (h2, mkRouteResp success res_msg)
  | Some e => (h1, mkRouteResp false ("AddRoutesError " +:+ e +:+ ";"))
  end.

Definition DeleteL3Config (h : Host) (r : L3ConfigRequest + string) : Host * RouteUpdateResponse :=
  let '(h1, (tableName, tableID, _, _)) := getRoutesFromRequest h r false in
  let '(h2, (success, res_msg)) := deleteL3Config h1 tableName tableID in
  (h2, mkRouteResp success res_msg).

Definition getRouteFromRequest (h : Host) (r : HostRoute + string) : Host * ((KRoute * L) + string) :=
  match r with
  | inr err => (h, inr err)
  | inl req =>
      let '(k, dev) := LinkByName (h_kernel h) (hr_InterfaceName req) in
      (set_kernel h k,
       match dev with
       | inr err => inr err
       | inl dev => inl (make_route dev req 0, dev)
       end)
  end.

(** the route a deletion by destination passes to the kernel *)
Definition dst_only (dst : option Net.IPNet) : KRoute := mkKRoute 0 SCOPE_UNIVERSE dst None 0.

Definition AddRoute (h : Host) (r : HostRoute + string) : Host * RouteUpdateResponse :=
  let '(h1, res) := getRouteFromRequest h r in
  match res with
  | inr err => (h1, mkRouteResp false ("GetRouteError " +:+ err +:+ ";"))
  | inl (route, dev) =>
      if fst (isRouteExist h1 route dev) then (h1, mkRouteResp false "Route exists")
      else
        let '(k1, _) := RouteDel (h_kernel h1) (dst_only (kr_Dst route)) in
        let '(k2, err) := RouteAdd k1 route in
        (set_kernel h1 k2,
         match err with
         | Some e => mkRouteResp false ("AddRouteError " +:+ e +:+ ";")
         | None => mkRouteResp true ""
         end)
  end.

Definition DeleteRoute (h : Host) (r : HostRoute + string) : Host * RouteUpdateResponse :=
  let '(h1, res) := getRouteFromRequest h r in
  match res with
  | inr err => (h1, mkRouteResp false ("GetRouteError " +:+ err +:+ ";"))
  | inl (route, _) =>
      let '(k, err) := RouteDel (h_kernel h1) (dst_only (kr_Dst route)) in
      (set_kernel h1 k,
       match err with
       | Some e => mkRouteResp false ("DeleteRouteError " +:+ e +:+ ";")
       | None => mkRouteResp true ("Delete route " +:+ Route_String route +:+ ";")
       end)
  end.
End router.

Arguments Host K : clear implicits.
Arguments mkHost {K} _ _.
Arguments h_kernel {K} _.
Arguments h_file {K} _.
