(* ===== verification/RouterSpec.v ===== *)
(** * Lemmas on the routing table file and on the search for a table ID *)

From S2P Require Import Prelude GoLib GoText Types K8s Cidr Route Router.

Lemma uint_digits_nonneg s n u :
  0 ≤ n → Strconv.uint_digits 10 s n = Strconv.UVal u → 0 ≤ u.
Proof.
  revert n. induction s as [|c s IH]; simpl; intros n Hn; [by intros [= <-]|].
  destruct (Strconv.digit 10 c) as [d|] eqn:Hc; [|done].
  destruct (_ <=? _); [done|]. unfold Strconv.digit in Hc.
  destruct (_ && _) eqn:Hd in Hc; simplify_eq. zbool. apply IH. lia.
Qed.

Lemma ParseInt_range s n : Strconv.ParseInt s 10 = (n, false) → n < 2 ^ 63.
Proof.
  unfold Strconv.ParseInt. intros H.
  destruct (match s with String "+"%char s' => _ | String "-"%char s' => _ | _ => _ end)
    as [neg body].
  unfold Strconv.ParseUint in H.
  assert (Hu : ∀ u, Strconv.uint_digits 10 body 0 = Strconv.UVal u → 0 ≤ u)
    by (intros u; by apply uint_digits_nonneg).
  destruct body as [|c body]; [done|].
  destruct (Strconv.uint_digits 10 (String c body) 0) as [u| |] eqn:E;
    [|done|by destruct neg].
  specialize (Hu u eq_refl). destruct neg; simpl in H.
  - destruct (_ <? _); simplify_eq. lia.
  - destruct (Z.leb_spec (2 ^ 63) u); simplify_eq; lia.
Qed.

(** ** Fields and lines *)

Lemma split_by_none p s :
  all_chars (λ c, negb (p c)) s = true → split_by p s = [s].
Proof.
  induction s as [|c s IH]; simpl; [done|]. intros [Hc Hs]%andb_true_iff.
  rewrite IH by done. by destruct (p c).
Qed.

Lemma split_by_app p a c b :
  all_chars (λ d, negb (p d)) a = true → p c = true →
  split_by p (a +:+ String c b) = a :: split_by p b.
Proof.
  intros Ha Hc. induction a as [|d a IH].
  { rewrite str_app_nil. simpl. by rewrite Hc. }
  rewrite str_app_cons. simpl in *. apply andb_true_iff in Ha as [Hd Ha].
  rewrite IH by done. by destruct (p d).
Qed.

(** a text that is one field *)
Definition is_field (s : string) : Prop :=
  s ≠ "" ∧ all_chars (λ c, negb (is_space c)) s = true.

Lemma digit_not_space c : is_digit c = true → negb (is_space c) = true.
Proof.
  unfold is_digit, is_space. intros H. zbool. apply negb_true_iff, orb_false_iff.
  split; [apply Z.eqb_neq; lia|]. apply andb_false_iff. right. apply Z.leb_gt. lia.
Qed.

Lemma digit_not_hash c : is_digit c = true → negb (Ascii.eqb c "#"%char) = true.
Proof. destruct (Ascii.eqb_spec c "#"%char) as [->|]; done. Qed.

Definition line_body (tableID : Z) (tableName : string) : string :=
  Strconv.Itoa tableID +:+ String tab tableName.

Lemma getTableLine_body id name :
  getTableLine id name = line_body id name +:+ String newline "".
Proof.
  unfold getTableLine, line_body. generalize (Strconv.Itoa id). intros s.
  induction s as [|c s IH]; [done|]. rewrite !str_app_cons. by rewrite IH.
Qed.

Lemma Fields_line id name :
  0 < id → is_field name → Fields (line_body id name) = [Strconv.Itoa id; name].
Proof.
  intros Hid [Hne Hn]. unfold Fields, line_body. pose proof (Itoa_digits id Hid) as Hd.
  rewrite split_by_app; [|by eapply all_chars_impl; [apply digit_not_space|]|done].
  rewrite split_by_none by done. pose proof (Itoa_nonempty id Hid).
  destruct (Strconv.Itoa id); [done|]. by destruct name.
Qed.

(** the effect of a line that lists the table *)
Lemma read_line_hit name id acc :
  0 < id < 2 ^ 63 → is_field name →
  read_line name acc (line_body id name) = (id, acc.2).
Proof.
  intros Hid Hn. unfold read_line. rewrite Fields_line by (done || lia).
  rewrite no_char_Contains.
  2:{ rewrite <- all_chars_no_char. eapply all_chars_impl; [apply digit_not_hash|].
      apply Itoa_digits. lia. }
  rewrite ParseInt_Itoa by done. by rewrite bool_decide_eq_true_2.
Qed.

Lemma line_body_no_newline id name :
  0 < id → is_field name → Strings.no_char newline (line_body id name) = true.
Proof.
  intros Hid [_ Hn]. unfold line_body. rewrite <- all_chars_no_char, all_chars_app.
  apply andb_true_iff. split.
  - eapply all_chars_impl; [|by apply Itoa_digits].
    intros c Hc. destruct (Ascii.eqb_spec c newline) as [->|]; done.
  - cbn [all_chars]. apply andb_true_iff. split; [done|].
    eapply all_chars_impl; [|exact Hn].
    intros c Hc. destruct (Ascii.eqb_spec c newline) as [->|]; done.
Qed.

Lemma drop_cr_id s :
  all_chars (λ c, negb (Ascii.eqb c carriage_return)) s = true → drop_cr s = s.
Proof.
  induction s as [|c s IH]; [done|]. cbn [all_chars]. intros [Hc Hs]%andb_true_iff.
  destruct s as [|d s]; [cbn; by destruct (Ascii.eqb c _)|].
  change (drop_cr (String c (String d s))) with (String c (drop_cr (String d s))).
  by rewrite IH.
Qed.

Lemma drop_cr_body id name :
  0 < id → is_field name → drop_cr (line_body id name) = line_body id name.
Proof.
  intros Hid [_ Hn]. apply drop_cr_id. unfold line_body. rewrite all_chars_app.
  apply andb_true_iff. split.
  - eapply all_chars_impl; [|by apply Itoa_digits].
    intros c Hc. destruct (Ascii.eqb_spec c carriage_return) as [->|]; done.
  - cbn [all_chars]. apply andb_true_iff. split; [done|].
    eapply all_chars_impl; [|exact Hn].
    intros c Hc. destruct (Ascii.eqb_spec c carriage_return) as [->|]; done.
Qed.

(** one more line at the end of a text *)
Lemma scan_snoc l r b :
  scan (l ++ [""]) = (r, false) → b ≠ "" → Z.of_nat (String.length b) < MaxScanTokenSize →
  scan (l ++ [b; ""]) = (r ++ [drop_cr b], false).
Proof.
  intros Hl Hb Hlen. revert r Hl. induction l as [|x l IH]; intros r Hl.
  - cbn in Hl. simplify_eq. cbn [app scan].
    destruct b as [|c b]; [done|]. cbn [is_empty andb].
    destruct (Z.leb_spec MaxScanTokenSize (Z.of_nat (String.length (String c b)))); [lia|done].
  - cbn [app scan] in *.
    rewrite bool_decide_eq_false_2 in Hl by (by destruct l).
    rewrite bool_decide_eq_false_2 by (by destruct l).
    rewrite andb_false_r in *. destruct (_ <=? _); [done|].
    destruct (scan (l ++ [""])) as [r' e]. simplify_eq. by rewrite (IH r').
Qed.

(** the text ends at a line end *)
Definition whole_lines (text : string) : Prop :=
  text = "" ∨ ∃ t, text = t +:+ String newline "".

Lemma scan_lines_append text ls id name :
  whole_lines text → scan_lines text = (ls, false) → 0 < id → is_field name →
  Z.of_nat (String.length (line_body id name)) < MaxScanTokenSize →
  scan_lines (text +:+ getTableLine id name) = (ls ++ [line_body id name], false).
Proof.
  intros Hw Hs Hid Hn Hlen. unfold scan_lines in *. rewrite getTableLine_body.
  assert (Hb : line_body id name ≠ "")
    by (unfold line_body; by destruct (Strconv.Itoa id)).
  assert (Hsp : Strings.Split (line_body id name +:+ String newline "") newline
                = [line_body id name; ""]).
  { rewrite split_app by (by apply line_body_no_newline). done. }
  rewrite <- (drop_cr_body id name) at 2 by done. destruct Hw as [->|[t ->]].
  - cbn in Hs. simplify_eq. rewrite str_app_nil, Hsp. by apply (scan_snoc []).
  - rewrite split_app_sep in Hs. rewrite str_app_assoc, str_app_cons, str_app_nil.
    rewrite split_app_sep, Hsp. by apply scan_snoc.
Qed.

(** ** Removing the line again *)

Lemma prefix_app_inv l a b :
  String.prefix l (a +:+ b) = true → (String.length l ≤ String.length a)%nat →
  String.prefix l a = true.
Proof.
  revert a. induction l as [|c l IH]; intros a; [by destruct a|].
  destruct a as [|d a]; [simpl; lia|]. rewrite str_app_cons. simpl.
  destruct (ascii_dec c d); [|done]. intros. apply IH; [done|lia].
Qed.

Lemma prefix_refl_app a b : String.prefix a (a +:+ b) = true.
Proof.
  induction a as [|c a IH]; [by destruct b|]. rewrite str_app_cons. simpl.
  by destruct (ascii_dec c c).
Qed.

Lemma length_str_app a b :
  String.length (a +:+ b) = (String.length a + String.length b)%nat.
Proof. induction a as [|c a IH]; [done|]. rewrite str_app_cons. simpl. by rewrite IH. Qed.

Lemma no_char_get c s n : Strings.no_char c s = true → String.get n s ≠ Some c.
Proof.
  revert n. induction s as [|d s IH]; intros [|n]; simpl; [done..| |].
  - intros [Hd _]%andb_true_iff [= ->]. by rewrite Ascii.eqb_refl in Hd.
  - intros [_ Hs]%andb_true_iff. by apply IH.
Qed.

Lemma prefix_get l s n :
  String.prefix l s = true → (n < String.length l)%nat → String.get n s = String.get n l.
Proof.
  revert s n. induction l as [|c l IH]; intros [|d s] n; simpl; try (done || lia).
  destruct (ascii_dec c d) as [->|]; [|done]. intros Hp Hn.
  destruct n as [|n]; [done|]. apply IH; [done|lia].
Qed.

(** a line does not occur across the place where it was appended *)
Lemma line_not_across body t :
  Strings.no_char newline body = true → t ≠ "" →
  String.prefix (body +:+ String newline "") t = false →
  String.prefix (body +:+ String newline "") (t +:+ body +:+ String newline "") = false.
Proof.
  intros Hb Ht Hn. apply not_true_iff_false. intros Hp.
  destruct (decide (String.length body + 1 ≤ String.length t)%nat) as [Hle|Hgt].
  { apply prefix_app_inv in Hp; [by rewrite Hp in Hn|]. rewrite length_str_app. simpl. lia. }
  pose proof (prefix_get _ _ (String.length body) Hp) as Hg.
  rewrite length_str_app in Hg. simpl in Hg. specialize (Hg ltac:(lia)).
  replace (String.length body) with (0 + String.length body)%nat in Hg at 2 by lia.
  rewrite <- append_correct2 in Hg. simpl in Hg.
  assert (String.length t ≠ 0%nat) by (by destruct t).
  replace (String.length body)
    with ((String.length body - String.length t) + String.length t)%nat in Hg by lia.
  rewrite <- append_correct2, <- append_correct1 in Hg by lia.
  by apply no_char_get in Hg.
Qed.

Lemma substring_0_nil l s : String.substring (String.length s) l s = "".
Proof. revert l. induction s as [|c s IH]; intros l; simpl; [by destruct l|apply IH]. Qed.

Lemma Replace1_append text body :
  Strings.no_char newline body = true →
  Strings.Contains text (body +:+ String newline "") = false →
  Replace1 (text +:+ body +:+ String newline "") (body +:+ String newline "") "" = text.
Proof.
  intros Hb. induction text as [|c text IH]; intros Hc.
  - rewrite str_app_nil. set (line := body +:+ String newline "") in *.
    assert (Hp : String.prefix line line = true)
      by (rewrite <- (str_app_nil_r line) at 2; apply prefix_refl_app).
    assert (Hr : Replace1 line line ""
      = "" +:+ String.substring (String.length line) (String.length line) line)
      by (destruct line; cbn [Replace1]; by rewrite Hp).
    by rewrite Hr, substring_0_nil.
  - cbn [Strings.Contains] in Hc. apply orb_false_iff in Hc as [Hp Hc].
    pose proof (line_not_across body (String c text) Hb ltac:(done) Hp) as Hn.
    rewrite str_app_cons in *. cbn [Replace1]. by rewrite Hn, IH.
Qed.

(** ** The search for a free ID *)

Lemma find_gap_spec i l :
  StronglySorted Z.lt l → Forall (λ x, i + MIX_TABLE_INDEX ≤ x) l → 0 ≤ i →
  (find_gap i l = -1 ∧ ∀ x, x ∈ l ↔ i + MIX_TABLE_INDEX ≤ x < i + MIX_TABLE_INDEX + Z.of_nat (length l)) ∨
  (i + MIX_TABLE_INDEX ≤ find_gap i l ∧ (find_gap i l ∉ l) ∧
   (∀ x, i + MIX_TABLE_INDEX ≤ x < find_gap i l → x ∈ l) ∧
   ∃ x, x ∈ l ∧ find_gap i l < x).
Proof.
  unfold MIX_TABLE_INDEX. revert i.
  induction l as [|y l IH]; intros i Hs Hl Hi; cbn [find_gap].
  { left. split; [done|]. intros x. simpl. split; [by intros ?%not_elem_of_nil|lia]. }
  apply Forall_cons in Hl as [Hy Hl]. apply StronglySorted_cons in Hs as [Hyl Hs].
  unfold MIX_TABLE_INDEX. rewrite Forall_forall in Hyl.
  destruct (Z.eqb_spec (i + 100) y) as [<-|Hne]; simpl.
  - destruct (IH (i + 1)) as [[Hf Hx]|(H1 & H2 & H3 & x & H4 & H5)]; [done| |lia| |].
    { apply Forall_forall. intros x Hx. specialize (Hyl x Hx). lia. }
    + left. split; [done|]. intros x. rewrite elem_of_cons, Hx. lia.
    + right. split_and!; [lia| | |].
      * rewrite not_elem_of_cons. split; [lia|done].
      * intros z Hz. rewrite elem_of_cons.
        destruct (decide (z = i + 100)); [by left|right; apply H3; lia].
      * exists x. split; [by right|done].
  - right. split_and!; [lia| |lia|].
    + rewrite not_elem_of_cons. split; [done|]. intros Hx. specialize (Hyl _ Hx). lia.
    + exists y. split; [by left|lia].
Qed.

(** the reserved IDs the file gives: at least 100, and 64-bit integers *)
Lemma read_lines_reserved name ls acc :
  Forall (λ x, MIX_TABLE_INDEX ≤ x < 2 ^ 63) acc.2 →
  Forall (λ x, MIX_TABLE_INDEX ≤ x < 2 ^ 63) (foldl (read_line name) acc ls).2.
Proof.
  revert acc. induction ls as [|l ls IH]; intros acc Hacc; [done|]. simpl. apply IH.
  unfold read_line. destruct (Fields l) as [|f0 [|f1 fs]]; [done..|].
  destruct (Strings.Contains f0 "#"); [done|].
  destruct (Strconv.ParseInt f0 10) as [n [|]] eqn:E; [done|].
  case_bool_decide; [done|]. destruct (Z.leb_spec MIX_TABLE_INDEX n); [|done].
  apply Forall_app. split; [done|]. apply Forall_singleton.
  split; [done|by apply ParseInt_range in E].
Qed.
