(* ===== verification/RouterProps.v ===== *)
(** * The routing tables of a host: correctness

    What the code relies on of netlink is the class [NetlinkLaws], relative to the
    routes and rules the kernel holds; [memkernel] is an instance. *)

From S2P Require Import Prelude GoLib Types K8s Cidr Route Router RouterSpec.

Definition RT_TABLE_MAIN : Z := 254.

Class NetlinkLaws (K L : Type) `{Netlink K L}
    (routes_of : K → list KRoute) (rules_of : K → list Rule) := {
  (** adding a rule keeps the others *)
  ruleadd_rules : ∀ k k' r e, RuleAdd k r = (k', e) → ∀ r', r' ∈ rules_of k → r' ∈ rules_of k';
  ruleadd_routes : ∀ k k' r e, RuleAdd k r = (k', e) → routes_of k' = routes_of k;
  (** a deletion by table takes rules of that table only *)
  ruledel_rules : ∀ k k' t e, RuleDel k (mkRule None t) = (k', e) →
    ∀ r', ru_Table r' ≠ t → r' ∈ rules_of k → r' ∈ rules_of k';
  ruledel_routes : ∀ k k' r e, RuleDel k r = (k', e) → routes_of k' = routes_of k;
  (** a listing with the table filter has the routes of the table *)
  filtered_spec : ∀ k t rs, t ≠ 0 → RouteListFiltered k t = inl rs →
    ∀ r, r ∈ rs ↔ r ∈ routes_of k ∧ kr_Table r = t;
  (** a listing by link shows the main table *)
  list_main : ∀ k l rs, RouteList k l = inl rs →
    ∀ r, r ∈ rs → r ∈ routes_of k ∧ kr_Table r = RT_TABLE_MAIN;
  (** a route is added once *)
  add_exists : ∀ k r, kr_Table r ≠ 0 → r ∈ routes_of k → ∃ k' e, RouteAdd k r = (k', Some e);
  add_frame : ∀ k k' r e, RouteAdd k r = (k', e) → kr_Table r ≠ 0 →
    ∀ r', r' ≠ r → r' ∈ routes_of k' ↔ r' ∈ routes_of k;
  add_keeps : ∀ k k' r e, RouteAdd k r = (k', e) → ∀ r', r' ∈ routes_of k → r' ∈ routes_of k';
  add_rules : ∀ k k' r e, RouteAdd k r = (k', e) → rules_of k' = rules_of k;
  (** a deletion touches the table it names *)
  del_frame : ∀ k k' r e, RouteDel k r = (k', e) → kr_Table r ≠ 0 →
    ∀ r', kr_Table r' ≠ kr_Table r → r' ∈ routes_of k' ↔ r' ∈ routes_of k;
  del_gone : ∀ k k' r, RouteDel k r = (k', None) → kr_Table r ≠ 0 → r ∉ routes_of k';
  del_shrinks : ∀ k k' r e, RouteDel k r = (k', e) → ∀ r', r' ∈ routes_of k' → r' ∈ routes_of k;
  del_rules : ∀ k k' r e, RouteDel k r = (k', e) → rules_of k' = rules_of k;
  link_routes : ∀ k k' n l, LinkByName k n = (k', l) → routes_of k' = routes_of k;
  link_rules : ∀ k k' n l, LinkByName k n = (k', l) → rules_of k' = rules_of k
}.

(** ** A kernel in memory *)

Record memkernel := mkMem {
  m_rules : list Rule;
  m_routes : list KRoute;
  m_links : list (string * Z);
  m_handles : Z
}.

Definition main_if_0 (r : KRoute) : KRoute :=
  if kr_Table r =? 0
  then mkKRoute (kr_LinkIndex r) (kr_Scope r) (kr_Dst r) (kr_Gw r) RT_TABLE_MAIN else r.

(** the rules without the first of the table *)
Fixpoint del_first (t : Z) (l : list Rule) : list Rule :=
  match l with
  | [] => []
  | r :: l' => if ru_Table r =? t then l' else r :: del_first t l'
  end.

(** a deleted route agrees on the table, the destination and the gateway, when given *)
Definition route_match (r x : KRoute) : bool :=
  (kr_Table x =? kr_Table (main_if_0 r)) && bool_decide (kr_Dst x = kr_Dst r)
  && (bool_decide (kr_Gw r = None) || bool_decide (kr_Gw x = kr_Gw r)).

#[export] Instance mem_netlink : Netlink memkernel (Z * Z) := {|
  RuleList k := inl (m_rules k);
  RuleAdd k r :=
    if bool_decide (r ∈ m_rules k) then (k, Some "file exists")
    else (mkMem (m_rules k ++ [r]) (m_routes k) (m_links k) (m_handles k), None);
  RuleDel k r :=
    if existsb (λ x, ru_Table x =? ru_Table r) (m_rules k)
    then (mkMem (del_first (ru_Table r) (m_rules k)) (m_routes k) (m_links k) (m_handles k), None)
    else (k, Some "no such file or directory");
  RouteListFiltered k t := inl (filter (λ r, kr_Table r = t) (m_routes k));
  RouteList k l :=
    inl (filter (λ r, kr_Table r = RT_TABLE_MAIN ∧ kr_LinkIndex r = l.2) (m_routes k));
  RouteAdd k r :=
    if bool_decide (main_if_0 r ∈ m_routes k) then (k, Some "file exists")
    else (mkMem (m_rules k) (m_routes k ++ [main_if_0 r]) (m_links k) (m_handles k), None);
  RouteDel k r :=
    if existsb (route_match r) (m_routes k)
    then (mkMem (m_rules k) (filter (λ x, route_match r x = false) (m_routes k)) (m_links k)
            (m_handles k), None)
    else (k, Some "no such process");
  LinkByName k n :=
    match list_find (λ x, x.1 = n) (m_links k) with
    | Some (_, (_, i)) =>
        (mkMem (m_rules k) (m_routes k) (m_links k) (m_handles k + 1), inl (m_handles k, i))
    | None => (k, inr "Link not found")
    end;
  Attrs_Index l := l.2;
  Route_String r := default "" (IPNet_String <$> kr_Dst r)
|}.

Lemma del_first_keeps t l r : ru_Table r ≠ t → r ∈ l → r ∈ del_first t l.
Proof.
  intros Hr. induction l as [|x l IH]; simpl; [done|].
  rewrite elem_of_cons. destruct (Z.eqb_spec (ru_Table x) t).
  - intros [->|?]; done.
  - rewrite elem_of_cons. intros [->|?]; auto.
Qed.

Lemma main_if_0_id r : kr_Table r ≠ 0 → main_if_0 r = r.
Proof. intros. unfold main_if_0. by destruct (Z.eqb_spec (kr_Table r) 0). Qed.

Lemma route_match_table r x :
  kr_Table r ≠ 0 → route_match r x = true → kr_Table x = kr_Table r.
Proof.
  intros Hr. unfold route_match. rewrite main_if_0_id by done. intros H. zbool. done.
Qed.

Lemma route_match_refl r : kr_Table r ≠ 0 → route_match r r = true.
Proof.
  intros. unfold route_match. rewrite main_if_0_id by done.
  rewrite Z.eqb_refl, (bool_decide_eq_true_2 (kr_Dst r = kr_Dst r)) by done.
  by rewrite (bool_decide_eq_true_2 (kr_Gw r = kr_Gw r)), orb_true_r.
Qed.

#[export] Instance mem_laws : NetlinkLaws memkernel (Z * Z) m_routes m_rules.
Proof.
  split; simpl.
  - intros k k' r e. case_bool_decide; intros [= <- <-] r' Hr'; simpl; [done|].
    apply elem_of_app. by left.
  - intros k k' r e. by case_bool_decide; intros [= <- <-].
  - intros k k' t e. destruct (existsb _ _); intros [= <- <-] r' Hr Hin; simpl; [|done].
    by apply del_first_keeps.
  - intros k k' r e. by destruct (existsb _ _); intros [= <- <-].
  - intros k t rs _ [= <-] r. rewrite list_elem_of_filter. tauto.
  - intros k l rs [= <-] r. rewrite list_elem_of_filter. tauto.
  - intros k r Hr Hin. rewrite main_if_0_id, bool_decide_eq_true_2 by done. by eauto.
  - intros k k' r e. case_bool_decide; intros [= <- <-] Hr r' Hne; simpl; [done|].
    rewrite main_if_0_id, elem_of_app, list_elem_of_singleton by done. tauto.
  - intros k k' r e. case_bool_decide; intros [= <- <-] r' Hr'; simpl; [done|].
    apply elem_of_app. by left.
  - intros k k' r e. by case_bool_decide; intros [= <- <-].
  - intros k k' r e. destruct (existsb _ _); intros [= <- <-] Hr r' Hne; simpl; [|done].
    rewrite list_elem_of_filter. split; [tauto|]. split; [|done].
    apply not_true_iff_false. intros Hm. by apply route_match_table in Hm.
  - intros k k' r. destruct (existsb _ _); intros [= <-] Hr; simpl.
    rewrite list_elem_of_filter. rewrite route_match_refl by done. by intros [? _].
  - intros k k' r e. destruct (existsb _ _); intros [= <- <-] r'; simpl; [|done].
    rewrite list_elem_of_filter. tauto.
  - intros k k' r e. by destruct (existsb _ _); intros [= <- <-].
  - intros k k' n l. by destruct (list_find _ _) as [[? [? ?]]|]; intros [= <- <-].
  - intros k k' n l. by destruct (list_find _ _) as [[? [? ?]]|]; intros [= <- <-].
Qed.

(** ** The table of a configuration *)

Section router_props.
Context {K L : Type} `{EqDecision L} `{Netlink K L} (path : string).
Context (range_devs : list (L * list KRoute) → list (L * list KRoute)).
Implicit Types (h : Host K).







(** ** The routes and rules of the kernel *)

Context (routes_of : K → list KRoute) (rules_of : K → list Rule)
  `{!NetlinkLaws K L routes_of rules_of}.

(** [h'] differs from [h] in the routes and rules of table [id] only *)
Definition only_table (id : Z) (k k' : K) : Prop :=
  (∀ r, kr_Table r ≠ id → r ∈ routes_of k' ↔ r ∈ routes_of k) ∧
  (∀ ru, ru_Table ru ≠ id → ru ∈ rules_of k → ru ∈ rules_of k').

Lemma only_table_refl id k : only_table id k k.
Proof. by split. Qed.

Lemma only_table_trans id k1 k2 k3 :
  only_table id k1 k2 → only_table id k2 k3 → only_table id k1 k3.
Proof.
  intros [R1 U1] [R2 U2]. split.
  - intros r Hr. by rewrite R2, R1.
  - intros ru Hru Hin. auto.
Qed.



Lemma dev_routes_only t k id routes m k' m' :
  dev_routes k id routes m = (k', m') →
  only_table t k k' ∧ routes_of k' = routes_of k.
Proof.
  revert k m. induction routes as [|r routes IH]; intros k m; cbn [dev_routes].
  { by intros [= <- <-]. }
  destruct (LinkByName k _) as [k1 dev] eqn:E.
  assert (Hk : only_table t k k1 ∧ routes_of k1 = routes_of k).
  { split; [split|]; intros; by rewrite ?(link_routes _ _ _ _ E), ?(link_rules _ _ _ _ E). }
  intros Hd. assert (Hk' : only_table t k1 k' ∧ routes_of k' = routes_of k1)
    by (destruct dev; by eapply IH).
  destruct Hk as [Ho Hr], Hk' as [Ho' Hr'].
  split; [by eapply only_table_trans|congruence].
Qed.











(** ** Applying a configuration that is in place *)

Lemma add_dev_route_tables id dev r (m : list (L * list KRoute)) :
  kr_Table r = id → Forall (λ dr, Forall (λ x, kr_Table x = id) dr.2) m →
  Forall (λ dr, Forall (λ x, kr_Table x = id) dr.2) (add_dev_route dev r m).
Proof.
  intros Hr. induction 1 as [|[d rs] m Hrs Hm IH]; cbn [add_dev_route].
  { by repeat constructor. }
  case_decide; constructor; cbn in *; try done.
  apply Forall_app. split; [done|]. by apply Forall_singleton.
Qed.

Lemma dev_routes_tables k id routes m k' m' :
  Forall (λ dr, Forall (λ x, kr_Table x = id) dr.2) m →
  dev_routes k id routes m = (k', m') →
  Forall (λ dr, Forall (λ x, kr_Table x = id) dr.2) m'.
Proof.
  revert k m. induction routes as [|r routes IH]; intros k m Hm; cbn [dev_routes].
  { by intros [= _ <-]. }
  destruct (LinkByName k _) as [k1 [dev|]]; [|by apply IH].
  apply IH. by apply add_dev_route_tables.
Qed.

(** the kernel holds [route] and the main table has no route like it *)
Definition in_place (route : KRoute) (k : K) : Prop :=
  route ∈ routes_of k ∧
  ∀ r, r ∈ routes_of k → kr_Table r = RT_TABLE_MAIN → same_route r route = false.

Lemma in_place_hidden route h dev :
  in_place route (h_kernel h) → fst (isRouteExist h route dev) = false.
Proof.
  intros [_ Hm]. unfold isRouteExist.
  destruct (RouteList _ dev) as [rs|] eqn:E; [|done]. cbn.
  apply not_true_iff_false. rewrite existsb_exists. intros (r & Hr & Hs).
  rewrite <- list_elem_of_In in Hr. destruct (list_main _ _ _ E r Hr) as [Hin Ht].
  by rewrite Hm in Hs.
Qed.

Lemma apply_route_in_place route dev h acc b r :
  kr_Table r ≠ 0 → kr_Table r ≠ RT_TABLE_MAIN → in_place route (h_kernel h) →
  in_place route (h_kernel (fst (apply_route dev (h, (acc, b)) r))).
Proof.
  intros H0 Hmain [Hin Hm]. unfold apply_route.
  destruct (fst (isRouteExist h r dev)); [by split|].
  destruct (RouteAdd _ r) as [k e] eqn:E.
  assert (Hk : in_place route k).
  { split; [by eapply add_keeps|]. intros x Hx Ht. apply Hm; [|done].
    apply (add_frame _ _ _ _ E H0); [congruence|done]. }
  by destruct e.
Qed.

Lemma apply_route_sticky dev h acc r :
  snd (snd (apply_route dev (h, (acc, false)) r)) = false.
Proof.
  unfold apply_route. destruct (fst (isRouteExist h r dev)); [done|]. by destruct (RouteAdd _ r) as [k [e|]].
Qed.

(** one list of routes: the success flag falls at [route] and stays *)
Lemma apply_list_fails id route dev rs h acc b :
  id ≠ 0 → id ≠ RT_TABLE_MAIN → kr_Table route = id →
  Forall (λ x, kr_Table x = id) rs → in_place route (h_kernel h) →
  let a := foldl (apply_route dev) (h, (acc, b)) rs in
  in_place route (h_kernel a.1) ∧ (b = false ∨ route ∈ rs → a.2.2 = false).
Proof.
  intros H0 Hmain Ht. revert h acc b.
  induction rs as [|r rs IH]; intros h acc b Hrs Hp; cbn zeta.
  { split; [done|]. by intros [->|?%not_elem_of_nil]. }
  apply Forall_cons in Hrs as [Hr Hrs]. cbn [foldl].
  pose proof (apply_route_in_place route dev h acc b r) as Hp'.
  pose proof (apply_route_sticky dev h acc r) as Hst.
  assert (Hhit : r = route → snd (snd (apply_route dev (h, (acc, b)) r)) = false).
  { intros ->. unfold apply_route. rewrite in_place_hidden by done.
    destruct (add_exists (h_kernel h) route) as (k & e & ->); [congruence|apply Hp|done]. }
  destruct (apply_route dev (h, (acc, b)) r) as [h1 [acc1 b1]] eqn:E1. cbn in Hp', Hhit.
  destruct (IH h1 acc1 b1 Hrs) as [H1 H2]; [apply Hp'; congruence|].
  split; [done|]. intros Hb. apply H2. rewrite elem_of_cons in Hb.
  destruct Hb as [->|[->|Hb]]; [left|left; by apply Hhit|by right].
  rewrite E1 in Hst. exact Hst.
Qed.

Lemma apply_devs_fail id route (m : list (L * list KRoute)) h acc b :
  id ≠ 0 → id ≠ RT_TABLE_MAIN → kr_Table route = id →
  Forall (λ dr, Forall (λ x, kr_Table x = id) dr.2) m → in_place route (h_kernel h) →
  b = false ∨ (∃ dr, dr ∈ m ∧ route ∈ dr.2) →
  (foldl (λ acc dr, foldl (apply_route dr.1) acc dr.2) (h, (acc, b)) m).2.2 = false.
Proof.
  intros H0 Hmain Ht. revert h acc b.
  induction m as [|[d rs] m IH]; intros h acc b Hm Hp Hb.
  { by destruct Hb as [->|(? & ?%not_elem_of_nil & _)]. }
  apply Forall_cons in Hm as [Hrs Hm]. cbn in *.
  destruct (apply_list_fails id route d rs h acc b) as [H1 H2]; [done..|].
  destruct (foldl (apply_route d) (h, (acc, b)) rs) as [h1 [acc1 b1]]. cbn in *.
  apply IH; [done..|]. destruct Hb as [->|([d' rs'] & Hin & Hr)]; [left; by auto|].
  apply elem_of_cons in Hin as [[= -> ->]|Hin]; [left; by auto|right; by eauto].
Qed.

(** Applying a configuration a second time is reported as a failure.  The
    check for an existing route lists the main table, the routes of a network are
    in the table of their own, so the daemon tries to add a route that is in place
    and answers [Success = false]. *)
Theorem ApplyL3Config_again h req id k m dev rs route :
  (∀ l, range_devs l ≡ₚ l) →
  l3_Force req = false →
  GetTableID path h (l3_Name req) (l3_Subnet req) true = (h, id, None) →
  id ≠ -1 → id ≠ 0 → id ≠ RT_TABLE_MAIN →
  dev_routes (h_kernel h) id (l3_Routes req) [] = (k, m) →
  (dev, rs) ∈ m → route ∈ rs → in_place route (h_kernel h) →
  rr_Success (ApplyL3Config path range_devs h (inl req)).2 = false.
Proof.
  intros Hrange Hfo HG Hid H0 Hmain Hdev Hm Hr Hp.
  pose proof (dev_routes_tables _ _ _ _ _ _ (Forall_nil_2 _) Hdev) as Ht.
  unfold ApplyL3Config, getRoutesFromRequest, getRoutesFromL3Config. rewrite Hfo, HG, Hdev.
  apply Z.eqb_neq in Hid. rewrite Hid. cbn [orb]. unfold apply_routes.
  match goal with |- context [foldl ?f ?a ?l] =>
    assert (Hf : (foldl f a l).2.2 = false) end.
  { destruct (dev_routes_only id _ _ _ _ _ _ Hdev) as [_ Hk].
    apply (apply_devs_fail id route); [done..| | | |].
    - rewrite Forall_forall in Ht. specialize (Ht _ Hm). cbn in Ht.
      rewrite Forall_forall in Ht. by apply Ht.
    - by rewrite Hrange.
    - unfold in_place. cbn. by rewrite Hk.
    - right. exists (dev, rs). by rewrite Hrange. }
  destruct (foldl _ _ _) as [h2 [msg b]]. cbn in *. done.
Qed.
End router_props.

(** ** A host *)

Definition rt_default : string :=
  getTableLine 255 "local" +:+ getTableLine 254 "main" +:+ getTableLine 253 "default"
  +:+ getTableLine 0 "unspec".

Definition ex_kernel : memkernel := mkMem [] [] [("eth1", 3); ("eth2", 4)] 0.
Definition ex_host : Host memkernel := mkHost ex_kernel (mkFile (Some rt_default) true true).
Definition ex_l3 : L3ConfigRequest :=
  mkL3 "net" "192.168.0.0/16"
    [mkHostRoute "192.168.0.64/26" "10.242.0.2" "eth1";
     mkHostRoute "192.168.64.64/26" "10.242.1.2" "eth2"] false.
Definition ex_path : string := "/etc/iproute2/rt_tables".
Definition ex_applied : Host memkernel := (ApplyL3Config ex_path (λ m, m) ex_host (inl ex_l3)).1.

(** the first time the configuration is applied, with table 100 *)
Example ApplyL3Config_first :
  rr_Success (ApplyL3Config ex_path (λ m, m) ex_host (inl ex_l3)).2 = true ∧
  kr_Table <$> m_routes (h_kernel ex_applied) = [100; 100] ∧
  ru_Table <$> m_rules (h_kernel ex_applied) = [100].
Proof. vm_compute. done. Qed.



Lemma ApplyL3Config_again_witness :
  rr_Success (ApplyL3Config ex_path (λ m, m) ex_applied (inl ex_l3)).2 = false.
Proof.
  eapply (ApplyL3Config_again (K:=memkernel) (L:=Z*Z) ex_path (λ m, m) m_routes m_rules
    ex_applied ex_l3 100); [done|reflexivity|vm_compute; reflexivity|lia|lia|done
    |vm_compute; reflexivity|left|left|].
  split; [vm_compute; left|]. intros r Hr Ht. exfalso. vm_compute in Hr.
  repeat (apply elem_of_cons in Hr as [->|Hr]; [discriminate Ht|]).
  by apply not_elem_of_nil in Hr.
Defined.
