(* ===== verification/HostInterface.v ===== *)
(** * Host interfaces: controllers/hostinterface_handler.go,
    hostinterface_controller.go and daemon_watcher.go

    For every node with a daemon pod the operator keeps a HostInterface with the
    network interfaces the daemon reports; the plans of the networks are computed
    from the cache of these objects.  The API server for pods and nodes and the
    daemons behind HTTP are the class [HostAPI] over the cluster state [W]. *)

From S2P Require Import Prelude GoLib Types K8s.
From S2P Require Import IPPool Network Cidr Route CidrHandler.

(** the object: the metadata the reconciler reads, labels and spec *)
Record HifObject := mkHifObj {
  ho_Finalizers : list string;
  ho_Deleted : bool;            (* DeletionTimestamp is set *)
  ho_Hif : HostInterface
}.

#[export] Instance HifObject_eq_dec : EqDecision HifObject.
Proof. solve_decision. Defined.

(** a daemon pod, as the API server lists it *)
Record KPod := mkKPod {
  kp_Name : string;
  kp_Namespace : string;
  kp_NodeName : string;
  kp_HostIP : string;
  kp_Labels : gmap string string;
  kp_Ready : list bool;         (* ContainerStatuses[i].Ready *)
  kp_Deleted : bool
}.

(** what a daemon answers to a greeting *)
Inductive join_answer :=
| JoinPostError (e : string)
| JoinStatus (status : string)
| JoinBody (e : string)
| JoinOk.

Class HostAPI (W : Type) := {
  (** nodes, pods and the daemon set; pods by the daemon label *)
  api_Node : W → string → node_answer;
  api_DaemonPods : W → list KPod + string;
  api_DaemonPodsOn : W → string → list KPod + string;
  api_DaemonSet : W → (Z * Z) + string;    (* NumberAvailable, DesiredNumberScheduled *)
  (** a JSON patch of one label of a pod *)
  api_PatchLabel : W → string → string → string → string → W * option string;
  (** the daemons: GET and decode, POST of a list of interfaces *)
  http_Interfaces : W → string → list InterfaceInfoType + string;
  http_Join : W → string → list InterfaceInfoType → W * join_answer
}.

(** ** internal/vars *)

Definition JoinLabelName : string := "multi-nicd-join".
Definition UnmanagedLabelName : string := "multi-nic-unmanaged".
Definition TestModeLabel : string := "test-mode".
Definition DaemonLabelKey : string := "app".
Definition DaemonLabelValue : string := "multi-nicd".
Definition NotFoundError : string := "not found".
Definition ThrottlingError : string := "throttling".
Definition INTERFACE_PATH : string := "/interface".
Definition REGISTER_IPAM_PATH : string := "/join".
Definition hifFinalizer : string := "finalizers.hostinterface.multinic.fms.io".

(** [strings.ToLower] on ASCII *)
Fixpoint ToLower (s : string) : string :=
  match s with
  | EmptyString => EmptyString
  | String c s' =>
      let n := Ascii.N_of_ascii c in
      String (if ((65 <=? n)%N && (n <=? 90)%N) then Ascii.ascii_of_N (n + 32) else c) (ToLower s')
  end.

Definition IsUnmanaged (labels : gmap string string) : bool :=
  match labels !! UnmanagedLabelName with
  | Some unmanaged => bool_decide (ToLower unmanaged = "true")
  | None => false
  end.

(** ** Operator state: the caches of host interfaces and daemons *)

Definition set_hifs {W} (o : Operator W) (c : SafeCache HostInterface) : Operator W :=
  mkOp (o_w o) (o_ippools o) (o_cidrs o) c (o_nets o) (o_daemons o) (o_queue o) (o_closed o) (o_ready o).
Definition set_daemons {W} (o : Operator W) (c : DaemonCache) : Operator W :=
  mkOp (o_w o) (o_ippools o) (o_cidrs o) (o_hifs o) (o_nets o) c (o_queue o) (o_closed o) (o_ready o).

(** ** hostinterface_controller.go: merging the interfaces a daemon reports *)

Definition old_map (olds : list InterfaceInfoType) : gmap string InterfaceInfoType :=
  foldl (λ m old, <[i_InterfaceName old := old]> m) ∅ olds.

(** the loop over [news]: whether anything changed, and the old interfaces left *)
Fixpoint merge_news (news : list InterfaceInfoType) (oldMap : gmap string InterfaceInfoType)
    (updated : bool) : bool * gmap string InterfaceInfoType :=
  match news with
  | [] => (updated, oldMap)
  | new :: rest =>
      match oldMap !! i_InterfaceName new with
      | Some old =>
          merge_news rest (delete (i_InterfaceName new) oldMap)
            (if negb (InterfaceInfo_Equal old new) then true else updated)
      | None => merge_news rest oldMap true
      end
  end.

Section hostinterface.
Context {ord : MapRange}.

Definition UpdateNewInterfaces (olds news : list InterfaceInfoType) : list InterfaceInfoType * bool :=
  if bool_decide (news = []) then (olds, false)
  else
    let '(updated, oldMap) := merge_news news (old_map olds) false in
    if negb updated then (olds, false)
    else if bool_decide (oldMap = ∅) then (news, updated)
    else (news ++ (range_map oldMap).*2, true).

Context {W : Type} {hifs : Client W HifObject} {api : HostAPI W} (DAEMON_PORT : string).

(** ** hostinterface_handler.go *)

Definition initHostInterface (hostName : string) (interfaces : list InterfaceInfoType) : HifObject :=
  mkHifObj [] false (mkHif ∅ (mkHostInterfaceSpec hostName interfaces)).

Definition CreateHostInterface (w : W) (hostName : string) (interfaces : list InterfaceInfoType)
    : W * option kerr :=
  cl_Create w hostName (initHostInterface hostName interfaces).

Definition UpdateHostInterface (w : W) (name : string) (oldObj : HifObject)
    (interfaces : list InterfaceInfoType) : W * (HifObject * option kerr) :=
  let updateHif :=
    mkHifObj (ho_Finalizers oldObj) (ho_Deleted oldObj)
      (mkHif (hf_Labels (ho_Hif oldObj))
         (mkHostInterfaceSpec (hi_HostName (hf_Spec (ho_Hif oldObj))) interfaces)) in
  let '(w', err) := cl_Update w name updateHif in
  (w', (updateHif, err)).

Definition GetHostInterface (w : W) (name : string) : HifObject + kerr := cl_Get w name.

Definition ListHostInterface (w : W) : gmap string HifObject * option kerr :=
  match cl_List w with
  | inl hifList => (list_map hifList, None)
  | inr err => (∅, Some err)
  end.

Definition DeleteHostInterface (w : W) (name : string) : W * option kerr :=
  match GetHostInterface w name with
  | inl _ => cl_Delete (O:=HifObject) w name
  | inr err => (w, Some err)
  end.

Definition Hif_GetCache (c : SafeCache HostInterface) (key : string) : HostInterface + string :=
  match GetCache c key with None => inr NotFoundError | Some h => inl h end.

Definition addLabel (w : W) (daemon : DaemonPod) (labelName labelValue : string) : W * option string :=
  api_PatchLabel w (dp_Namespace daemon) (dp_Name daemon) labelName labelValue.

(** *** daemon_connector.go *)

Definition GetInterfaces (w : W) (podAddress : string) : list InterfaceInfoType + string :=
  http_Interfaces w (podAddress +:+ INTERFACE_PATH).

Definition Join (w : W) (podAddress : string) (hifs : list InterfaceInfoType) : W * option string :=
  let '(w', res) := http_Join w (podAddress +:+ REGISTER_IPAM_PATH) hifs in
  (w', match res with
       | JoinPostError e => Some e
       | JoinStatus status => Some status
       | JoinBody e => Some e
       | JoinOk => None
       end).

(** the interfaces a daemon is greeted with *)
Definition join_hifs (snapshot : gmap string HostInterface) (daemon : DaemonPod)
    : list InterfaceInfoType :=
  range_map snapshot ≫= λ kv,
    if bool_decide (hi_HostName (hf_Spec kv.2) = dp_HostIP daemon) then []
    else hi_Interfaces (hf_Spec kv.2).

Definition IpamJoin (w : W) (cache : SafeCache HostInterface) (daemon : DaemonPod)
    : W * option string :=
  if bool_decide (dp_HostIP daemon = "") then (w, None)
  else
    let hifs := join_hifs (ListCache cache) daemon in
    let hifLen := Z.of_nat (length hifs) in
    let joined :=
      match dp_Labels daemon !! JoinLabelName with
      | Some lastLenStr => hifLen =? fst (Strconv.ParseInt lastLenStr 10)
      | None => false
      end in
    if joined then (w, None)
    else
      let '(w, err) := Join w (GetDaemonAddressByPod DAEMON_PORT daemon) hifs in
      match err with
      | Some e => (w, Some e)
      | None =>
          let '(w, _) := addLabel w daemon JoinLabelName (Strconv.Itoa hifLen) in
          (w, None)
      end.

(** ** daemon_watcher.go *)

Definition IsContainerReady (pod : KPod) : bool :=
  match kp_Ready pod with r :: _ => r | [] => false end.

Definition isDaemonPod (pod : KPod) : bool :=
  match kp_Labels pod !! DaemonLabelKey with
  | Some val => bool_decide (val = DaemonLabelValue)
  | None => false
  end.

Definition daemon_of_pod (pod : KPod) : DaemonPod :=
  mkDaemonPod (kp_Name pod) (kp_Namespace pod) (kp_HostIP pod) (kp_NodeName pod) (kp_Labels pod).

(** [DaemonPod{}] *)
Definition no_daemon : DaemonPod := mkDaemonPod "" "" "" "" ∅.

Definition getDaemonPod (w : W) (nodeName : string) : KPod + string :=
  match api_DaemonPodsOn w nodeName with
  | inl (existingDaemon :: _) => inl existingDaemon
  | inl [] => inr NotFoundError
  | inr err => inr err
  end.

Definition TryGetDaemonPod (o : Operator W) (nodeName : string) : Operator W * (DaemonPod + string) :=
  match Daemon_GetCache (o_daemons o) nodeName with
  | inl daemonPod => (o, inl daemonPod)
  | inr err =>
      match getDaemonPod (o_w o) nodeName with
      | inr getErr =>
          if bool_decide (getErr = NotFoundError) then (o, inr err) else (o, inl no_daemon)
      | inl pod =>
          if IsContainerReady pod then
            (set_daemons o (SetCache (o_daemons o) (kp_NodeName pod) (daemon_of_pod pod)),
             inl (daemon_of_pod pod))
          else (o, inl no_daemon)
      end
  end.

Definition UpdateCurrentList (o : Operator W) : Operator W * option string :=
  match api_DaemonPods (o_w o) with
  | inr err => (o, Some err)
  | inl initialList =>
      (set_daemons o
         (foldl (λ c pod, if IsContainerReady pod
                          then SetCache c (kp_NodeName pod) (daemon_of_pod pod) else c)
            (o_daemons o) initialList), None)
  end.

(** the informer's update event: whether the pod is put into the queue *)
Definition pod_updated (daemons : DaemonCache) (prevPod pod : KPod) : bool :=
  if isDaemonPod pod then
    if IsContainerReady pod then
      if negb (IsContainerReady prevPod) then true
      else match Daemon_GetCache daemons (kp_NodeName pod) with inr _ => true | inl _ => false end
    else false
  else false.

Definition createHostInterfaceInfo (w : W) (daemon : KPod) : W * option kerr :=
  match GetHostInterface w (kp_NodeName daemon) with
  | inr NotFound => CreateHostInterface w (kp_NodeName daemon) []
  | inr err => (w, Some err)
  | inl _ => (w, None)
  end.

Definition ProcessPodQueue (o : Operator W) (daemon : option KPod) : Operator W :=
  match daemon with
  | None => o
  | Some daemon =>
      let nodeName := kp_NodeName daemon in
      if negb (kp_Deleted daemon) then
        let o := set_daemons o (SetCache (o_daemons o) nodeName (daemon_of_pod daemon)) in
        set_w o (fst (createHostInterfaceInfo (o_w o) daemon))
      else
        match api_Node (o_w o) nodeName with
        | NodeNotFound =>
            let o := set_daemons o (UnsetCache (o_daemons o) nodeName) in
            match GetHostInterface (o_w o) nodeName with
            | inl hif =>
                if negb (IsUnmanaged (hf_Labels (ho_Hif hif)))
                then set_w o (fst (DeleteHostInterface (o_w o) nodeName)) else o
            | inr _ => o
            end
        | _ => o
        end
  end.

Definition IsDaemonSetReady (w : W) : bool :=
  match api_DaemonSet w with
  | inl (available, desired) => available =? desired
  | inr _ => false
  end.

(** ** hostinterface_controller.go *)

(** the first loop of [InitHostInterfaceCache]; a test-mode object ends it *)
Fixpoint init_existing (o : Operator W) (l : list (string * HifObject)) (err : option kerr)
    : Operator W * option kerr :=
  match l with
  | [] => (o, err)
  | (name, instance) :: rest =>
      match hf_Labels (ho_Hif instance) !! TestModeLabel with
      | Some _ => (o, err)
      | None =>
          let gone :=
            match Daemon_GetCache (o_daemons o) name with
            | inl _ => false
            | inr _ => match api_Node (o_w o) name with
                       | NodeFound _ => false
                       | _ => negb (IsUnmanaged (hf_Labels (ho_Hif instance)))
                       end
            end in
          if (gone : bool) then
            let '(w, err) := DeleteHostInterface (o_w o) name in
            init_existing (set_w o w) rest err
          else init_existing (set_hifs o (SetCache (o_hifs o) name (ho_Hif instance))) rest err
      end
  end.

(** the second loop: a HostInterface for every known daemon *)
Fixpoint init_missing (w : W) (listObjects : gmap string HifObject) (l : list (string * DaemonPod)) : W :=
  match l with
  | [] => w
  | (name, daemon) :: rest =>
      let w := match listObjects !! name with
               | Some _ => w
               | None => fst (CreateHostInterface w (dp_NodeName daemon) [])
               end in
      init_missing w listObjects rest
  end.

Definition InitHostInterfaceCache (o : Operator W) : Operator W * option kerr :=
  match ListHostInterface (o_w o) with
  | (_, Some err) => (o, Some err)
  | (listObjects, None) =>
      let '(o, err) := init_existing o (range_map listObjects) None in
      (set_w o (init_missing (o_w o) listObjects (range_map (ListCache (o_daemons o)))), err)
  end.

Definition UpdateInterfaces (name : string) (instance : HifObject) : op W (result ()) := λ o,
  if IsUnmanaged (hf_Labels (ho_Hif instance)) then
    let '(o, r) := UpdateCIDRs o in (o, _ ← r; Fin (Ok ()))
  else
    let nodeName := hi_HostName (hf_Spec (ho_Hif instance)) in
    let '(o, pod) := TryGetDaemonPod o nodeName in
    match pod with
    | inl pod =>
        if bool_decide (dp_Name pod = "") then (o, Fin (Err ThrottlingError))
        else
          match GetInterfaces (o_w o) (GetDaemonAddressByPod DAEMON_PORT pod) with
          | inr err => (o, Fin (Err err))
          | inl interfaces =>
              let '(interfaces, updated) :=
                UpdateNewInterfaces (hi_Interfaces (hf_Spec (ho_Hif instance))) interfaces in
              if (updated : bool) then
                let o := set_w o (fst (IpamJoin (o_w o) (o_hifs o) pod)) in
                let '(w, (updatedHif, err)) := UpdateHostInterface (o_w o) name instance interfaces in
                let o := set_w o w in
                match err with
                | Some _ => (o, Fin (Err "cannot update HostInterface"))
                | None =>
                    let o := set_hifs o (SetCache (o_hifs o) name (ho_Hif updatedHif)) in
                    let '(o, r) := UpdateCIDRs o in (o, _ ← r; Fin (Ok ()))
                end
              else (o, Fin (Ok ()))
          end
    | inr _ =>
        match hf_Labels (ho_Hif instance) !! TestModeLabel with
        | Some _ => (o, Fin (Ok ()))
        | None =>
            match api_Node (o_w o) nodeName with
            | NodeFound _ => (o, Fin (Ok ()))
            | NodeNotFound =>
                let o := set_daemons o (UnsetCache (o_daemons o) nodeName) in
                (set_w o (fst (DeleteHostInterface (o_w o) nodeName)), Fin (Ok ()))
            | NodeError => (o, Fin (Err "cannot get node"))
            end
        end
    end.

Definition CallFinalizer (name : string) : op W () := λ o,
  UpdateCIDRs (set_hifs o (UnsetCache (o_hifs o) name)).

(** what a reconciler returns *)
Inductive requeue := Urgent | Normal | Long.
Inductive rec_result :=
| Reconciled
| RequeueAfter (t : requeue)
| ReconcileError (e : kerr).

Definition with_finalizers (i : HifObject) (f : list string) : HifObject :=
  mkHifObj f (ho_Deleted i) (ho_Hif i).

(** the body that [retry.RetryOnConflict] runs *)
Definition remove_finalizer (name : string) (w : W) : W * option kerr :=
  match cl_Get w name with
  | inr NotFound => (w, None)
  | inr err => (w, Some err)
  | inl instance =>
      cl_Update w name
        (with_finalizers instance (filter (λ f, f ≠ hifFinalizer) (ho_Finalizers instance)))
  end.

(** [retry.RetryOnConflict] *)
Context (retryOnConflict : (W → W * option kerr) → W → W * option kerr).

(** adding the finalizer when it is missing *)
Definition add_finalizer (name : string) (instance : HifObject) (w : W)
    : W * HifObject * option kerr :=
  if bool_decide (hifFinalizer ∈ ho_Finalizers instance) then (w, instance, None)
  else
    let instance := with_finalizers instance (ho_Finalizers instance ++ [hifFinalizer]) in
    let '(w, err) := cl_Update w name instance in
    (w, instance, err).

Definition finish_deletion (name : string) (instance : HifObject) : op W rec_result := λ o,
  if bool_decide (hifFinalizer ∈ ho_Finalizers instance) then
    let '(o, r) := CallFinalizer name o in
    match r with
    | Fin _ =>
        let '(w, err) := retryOnConflict (remove_finalizer name) (o_w o) in
        (set_w o w, Fin (match err with Some e => ReconcileError e | None => Reconciled end))
    | Crash => (o, Crash)
    | OutOfFuel => (o, OutOfFuel)
    | Stuck => (o, Stuck)
    end
  else (o, Fin Reconciled).

Definition Reconcile (name : string) : op W rec_result := λ o,
  match cl_Get (o_w o) name with
  | inr NotFound => (o, Fin Reconciled)
  | inr _ => (o, Fin (RequeueAfter Urgent))
  | inl instance =>
      if IsUnmanaged (hf_Labels (ho_Hif instance)) then
        let o := set_hifs o (SetCache (o_hifs o) name (ho_Hif instance)) in
        let '(o, r) := UpdateCIDRs o in (o, _ ← r; Fin Reconciled)
      else
        let '(w, instance, err) := add_finalizer name instance (o_w o) in
        let o := set_w o w in
        match err with
        | Some e => (o, Fin (ReconcileError e))
        | None =>
            if ho_Deleted instance then finish_deletion name instance o
            else
              let o :=
                if negb (CacheContains (o_hifs o) name)
                   && negb (bool_decide (hi_Interfaces (hf_Spec (ho_Hif instance)) = []))
                then set_hifs o (SetCache (o_hifs o) name (ho_Hif instance)) else o in
              if negb (o_ready o) || negb (IsDaemonSetReady (o_w o))
              then (o, Fin (RequeueAfter Urgent))
              else
                let '(o, r) := UpdateInterfaces name instance o in
                (o, r ← r; Fin (match r with Err _ => RequeueAfter Urgent | Ok _ => Reconciled end))
        end
  end.
End hostinterface.
