(* ===== verification/HostInterfaceProps.v ===== *)
(** * Host interfaces: correctness

    The merge of reported interfaces, and the invariant that ties the cache of host
    interfaces, from which the plans are computed, to the objects in the cluster. *)

From S2P Require Import Prelude GoLib Types K8s.
From S2P Require Import IPPool Network Cidr Route CidrHandler HostInterface.

(** ** Merging *)

Lemma Equal_refl i : InterfaceInfo_Equal i i = true.
Proof. unfold InterfaceInfo_Equal. by rewrite !bool_decide_eq_true_2. Qed.

(** the map from a name to the last interface of that name *)
Lemma old_map_app l x : old_map (l ++ [x]) = <[i_InterfaceName x := x]> (old_map l).
Proof. unfold old_map. by rewrite foldl_app. Qed.

Lemma old_map_Some l n x : old_map l !! n = Some x → x ∈ l ∧ i_InterfaceName x = n.
Proof.
  induction l as [|y l IH] using rev_ind; [done|]. rewrite old_map_app, elem_of_app.
  destruct (decide (i_InterfaceName y = n)) as [<-|].
  - rewrite lookup_insert_eq. intros [= <-]. split; [right; by left|done].
  - rewrite lookup_insert_ne by done. intros [? ?]%IH. by auto.
Qed.

Lemma old_map_is_Some l x : x ∈ l → is_Some (old_map l !! i_InterfaceName x).
Proof.
  induction l as [|y l IH] using rev_ind; [by intros ?%not_elem_of_nil|].
  rewrite old_map_app, elem_of_app, list_elem_of_singleton.
  destruct (decide (i_InterfaceName y = i_InterfaceName x)) as [->|].
  - intros _. by rewrite lookup_insert_eq.
  - rewrite lookup_insert_ne by done. intros [?| ->]; [by apply IH|done].
Qed.

Lemma old_map_nodup l x :
  NoDup (i_InterfaceName <$> l) → x ∈ l → old_map l !! i_InterfaceName x = Some x.
Proof.
  intros Hnd Hx. destruct (old_map_is_Some l x Hx) as [y Hy]. rewrite Hy. f_equal.
  destruct (old_map_Some _ _ _ Hy) as [Hyl Hn].
  apply list_elem_of_lookup in Hx as [i Hi], Hyl as [j Hj].
  assert (i = j); [|congruence].
  eapply NoDup_lookup; [exact Hnd|by rewrite list_lookup_fmap, Hi|].
  rewrite list_lookup_fmap, Hj. simpl. by rewrite Hn.
Qed.

(** what the loop over the reported interfaces leaves *)
Lemma merge_news_spec news m u u' m' :
  NoDup (i_InterfaceName <$> news) → merge_news news m u = (u', m') →
  (∀ n, m' !! n = if decide (n ∈ i_InterfaceName <$> news) then None else m !! n) ∧
  (u' = false ↔ u = false ∧
     ∀ new, new ∈ news → ∃ old, m !! i_InterfaceName new = Some old ∧ InterfaceInfo_Equal old new = true).
Proof.
  revert m u. induction news as [|new news IH]; intros m u Hnd; cbn [merge_news].
  { intros [= <- <-]. split; [done|]. split; [|by intros [? _]].
    intros ->. split; [done|]. by intros ? ?%not_elem_of_nil. }
  cbn [fmap list_fmap] in Hnd. apply NoDup_cons in Hnd as [Hnew Hnd].
  destruct (m !! i_InterfaceName new) as [old|] eqn:Hm; intros Hr;
    destruct (IH _ _ Hnd Hr) as [Hl Hu]; clear IH.
  - split.
    + intros n. rewrite Hl. cbn [fmap list_fmap].
      destruct (decide (n = i_InterfaceName new)) as [->|Hne].
      * rewrite lookup_delete_eq. rewrite (decide_True (P:=_ ∈ _ :: _)) by (by left).
        by case_decide.
      * rewrite lookup_delete_ne by done.
        destruct (decide (n ∈ i_InterfaceName <$> news));
          [rewrite decide_True by (by right)|rewrite decide_False by (rewrite elem_of_cons; tauto)];
          done.
    + rewrite Hu. split.
      * intros [Hif Hall]. destruct (InterfaceInfo_Equal old new) eqn:He; [|done].
        split; [done|]. intros x [->|Hx]%elem_of_cons; [by eauto|].
        destruct (Hall x Hx) as (old' & Ho & He'). exists old'.
        rewrite lookup_delete_ne in Ho; [done|]. intros Hn. apply Hnew. rewrite Hn.
        by apply list_elem_of_fmap_2.
      * intros [-> Hall]. destruct (Hall new) as (old' & Ho & He); [by left|].
        rewrite Hm in Ho. injection Ho as <-. rewrite He. split; [done|].
        intros x Hx. destruct (Hall x) as (o' & Ho' & He'); [by right|]. exists o'.
        rewrite lookup_delete_ne; [done|]. intros Hn. apply Hnew. rewrite Hn.
        by apply list_elem_of_fmap_2.
  - split.
    + intros n. rewrite Hl. cbn [fmap list_fmap].
      destruct (decide (n = i_InterfaceName new)) as [->|Hne].
      * rewrite (decide_True (P:=_ ∈ _ :: _)) by (by left). by case_decide.
      * destruct (decide (n ∈ i_InterfaceName <$> news));
          [rewrite decide_True by (by right)|rewrite decide_False by (rewrite elem_of_cons; tauto)];
          done.
    + rewrite Hu. split; [by intros [? _]|]. intros [-> Hall].
      destruct (Hall new) as (old' & Ho & _); [by left|]. congruence.
Qed.

Section merge.
Context {ord : MapRange}.

(** the merged list: the reported interfaces, then the old ones not reported *)
Lemma UpdateNewInterfaces_updated olds news res :
  NoDup (i_InterfaceName <$> news) →
  UpdateNewInterfaces olds news = (res, true) →
  ∃ rest, res = news ++ rest ∧ NoDup (i_InterfaceName <$> res) ∧
    ∀ x, x ∈ rest ↔ (i_InterfaceName x ∉ i_InterfaceName <$> news) ∧
                    old_map olds !! i_InterfaceName x = Some x.
Proof.
  intros Hnd. unfold UpdateNewInterfaces. case_bool_decide as Hn; [done|].
  destruct (merge_news news (old_map olds) false) as [u m'] eqn:Hm.
  destruct (merge_news_spec _ _ _ _ _ Hnd Hm) as [Hl _].
  assert (Hkey : ∀ k x, m' !! k = Some x → i_InterfaceName x = k ∧
     (k ∉ i_InterfaceName <$> news) ∧ old_map olds !! k = Some x).
  { intros k x Hx. rewrite Hl in Hx. case_decide; [done|].
    by destruct (old_map_Some _ _ _ Hx) as [_ <-]. }
  assert (Hrest : ∀ x, x ∈ (range_map m').*2 ↔ (i_InterfaceName x ∉ i_InterfaceName <$> news) ∧
                    old_map olds !! i_InterfaceName x = Some x).
  { intros x. rewrite list_elem_of_fmap. split.
    - intros ([k y] & -> & Hin%elem_of_range_map). simpl.
      by destruct (Hkey _ _ Hin) as (-> & ? & ?).
    - intros [Hne Ho]. exists (i_InterfaceName x, x). split; [done|].
      apply elem_of_range_map. rewrite Hl. by case_decide. }
  assert (Hnames : i_InterfaceName <$> (range_map m').*2 = (range_map m').*1).
  { rewrite <- list_fmap_compose. apply Forall_fmap_ext_1, Forall_forall.
    intros [k x] Hin%elem_of_range_map. by destruct (Hkey _ _ Hin) as (? & _). }
  assert (Hres : NoDup (i_InterfaceName <$> news ++ (range_map m').*2)).
  { rewrite fmap_app, NoDup_app. split_and!; [done| |].
    - intros n Hin. rewrite Hnames. intros Hin'.
      apply list_elem_of_fmap in Hin' as ([k x] & -> & Hkx%elem_of_range_map). simpl in Hin.
      destruct (Hkey _ _ Hkx) as (_ & Hnot & _). done.
    - rewrite Hnames. apply range_map_keys_nodup. }
  destruct u; cbn [negb]; [|done]. case_bool_decide as He.
  - intros [= <-]. exists []. rewrite app_nil_r. split_and!; [done|done|].
    intros x. rewrite <- Hrest. rewrite He.
    assert (range_map (∅ : gmap string InterfaceInfoType) = []) as ->; [|done].
    apply Permutation_nil_r. rewrite range_map_perm. by rewrite map_to_list_empty.
  - intros [= <-]. by exists (range_map m').*2.
Qed.

(** Merging the interfaces a daemon reports loses none and settles.  When the
    daemon reports every name once, an update lists each reported interface and
    every known interface that was not reported, under distinct names; no update
    means that every reported interface was already known; and merging the same
    report again changes nothing, so a reconciliation does not update for ever. *)
Theorem UpdateNewInterfaces_settles olds news res updated :
  NoDup (i_InterfaceName <$> news) →
  UpdateNewInterfaces olds news = (res, updated) →
  (updated = true → NoDup (i_InterfaceName <$> res) ∧ (∀ x, x ∈ news → x ∈ res) ∧
     ∀ x, x ∈ olds → i_InterfaceName x ∈ i_InterfaceName <$> res) ∧
  (updated = false → res = olds ∧
     ∀ x, x ∈ news → ∃ old, old ∈ olds ∧ InterfaceInfo_Equal old x = true) ∧
  UpdateNewInterfaces res news = (res, false).
Proof.
  intros Hnd HU. destruct updated.
  - destruct (UpdateNewInterfaces_updated _ _ _ Hnd HU) as (rest & -> & Hr & Hrest).
    split_and!; [|done|].
    + intros _. split_and!; [done| |].
      * intros x Hx. apply elem_of_app. by left.
      * intros x Hx. rewrite fmap_app, elem_of_app.
        destruct (decide (i_InterfaceName x ∈ i_InterfaceName <$> news)); [by left|right].
        destruct (old_map_is_Some olds x Hx) as [y Hy].
        destruct (old_map_Some _ _ _ Hy) as [_ Hyn]. rewrite <- Hyn.
        apply list_elem_of_fmap_2, Hrest. rewrite Hyn. done.
    + unfold UpdateNewInterfaces. case_bool_decide as Hn.
      { unfold UpdateNewInterfaces in HU. by rewrite Hn in HU. }
      destruct (merge_news news (old_map (news ++ rest)) false) as [u m'] eqn:Hm.
      destruct (merge_news_spec _ _ _ _ _ Hnd Hm) as [_ Hu].
      replace u with false; [done|]. symmetry. apply Hu. split; [done|].
      intros x Hx. exists x. split; [|apply Equal_refl].
      apply old_map_nodup; [done|]. apply elem_of_app. by left.
  - assert (res = olds) as ->.
    { unfold UpdateNewInterfaces in HU. case_bool_decide; [by injection HU|].
      destruct (merge_news _ _ _) as [[|] m']; cbn in HU; [|by injection HU].
      by case_bool_decide. }
    split_and!; [done| |done]. intros _. split; [done|]. intros x Hx.
    unfold UpdateNewInterfaces in HU. case_bool_decide as Hn.
    { subst. by apply not_elem_of_nil in Hx. }
    destruct (merge_news news (old_map olds) false) as [u m'] eqn:Hm.
    destruct (merge_news_spec _ _ _ _ _ Hnd Hm) as [_ Hu].
    destruct u; cbn in HU; [by case_bool_decide|].
    destruct (proj1 Hu eq_refl) as [_ Hall]. destruct (Hall x Hx) as (old & Ho & He).
    exists old. by destruct (old_map_Some _ _ _ Ho).
Qed.
End merge.

Definition ex_if1 := mkInterfaceInfo "eth1" "10.0.0.0/24" "10.0.0.1" "v" "p" "a1".
Definition ex_if2 := mkInterfaceInfo "eth2" "10.0.1.0/24" "10.0.1.1" "v" "p" "a2".
Definition ex_if1' := mkInterfaceInfo "eth1" "10.0.2.0/24" "10.0.2.1" "v" "p" "a1".

Lemma UpdateNewInterfaces_settles_witness :
  let res := [ex_if1'; ex_if2] in
  @UpdateNewInterfaces map_to_list_range [ex_if1; ex_if2] [ex_if1'] = (res, true) ∧
  @UpdateNewInterfaces map_to_list_range res [ex_if1'] = (res, false).
Proof.
  intros res. split; [vm_compute; reflexivity|].
  refine (proj2 (proj2 (@UpdateNewInterfaces_settles map_to_list_range [ex_if1; ex_if2] [ex_if1']
    res true _ _))); [apply NoDup_singleton|vm_compute; reflexivity].
Defined.

(** a daemon that reports a name twice is updated at every reconciliation *)
Example UpdateNewInterfaces_duplicate_never_settles :
  let news := [ex_if1; ex_if1] in
  @UpdateNewInterfaces map_to_list_range news news = (news, true).
Proof. vm_compute. reflexivity. Qed.

(** ** The cache of host interfaces *)

(** what the API server does with HostInterfaces: a deletion of an object with
    finalizers marks it, and an update that takes the last finalizer of a marked
    object removes it *)
Class HifLaws (W : Type) `{Client W HifObject} `{HostAPI W} (at_ : W → string → option HifObject) := {
  hif_get : ∀ w n o, cl_Get w n = inl o → at_ w n = Some o;
  hif_create_ok : ∀ w w' n o, cl_Create w n o = (w', None) → at_ w n = None ∧ at_ w' n = Some o;
  hif_create_err : ∀ w w' n o e, cl_Create w n o = (w', Some e) → at_ w' n = at_ w n;
  hif_create_frame : ∀ w w' n m o e, cl_Create w n o = (w', e) → n ≠ m → at_ w' m = at_ w m;
  hif_update_ok : ∀ w w' n o, cl_Update w n o = (w', None) →
    at_ w' n = if ho_Deleted o && bool_decide (ho_Finalizers o = []) then None else Some o;
  hif_update_err : ∀ w w' n o e, cl_Update w n o = (w', Some e) → at_ w' n = at_ w n;
  hif_update_frame : ∀ w w' n m o e, cl_Update w n o = (w', e) → n ≠ m → at_ w' m = at_ w m;
  hif_delete_ok : ∀ w w' n o, cl_Delete (O:=HifObject) w n = (w', None) → at_ w n = Some o →
    at_ w' n = if bool_decide (ho_Finalizers o = []) then None
               else Some (mkHifObj (ho_Finalizers o) true (ho_Hif o));
  hif_delete_err : ∀ w w' n e, cl_Delete (O:=HifObject) w n = (w', Some e) → at_ w' n = at_ w n;
  hif_delete_frame : ∀ w w' n m e, cl_Delete (O:=HifObject) w n = (w', e) → n ≠ m → at_ w' m = at_ w m;
  hif_patch_label : ∀ w w' ns p l v e, api_PatchLabel w ns p l v = (w', e) → ∀ n, at_ w' n = at_ w n;
  hif_join : ∀ w w' a l r, http_Join w a l = (w', r) → ∀ n, at_ w' n = at_ w n
}.

Section coherence.
Context {ord : MapRange} {W : Type} {hifs : Client W HifObject} {api : HostAPI W}
  (at_ : W → string → option HifObject) `{!HifLaws W at_} (DAEMON_PORT : string)
  (retryOnConflict : (W → W * option kerr) → W → W * option kerr).

(** [RetryOnConflict] runs its body some number of times *)
Context (retry_runs : ∀ f (P : W → Prop), (∀ w, P w → P (f w).1) →
  ∀ w, P w → P (retryOnConflict f w).1).

(** a stored object is named after its host *)
Definition named (w : W) : Prop :=
  ∀ n obj, at_ w n = Some obj → hi_HostName (hf_Spec (ho_Hif obj)) = n.

(** a cached host interface is the stored one, which cannot vanish unnoticed: it
    is unmanaged or carries the finalizer *)
Definition held (w : W) (n : string) (h : HostInterface) : Prop :=
  ∃ obj, at_ w n = Some obj ∧ ho_Hif obj = h ∧
    (IsUnmanaged (hf_Labels h) = true ∨ hifFinalizer ∈ ho_Finalizers obj).

Definition coherent (w : W) (cache : SafeCache HostInterface) : Prop :=
  named w ∧ ∀ n h, cache !! n = Some h → held w n h.

Lemma coherent_ext w w' cache :
  (∀ n, at_ w' n = at_ w n) → coherent w cache → coherent w' cache.
Proof.
  intros He [Hn Hc]. split.
  - intros n obj. rewrite He. apply Hn.
  - intros n h Hh. destruct (Hc n h Hh) as (obj & Ho & ?). exists obj. by rewrite He.
Qed.

Lemma coherent_unset w cache n : coherent w cache → coherent w (UnsetCache cache n).
Proof.
  intros [Hn Hc]. split; [done|]. intros m h Hh. unfold UnsetCache in Hh.
  apply lookup_delete_Some in Hh as [_ Hh]. by apply Hc.
Qed.

Lemma coherent_set w cache n h :
  coherent w cache → held w n h → coherent w (SetCache cache n h).
Proof.
  intros [Hn Hc] Hh. split; [done|]. intros m h' Hm. unfold SetCache in Hm.
  apply lookup_insert_Some in Hm as [[<- <-]|[_ Hm]]; [done|by apply Hc].
Qed.

(** a write to one object keeps coherence when it keeps that object's part *)
Lemma coherent_write w w' cache n :
  (∀ m, n ≠ m → at_ w' m = at_ w m) →
  (∀ obj, at_ w' n = Some obj → hi_HostName (hf_Spec (ho_Hif obj)) = n) →
  (∀ h, cache !! n = Some h → held w n h → held w' n h) →
  coherent w cache → coherent w' cache.
Proof.
  intros Hf Hname Hheld [Hn Hc]. split.
  - intros m obj Hm. destruct (decide (n = m)) as [<-|Hne]; [by apply Hname|].
    rewrite Hf in Hm by done. by apply Hn.
  - intros m h Hm. destruct (decide (n = m)) as [<-|Hne]; [by auto|].
    destruct (Hc m h Hm) as (obj & Ho & ?). exists obj. by rewrite Hf.
Qed.

Lemma create_coherent w cache n ifs w' e :
  CreateHostInterface w n ifs = (w', e) → coherent w cache → coherent w' cache.
Proof.
  unfold CreateHostInterface. intros HC Hco.
  eapply (coherent_write w w' cache n); [by intros; eapply hif_create_frame| | |done].
  - intros obj Ho. destruct e as [e|].
    + rewrite (hif_create_err _ _ _ _ _ HC) in Ho. by apply Hco.
    + apply hif_create_ok in HC as [_ HC]. rewrite HC in Ho. by injection Ho as <-.
  - intros h _ (obj & Ho & Hr). exists obj. split; [|done]. destruct e as [e|].
    + by rewrite (hif_create_err _ _ _ _ _ HC).
    + apply hif_create_ok in HC as [HC _]. congruence.
Qed.

Lemma delete_coherent w cache n w' e :
  DeleteHostInterface w n = (w', e) →
  (∀ h, cache !! n = Some h → IsUnmanaged (hf_Labels h) = false) →
  coherent w cache → coherent w' cache.
Proof.
  unfold DeleteHostInterface, GetHostInterface. intros HD Hun Hco.
  destruct (cl_Get w n) as [o|e'] eqn:HG; [|by injection HD as <- _].
  apply hif_get in HG. pose proof (proj1 Hco n o HG) as Hname.
  eapply (coherent_write w w' cache n); [by intros; eapply hif_delete_frame| | |done].
  - intros obj Ho. destruct e as [e|].
    + rewrite (hif_delete_err _ _ _ _ HD) in Ho. by apply Hco.
    + rewrite (hif_delete_ok _ _ _ _ HD HG) in Ho. case_bool_decide; [done|]. by injection Ho as <-.
  - intros h Hh (obj & Ho & <- & Hfin). rewrite HG in Ho. injection Ho as <-.
    destruct e as [e|].
    + exists o. by rewrite (hif_delete_err _ _ _ _ HD).
    + destruct Hfin as [Hu|Hf]; [by rewrite (Hun _ Hh) in Hu|].
      exists (mkHifObj (ho_Finalizers o) true (ho_Hif o)).
      rewrite (hif_delete_ok _ _ _ _ HD HG).
      rewrite bool_decide_eq_false_2 by (intros Hz; rewrite Hz in Hf; by apply not_elem_of_nil in Hf).
      split_and!; [done|done|by right].
Qed.

Lemma UpdateCIDRs_frame (o o' : Operator W) r :
  UpdateCIDRs o = (o', r) → o_w o' = o_w o ∧ o_hifs o' = o_hifs o.
Proof. unfold UpdateCIDRs. repeat case_match; by intros [= <- <-]. Qed.

Lemma IpamJoin_frame w cache d w' e n :
  IpamJoin DAEMON_PORT w cache d = (w', e) → at_ w' n = at_ w n.
Proof.
  unfold IpamJoin, Join, addLabel. case_bool_decide; [by intros [= <- <-]|].
  destruct (match dp_Labels d !! JoinLabelName with Some _ => _ | None => _ end);
    [by intros [= <- <-]|].
  destruct (http_Join _ _ _) as [w1 a] eqn:HJ. pose proof (hif_join _ _ _ _ _ HJ n) as Hj.
  destruct a; cbn; try (by intros [= <- <-]).
  destruct (api_PatchLabel _ _ _ _ _) as [w2 e2] eqn:HP. intros [= <- <-].
  by rewrite (hif_patch_label _ _ _ _ _ _ _ HP).
Qed.

Lemma TryGetDaemonPod_frame (o o' : Operator W) n r :
  TryGetDaemonPod o n = (o', r) → o_w o' = o_w o ∧ o_hifs o' = o_hifs o.
Proof.
  unfold TryGetDaemonPod. repeat case_match; by intros [= <- <-].
Qed.

Lemma update_err_coherent w cache n obj w' e :
  cl_Update w n obj = (w', Some e) → coherent w cache → coherent w' cache.
Proof.
  intros HU. apply coherent_ext. intros m. destruct (decide (n = m)) as [<-|Hne].
  - by eapply hif_update_err.
  - by eapply hif_update_frame.
Qed.

Lemma update_at w n obj w' :
  cl_Update w n obj = (w', None) → hifFinalizer ∈ ho_Finalizers obj → at_ w' n = Some obj.
Proof.
  intros HU Hf. rewrite (hif_update_ok _ _ _ _ HU).
  rewrite bool_decide_eq_false_2; [by rewrite andb_false_r|].
  intros Hz. rewrite Hz in Hf. by apply not_elem_of_nil in Hf.
Qed.

(** storing an object with the finalizer, and caching it *)
Lemma update_set_coherent w cache n obj w' :
  cl_Update w n obj = (w', None) → hifFinalizer ∈ ho_Finalizers obj →
  hi_HostName (hf_Spec (ho_Hif obj)) = n →
  coherent w cache → coherent w' (SetCache cache n (ho_Hif obj)).
Proof.
  intros HU Hf Hname [Hn Hc]. pose proof (update_at _ _ _ _ HU Hf) as Hat. split.
  - intros m o Ho. destruct (decide (n = m)) as [<-|Hne].
    + rewrite Hat in Ho. by injection Ho as <-.
    + rewrite (hif_update_frame _ _ _ _ _ _ HU Hne) in Ho. by apply Hn.
  - intros m h Hm. unfold SetCache in Hm.
    apply lookup_insert_Some in Hm as [[<- <-]|[Hne Hm]].
    + exists obj. by eauto.
    + destruct (Hc m h Hm) as (o & Ho & ?). exists o.
      by rewrite (hif_update_frame _ _ _ _ _ _ HU Hne).
Qed.

(** storing an object that differs from the stored one in its finalizers *)
Lemma update_same_coherent w cache n obj old w' e :
  cl_Update w n obj = (w', e) → at_ w n = Some old → ho_Hif obj = ho_Hif old →
  hifFinalizer ∈ ho_Finalizers obj → coherent w cache → coherent w' cache.
Proof.
  intros HU Ho Hsame Hf Hco. destruct e as [e|]; [by eapply update_err_coherent|].
  pose proof (update_at _ _ _ _ HU Hf) as Hat.
  eapply (coherent_write w w' cache n); [by intros; eapply hif_update_frame| | |done].
  - intros o. rewrite Hat. intros [= <-]. rewrite Hsame. by apply Hco.
  - intros h _ (o & Ho' & <- & _). rewrite Ho in Ho'. injection Ho' as <-.
    exists obj. by eauto.
Qed.

Lemma UpdateInterfaces_coherent n inst (o o' : Operator W) r :
  at_ (o_w o) n = Some inst → hifFinalizer ∈ ho_Finalizers inst →
  IsUnmanaged (hf_Labels (ho_Hif inst)) = false →
  UpdateInterfaces DAEMON_PORT n inst o = (o', r) →
  coherent (o_w o) (o_hifs o) → coherent (o_w o') (o_hifs o').
Proof.
  intros Hat Hf Hm HU Hco. unfold UpdateInterfaces in HU. rewrite Hm in HU.
  pose proof (proj1 Hco n inst Hat) as Hname. rewrite Hname in HU.
  destruct (TryGetDaemonPod o n) as [o1 pod] eqn:HT.
  destruct (TryGetDaemonPod_frame _ _ _ _ HT) as [Hw Hh].
  rewrite <- Hw, <- Hh in Hco. rewrite <- Hw in Hat. clear HT Hw Hh.
  destruct pod as [pod|err].
  - case_bool_decide; [by injection HU as <- _|].
    destruct (GetInterfaces _ _) as [ifs|]; [|by injection HU as <- _].
    destruct (UpdateNewInterfaces _ _) as [ifs' [|]]; [|by injection HU as <- _].
    destruct (IpamJoin _ (o_w o1) (o_hifs o1) pod) as [w1 e1] eqn:HJ.
    assert (Hco1 : coherent w1 (o_hifs o1)).
    { eapply coherent_ext; [|exact Hco]. intros m. by eapply IpamJoin_frame. }
    cbn [fst set_w o_w] in HU. unfold UpdateHostInterface in HU.
    destruct (cl_Update w1 n _) as [w2 e2] eqn:HUp. destruct e2 as [e2|].
    + injection HU as <- _. cbn. by eapply update_err_coherent.
    + destruct (UpdateCIDRs _) as [o3 r3] eqn:Hq. injection HU as <- _.
      destruct (UpdateCIDRs_frame _ _ _ Hq) as [-> ->]. cbn.
      by apply (update_set_coherent _ _ _ _ _ HUp).
  - destruct (_ !! TestModeLabel); [by injection HU as <- _|].
    destruct (api_Node _ n); [|by injection HU as <- _..].
    cbn in HU. destruct (DeleteHostInterface (o_w o1) n) as [w2 e2] eqn:HD.
    injection HU as <- _. cbn. eapply delete_coherent; [exact HD| |exact Hco].
    intros h Hh. destruct (proj2 Hco n h Hh) as (obj & Ho & <- & _). congruence.
Qed.

Lemma remove_finalizer_other n w m : n ≠ m → at_ (remove_finalizer n w).1 m = at_ w m.
Proof.
  intros Hne. unfold remove_finalizer. destruct (cl_Get w n) as [i|[]]; [|done..].
  destruct (cl_Update w n _) as [w' e] eqn:HU. cbn. by eapply hif_update_frame.
Qed.

Lemma remove_finalizer_coherent n w cache :
  cache !! n = None → coherent w cache → coherent (remove_finalizer n w).1 cache.
Proof.
  intros Hn Hco. apply (coherent_write w _ cache n); [by apply remove_finalizer_other| |congruence|done].
  intros obj. unfold remove_finalizer.
  destruct (cl_Get w n) as [i|[]] eqn:HG; [|by apply Hco..].
  apply hif_get in HG. destruct (cl_Update w n _) as [w' e] eqn:HU. cbn. destruct e.
  - rewrite (hif_update_err _ _ _ _ _ HU). by apply Hco.
  - rewrite (hif_update_ok _ _ _ _ HU). destruct (_ && _); [done|]. intros [= <-]. cbn.
    by apply Hco.
Qed.

Lemma finish_deletion_coherent n inst (o o' : Operator W) r :
  finish_deletion retryOnConflict n inst o = (o', r) →
  coherent (o_w o) (o_hifs o) → coherent (o_w o') (o_hifs o').
Proof.
  unfold finish_deletion, CallFinalizer. case_bool_decide; [|by intros [= <- _]].
  destruct (UpdateCIDRs _) as [o1 r1] eqn:HQ.
  destruct (UpdateCIDRs_frame _ _ _ HQ) as [Hw Hh]. cbn in Hw, Hh. clear HQ. intros Hr Hco.
  assert (Hco1 : coherent (o_w o1) (o_hifs o1))
    by (rewrite Hw, Hh; by apply coherent_unset).
  assert (Hnone : o_hifs o1 !! n = None) by (rewrite Hh; apply lookup_delete_eq).
  destruct r1; [|by injection Hr as <- _..].
  destruct (retryOnConflict _ (o_w o1)) as [w2 e2] eqn:HR. injection Hr as <- _. cbn.
  pose proof (retry_runs (remove_finalizer n) (λ w, coherent w (o_hifs o1))) as HI.
  cbn in HI. specialize (HI (λ w, remove_finalizer_coherent n w _ Hnone) _ Hco1).
  by rewrite HR in HI.
Qed.

Lemma Reconcile_coherent n (o o' : Operator W) r :
  Reconcile DAEMON_PORT retryOnConflict n o = (o', r) →
  coherent (o_w o) (o_hifs o) → coherent (o_w o') (o_hifs o').
Proof.
  intros HR Hco. unfold Reconcile in HR.
  destruct (cl_Get (o_w o) n) as [inst|[]] eqn:HG; [|by injection HR as <- _..].
  apply hif_get in HG. destruct (IsUnmanaged _) eqn:Hun.
  { destruct (UpdateCIDRs _) as [o1 r1] eqn:HQ. injection HR as <- _.
    destruct (UpdateCIDRs_frame _ _ _ HQ) as [-> ->]. cbn.
    apply coherent_set; [done|]. exists inst. by auto. }
  assert (Hadd : ∀ w i e, add_finalizer n inst (o_w o) = (w, i, e) →
    coherent w (o_hifs o) ∧ ho_Hif i = ho_Hif inst ∧
    (e = None → at_ w n = Some i ∧ hifFinalizer ∈ ho_Finalizers i)).
  { intros w i e. unfold add_finalizer. case_bool_decide; [by intros [= <- <- <-]|].
    set (i' := with_finalizers _ _). assert (Hf : hifFinalizer ∈ ho_Finalizers i')
      by (apply elem_of_app; right; by left).
    destruct (cl_Update _ n i') as [w1 e1] eqn:HU. intros [= <- <- <-].
    split_and!; [by eapply update_same_coherent|done|].
    intros ->. split; [by eapply update_at|done]. }
  destruct (add_finalizer n inst (o_w o)) as [[w i] e].
  destruct (Hadd w i e eq_refl) as (Hco1 & Hsame & Hok). clear Hadd.
  destruct e as [e|]; [by injection HR as <- _|]. destruct (Hok eq_refl) as [Hat Hf].
  destruct (ho_Deleted i); [by eapply finish_deletion_coherent in HR|].
  set (o1 := if negb _ && negb _ then _ else _) in HR.
  assert (Ho1 : o_w o1 = w ∧ coherent (o_w o1) (o_hifs o1)).
  { unfold o1. destruct (_ && _); cbn; [|done]. split; [done|].
    apply coherent_set; [done|]. exists i. by auto. }
  destruct Ho1 as [Hw Hco2]. destruct (_ || _); [by injection HR as <- _|].
  destruct (UpdateInterfaces _ n i o1) as [o2 r2] eqn:HU. injection HR as <- _.
  eapply UpdateInterfaces_coherent; [by rewrite Hw|done|by rewrite Hsame|done|done].
Qed.

Lemma ProcessPodQueue_coherent (o : Operator W) pod :
  coherent (o_w o) (o_hifs o) →
  coherent (o_w (ProcessPodQueue o pod)) (o_hifs (ProcessPodQueue o pod)).
Proof.
  intros Hco. unfold ProcessPodQueue. destruct pod as [pod|]; [|done].
  destruct (negb _).
  - cbn. unfold createHostInterfaceInfo.
    destruct (GetHostInterface _ _) as [|[]]; [done| |done..].
    destruct (CreateHostInterface _ _ _) as [w e] eqn:HC. cbn. by eapply create_coherent.
  - destruct (api_Node _ _); [|done..]. cbn.
    destruct (GetHostInterface _ _) as [hif|] eqn:HG; [|done].
    destruct (IsUnmanaged _) eqn:Hun; [done|]. cbn.
    destruct (DeleteHostInterface _ _) as [w e] eqn:HD. cbn.
    eapply delete_coherent; [exact HD| |exact Hco].
    intros h Hh. destruct (proj2 Hco _ h Hh) as (obj & Ho & <- & _).
    apply hif_get in HG. congruence.
Qed.

(** the steps of the host interface controller and of the daemon watcher *)
Inductive hif_step : Operator W → Operator W → Prop :=
| step_reconcile n o o' r :
    Reconcile DAEMON_PORT retryOnConflict n o = (o', r) → hif_step o o'
| step_pod pod o : hif_step o (ProcessPodQueue o pod).

Inductive hif_steps : Operator W → Operator W → Prop :=
| hif_refl o : hif_steps o o
| hif_next o1 o2 o3 : hif_steps o1 o2 → hif_step o2 o3 → hif_steps o1 o3.

(** C12: The cache of host interfaces tells the truth.  From an empty cache, after
    any sequence of reconciliations of HostInterfaces and of daemon pod events,
    whatever the API server and the daemons answer, every cached host interface is
    the one stored in the cluster under that name, and it is unmanaged or protected
    by the finalizer, so that its deletion passes through the reconciler. *)
Theorem hif_cache_coherent o o' :
  named (o_w o) → o_hifs o = ∅ → hif_steps o o' →
  ∀ n h, o_hifs o' !! n = Some h → held (o_w o') n h.
Proof.
  intros Hn Hc Hs. apply (proj2 (A := named (o_w o'))).
  change (coherent (o_w o') (o_hifs o')). induction Hs as [o|o1 o2 o3 Hs IH Hst].
  - split; [done|]. intros n h. by rewrite Hc.
  - specialize (IH Hn Hc). destruct Hst as [n o o' r HR|pod o].
    + by eapply Reconcile_coherent.
    + by apply ProcessPodQueue_coherent.
Qed.
End coherence.

(** ** A cluster *)

Record hostworld := mkHW {
  hw_objs : gmap string HifObject;
  hw_pods : list KPod;
  hw_nodes : list string;
  hw_reported : list InterfaceInfoType
}.

Definition hw_set (w : hostworld) (m : gmap string HifObject) : hostworld :=
  mkHW m (hw_pods w) (hw_nodes w) (hw_reported w).

#[export] Instance hw_client : Client hostworld HifObject := {|
  cl_Get w n := match hw_objs w !! n with Some o => inl o | None => inr NotFound end;
  cl_List w := inl (map_to_list (hw_objs w));
  cl_Create w n o :=
    match hw_objs w !! n with
    | Some _ => (w, Some (Failure "already exists"))
    | None => (hw_set w (<[n := o]> (hw_objs w)), None)
    end;
  cl_Update w n o :=
    match hw_objs w !! n with
    | None => (w, Some NotFound)
    | Some _ =>
        if ho_Deleted o && bool_decide (ho_Finalizers o = [])
        then (hw_set w (delete n (hw_objs w)), None)
        else (hw_set w (<[n := o]> (hw_objs w)), None)
    end;
  cl_Delete w n :=
    match hw_objs w !! n with
    | None => (w, Some NotFound)
    | Some o =>
        if bool_decide (ho_Finalizers o = []) then (hw_set w (delete n (hw_objs w)), None)
        else (hw_set w (<[n := mkHifObj (ho_Finalizers o) true (ho_Hif o)]> (hw_objs w)), None)
    end;
  cl_Patch w n _ o := (w, Some (Failure "unsupported"))
|}.

#[export] Instance hw_api : HostAPI hostworld := {|
  api_Node w n := if bool_decide (n ∈ hw_nodes w) then NodeFound false else NodeNotFound;
  api_DaemonPods w := inl (hw_pods w);
  api_DaemonPodsOn w n := inl (filter (λ p, kp_NodeName p = n) (hw_pods w));
  api_DaemonSet w := inl (1, 1);
  api_PatchLabel w _ _ _ _ := (w, None);
  http_Interfaces w _ := inl (hw_reported w);
  http_Join w _ _ := (w, JoinOk)
|}.

Definition hw_at (w : hostworld) (n : string) : option HifObject := hw_objs w !! n.

#[export] Instance hw_laws : HifLaws hostworld hw_at.
Proof.
  split; simpl; unfold hw_at, hw_set; intros; repeat case_match; simplify_eq/=; split_and?;
    rewrite ?lookup_insert_eq, ?lookup_delete_eq, ?lookup_insert_ne, ?lookup_delete_ne by done;
    try done; repeat case_bool_decide; congruence.
Qed.

Definition ex_pod : KPod := mkKPod "multi-nicd-x" "op" "n1" "10.1.0.1" ∅ [true] false.
Definition ex_hw : hostworld := mkHW ∅ [ex_pod] ["n1"] [ex_if1; ex_if2].
Definition ex_op : Operator hostworld :=
  mkOp ex_hw ∅ ∅ ∅ (mkNetHandler false ∅) ∅ 0 false true.

(** the daemon pod appears, then its HostInterface is reconciled *)
Definition ex_op2 : Operator hostworld := ProcessPodQueue ex_op (Some ex_pod).
Definition ex_op3 : Operator hostworld :=
  (@Reconcile map_to_list_range hostworld _ _ "11000" (λ f w, f w) "n1" ex_op2).1.

Lemma hif_cache_coherent_witness :
  let h := mkHif ∅ (mkHostInterfaceSpec "n1" [ex_if1; ex_if2]) in
  o_hifs ex_op3 !! "n1" = Some h ∧ held hw_at (o_w ex_op3) "n1" h.
Proof.
  intros h. assert (Hc : o_hifs ex_op3 !! "n1" = Some h) by (vm_compute; reflexivity).
  split; [exact Hc|].
  refine (@hif_cache_coherent map_to_list_range hostworld _ _ hw_at _ "11000" (λ f w, f w)
    (λ f P HP w Hw, HP w Hw) ex_op ex_op3 _ _ _ "n1" h Hc).
  - intros n obj Ho. vm_compute in Ho. discriminate Ho.
  - reflexivity.
  - eapply hif_next; [eapply hif_next; [apply hif_refl|apply (step_pod _ _ (Some ex_pod))]|].
    eapply step_reconcile. apply surjective_pairing.
Defined.

(** at start-up any error of the node lookup counts as a missing node: the
    HostInterface of a live host is deleted *)
Definition failing_nodes : HostAPI hostworld := {|
  api_Node w n := NodeError;
  api_DaemonPods w := inl (hw_pods w);
  api_DaemonPodsOn w n := inl (filter (λ p, kp_NodeName p = n) (hw_pods w));
  api_DaemonSet w := inl (1, 1);
  api_PatchLabel w _ _ _ _ := (w, None);
  http_Interfaces w _ := inl (hw_reported w);
  http_Join w _ _ := (w, JoinOk)
|}.

Example InitHostInterfaceCache_node_error_deletes :
  let w := mkHW {["n1" := initHostInterface "n1" [ex_if1]]} [] ["n1"] [] in
  let o := mkOp w ∅ ∅ ∅ (mkNetHandler false ∅) ∅ 0 false true in
  hw_at (o_w (@InitHostInterfaceCache map_to_list_range hostworld _ failing_nodes o).1) "n1" = None.
Proof. vm_compute. reflexivity. Qed.

(** the greeting of a daemon lists the interfaces of its own host: the filter
    compares a host name with an address *)
Example join_hifs_own_host :
  @join_hifs map_to_list_range {["n1" := mkHif ∅ (mkHostInterfaceSpec "n1" [ex_if1])]}
    (daemon_of_pod ex_pod) = [ex_if1].
Proof. vm_compute. reflexivity. Qed.
