(* ===== verification/Startup.v ===== *)
(** * Start-up synchronisation: controllers/cidr_handler.go and ippool_controller.go

    When the configuration is ready the operator loads its caches from the cluster,
    drops the CIDRs whose network is gone, and brings the IPPools of the others in
    line with their plan and with the running pods.  [nad_delete] is the deletion of
    a NetworkAttachmentDefinition, which lives outside the modelled objects. *)

From S2P Require Import Prelude GoLib Types K8s.
From S2P Require Import IPPool Network Cidr Route CidrHandler Sync HostInterface.

Definition set_ippools {W} (o : Operator W) (c : SafeCache IPPoolSpec) : Operator W :=
  mkOp (o_w o) c (o_cidrs o) (o_hifs o) (o_nets o) (o_daemons o) (o_queue o) (o_closed o) (o_ready o).

Section startup.
Context {W : Type} {pools : Client W IPPool} {cidrs : Client W CIDRSpec}
  {nets : Client W MultiNicNetwork} {hifs : Client W HifObject} {api : HostAPI W} {ord : MapRange}.
Context (post : W → string → L3ConfigRequest → W * http_answer) (DAEMON_PORT : string).
Context (nad_delete : W → string → W * option kerr).
Context (unmarshal : string → option (list NetworkStatus)).

(** ** ippool_controller.go *)

(** the error left is the one of the last label patch *)
Fixpoint init_pools (o : Operator W) (l : list (string * IPPool)) (err : option kerr)
    : Operator W * option kerr :=
  match l with
  | [] => (o, err)
  | (name, instance) :: rest =>
      let o := set_ippools o (SetCache (o_ippools o) name (ip_Spec instance)) in
      if bool_decide (is_Some (ip_Labels instance !! HostNameLabel))
         && bool_decide (is_Some (ip_Labels instance !! DefNameLabel))
      then init_pools o rest err
      else
        let '(w, err) := AddLabel (o_w o) name instance in
        init_pools (set_w o w) rest err
  end.

Definition InitIppoolCache (o : Operator W) : Operator W * option kerr :=
  match ListIPPool (o_w o) with
  | (_, Some err) => (o, Some err)
  | (listObjects, None) => init_pools o (range_map listObjects) None
  end.

(** ** cidr_handler.go *)

Definition InitCustomCRCache (o : Operator W) : Operator W :=
  fst (InitHostInterfaceCache (fst (InitIppoolCache o))).

Definition deletePendingCIDR (o : Operator W) (name : string) (cidr : CIDRSpec) : Operator W :=
  let '(w, _) := nad_delete (o_w o) name in
  let '(w, _) := DeleteCIDR post DAEMON_PORT w (o_daemons o) name cidr in
  set_w o w.

Fixpoint sync_networks (now : Z) (daemonSize infoAvailableSize : Z) (o : Operator W)
    (l : list (string * CIDRSpec)) (validCIDRs : gmap string CIDRSpec)
    : Operator W * gmap string CIDRSpec :=
  match l with
  | [] => (o, validCIDRs)
  | (name, cidr) :: rest =>
      match GetNetwork (o_w o) name with
      | inr NotFound =>
          sync_networks now daemonSize infoAvailableSize (deletePendingCIDR o name cidr) rest validCIDRs
      | inl multinicnetwork =>
          let '(w, nh, _) :=
            SyncAllStatus now (o_w o) (o_nets o) name cidr
              (st_RouteStatus (mn_Status multinicnetwork)) daemonSize infoAvailableSize true in
          sync_networks now daemonSize infoAvailableSize (set_nets (set_w o w) nh) rest
            (<[name := cidr]> validCIDRs)
      | inr _ => sync_networks now daemonSize infoAvailableSize o rest validCIDRs
      end
  end.

Definition syncWithMultinicNetwork (now : Z) (o : Operator W) (cidrMap : gmap string CIDRSpec)
    : Operator W * gmap string CIDRSpec :=
  sync_networks now (GetSize (o_daemons o)) (GetInfoAvailableSize (o_hifs o)) o
    (range_map cidrMap) ∅.

Fixpoint sync_pools (o : Operator W) (ippoolSnapshot : gmap string IPPoolSpec)
    (l : list (string * CIDRSpec)) : Operator W * go () :=
  match l with
  | [] => (o, Ret ())
  | (name, cidr) :: rest =>
      let o := set_w o (CleanPendingIPPools (o_w o) ippoolSnapshot name cidr) in
      match createOrUpdateIPPool o ippoolSnapshot name cidr with
      | (o, Panic) => (o, Panic)
      | (o, Ret _) => sync_pools o ippoolSnapshot rest
      end
  end.

Definition syncIPPools (pods : list Pod + kerr) (o : Operator W) (validCIDRs : gmap string CIDRSpec)
    : Operator W * go (gmap string (list Allocation)) :=
  let ippoolSnapshot := ListCache (o_ippools o) in
  match sync_pools o ippoolSnapshot (range_map validCIDRs) with
  | (o, Panic) => (o, Panic)
  | (o, Ret _) =>
      let '(w, r) := SyncIPPoolWithActivePods unmarshal pods (o_w o) validCIDRs ippoolSnapshot in
      (set_w o w, r)
  end.

Definition SyncAllPendingCustomCR (now : Z) (pods : list Pod + kerr) (o : Operator W)
    : Operator W * go () :=
  let o := InitCustomCRCache o in
  match ListCIDR (o_w o) with
  | (_, Some _) => (o, Ret ())
  | (cidrMap, None) =>
      let '(o, validCIDRs) := syncWithMultinicNetwork now o cidrMap in
      let '(o, r) := syncIPPools pods o validCIDRs in
      (o, match r with Panic => Panic | Ret _ => Ret () end)
  end.

(** ** cidr_controller.go, after the object is read and not deleted *)

(** the greeting of every daemon *)
Fixpoint greet (w : W) (cache : SafeCache HostInterface) (l : list (string * DaemonPod)) : W :=
  match l with
  | [] => w
  | (_, daemon) :: rest => greet (fst (IpamJoin DAEMON_PORT w cache daemon)) cache rest
  end.

Definition sync_cidr (now : Z) (cidrName : string) (spec : CIDRSpec) : op W rec_result := λ o,
  let '(w, routeStatus) := SyncCIDRRoute post DAEMON_PORT (o_w o) (o_daemons o) spec true in
  let daemonSize := GetSize (o_daemons o) in
  let infoAvailableSize := GetInfoAvailableSize (o_hifs o) in
  let '(w, nh, (netStatus, err)) :=
    SyncAllStatus now w (o_nets o) cidrName spec routeStatus daemonSize infoAvailableSize true in
  let o := set_nets (set_w o w) nh in
  match err with
  | Some _ => (o, Fin (RequeueAfter Normal))
  | None =>
      let '(o, r) :=
        if bool_decide (ds_CIDRProcessedHost (st_DiscoverStatus netStatus)
                        = ds_InterfaceInfoAvailable (st_DiscoverStatus netStatus))
        then (o, Fin ()) else UpdateCIDRs o in
      match r with
      | Fin _ =>
          (set_w o (greet (o_w o) (o_hifs o) (range_map (ListCache (o_daemons o)))), Fin Reconciled)
      | Crash => (o, Crash)
      | OutOfFuel => (o, OutOfFuel)
      | Stuck => (o, Stuck)
      end
  end.

Definition callFinalizer (o : Operator W) (name : string) (cidr : CIDRSpec) : Operator W :=
  let '(w, _) := DeleteCIDR post DAEMON_PORT (o_w o) (o_daemons o) name cidr in
  set_cidrs (set_w o w) (UnsetCache (o_cidrs o) name).
End startup.
