(* ===== verification/StartupProps.v ===== *)
(** * Start-up synchronisation: properties *)

From S2P Require Import Prelude GoLib Types K8s.
From S2P Require Import IPPool Network Cidr Route CidrHandler Sync HostInterface Startup.
From S2P Require OperatorProps.

Section startup_props.
Context {W : Type} {pools : Client W IPPool} {cidrs : Client W CIDRSpec}
  {nets : Client W MultiNicNetwork} {ord : MapRange}.
Context (post : W → string → L3ConfigRequest → W * http_answer) (DAEMON_PORT : string).
Context (nad_delete : W → string → W * option kerr).
Context (unmarshal : string → option (list NetworkStatus)).
Context (pool_at : W → string → option IPPool) {laws : ClientLaws W IPPool pool_at}.

Context (marked : W → string → Prop) {dlaws : DeletionLaws W IPPool pool_at marked}.

(** the API server is reachable for IPPools: what is stored is read, and its
    deletion is accepted *)
Definition pools_reachable : Prop :=
  ∀ w n, is_Some (pool_at w n) → (∃ o, cl_Get (O:=IPPool) w n = inl o) ∧
    ∃ w', cl_Delete (O:=IPPool) w n = (w', None).

(** gone, or going when its finalizers are gone *)
Definition doomed (w : W) (n : string) : Prop := pool_at w n = None ∨ marked w n.

Lemma doomed_delete w n w' m e : cl_Delete (O:=IPPool) w n = (w', e) → doomed w m → doomed w' m.
Proof.
  intros Hd [Hn|Hm]; [|exact (marked_delete _ _ _ _ _ Hd Hm)]. destruct (decide (n = m)) as [<-|Hne].
  - destruct e; [left; by rewrite (delete_err _ _ _ _ Hd)|exact (delete_marks _ _ _ Hd)].
  - left. by rewrite (delete_other _ _ _ _ _ Hd Hne).
Qed.

Lemma DeleteIPPool_doomed w def pod n : doomed w n → doomed (DeleteIPPool w def pod).1 n.
Proof.
  unfold DeleteIPPool, GetIPPool. destruct (cl_Get w _); [|done].
  destruct (cl_Delete w _) as [w' e] eqn:E. by eapply doomed_delete.
Qed.

Lemma DeleteIPPool_dooms w def pod :
  pools_reachable → doomed (DeleteIPPool w def pod).1 (GetIPPoolName def pod).
Proof.
  intros Hr. set (n := GetIPPoolName def pod).
  destruct (pool_at w n) eqn:Hn; [|by apply DeleteIPPool_doomed; left].
  destruct (Hr w n) as [[o Hg] [w' Hd]]; [by rewrite Hn|].
  unfold DeleteIPPool, GetIPPool. fold n. rewrite Hg, Hd. exact (delete_marks _ _ _ Hd).
Qed.

Lemma delete_orphans_doomed defs snapshot n : ∀ w,
  doomed w n → doomed (delete_orphans w defs snapshot) n.
Proof.
  induction snapshot as [|[k i] snapshot IH]; intros w Hn; [done|]. cbn. apply IH.
  case_bool_decide; [done|]. by apply DeleteIPPool_doomed.
Qed.

Lemma delete_orphans_dooms defs snapshot k ippool : ∀ w,
  pools_reachable → (k, ippool) ∈ snapshot → p_NetAttachDefName ippool ∉ defs →
  doomed (delete_orphans w defs snapshot)
    (GetIPPoolName (p_NetAttachDefName ippool) (p_PodCIDR ippool)).
Proof.
  induction snapshot as [|[k' i] snapshot IH]; intros w Hr Hin Hd; [by apply not_elem_of_nil in Hin|].
  cbn. apply elem_of_cons in Hin as [[= <- <-]|Hin]; [|by apply IH].
  rewrite bool_decide_eq_false_2 by done.
  by apply delete_orphans_doomed, DeleteIPPool_dooms.
Qed.

Lemma patch_pools_doomed n snapshot : ∀ w am cr out,
  doomed w n → doomed (patch_pools w am cr snapshot out).1 n.
Proof.
  induction snapshot as [|[k i] snapshot IH]; intros w am cr out Hn; [done|]. cbn [patch_pools].
  destruct (GetSyncAllocations i am cr) as [[[[ch news] am'] cr']|]; [|done]. apply IH.
  destruct ch; [|done]. unfold PatchIPPoolAllocations, GetIPPool.
  destruct (cl_Get w k) as [pl|] eqn:Hg; [|done].
  destruct (cl_Patch w k pl _) as [w' e] eqn:Hp. cbn.
  destruct Hn as [Hn|Hn]; [|exact (marked_patch _ _ _ _ _ _ _ Hp Hn)]. left.
  destruct (decide (k = n)) as [<-|Hne].
  - apply get_sound in Hg. congruence.
  - by rewrite (patch_frame _ _ _ _ _ _ _ Hp Hne).
Qed.

(** no network can be read: the CIDRs are kept, and none counts as valid *)
Lemma sync_networks_unreadable now ds ia (o : Operator W) l valid :
  Forall (λ nc, ∃ e, GetNetwork (o_w o) nc.1 = inr (Failure e)) l →
  sync_networks post DAEMON_PORT nad_delete now ds ia o l valid = (o, valid).
Proof.
  induction 1 as [|[name c] l [e He] Hl IH]; [done|]. cbn [sync_networks]. cbn in He.
  by rewrite He.
Qed.

(** C37: a failure to read the networks at start-up loses the allocations. When
    every lookup of a MultiNicNetwork fails with an error other than not found, the
    CIDRs are kept but none is valid, and the synchronisation of the pools deletes
    every cached IPPool, with the allocations of the running pods in it, provided the
    API server reads and accepts the deletion of stored pools: afterwards the pool is
    gone or, with its finalizer still in place, marked for deletion. *)
Theorem unreadable_networks_delete_pools now pods (o o1 : Operator W) valid cidrMap k ippool :
  pools_reachable →
  (∀ name c, cidrMap !! name = Some c → ∃ e, GetNetwork (o_w o) name = inr (Failure e)) →
  o_ippools o !! k = Some ippool →
  syncWithMultinicNetwork post DAEMON_PORT nad_delete now o cidrMap = (o1, valid) →
  let n := GetIPPoolName (p_NetAttachDefName ippool) (p_PodCIDR ippool) in
  let w' := o_w (syncIPPools unmarshal pods o1 valid).1 in
  o1 = o ∧ valid = ∅ ∧ (pool_at w' n = None ∨ marked w' n).
Proof.
  intros Hr Hn Hk Hs n w'. subst w'. unfold syncWithMultinicNetwork in Hs.
  rewrite sync_networks_unreadable in Hs.
  2:{ apply Forall_forall. intros [name c] Hin%elem_of_range_map. by eapply Hn. }
  injection Hs as <- <-. split_and!; [done..|]. unfold syncIPPools.
  assert (Hnil : range_map (∅ : gmap string CIDRSpec) = []).
  { apply Permutation_nil_r. rewrite range_map_perm. by rewrite map_to_list_empty. }
  rewrite Hnil. cbn [sync_pools]. unfold SyncIPPoolWithActivePods.
  set (w1 := delete_orphans _ _ _).
  assert (Hw1 : doomed w1 n).
  { apply (delete_orphans_dooms _ _ k); [done|by apply elem_of_range_map|]. by rewrite dom_empty. }
  destruct (getCurrentAllocationMap _ _ _) as [am [e|]]; [done|].
  match goal with |- context [patch_pools w1 am ?cr ?l ?out] =>
    pose proof (patch_pools_doomed _ l w1 am cr out Hw1) as Hp;
    destruct (patch_pools w1 am cr l out) as [w2 r] end.
  done.
Qed.
End startup_props.

(** ** A pool with one allocation, and networks that cannot be read *)

Definition ex_pool : IPPoolSpec :=
  mkIPPoolSpec "192.168.0.0/24" "192.168.0.0/18" "net" "hostA" "eth1" []
    [mkAllocation "pod" "default" 5 "192.168.0.5"].

(** IPPools that are always reachable, all with a finalizer: a deletion marks them *)
Record pool_world := mkPW { pw_pools : gmap string IPPool; pw_marked : gset string }.

#[local] Existing Instance map_to_list_range.

#[local] Instance pw_client : Client pool_world IPPool := {|
  cl_Get w n := match pw_pools w !! n with Some i => inl i | None => inr NotFound end;
  cl_List w := inl (map_to_list (pw_pools w));
  cl_Create w n o :=
    match pw_pools w !! n with
    | Some _ => (w, Some AlreadyExists)
    | None => (mkPW (<[n := o]> (pw_pools w)) (pw_marked w), None)
    end;
  cl_Update w n o :=
    match pw_pools w !! n with
    | None => (w, Some NotFound)
    | Some _ => (mkPW (<[n := o]> (pw_pools w)) (pw_marked w), None)
    end;
  cl_Delete w n :=
    match pw_pools w !! n with
    | None => (w, Some NotFound)
    | Some _ => (mkPW (pw_pools w) ({[n]} ∪ pw_marked w), None)
    end;
  cl_Patch w n _ o :=
    match pw_pools w !! n with
    | None => (w, Some NotFound)
    | Some _ => (mkPW (<[n := o]> (pw_pools w)) (pw_marked w), None)
    end
|}.

#[local] Instance pw_laws : ClientLaws pool_world IPPool (λ w n, pw_pools w !! n).
Proof. split; [split|..]; simpl; store_law. Qed.

#[local] Instance pw_deletion :
  DeletionLaws pool_world IPPool (λ w n, pw_pools w !! n) (λ w n, n ∈ pw_marked w).
Proof. split; simpl; intros; repeat case_match; simplify_eq/=; right; set_solver. Qed.

(** networks and CIDRs the server does not answer for *)
Definition unanswered {O} : Client pool_world O := {|
  cl_Get _ _ := inr (Failure "timeout");
  cl_List _ := inr (Failure "timeout");
  cl_Create w _ _ := (w, Some (Failure "timeout"));
  cl_Update w _ _ := (w, Some (Failure "timeout"));
  cl_Delete w _ := (w, Some (Failure "timeout"));
  cl_Patch w _ _ _ := (w, Some (Failure "timeout"))
|}.

Definition ex_pw : Operator pool_world :=
  mkOp (mkPW {["net-192.168.0.0-24" := mkIPPool ∅ ex_pool]} ∅) {["net-192.168.0.0-24" := ex_pool]}
    ∅ ∅ (mkNetHandler false ∅) ∅ 0 false true.

Lemma unreadable_networks_delete_pools_witness :
  let n := "net-192.168.0.0-24" in
  let w' := o_w (syncIPPools (λ _, None) (inl []) ex_pw ∅).1 in
  is_Some (pw_pools (o_w ex_pw) !! n) ∧ (n ∉ pw_marked (o_w ex_pw)) ∧
  (pw_pools w' !! n = None ∨ n ∈ pw_marked w').
Proof.
  intros n w'. split; [by eexists|]. split; [apply not_elem_of_empty|].
  refine (proj2 (proj2 (unreadable_networks_delete_pools (pools:=pw_client) (cidrs:=unanswered)
    (nets:=unanswered) (λ w _ _, (w, PostError "")) "11000" (λ w _, (w, None)) (λ _, None)
    (λ w n, pw_pools w !! n) (λ w n, n ∈ pw_marked w) 0 (inl []) ex_pw ex_pw ∅
    {["net" := mkCIDRSpec ex_def []]} n ex_pool _ _ _ _))).
  - intros w m [o Ho]. cbn. rewrite Ho. by eauto.
  - intros name c _. by exists "timeout".
  - reflexivity.
  - vm_compute. reflexivity.
Defined.
