(* ===== verification/Reconcilers.v ===== *)
(** * controllers/ippool_controller.go, cidr_controller.go, synchronizer.go, namespace_watcher.go

    The reconcilers of IPPools and CIDRs: an object gets a finalizer, a deleted one
    is taken out of the cache (and, a CIDR, loses its pools and routes) before the
    finalizer goes.  The periodic synchronisation refreshes the interfaces of every
    host, the routes, the pools and the status of every network.

    [KObject] is an object with the metadata a reconciler reads; its store is the
    interface [Client] of [K8s]. *)

From S2P Require Import Prelude GoLib Types K8s.
From S2P Require Import IPPool Network Cidr Route CidrHandler Sync HostInterface Startup.

Record KObject (O : Type) := mkKObj {
  ko_Finalizers : list string;
  ko_Deleted : bool;            (* DeletionTimestamp is set *)
  ko_Obj : O
}.
Arguments mkKObj {O} _ _ _.
Arguments ko_Finalizers {O} _.
Arguments ko_Deleted {O} _.
Arguments ko_Obj {O} _.

Definition set_Finalizers {O} (i : KObject O) (f : list string) : KObject O :=
  mkKObj f (ko_Deleted i) (ko_Obj i).

Definition ippoolFinalizer : string := "finalizers.ippool.multinic.fms.io".
Definition cidrFinalizer : string := "finalizers.cidr.multinic.fms.io".

(** ** Finalizers *)

Section finalizers.
Context {W O : Type} {objs : Client W (KObject O)} (finalizer : string).

Definition ContainsFinalizer (i : KObject O) : bool := bool_decide (finalizer ∈ ko_Finalizers i).

(** the body that [retry.RetryOnConflict] runs *)
Definition drop_finalizer (name : string) (w : W) : W * option kerr :=
  match cl_Get (O:=KObject O) w name with
  | inr NotFound => (w, None)
  | inr err => (w, Some err)
  | inl instance =>
      cl_Update w name (set_Finalizers instance (filter (λ f, f ≠ finalizer) (ko_Finalizers instance)))
  end.

(** adding the finalizer when it is missing *)
Definition ensure_finalizer (name : string) (instance : KObject O) (w : W)
    : W * KObject O * option kerr :=
  if ContainsFinalizer instance then (w, instance, None)
  else
    let instance := set_Finalizers instance (ko_Finalizers instance ++ [finalizer]) in
    let '(w, err) := cl_Update w name instance in
    (w, instance, err).
End finalizers.

Definition result_of (err : option kerr) : rec_result :=
  match err with Some e => ReconcileError e | None => Reconciled end.

Section reconcilers.
Context {W : Type} {pools : Client W IPPool} {cidrs : Client W CIDRSpec}
  {nets : Client W MultiNicNetwork} {hifs : Client W HifObject} {api : HostAPI W} {ord : MapRange}.
Context {poolobjs : Client W (KObject IPPool)} {cidrobjs : Client W (KObject CIDRSpec)}.
Context (post : W → string → L3ConfigRequest → W * http_answer) (DAEMON_PORT : string).
Context (retryOnConflict : (W → W * option kerr) → W → W * option kerr).

(** ** ippool_controller.go *)

Definition finalize_pool (name : string) (o : Operator W) : Operator W :=
  set_ippools o (UnsetCache (o_ippools o) name).

Definition finish_pool_deletion (name : string) (instance : KObject IPPool) (o : Operator W)
    : Operator W * rec_result :=
  if ContainsFinalizer ippoolFinalizer instance then
    let o := finalize_pool name o in
    let '(w, err) := retryOnConflict (drop_finalizer (O:=IPPool) ippoolFinalizer name) (o_w o) in
    (set_w o w, result_of err)
  else (o, Reconciled).

Definition ReconcileIPPool (name : string) (o : Operator W) : Operator W * rec_result :=
  if negb (o_ready o) then (o, RequeueAfter Normal)
  else match cl_Get (O:=KObject IPPool) (o_w o) name with
  | inr NotFound => (o, Reconciled)
  | inr _ => (o, RequeueAfter Long)
  | inl instance =>
      if ko_Deleted instance then finish_pool_deletion name instance o
      else
        let o := set_ippools o (SetCache (o_ippools o) name (ip_Spec (ko_Obj instance))) in
        let '(w, _, err) := ensure_finalizer ippoolFinalizer name instance (o_w o) in
        (set_w o w, result_of err)
  end.

(** ** cidr_controller.go *)

Definition finish_cidr_deletion (name : string) (instance : KObject CIDRSpec) (o : Operator W)
    : Operator W * rec_result :=
  if ContainsFinalizer cidrFinalizer instance then
    let o := callFinalizer post DAEMON_PORT o name (ko_Obj instance) in
    let '(w, err) := retryOnConflict (drop_finalizer (O:=CIDRSpec) cidrFinalizer name) (o_w o) in
    (set_w o w, result_of err)
  else (o, Reconciled).

Definition ReconcileCIDR (now : Z) (name : string) : op W rec_result := λ o,
  if negb (o_ready o) then (o, Fin (RequeueAfter Normal))
  else match cl_Get (O:=KObject CIDRSpec) (o_w o) name with
  | inr NotFound => (o, Fin Reconciled)
  | inr _ => (o, Fin (RequeueAfter Long))
  | inl instance =>
      let '(w, instance, err) := ensure_finalizer cidrFinalizer name instance (o_w o) in
      let o := set_w o w in
      match err with
      | Some e => (o, Fin (ReconcileError e))
      | None =>
          if ko_Deleted instance then
            let '(o, r) := finish_cidr_deletion name instance o in (o, Fin r)
          else sync_cidr post DAEMON_PORT now name (ko_Obj instance) o
      end
  end.

(** ** synchronizer.go *)

(** the object, with its metadata, of a cached host interface *)
Context (hif_object : HostInterface → HifObject).

(** refreshes every host interface; the number of those with interfaces *)
Fixpoint sync_interfaces (l : list (string * HostInterface)) (available : Z) : op W Z := λ o,
  match l with
  | [] => (o, Fin available)
  | (name, instance) :: rest =>
      match UpdateInterfaces DAEMON_PORT name (hif_object instance) o with
      | (o, Fin (Err _)) => sync_interfaces rest available o
      | (o, Fin (Ok _)) =>
          sync_interfaces rest
            (if bool_decide (hi_Interfaces (hf_Spec instance) = []) then available else available + 1) o
      | (o, Crash) => (o, Crash)
      | (o, OutOfFuel) => (o, OutOfFuel)
      | (o, Stuck) => (o, Stuck)
      end
  end.

Fixpoint sync_all (now daemonSize infoAvailableSize : Z) (ippoolSnapshot : gmap string IPPoolSpec)
    (l : list (string * CIDRSpec)) : op W () := λ o,
  match l with
  | [] => (o, Fin ())
  | (name, instanceSpec) :: rest =>
      let '(w, routeStatus) := SyncCIDRRoute post DAEMON_PORT (o_w o) (o_daemons o) instanceSpec false in
      let w := CleanPendingIPPools w ippoolSnapshot name instanceSpec in
      let '(w, nh, (netStatus, err)) :=
        SyncAllStatus now w (o_nets o) name instanceSpec routeStatus daemonSize infoAvailableSize false in
      let o := set_nets (set_w o w) nh in
      let '(o, r) :=
        match err with
        | Some _ => (o, Fin ())
        | None =>
            if bool_decide (ds_CIDRProcessedHost (st_DiscoverStatus netStatus)
                            = ds_InterfaceInfoAvailable (st_DiscoverStatus netStatus))
            then (o, Fin ()) else UpdateCIDRs o
        end in
      match r with
      | Fin _ => sync_all now daemonSize infoAvailableSize ippoolSnapshot rest o
      | Crash => (o, Crash)
      | OutOfFuel => (o, OutOfFuel)
      | Stuck => (o, Stuck)
      end
  end.

(** one tick of [RunPeriodicUpdate] *)
Definition RunPeriodicUpdate (now : Z) : op W () := λ o,
  if o_ready o && IsDaemonSetReady (o_w o) then
    let daemonSize := GetSize (o_daemons o) in
    match sync_interfaces (range_map (ListCache (o_hifs o))) 0 o with
    | (o, Fin infoAvailableSize) =>
        sync_all now daemonSize infoAvailableSize (ListCache (o_ippools o))
          (range_map (ListCache (o_cidrs o))) o
    | (o, Crash) => (o, Crash)
    | (o, OutOfFuel) => (o, OutOfFuel)
    | (o, Stuck) => (o, Stuck)
    end
  else (o, Fin ()).
End reconcilers.
