(* ===== verification/Config.v ===== *)
(** * controllers/config_controller.go: the operator's configuration and the daemon set

    The Config object (api/v1/config_types.go) sets the operator's variables
    (internal/vars) and the daemon connector, and deploys the daemon set.  The first
    Config read makes the operator ready: the caches are loaded and every other
    reconciler starts to work.  When it is deleted, the CIDRs are deleted, the
    reconciler waits until the cache of IPPools is empty, and the daemon set goes.

    Resources, security contexts, tolerations and environment sources are only
    copied: they are strings here. *)

From S2P Require Import Prelude GoLib GoText Types K8s.
From S2P Require Import IPPool Network Cidr Route CidrHandler Sync HostInterface Startup Reconcilers.

(** ** internal/vars/vars.go *)

Definition second : Z := 10 ^ 9.
Definition minute : Z := 60 * second.

(** [InitIntFromEnv], with the environment as an argument *)
Definition InitIntFromEnv (env : string → option string) (key : string) (defaultValue : Z) : Z :=
  match env key with
  | Some strValue => let '(value, err) := Strconv.Atoi strValue in if err : bool then defaultValue else value
  | None => defaultValue
  end.

Record Vars := mkVars {
  vr_UrgentReconcileTime : Z;
  vr_NormalReconcileTime : Z;
  vr_LongReconcileTime : Z;
  vr_ContextTimeout : Z;
  vr_Level : Z;                 (* ZapOpts.Level: the negative of the verbosity *)
  vr_DaemonPort : Z;
  vr_TargetCNI : string
}.

Definition default_vars : Vars :=
  mkVars (5 * second) minute (10 * minute) (2 * minute) (-4) 11000 "multi-nic".

(** ** api/v1/config_types.go *)

(** [ValueFrom]: the path of a field reference *)
Record EnvVar := mkEnvVar { ev_Name : string; ev_Value : string; ev_FieldPath : option string }.

Record HostPathMount := mkMount { hm_Name : string; hm_PodCNIPath : string; hm_HostCNIPath : string }.

Record DaemonSpec := mkDaemonSpec {
  dm_NodeSelector : gmap string string;
  dm_Image : string;
  dm_ImagePullSecret : string;
  dm_ImagePullPolicy : string;
  dm_SecurityContext : option string;
  dm_Env : list EnvVar;
  dm_EnvFrom : list string;
  dm_HostPathMounts : list HostPathMount;
  dm_DaemonPort : Z;
  dm_Resources : string;
  dm_Tolerations : list string
}.

Record ConfigSpec := mkConfigSpec {
  cf_CNIType : string;
  cf_IPAMType : string;
  cf_Daemon : DaemonSpec;
  cf_JoinPath : string;
  cf_InterfacePath : string;
  cf_AddRoutePath : string;
  cf_DeleteRoutePath : string;
  cf_UrgentReconcileSeconds : Z;
  cf_NormalReconcileMinutes : Z;
  cf_LongReconcileMinutes : Z;
  cf_ContextTimeoutMinutes : Z;
  cf_LogLevel : Z
}.

(** ** daemon_connector.go: the variables of the connector *)

Record Connector := mkConnector {
  cn_DAEMON_NAMESPACE : string;
  cn_DAEMON_PORT : string;
  cn_INTERFACE_PATH : string;
  cn_ADD_ROUTE_PATH : string;
  cn_DELETE_ROUTE_PATH : string;
  cn_REGISTER_IPAM_PATH : string
}.

Definition SetDaemonConnector (OPERATOR_NAMESPACE : string) (daemonSpec : ConfigSpec) : Connector :=
  mkConnector OPERATOR_NAMESPACE (Strconv.Itoa (dm_DaemonPort (cf_Daemon daemonSpec)))
    (cf_InterfacePath daemonSpec) (cf_AddRoutePath daemonSpec) (cf_DeleteRoutePath daemonSpec)
    (cf_JoinPath daemonSpec).

(** ** The daemon set *)

Record VolumeMount := mkVolumeMount { vm_Name : string; vm_MountPath : string }.
Record Volume := mkVolume { vo_Name : string; vo_HostPath : option string }.

Record Container := mkContainer {
  ct_Name : string;
  ct_Image : string;
  ct_Ports : list Z;            (* int32 *)
  ct_EnvFrom : list string;
  ct_Env : list EnvVar;
  ct_Resources : string;
  ct_VolumeMounts : list VolumeMount;
  ct_ImagePullPolicy : string;
  ct_SecurityContext : option string
}.

Record DaemonSet := mkDaemonSet {
  dse_Name : string;
  dse_Namespace : string;
  dse_MatchLabels : gmap string string;
  dse_PodLabels : gmap string string;
  dse_PriorityClassName : string;
  dse_HostNetwork : bool;
  dse_ServiceAccountName : string;
  dse_NodeSelector : gmap string string;
  dse_Tolerations : list string;
  dse_Containers : list Container;
  dse_Volumes : list Volume;
  dse_ImagePullSecrets : list string
}.

(** conversion to [int32] *)
Definition i32 (z : Z) : Z := (z + 2 ^ 31) mod 2 ^ 32 - 2 ^ 31.

Definition NodeNameKey : string := "K8S_NODENAME".

Definition hostNameVar : EnvVar := mkEnvVar NodeNameKey "" (Some "spec.nodeName").

Definition newCNIDaemonSet (OPERATOR_NAMESPACE : string) (name : string) (daemonSpec : DaemonSpec)
    : DaemonSet :=
  let labels : gmap string string := {[DaemonLabelKey := DaemonLabelValue]} in
  let mnts := dm_HostPathMounts daemonSpec in
  let vmnts := (λ mnt, mkVolumeMount (hm_Name mnt) (hm_PodCNIPath mnt)) <$> mnts in
  let volumes := (λ mnt, mkVolume (hm_Name mnt) (Some (hm_HostCNIPath mnt))) <$> mnts in
  let secrets :=
    if bool_decide (dm_ImagePullSecret daemonSpec = "") then [] else [dm_ImagePullSecret daemonSpec] in
  let container :=
    mkContainer name (dm_Image daemonSpec) [i32 (dm_DaemonPort daemonSpec)] (dm_EnvFrom daemonSpec)
      (dm_Env daemonSpec ++ [hostNameVar]) (dm_Resources daemonSpec) vmnts
      (dm_ImagePullPolicy daemonSpec) (dm_SecurityContext daemonSpec) in
  mkDaemonSet name OPERATOR_NAMESPACE labels labels "system-cluster-critical" true
    "multi-nic-cni-operator-controller-manager" (dm_NodeSelector daemonSpec) (dm_Tolerations daemonSpec)
    [container] volumes secrets.

(** ** The default configuration *)

Definition getOperatorNamespace (env : string → option string) : string :=
  match env "OPERATOR_NAMESPACE" with Some val => val | None => "multi-nic-cni-operator" end.

Definition DefaultCNIHostPath : string := "/var/lib/cni/bin".
Definition CNIBinVolumeName : string := "cnibin".

(** the volumes of the multus pods found (at most one pod), or the error *)
Definition getCNIHostPath (multusPods : list (list Volume) + kerr) : string :=
  match multusPods with
  | inr _ => DefaultCNIHostPath
  | inl pods =>
      match list_find (λ v, vo_Name v = CNIBinVolumeName) (mjoin pods) with
      | Some (_, volume) => default DefaultCNIHostPath (vo_HostPath volume)
      | None => DefaultCNIHostPath
      end
  end.

Definition getDefaultConfigSpec (cniHostPath : string) : ConfigSpec :=
  let env := [mkEnvVar "DAEMON_PORT" (Strconv.Itoa 11000) None;
              mkEnvVar "RT_TABLE_PATH" "/opt/rt_tables" None] in
  let hostPathMounts :=
    [mkMount "cnibin" "/host/opt/cni/bin" cniHostPath;
     mkMount "device-plugin" "/var/lib/kubelet/device-plugins" "/var/lib/kubelet/device-plugins";
     mkMount "rt-tables" "/opt/rt_tables" "/etc/iproute2/rt_tables";
     mkMount "hwdata" "/usr/share/hwdata" "/usr/share/hwdata"] in
  let daemonSpec :=
    mkDaemonSpec ∅ "ghcr.io/foundation-model-stack/multi-nic-cni-daemon:v1.3.2" "" ""
      (Some "privileged") env [] hostPathMounts 11000 "cpu: 100m, memory: 50Mi" [] in
  mkConfigSpec "multi-nic" "multi-nic-ipam" daemonSpec "/join" "/interface" "/addl3" "/deletel3"
    0 0 0 0 0.

(** ** The reconciler *)

Definition configFinalizer : string := "finalizers.config.multinic.fms.io".

(** the operator, its variables and its connector *)
Record ConfigState (W : Type) := mkCS {
  cs_op : Operator W;
  cs_vars : Vars;
  cs_conn : Connector
}.
Arguments mkCS {W} _ _ _.
Arguments cs_op {W} _.
Arguments cs_vars {W} _.
Arguments cs_conn {W} _.

Definition set_op {W} (s : ConfigState W) (o : Operator W) : ConfigState W :=
  mkCS o (cs_vars s) (cs_conn s).
Definition set_conn {W} (s : ConfigState W) (c : Connector) : ConfigState W :=
  mkCS (cs_op s) (cs_vars s) c.
Definition set_ready {W} (o : Operator W) (b : bool) : Operator W :=
  mkOp (o_w o) (o_ippools o) (o_cidrs o) (o_hifs o) (o_nets o) (o_daemons o) (o_queue o) (o_closed o) b.

(** [time.Duration(n) * unit], when [n] is positive *)
Definition configured (n unit old : Z) : Z := if 0 <? n then i64 (n * unit) else old.

(** [Enabled level n]: whether the logger at [level] writes verbosity [n] *)
Definition UpdateConfigBySpec (Enabled : Z → Z → bool) (spec : ConfigSpec) (v : Vars) : Vars :=
  let l := cf_LogLevel spec in
  mkVars
    (configured (cf_UrgentReconcileSeconds spec) second (vr_UrgentReconcileTime v))
    (configured (cf_NormalReconcileMinutes spec) minute (vr_NormalReconcileTime v))
    (configured (cf_LongReconcileMinutes spec) minute (vr_LongReconcileTime v))
    (configured (cf_ContextTimeoutMinutes spec) minute (vr_ContextTimeout v))
    (if (1 <=? l) && (l <=? 127) && negb (Enabled (vr_Level v) l) then - l else vr_Level v)
    (dm_DaemonPort (cf_Daemon spec))
    (cf_CNIType spec).

Section config.
Context {W : Type} {pools : Client W IPPool} {cidrs : Client W CIDRSpec}
  {nets : Client W MultiNicNetwork} {hifs : Client W HifObject} {api : HostAPI W} {ord : MapRange}.
Context {configs : Client W (KObject ConfigSpec)} {daemonsets : Client W DaemonSet}.
Context (post : W → string → L3ConfigRequest → W * http_answer).
Context (nad_delete : W → string → W * option kerr).
Context (unmarshal : string → option (list NetworkStatus)).
Context (retryOnConflict : (W → W * option kerr) → W → W * option kerr).
Context (Enabled : Z → Z → bool) (OPERATOR_NAMESPACE : string).

Definition CreateDefaultDaemonConfig (cniHostPath : string) (w : W) : W * option kerr :=
  cl_Create w DaemonLabelValue (mkKObj [] false (getDefaultConfigSpec cniHostPath)).

(** ** Deletion *)

Fixpoint delete_cidrs (DAEMON_PORT : string) (o : Operator W) (l : list (string * CIDRSpec)) : Operator W :=
  match l with
  | [] => o
  | (cidrName, cidr) :: rest =>
      delete_cidrs DAEMON_PORT
        (set_w o (fst (DeleteCIDR post DAEMON_PORT (o_w o) (o_daemons o) cidrName cidr))) rest
  end.

(** the loop that waits for an empty cache of pools; [others i] is what the other
    goroutines do during the [i]-th second *)
Fixpoint wait_pools (fuel : nat) (others : nat → Operator W → Operator W) (i : nat)
    : op W () := λ o,
  if GetSize (o_ippools o) =? 0 then (o, Fin ())
  else match fuel with
       | O => (o, OutOfFuel)
       | S fuel => wait_pools fuel others (S i) (others i o)
       end.

Definition config_finalizer (DAEMON_PORT : string) (fuel : nat) (others : nat → Operator W → Operator W)
    (dsName : string) : op W () := λ o,
  let '(o, r) :=
    match ListCIDR (o_w o) with
    | (_, Some _) => (o, Fin ())
    | (cidrMap, None) => wait_pools fuel others 0 (delete_cidrs DAEMON_PORT o (range_map cidrMap))
    end in
  match r with
  | Fin _ =>
      let '(w, _) := cl_Delete (O:=DaemonSet) (o_w o) dsName in
      (set_ready (set_w o w) false, Fin ())
  | Crash => (o, Crash)
  | OutOfFuel => (o, OutOfFuel)
  | Stuck => (o, Stuck)
  end.

Definition finish_config_deletion (fuel : nat) (others : nat → Operator W → Operator W) (name : string)
    (instance : KObject ConfigSpec) (s : ConfigState W) : ConfigState W * run rec_result :=
  if ContainsFinalizer configFinalizer instance then
    let '(o, r) := config_finalizer (cn_DAEMON_PORT (cs_conn s)) fuel others name (cs_op s) in
    match r with
    | Fin _ =>
        let '(w, err) := retryOnConflict (drop_finalizer (O:=ConfigSpec) configFinalizer name) (o_w o) in
        (set_op s (set_w o w), Fin (result_of err))
    | Crash => (set_op s o, Crash)
    | OutOfFuel => (set_op s o, OutOfFuel)
    | Stuck => (set_op s o, Stuck)
    end
  else (s, Fin Reconciled).

(** ** The live configuration *)

(** the first configuration: caches and pools are brought up to date *)
Definition make_ready (DAEMON_PORT : string) (now : Z) (pods : list Pod + kerr) : op W () := λ o,
  if o_ready o then (o, Fin ())
  else
    let '(o, r) := SyncAllPendingCustomCR post DAEMON_PORT nad_delete unmarshal now pods o in
    match r with
    | Panic => (o, Crash)
    | Ret _ => UpdateCIDRs (set_ready o true)
    end.

(** the daemon set follows the configuration; errors are only logged *)
Definition deploy (dsName : string) (spec : ConfigSpec) (s : ConfigState W) : ConfigState W :=
  let o := cs_op s in
  let daemonset := newCNIDaemonSet OPERATOR_NAMESPACE dsName (cf_Daemon spec) in
  match cl_Get (O:=DaemonSet) (o_w o) dsName with
  | inr NotFound =>
      let '(w, _) := cl_Create (o_w o) dsName daemonset in
      set_conn (set_op s (set_w o w)) (SetDaemonConnector OPERATOR_NAMESPACE spec)
  | inr _ => s
  | inl _ =>
      let '(w, _) := cl_Update (o_w o) dsName daemonset in
      set_conn (set_op s (set_w o w)) (SetDaemonConnector OPERATOR_NAMESPACE spec)
  end.

Definition ReconcileConfig (fuel : nat) (others : nat → Operator W → Operator W) (now : Z)
    (pods : list Pod + kerr) (name : string) (s : ConfigState W) : ConfigState W * run rec_result :=
  let o := cs_op s in
  match cl_Get (O:=KObject ConfigSpec) (o_w o) name with
  | inr NotFound => (s, Fin Reconciled)
  | inr _ => (s, Fin (RequeueAfter Long))
  | inl instance =>
      let '(w, instance, err) := ensure_finalizer configFinalizer name instance (o_w o) in
      let s := set_op s (set_w o w) in
      match err with
      | Some e => (s, Fin (ReconcileError e))
      | None =>
          if ko_Deleted instance then finish_config_deletion fuel others name instance s
          else
            let spec := ko_Obj instance in
            let s := mkCS (cs_op s) (UpdateConfigBySpec Enabled spec (cs_vars s)) (cs_conn s) in
            let '(o, r) := make_ready (cn_DAEMON_PORT (cs_conn s)) now pods (cs_op s) in
            match r with
            | Fin _ => (deploy name spec (set_op s o), Fin Reconciled)
            | Crash => (set_op s o, Crash)
            | OutOfFuel => (set_op s o, OutOfFuel)
            | Stuck => (set_op s o, Stuck)
            end
      end
  end.
End config.
