(* ===== verification/Iface.v ===== *)
(** * daemon/src/iface/iface.go: the interfaces of a host

    The daemon reports the target network devices that are up, have an IPv4 address
    and are not on the subnet of the default route, and caches them by name.  The
    devices, their links and addresses come from the kernel: they are the record
    [HostNet]. *)

From S2P Require Import Prelude GoLib Types K8s.

(** a device of [GetTargetNetworks] *)
Record NetDeviceInfo := mkNetDevice {
  nd_Name : string;
  nd_Vendor : string;
  nd_Product : string;
  nd_PciAddress : string
}.

(** a link: the answer of [AddrList] for IPv4, and whether it is up *)
Record LinkState := mkLink { ls_addrs : list (option Net.IPNet) + string; ls_up : bool }.

Record HostNet := mkHostNet {
  hn_devices : list NetDeviceInfo;                 (* GetTargetNetworks *)
  hn_link : string → LinkState + string;           (* LinkByName *)
  hn_routes : list (option Net.IPNet * Z) + string;    (* RouteList: destination, link index *)
  hn_link_index : Z → LinkState + string;          (* LinkByIndex *)
  hn_unmanaged : list InterfaceInfoType + string   (* GetUnmanagedHostInterfaces *)
}.

Definition zombiePrefix : string := "net1".

(** [v.String()] always has a slash *)
Definition getNetAddress (v : Net.IPNet) : string :=
  let blockSize := default "" (Strings.Split (IPNet_String v) "/"%char !! 1%nat) in
  let ip := Net.ip_string (Net.ip_mask (Net.IP v) (Net.Mask v)) in
  ip +:+ "/" +:+ blockSize.

(** the first address of a link *)
Definition first_addr (l : LinkState) : option Net.IPNet :=
  match ls_addrs l with
  | inl (Some addr :: _) => Some addr
  | _ => None
  end.

Definition getNetAddressFromLink (devLink : LinkState) : string + string :=
  match first_addr devLink with
  | Some addr => inl (getNetAddress addr)
  | None => inr "cannot list address"
  end.

(** the first route without destination *)
Fixpoint default_subnet (h : HostNet) (routes : list (option Net.IPNet * Z)) : string + string :=
  match routes with
  | [] => inr "not found"
  | (None, index) :: _ =>
      match hn_link_index h index with
      | inr err => inr err
      | inl l => getNetAddressFromLink l
      end
  | (Some _, _) :: rest => default_subnet h rest
  end.

Definition GetDefaultInterfaceSubNet (h : HostNet) : string + string :=
  match hn_routes h with
  | inr err => inr err
  | inl routes => default_subnet h routes
  end.

(** one round of the loop over the devices: the interface it reports, if any *)
Definition device_interface (h : HostNet) (defaultSubnet : string) (netDevice : NetDeviceInfo)
    : option InterfaceInfoType :=
  let devName := nd_Name netDevice in
  if Strings.HasPrefix devName zombiePrefix then None
  else
    match hn_link h devName with
    | inr _ => None
    | inl devLink =>
        match first_addr devLink with
        | None => None
        | Some addr =>
            if negb (ls_up devLink) then None
            else
              let netAddress := getNetAddress addr in
              if bool_decide (netAddress = defaultSubnet) then None
              else if bool_decide (length (Net.IP addr) = 4%nat) then
                Some (mkInterfaceInfo devName netAddress (Net.ip_string (Net.IP addr))
                        (nd_Vendor netDevice) (nd_Product netDevice) (nd_PciAddress netDevice))
              else None
        end
    end.

Definition GetInterfaces (h : HostNet) (cache : SafeCache InterfaceInfoType)
    : SafeCache InterfaceInfoType * list InterfaceInfoType :=
  let defaultSubnet :=
    match GetDefaultInterfaceSubNet h with inl s => s | inr _ => "" end in
  let interfaces := omap (device_interface h defaultSubnet) (hn_devices h) in
  let hifIfaces := match hn_unmanaged h with inl l => l | inr _ => [] end in
  let all := interfaces ++ hifIfaces in
  (foldl (λ c i, SetCache c (i_InterfaceName i) i) cache all, all).

(** the refresh of an empty cache; [None]: still nothing to report *)
Definition refreshed (h : HostNet) (cache : SafeCache InterfaceInfoType)
    : SafeCache InterfaceInfoType * bool :=
  if GetSize cache =? 0 then
    let '(cache, interfaces) := GetInterfaces h cache in
    (cache, negb (bool_decide (interfaces = [])))
  else (cache, true).

Definition GetNameNetMap (h : HostNet) (cache : SafeCache InterfaceInfoType)
    : SafeCache InterfaceInfoType * gmap string string :=
  let '(cache, some) := refreshed h cache in
  if (some : bool) then (cache, i_NetAddress <$> cache) else (cache, ∅).

Definition add_name (m : gmap string (gmap string string)) (kv : string * InterfaceInfoType)
    : gmap string (gmap string string) :=
  let '(devName, info) := kv in
  <[i_NetAddress info := <[i_PciAddress info := devName]> (default ∅ (m !! i_NetAddress info))]> m.

Section names.
Context {ord : MapRange}.

Definition GetInterfaceNameMap (h : HostNet) (cache : SafeCache InterfaceInfoType)
    : SafeCache InterfaceInfoType * gmap string (gmap string string) :=
  let '(cache, some) := refreshed h cache in
  if (some : bool) then (cache, foldl add_name ∅ (range_map cache)) else (cache, ∅).
End names.

(** in test mode every device exists *)
Definition DeviceExists (test_mode : bool) (h : HostNet) (devName : string) : bool :=
  if test_mode then true
  else match hn_link h devName with inl _ => true | inr _ => false end.
