(* ===== verification/Pci.v ===== *)
(** * daemon/src/iface/pci.go: devices of the host and of its pods

    The network devices of a host from its PCI bus and its VLAN links, the physical
    device behind a virtual function, and the devices a pod holds, from the
    kubelet's checkpoint file.  The file system, the PCI scan and netlink are
    arguments. *)

From S2P Require Import Prelude GoLib GoText Json JsonSpec Types Allocator K8s Iface.
Import Json.

Definition SysBusPci : string := "/sys/bus/pci/devices".
Definition netClass : Z := 2.

(** [Lstat] without error, the names of a directory, the text of a file *)
Record HostFs := mkHostFs {
  hf_Lstat : string → bool;
  hf_ReadDir : string → list string + string;
  hf_ReadFile : string → string + string
}.

(** ** The checkpoint file *)

Record PodDevicesEntry := mkPodDevices {
  pd_PodUID : string;
  pd_ContainerName : string;
  pd_ResourceName : string;
  pd_DeviceIDs : json;          (* interface{} *)
  pd_AllocResp : string         (* []byte, as its text *)
}.

(** standard base64 with padding; line ends are skipped *)
Definition base64_char (c : Ascii.ascii) : bool :=
  let n := code c in
  between 65 90 n || between 97 122 n || between 48 57 n || (n =? 43) || (n =? 47).

Fixpoint base64_ok (l : list Ascii.ascii) : bool :=
  match l with
  | [] => true
  | a :: b :: c :: d :: rest =>
      if base64_char a && base64_char b then
        if bool_decide (c = "="%char) then bool_decide (d = "="%char) && bool_decide (rest = [])
        else if base64_char c then
          if bool_decide (d = "="%char) then bool_decide (rest = []) else base64_char d && base64_ok rest
        else false
      else false
  | _ => false
  end.

Definition dec_bytes : decoder string := λ v old,
  match v with
  | JNull => ("", false)
  | JStr s =>
      if base64_ok (filter (λ c, c ≠ chr 10 ∧ c ≠ chr 13) (String.list_ascii_of_string s))
      then (s, false) else (old, true)
  | _ => (old, true)
  end.

Definition dec_uint64 : decoder Z := λ v old,
  match v with
  | JNull => (old, false)
  | JNum lit => match Strconv.ParseUint 10 lit with Strconv.UVal n => (n, false) | _ => (old, true) end
  | _ => (old, true)
  end.

Definition pod_devices_fields : fields PodDevicesEntry := [
  field "PodUID" dec_string pd_PodUID (λ x '(mkPodDevices _ c r d a), mkPodDevices x c r d a);
  field "ContainerName" dec_string pd_ContainerName (λ x '(mkPodDevices p _ r d a), mkPodDevices p x r d a);
  field "ResourceName" dec_string pd_ResourceName (λ x '(mkPodDevices p c _ d a), mkPodDevices p c x d a);
  field "DeviceIDs" dec_any pd_DeviceIDs (λ x '(mkPodDevices p c r _ a), mkPodDevices p c r x a);
  field "AllocResp" dec_bytes pd_AllocResp (λ x '(mkPodDevices p c r d _), mkPodDevices p c r d x)].

Record checkpointData := mkCheckpoint {
  cp_PodDeviceEntries : list PodDevicesEntry;
  cp_RegisteredDevices : option (gmap string (list string))
}.

Definition checkpoint_fields : fields checkpointData := [
  field "PodDeviceEntries" (dec_slice (mkPodDevices "" "" "" JNull "") (dec_struct pod_devices_fields))
    cp_PodDeviceEntries (λ x '(mkCheckpoint _ r), mkCheckpoint x r);
  field "RegisteredDevices" (dec_map [] (dec_slice "" dec_string))
    cp_RegisteredDevices (λ x '(mkCheckpoint e _), mkCheckpoint e x)].

Definition file_fields : fields (checkpointData * Z) := [
  field "Data" (dec_struct checkpoint_fields) fst (λ x '(_, c), (x, c));
  field "Checksum" dec_uint64 snd (λ x '(d, _), (d, x))].

Definition CheckPointfile : string := "/var/lib/kubelet/device-plugins/kubelet_internal_checkpoint".

Definition nl : string := String (chr 10) "".

Section host.
Context (fs : HostFs) (json_err : string → string).

Definition getCheckpointData : checkpointData + string :=
  match hf_ReadFile fs CheckPointfile with
  | inr err => inr ("getPodEntries: error reading file " +:+ CheckPointfile +:+ nl +:+ err +:+ nl)
  | inl rawBytes =>
      match Unmarshal (dec_struct file_fields) rawBytes (mkCheckpoint [] None, 0) with
      | (_, false) => inr ("getPodEntries: error unmarshalling raw bytes " +:+ json_err rawBytes)
      | (cpd, true) => inl cpd.1
      end
  end.

(** [val.(string)] of every element *)
Fixpoint strings_of (l : list json) : go (list string) :=
  match l with
  | [] => Ret []
  | JStr s :: rest => ids ← strings_of rest; Ret (s :: ids)
  | _ :: _ => Panic
  end.

Context {ord : MapRange}.

Fixpoint strings_of_lists (l : list (string * json)) : go (list string) :=
  match l with
  | [] => Ret []
  | (_, JArr vals) :: rest =>
      ids ← strings_of vals; more ← strings_of_lists rest; Ret (ids ++ more)
  | _ :: _ => Panic
  end.

Definition convertDeviceIDs (deviceIDs : json) : go (list string) :=
  match deviceIDs with
  | JArr v => strings_of v
  | JObj v => strings_of_lists (range_map (map_of v))
  | _ => Ret []
  end.

(** a resource that is in the map already keeps its devices: the appended slice is
    not stored *)
Fixpoint add_entries (podID : string) (l : list PodDevicesEntry) (resourceMap : gmap string (list string))
    : go (gmap string (list string)) :=
  match l with
  | [] => Ret resourceMap
  | pod :: rest =>
      if bool_decide (pd_PodUID pod = podID) then
        deviceIDs ← convertDeviceIDs (pd_DeviceIDs pod);
        match resourceMap !! pd_ResourceName pod with
        | Some _ => add_entries podID rest resourceMap
        | None => add_entries podID rest (<[pd_ResourceName pod := deviceIDs]> resourceMap)
        end
      else add_entries podID rest resourceMap
  end.

Definition GetPodResourceMap (podUID : string) : go (gmap string (list string) * option string) :=
  if bool_decide (podUID = "") then
    Ret (∅, Some "GetPodResourceMap: invalid Pod cannot be empty")
  else match getCheckpointData with
  | inr err => Ret (∅, Some err)
  | inl cpd => m ← add_entries podUID (cp_PodDeviceEntries cpd) ∅; Ret (m, None)
  end.

(** ** Physical devices *)

Definition is_space (c : Ascii.ascii) : bool :=
  let n := code c in between 9 13 n || (n =? 32).

Fixpoint trim_left (l : list Ascii.ascii) : list Ascii.ascii :=
  match l with
  | [] => []
  | c :: l' => if is_space c then trim_left l' else l
  end.

(** [strings.TrimSpace], for ASCII *)
Definition TrimSpace (s : string) : string :=
  String.string_of_list_ascii
    (reverse (trim_left (reverse (trim_left (String.list_ascii_of_string s))))).

Definition GetPfName (vf : string) : string + string :=
  let phys := path_join [SysBusPci; vf; "net"] in
  let virt := path_join [SysBusPci; vf; "physfn"; "net"] in
  let read (dir : string) :=
    match hf_ReadDir fs dir with
    | inr err => inr err
    | inl [] => inr "PF network device not found"
    | inl (f :: _) => inl (TrimSpace f)
    end in
  if hf_Lstat fs phys then read phys
  else if hf_Lstat fs virt then read virt
  else inr ("lstat " +:+ virt).

(** the cache of device names *)
Definition SetDeviceMapCache (cache : SafeCache string) (pciAddress name : string) : SafeCache string :=
  SetCache cache pciAddress name.
Definition GetDeviceMapSize (cache : SafeCache string) : Z := GetSize cache.

Definition GetDeviceName (cache : SafeCache string) (deviceID : string) : SafeCache string * string :=
  match GetCache cache deviceID with
  | Some name => (cache, name)
  | None =>
      match GetPfName deviceID with
      | inr _ => (cache, "")
      | inl masterName => (SetCache cache deviceID masterName, masterName)
      end
  end.

(** ** Names of the interfaces of a PCI device *)

Definition no_names (dir : string) : list string + string := inr ("no net or virtio folder from " +:+ dir).

Definition getVirtioNetNames (topDir : string) : list string + string :=
  match hf_ReadDir fs topDir with
  | inr err => inr ("failed to read directory " +:+ topDir +:+ ": " +:+ quoted err)
  | inl fileList =>
      let names := fileList ≫= λ fileName,
        if Strings.Contains fileName "virtio" then
          let netDir := path_join [topDir; fileName; "net"] in
          if hf_Lstat fs netDir
          then match hf_ReadDir fs netDir with inl l => l | inr _ => [] end
          else []
        else [] in
      if bool_decide (names = []) then no_names topDir else inl names
  end.

Definition getNetNames (pciAddr : string) : list string + string :=
  let netDir := path_join [SysBusPci; pciAddr; "net"] in
  if hf_Lstat fs netDir then
    match hf_ReadDir fs netDir with
    | inr err => inr ("failed to read net directory " +:+ netDir +:+ ": " +:+ quoted err)
    | inl [] => inr ("no net in " +:+ netDir)
    | inl names => inl names
    end
  else getVirtioNetNames (path_join [SysBusPci; pciAddr]).

(** ** The networks of the host *)

(** a device of [ghw.PCI()] *)
Record PciDevice := mkPci { pci_Class : string; pci_Address : string; pci_Vendor : string; pci_Product : string }.

(** a link: its name and type, the parent index when it is a VLAN, its IPv4 addresses *)
Record NetLink := mkNetLink {
  nl_Name : string;
  nl_Type : string;
  nl_Vlan : option Z;
  nl_Addrs : list Net.IPNet + string
}.

(** the digits of [strconv.ParseInt(s, 16, 64)] *)
Definition hex_digit (c : Ascii.ascii) : option Z :=
  let n := code c in
  if between 48 57 n then Some (n - 48)
  else if between 97 102 n then Some (n - 87)
  else if between 65 70 n then Some (n - 55) else None.

Fixpoint hex_digits (s : string) (n : Z) : option Z :=
  match s with
  | EmptyString => Some n
  | String c s' =>
      match hex_digit c with
      | None => None
      | Some d => if 2 ^ 63 <=? n * 16 + d then None else hex_digits s' (n * 16 + d)
      end
  end.

(** [None]: an error; negative numbers are no class either *)
Definition class_of (s : string) : option Z :=
  match s with
  | EmptyString => None
  | String "+"%char EmptyString => None
  | String "+"%char s' => hex_digits s' 0
  | _ => hex_digits s 0
  end.

Definition pci_networks (devices : list PciDevice) : list NetDeviceInfo :=
  devices ≫= λ device,
    if bool_decide (class_of (pci_Class device) = Some netClass) then
      match getNetNames (pci_Address device) with
      | inr _ => []
      | inl devNames =>
          (λ devName, mkNetDevice devName (pci_Vendor device) (pci_Product device) (pci_Address device))
          <$> devNames
      end
    else [].

(** a VLAN on the bond with an address *)
Definition vlan_network (link_by_index : Z → string + string) (link : NetLink) : bool :=
  bool_decide (nl_Type link = "vlan") &&
  match nl_Vlan link with
  | None => false
  | Some parent =>
      match link_by_index parent with
      | inr _ => false
      | inl parentName =>
          bool_decide (parentName = "tenant-bond") &&
          match nl_Addrs link with inl (_ :: _) => true | _ => false end
      end
  end.

(** the links after the devices found so far *)
Fixpoint add_links (link_by_index : Z → string + string) (links : list NetLink)
    (netDevices : list NetDeviceInfo) : list NetDeviceInfo :=
  match links with
  | [] => netDevices
  | link :: rest =>
      if existsb (λ dev, bool_decide (nd_Name dev = nl_Name link)) netDevices
         || negb (vlan_network link_by_index link)
      then add_links link_by_index rest netDevices
      else add_links link_by_index rest (netDevices ++ [mkNetDevice (nl_Name link) "" "" ""])
  end.

Definition GetTargetNetworks (pci : list PciDevice + string) (links : list NetLink + string)
    (link_by_index : Z → string + string) : list NetDeviceInfo :=
  match pci with
  | inr _ => []
  | inl devices =>
      match links with
      | inr _ => pci_networks devices
      | inl l => add_links link_by_index l (pci_networks devices)
      end
  end.

(** ** Properties *)

(** the devices of a resource are those of the pod's first entry for it: what a second
    container holds of the same resource is lost *)
Lemma add_entries_first podID l : ∀ m m' r ids,
  add_entries podID l m = Ret m' → m !! r = Some ids → m' !! r = Some ids.
Proof.
  induction l as [|pod l IH]; intros m m' r ids H Hm; cbn [add_entries] in H.
  { by injection H as <-. }
  case_bool_decide; [|by eauto]. destruct (convertDeviceIDs _) as [d|]; [|done].
  cbn [mbind go_bind] in H. destruct (m !! pd_ResourceName pod) as [|] eqn:E; [by eauto|].
  eapply IH; [exact H|]. rewrite lookup_insert_ne; [done|]. intros <-. congruence.
Qed.

(** a network of the host is a device of the network class on the PCI bus, or a VLAN
    of the bond that has an address and no PCI device of its name *)
Lemma add_links_spec by_index links : ∀ l0 dev,
  dev ∈ add_links by_index links l0 →
  dev ∈ l0 ∨ ∃ link, (link ∈ links) ∧ vlan_network by_index link = true ∧
    dev = mkNetDevice (nl_Name link) "" "" "" ∧ Forall (λ d, nd_Name d ≠ nl_Name link) l0.
Proof.
  induction links as [|link links IH]; intros l0 dev Hin; [by left|]. cbn [add_links] in Hin.
  destruct (existsb _ l0 || _) eqn:E.
  - destruct (IH _ _ Hin) as [?|(lk & ? & ?)]; [by left|]. right. exists lk. split; [by right|done].
  - apply orb_false_iff in E as [E1 E2%negb_false_iff].
    assert (Forall (λ d, nd_Name d ≠ nl_Name link) l0) as Hl0.
    { apply Forall_forall. intros d Hd Heq. apply not_true_iff_false in E1. apply E1, existsb_exists.
      exists d. split; [by apply list_elem_of_In|by apply bool_decide_eq_true]. }
    destruct (IH _ _ Hin) as [Hd|(lk & Hl & Hv & Hdev & Hall)].
    + apply elem_of_app in Hd as [?|Hd]; [by left|]. apply list_elem_of_singleton in Hd.
      right. exists link. split; [by left|]. done.
    + right. exists lk. split; [by right|]. split_and!; [done..|]. by apply Forall_app in Hall as [? _].
Qed.
End host.

(** ** Two containers of one pod *)

Definition ex_checkpoint : string := print (JObj [
  ("Data", JObj [("PodDeviceEntries", JArr [
     JObj [("PodUID", JStr "u1"); ("ContainerName", JStr "c1"); ("ResourceName", JStr "nic");
           ("DeviceIDs", JObj [("-1", JStrs ["0000:00:01.0"])]); ("AllocResp", JStr "")];
     JObj [("PodUID", JStr "u1"); ("ContainerName", JStr "c2"); ("ResourceName", JStr "nic");
           ("DeviceIDs", JObj [("-1", JStrs ["0000:00:02.0"])]); ("AllocResp", JStr "")]]);
     ("RegisteredDevices", JObj [])]);
  ("Checksum", JInt 7)]).

Example second_container_lost :
  let fs := mkHostFs (λ _, false) (λ _, inr "none") (λ _, inl ex_checkpoint) in
  (λ r, (map_to_list r.1, r.2)) <$> GetPodResourceMap (ord := map_to_list_range) fs id "u1"
  = Ret ([("nic", ["0000:00:01.0"])], None).
Proof. vm_compute. reflexivity. Qed.
