(* ===== verification/Selector.v ===== *)
(** * daemon/src/selector: the choice of host interfaces for a pod

    The CNI plugin asks the daemon which host interfaces a pod gets.  Devices that
    a device plugin gave the pod are used as they are; otherwise the strategy of the
    network chooses among the interfaces of the host.  The strategies implement one
    Go interface, the class [Selector]; a strategy may change the map of interfaces
    it is given, so the map is a result. *)

From S2P Require Import Prelude GoLib Types K8s Iface.

(** ** selector.go, types *)

Record NicArgs := mkNicArgs {
  na_NumOfInterfaces : Z;
  na_InterfaceNames : list string;
  na_Target : string;
  na_DevClass : string
}.

Record NICSelectRequest := mkNICRequest {
  nq_PodName : string;
  nq_PodNamespace : string;
  nq_HostName : string;
  nq_NetAttachDefName : string;
  nq_MasterNetAddrs : list string;
  nq_NicSet : NicArgs
}.

Record NICSelectResponse := mkNICResponse { np_DeviceIDs : list string; np_Masters : list string }.

(** backend.DeviceClassSpec *)
Record DeviceID := mkDeviceID { di_Vendor : string; di_Products : list string }.

(** [Select(req, interfaceNameMap, nameNetMap, resourceMap)]: the map of
    interfaces afterwards, and the selected network addresses *)
Class Selector (S : Type) := sel_Select :
  S → NICSelectRequest → gmap string string → gmap string string → gmap string (list string) →
  gmap string string * list string.

(** the slice [l[0:maxSize]] *)
Definition slice_to {A} (l : list A) (maxSize : Z) : list A := take (Z.to_nat maxSize) l.

Section selector.
Context {ord : MapRange}.

(** ** none.go *)

Inductive DefaultSelector := mkDefaultSelector.

Definition default_select (req : NICSelectRequest)
    (interfaceNameMap nameNetMap : gmap string string) : list string :=
  let maxSize := na_NumOfInterfaces (nq_NicSet req) in
  let fixedSet := na_InterfaceNames (nq_NicSet req) in
  let selectedMaster :=
    if bool_decide (fixedSet = []) then nq_MasterNetAddrs req
    else omap (λ devName, nameNetMap !! devName) fixedSet in
  let selectedMaster :=
    if bool_decide (selectedMaster = []) then sort_strings (range_map interfaceNameMap).*1
    else selectedMaster in
  let maxSize :=
    if 0 <? maxSize then Z.min (Z.of_nat (length selectedMaster)) maxSize
    else Z.of_nat (length selectedMaster) in
  slice_to selectedMaster maxSize.

#[export] Instance DefaultSelector_Select : Selector DefaultSelector :=
  λ _ req interfaceNameMap nameNetMap _,
    (interfaceNameMap, default_select req interfaceNameMap nameNetMap).

(** ** costopt.go, perfopt.go *)

Inductive CostOptSelector := mkCostOptSelector.
Inductive PerfOptSelector := mkPerfOptSelector.

#[export] Instance CostOptSelector_Select : Selector CostOptSelector :=
  λ _, sel_Select mkDefaultSelector.
#[export] Instance PerfOptSelector_Select : Selector PerfOptSelector :=
  λ _, sel_Select mkDefaultSelector.

(** ** devclass.go *)

(** the handler of device classes, and the interface cache *)
Record DevClassSelector := mkDevClassSelector {
  dc_Get : string → list DeviceID + string;
  dc_cache : gmap string InterfaceInfoType
}.

(** the last entry of a vendor counts *)
Definition dev_spec_map (ids : list DeviceID) : gmap string (list string) :=
  foldl (λ m d, <[di_Vendor d := di_Products d]> m) ∅ ids.

Definition in_class (devSpecMap : gmap string (list string)) (info : InterfaceInfoType) : bool :=
  match devSpecMap !! i_Vendor info with
  | Some products => existsb (λ product, bool_decide (product = i_Product info)) products
  | None => false
  end.

(** one entry of the loop, which deletes from the map it ranges over: a deleted
    entry is not visited *)
Definition class_step (cache : gmap string InterfaceInfoType) (nameNetMap : gmap string string)
    (devSpecMap : gmap string (list string)) (m : gmap string string) (kv : string * string)
    : gmap string string :=
  let '(key, devName) := kv in
  match m !! key with
  | None => m
  | Some _ =>
      match nameNetMap !! devName with
      | None => m
      | Some netAddress =>
          match cache !! devName with
          | None => m
          | Some info => if in_class devSpecMap info then m else delete netAddress m
          end
      end
  end.

#[export] Instance DevClassSelector_Select : Selector DevClassSelector :=
  λ s req interfaceNameMap nameNetMap resourceMap,
    let interfaceNameMap :=
      if bool_decide (na_DevClass (nq_NicSet req) = "") then interfaceNameMap
      else
        match dc_Get s (na_DevClass (nq_NicSet req)) with
        | inr _ => interfaceNameMap
        | inl ids =>
            foldl (class_step (dc_cache s) nameNetMap (dev_spec_map ids)) interfaceNameMap
              (range_map interfaceNameMap)
        end in
    sel_Select mkDefaultSelector req interfaceNameMap nameNetMap resourceMap.

(** ** sort.go

    [sort.Sort] leaves the order of equal values open, and so does the order of
    the map: a stable sort of the entries in an arbitrary order gives every order
    the code can give. *)

Definition getSortedKeyByMap (valueMap : gmap string Z) : list string :=
  (sort_by (λ kv : string * Z, - kv.2) (range_map valueMap)).*1.

(** ** topology.go *)

Definition GPUResourceName : string := "nvidia.com/gpu".

Record PCITag := mkPCI { pci_BusId : string; pci_sub : list string }.  (* bus IDs of the sub-tags *)
Record CPUTag := mkCPU { cpu_NumaId : string; cpu_PCIs : list PCITag }.

(** [sysfs]: the map read from /sys/devices when the topology is empty *)
Definition getNumaMap (sysfs : gmap string string) (topology : list CPUTag) : gmap string string :=
  if bool_decide (length topology = 0%nat) then sysfs
  else
    foldl (λ m cpu,
      foldl (λ m pci,
        foldl (λ m sub, <[sub := cpu_NumaId cpu]> m)
          (<[pci_BusId pci := cpu_NumaId cpu]> m) (pci_sub pci))
        m (cpu_PCIs cpu)) ∅ topology.

Record NumaAwareSelector := mkNuma {
  nu_gpuIDBusMap : gmap string string;
  nu_NumaMap : gmap string string;
  nu_cache : gmap string InterfaceInfoType
}.

(** how many of the pod's GPUs are on each NUMA node; a missing key reads "" *)
Definition numa_priority (s : NumaAwareSelector) (gpuIds : list string) : gmap string Z :=
  foldl (λ m gpuId,
    let pciAddress := default "" (nu_gpuIDBusMap s !! gpuId) in
    let numaId := default "" (nu_NumaMap s !! pciAddress) in
    <[numaId := match m !! numaId with Some priority => priority + 1 | None => 1 end]> m)
    ∅ gpuIds.

(** the priority of a network address, when its device has a NUMA node *)
Definition nic_priority (s : NumaAwareSelector) (interfaceNameMap : gmap string string)
    (numaPriority : gmap string Z) (masterNetAddr : string) : option Z :=
  devName ← interfaceNameMap !! masterNetAddr;
  info ← nu_cache s !! devName;
  numaId ← nu_NumaMap s !! i_PciAddress info;
  Some (default 0 (numaPriority !! numaId)).

Definition nic_priorities (s : NumaAwareSelector) (interfaceNameMap : gmap string string)
    (numaPriority : gmap string Z) (selectedMaster : list string) : gmap string Z :=
  foldl (λ m a, match nic_priority s interfaceNameMap numaPriority a with
                | Some p => <[a := p]> m
                | None => m
                end) ∅ selectedMaster.

Definition SortByNumaAware (s : NumaAwareSelector) (selectedMaster : list string)
    (interfaceNameMap : gmap string string) (resourceMap : gmap string (list string)) : list string :=
  match resourceMap !! GPUResourceName with
  | Some gpuIds =>
      if bool_decide (size (nu_NumaMap s) = 0%nat) then selectedMaster
      else getSortedKeyByMap
             (nic_priorities s interfaceNameMap (numa_priority s gpuIds) selectedMaster)
  | None => selectedMaster
  end.

#[export] Instance NumaAwareSelector_Select : Selector NumaAwareSelector :=
  λ s req interfaceNameMap nameNetMap resourceMap,
    let maxSize := na_NumOfInterfaces (nq_NicSet req) in
    let selectedMaster :=
      filter (λ netAddress, is_Some (interfaceNameMap !! netAddress)) (nq_MasterNetAddrs req) in
    let selectedMaster :=
      if bool_decide (selectedMaster = []) then (range_map interfaceNameMap).*1
      else selectedMaster in
    (interfaceNameMap,
     if (0 <? maxSize) && (maxSize <? Z.of_nat (length selectedMaster)) then
       let sortedSelectedMaster := SortByNumaAware s selectedMaster interfaceNameMap resourceMap in
       slice_to (if negb (length sortedSelectedMaster =? length selectedMaster)%nat
                 then selectedMaster else sortedSelectedMaster) maxSize
     else selectedMaster).

Definition GetCopy (s : NumaAwareSelector) : NumaAwareSelector :=
  mkNuma (nu_gpuIDBusMap s) (nu_NumaMap s) (nu_cache s).

(** ** selector.go *)

(** what the selection reads: the pod's resources (the map and whether reading
    failed), the resource names of the network, names of devices, the strategy of
    the network, the device classes, the host *)
Record SelectEnv := mkSelectEnv {
  se_resources : gmap string (list string) * bool;
  se_resource_names : list string;
  se_device_name : string → string;
  se_policy : string + string;
  se_class : string → list DeviceID + string;
  se_gpus : gmap string string;
  se_numa : gmap string string;
  se_test_mode : bool;
  se_host : HostNet
}.

(** the devices the pod holds for the network, with their names *)
Definition pod_devices (e : SelectEnv) : list string * list string :=
  let '(resourceMap, failed) := se_resources e in
  if (failed : bool) then ([], [])
  else
    let podDeviceIDs := se_resource_names e ≫= λ r, default [] (resourceMap !! r) in
    (podDeviceIDs, se_device_name e <$> podDeviceIDs).

(** one master per network address: the last one visited *)
Definition flatten_masters (masterNameMap : gmap string (gmap string string)) : gmap string string :=
  omap (λ masterDeviceMap, last (range_map masterDeviceMap).*2) masterNameMap.

Definition getDefaultResponse (e : SelectEnv) (req : NICSelectRequest)
    (masterNameMap nameNetMap : gmap string string) (resourceMap : gmap string (list string))
    : NICSelectResponse :=
  let '(masterNameMap, selectedMasterNetAddrs) :=
    sel_Select mkDefaultSelector req masterNameMap nameNetMap resourceMap in
  mkNICResponse []
    (filter (λ master, DeviceExists (se_test_mode e) (se_host e) master = true)
       ((λ netAddress, default "" (masterNameMap !! netAddress)) <$> selectedMasterNetAddrs)).

(** the strategy's choice *)
Definition run_strategy (e : SelectEnv) (cache : gmap string InterfaceInfoType) (strategy : string)
    : NICSelectRequest → gmap string string → gmap string string → gmap string (list string) →
      gmap string string * list string :=
  if bool_decide (strategy = "none") then sel_Select mkDefaultSelector
  else if bool_decide (strategy = "costOpt") then sel_Select mkCostOptSelector
  else if bool_decide (strategy = "perfOpt") then sel_Select mkPerfOptSelector
  else if bool_decide (strategy = "devClass") then sel_Select (mkDevClassSelector (se_class e) cache)
  else if bool_decide (strategy = "topology")
  then sel_Select (GetCopy (mkNuma (se_gpus e) (se_numa e) cache))
  else sel_Select mkDefaultSelector.

(** the masters of the selected networks: those left in the map that exist *)
Definition pick_masters (e : SelectEnv) (filteredMasterNameMap : gmap string string)
    (selectedMasterNetAddrs : list string) : list string :=
  omap (λ netAddress,
    match filteredMasterNameMap !! netAddress with
    | Some master =>
        if negb (bool_decide (master = "")) && DeviceExists (se_test_mode e) (se_host e) master
        then Some master else None
    | None => None
    end) selectedMasterNetAddrs.

Definition Select (e : SelectEnv) (cache : SafeCache InterfaceInfoType) (req : NICSelectRequest)
    : SafeCache InterfaceInfoType * NICSelectResponse :=
  let '(podDeviceIDs, podMasters) := pod_devices e in
  if negb (bool_decide (podMasters = [])) then (cache, mkNICResponse podDeviceIDs podMasters)
  else
    let resourceMap := (se_resources e).1 in
    let '(cache, masterNameMap) := GetInterfaceNameMap (se_host e) cache in
    let '(cache, nameNetMap) := GetNameNetMap (se_host e) cache in
    match se_policy e with
    | inr _ =>
        (cache, getDefaultResponse e req (flatten_masters masterNameMap) nameNetMap resourceMap)
    | inl strategy =>
        let '(filteredMasterNameMap, selectedMasterNetAddrs) :=
          run_strategy e cache strategy req (flatten_masters masterNameMap) nameNetMap resourceMap in
        (cache, mkNICResponse [] (pick_masters e filteredMasterNameMap selectedMasterNetAddrs))
    end.
End selector.
