(* ===== verification/Topology.v ===== *)
(** * daemon/src/selector/topology.go: the NUMA nodes of the devices

    Where the NUMA-aware strategy gets its maps from: the topology file of the GPU
    driver, or sysfs when there is none, and the GPUs of the driver's library.  The
    text of the file is read by [encoding/xml] up to a tree of elements (a parameter);
    the decoding of the tree by the tags of the structs is here.  The strategy itself
    is in [Selector]. *)

From S2P Require Import Prelude GoLib Types K8s Iface Selector Pci.

Definition defaultTopologyFilePath : string := "/var/run/nvidia-topologyd/virtualTopology.xml".
Definition deviceDir : string := "/sys/devices".

(** ** The topology file *)

Unset Elimination Schemes.
Inductive xml := Elem (name : string) (attrs : list (string * string)) (children : list xml).
Set Elimination Schemes.

Definition xml_name (e : xml) : string := let 'Elem n _ _ := e in n.
Definition xml_attrs (e : xml) : list (string * string) := let 'Elem _ a _ := e in a.
Definition xml_children (e : xml) : list xml := let 'Elem _ _ c := e in c.

Definition attr (name : string) (e : xml) : string :=
  foldl (λ v kv, if bool_decide (kv.1 = name) then kv.2 else v) "" (xml_attrs e).

Definition elements (name : string) (e : xml) : list xml :=
  filter (λ c, xml_name c = name) (xml_children e).

Definition dec_PCITag (e : xml) : PCITag := mkPCI (attr "busid" e) (attr "busid" <$> elements "pci" e).

Definition dec_CPUTag (e : xml) : CPUTag := mkCPU (attr "numaid" e) (dec_PCITag <$> elements "pci" e).

(** the root element must be [system]; otherwise the struct stays empty *)
Definition dec_NcclTopolgy (e : xml) : list CPUTag :=
  if bool_decide (xml_name e = "system") then dec_CPUTag <$> elements "cpu" e else [].

(** ** sysfs *)

(** [filepath.Dir] and [filepath.Base] of a clean path with a directory *)
Definition Dir (path : string) : string :=
  Strings.Join (removelast (Strings.Split path "/"%char)) "/".

Definition Base (path : string) : string := default "" (last (Strings.Split path "/"%char)).

Definition HasSuffix (s suffix : string) : bool :=
  (String.length suffix <=? String.length s)%nat &&
  bool_decide (String.substring (String.length s - String.length suffix) (String.length suffix) s
               = suffix).

(** what [filepath.Walk] calls its function with, in order: whether the entry is a
    directory, or the error of reading it *)
Abbreviation visits := (list (string * (bool + string))).

Section sysfs.
Context (read : string → string + string).

Fixpoint walk_numa (l : visits) (numaMap : gmap string string) : gmap string string * option string :=
  match l with
  | [] => (numaMap, None)
  | (path, info) :: rest =>
      match info with
      | inr err => (numaMap, Some err)
      | inl isDir =>
          if negb isDir && HasSuffix path "/numa_node" then
            let numaNodePath := Dir path in
            let directoryName := Base (Dir numaNodePath) in
            match read path with
            | inr err => (numaMap, Some err)
            | inl numaNodeData => walk_numa rest (<[directoryName := TrimSpace numaNodeData]> numaMap)
            end
          else walk_numa rest numaMap
      end
  end.

(** the error is only logged *)
Definition getNumaMapFromSysfs (walk : string → visits) : gmap string string :=
  fst (walk_numa (walk deviceDir) ∅).

Definition InitNumaAwareSelector (walk : string → visits) (xml_of : string → option xml)
    (cache : gmap string InterfaceInfoType) (topologyFilePath : string)
    (gpuIdBusIdMap : gmap string string) : NumaAwareSelector :=
  let topology :=
    match read topologyFilePath with
    | inr _ => []
    | inl byteValue =>
        match xml_of byteValue with
        | Some e => dec_NcclTopolgy e
        | None => []
        end
    end in
  mkNuma gpuIdBusIdMap (getNumaMap (getNumaMapFromSysfs walk) topology) cache.
End sysfs.

(** ** The GPUs *)

(** the library: whether [Init] works, the number of devices, and each device's UUID
    and bus ID *)
Record Nvml := mkNvml {
  nv_Init : bool;
  nv_GetDeviceCount : option nat;
  nv_NewDevice : nat → option (string * string)
}.

Definition GetGPUIDMap (nv : Nvml) : gmap string string :=
  if negb (nv_Init nv) then ∅
  else
    match nv_GetDeviceCount nv with
    | None => ∅
    | Some count =>
        foldl (λ m i, match nv_NewDevice nv i with
                      | Some (uuid, busID) => <[uuid := busID]> m
                      | None => m
                      end) ∅ (seq 0 count)
    end.

(** ** The keys of the map read from sysfs *)

Definition slash_free (s : string) : Prop := Strings.no_char "/"%char s = true.

Lemma Split_Join l :
  l ≠ [] → Forall slash_free l → Strings.Split (Strings.Join l "/") "/"%char = l.
Proof.
  intros Hne Hall. induction Hall as [|x l Hx Hall IH]; [done|]. destruct l as [|y l].
  - simpl. by rewrite split_no_char.
  - change (Strings.Join (x :: y :: l) "/") with (x +:+ "/" +:+ Strings.Join (y :: l) "/").
    rewrite (str_app_cons "/"%char ""). rewrite split_app by done. f_equal. by apply IH.
Qed.

(** the file of a device *)
Definition numa_file (dir bridge address : string) : string :=
  dir +:+ "/" +:+ bridge +:+ "/" +:+ address +:+ "/numa_node".

Lemma numa_file_key dir bridge address :
  Forall slash_free (Strings.Split dir "/"%char) → slash_free bridge → slash_free address →
  Base (Dir (Dir (numa_file dir bridge address))) = bridge.
Proof.
  intros Hd Hb Ha.
  assert (Strings.Split (numa_file dir bridge address) "/"%char
    = Strings.Split dir "/"%char ++ [bridge; address; "numa_node"]) as Hs.
  { change (numa_file dir bridge address)
      with (dir +:+ String "/"%char (bridge +:+ String "/"%char (address +:+ String "/"%char "numa_node"))).
    rewrite split_app_sep, !split_app by done. done. }
  assert (∀ (l : list string) x, removelast (l ++ [x]) = l) as Hrm by (intros; apply removelast_last).
  unfold Dir at 2. rewrite Hs.
  change [bridge; address; "numa_node"] with ([bridge; address] ++ ["numa_node"]).
  rewrite app_assoc, Hrm. unfold Dir. rewrite Split_Join.
  - change [bridge; address] with ([bridge] ++ [address]). rewrite app_assoc, Hrm.
    unfold Base. rewrite Split_Join; [by rewrite last_snoc|by destruct (Strings.Split dir _)|].
    apply Forall_app. by repeat constructor.
  - by destruct (Strings.Split dir _).
  - apply Forall_app. by repeat constructor.
Qed.

Lemma walk_numa_keys read l : ∀ m k v,
  (walk_numa read l m).1 !! k = Some v →
  m !! k = Some v ∨
  ∃ path info, (path, info) ∈ l ∧ HasSuffix path "/numa_node" = true ∧ Base (Dir (Dir path)) = k.
Proof.
  induction l as [|[path info] l IH]; intros m k v Hk; [by left|]. simpl in Hk.
  assert (∀ m', (walk_numa read l m').1 !! k = Some v → m' !! k = Some v ∨
    ∃ path' info', (path', info') ∈ (path, info) :: l ∧ HasSuffix path' "/numa_node" = true ∧
      Base (Dir (Dir path')) = k) as IH'.
  { intros m' [?|(p & i & ? & ?)]%IH; [by left|]. right. exists p, i. split; [by right|done]. }
  destruct info as [isDir|err]; [|by left].
  destruct (negb isDir && HasSuffix path "/numa_node") eqn:E; [|by apply IH'].
  apply andb_true_iff in E as [_ E]. destruct (read path) as [data|err]; [|by left].
  apply IH' in Hk as [Hk|?]; [|by right].
  apply lookup_insert_Some in Hk as [[<- _]|[_ ?]]; [right|by left].
  exists path, (inl isDir). split; [by left|done].
Qed.

(** without a priority for any of them, the candidates are taken in their order *)
Lemma Select_unsorted {ord : MapRange} s req m nameNet res :
  (∀ p a, nic_priority s m p a = None) →
  let candidates := filter (λ a, is_Some (m !! a)) (nq_MasterNetAddrs req) in
  candidates ≠ [] → 0 < na_NumOfInterfaces (nq_NicSet req) →
  (sel_Select (S := NumaAwareSelector) s req m nameNet res).2
  = slice_to candidates (na_NumOfInterfaces (nq_NicSet req)).
Proof.
  intros Hnone candidates Hne Hn. unfold sel_Select, NumaAwareSelector_Select. fold candidates.
  rewrite bool_decide_eq_false_2 by done. cbn [snd].
  rewrite (proj2 (Z.ltb_lt _ _) Hn). cbn [andb].
  destruct (Z.ltb_spec (na_NumOfInterfaces (nq_NicSet req)) (Z.of_nat (length candidates))) as [Hlt|Hge].
  - f_equal. unfold SortByNumaAware. destruct (res !! GPUResourceName) as [gpuIds|].
    2: { by rewrite Nat.eqb_refl. }
    case_bool_decide; [by rewrite Nat.eqb_refl|].
    replace (nic_priorities s m (numa_priority s gpuIds) candidates) with (∅ : gmap string Z).
    { replace (length (getSortedKeyByMap ∅)) with 0%nat; [by destruct candidates|].
      unfold getSortedKeyByMap. rewrite length_fmap, sort_by_perm.
      by rewrite range_map_perm, map_to_list_empty. }
    symmetry. unfold nic_priorities.
    generalize candidates. intros l. induction l as [|a l IH]; [done|]. simpl. by rewrite Hnone.
  - unfold slice_to. rewrite take_ge; [done|]. lia.
Qed.

(** without the topology file the NUMA-aware strategy is blind. The map read from
    sysfs is keyed by the directory above the device, not by the device's address; so
    when the numa_node files are those of devices directly below directories that are
    not themselves addresses of the host's interfaces, no interface has a NUMA node,
    and whatever GPUs the pod holds, the strategy takes the requested networks in the
    order of the request. *)
Theorem sysfs_numa_blind {ord : MapRange} read walk xml_of cache path gpus req m nameNet res err :
  read path = inr err →
  (∀ p info, (p, info) ∈ walk deviceDir → HasSuffix p "/numa_node" = true →
     ∃ dir bridge address, p = numa_file dir bridge address ∧
       Forall slash_free (Strings.Split dir "/"%char) ∧ slash_free bridge ∧ slash_free address ∧
       ∀ dev i, cache !! dev = Some i → i_PciAddress i ≠ bridge) →
  let s := InitNumaAwareSelector read walk xml_of cache path gpus in
  let candidates := filter (λ a, is_Some (m !! a)) (nq_MasterNetAddrs req) in
  candidates ≠ [] → 0 < na_NumOfInterfaces (nq_NicSet req) →
  (∀ dev i, cache !! dev = Some i → nu_NumaMap s !! i_PciAddress i = None) ∧
  (sel_Select s req m nameNet res).2 = slice_to candidates (na_NumOfInterfaces (nq_NicSet req)).
Proof.
  intros Hread Hwalk s candidates Hne Hn.
  assert (∀ dev i, cache !! dev = Some i → nu_NumaMap s !! i_PciAddress i = None) as Hnuma.
  { intros dev i Hi. destruct (nu_NumaMap s !! i_PciAddress i) as [v|] eqn:E; [|done]. exfalso.
    unfold s, InitNumaAwareSelector in E. rewrite Hread in E.
    apply walk_numa_keys in E as [E|(p & info & Hin & Hsuf & Hk)]; [by rewrite lookup_empty in E|].
    destruct (Hwalk p info Hin Hsuf) as (dir & bridge & address & -> & Hd & Hb & Ha & Hnot).
    rewrite numa_file_key in Hk by done. by apply (Hnot dev i). }
  assert (nu_cache s = cache) as Hcache by done.
  split; [done|]. clearbody s. apply Select_unsorted; [|done..]. intros p a. unfold nic_priority.
  rewrite Hcache. destruct (m !! a) as [dev|]; [|done]. simpl.
  destruct (cache !! dev) as [i|] eqn:Hc; [|done]. simpl. by rewrite (Hnuma dev i Hc).
Qed.

#[local] Existing Instance map_to_list_range.

Definition ex_nic (name addr : string) : InterfaceInfoType := mkInterfaceInfo name "" "" "" "" addr.

Definition ex_nics : gmap string InterfaceInfoType :=
  {["eth1" := ex_nic "eth1" "0000:00:03.0"; "eth2" := ex_nic "eth2" "0000:80:04.0"]}.

Definition ex_sys (dir : string) : visits :=
  [(dir, inl true);
   (numa_file dir "pci0000:00" "0000:00:03.0", inl false);
   (numa_file dir "pci0000:80" "0000:80:04.0", inl false)].

Definition ex_read (path : string) : string + string :=
  if String.prefix "/sys/devices/pci0000:80" path then inl "1"
  else if String.prefix "/sys/devices" path then inl "0" else inr "no such file or directory".

Definition ex_sel_req : NICSelectRequest :=
  mkNICRequest "p" "ns" "h" "net" ["10.0.1.0/24"; "10.0.2.0/24"] (mkNicArgs 1 [] "" "").

Definition ex_nets : gmap string string := {["10.0.1.0/24" := "eth1"; "10.0.2.0/24" := "eth2"]}.

Definition ex_blind : NumaAwareSelector :=
  InitNumaAwareSelector ex_read ex_sys (λ _, None) ex_nics defaultTopologyFilePath
    {["gpu0" := "0000:80:04.0"]}.

(** the keys of the map are the bridges *)
Example ex_blind_map : nu_NumaMap ex_blind = {["pci0000:00" := "0"; "pci0000:80" := "1"]}.
Proof. vm_compute. reflexivity. Qed.

Lemma sysfs_numa_blind_witness :
  (∀ dev i, ex_nics !! dev = Some i → nu_NumaMap ex_blind !! i_PciAddress i = None) ∧
  (sel_Select ex_blind ex_sel_req ex_nets ∅ {[GPUResourceName := ["gpu0"]]}).2 = ["10.0.1.0/24"].
Proof.
  apply (sysfs_numa_blind ex_read ex_sys (λ _, None) ex_nics defaultTopologyFilePath
    {["gpu0" := "0000:80:04.0"]} ex_sel_req ex_nets ∅ {[GPUResourceName := ["gpu0"]]}
    "no such file or directory").
  - reflexivity.
  - assert (∀ b, b = "pci0000:00" ∨ b = "pci0000:80" →
      ∀ dev i, ex_nics !! dev = Some i → i_PciAddress i ≠ b) as Hnot.
    { intros b Hb dev i Hi. unfold ex_nics in Hi.
      apply lookup_insert_Some in Hi as [[_ <-]|[_ [_ <-]%lookup_singleton_Some]]; by destruct Hb as [-> | ->]. }
    intros p info Hin Hsuf. unfold ex_sys in Hin. rewrite !elem_of_cons in Hin.
    destruct Hin as [[= -> _]|[[= -> _]|[[= -> _]|Hin%elem_of_nil]]]; [done| | |done].
    + exists deviceDir, "pci0000:00", "0000:00:03.0". split_and!; try done; [repeat constructor|].
      apply Hnot. by left.
    + exists deviceDir, "pci0000:80", "0000:80:04.0". split_and!; try done; [repeat constructor|].
      apply Hnot. by right.
  - vm_compute. discriminate.
  - done.
Defined.
