(* ===== verification/SelectorProps.v ===== *)
(** * Selection of host interfaces: correctness *)

From S2P Require Import Prelude GoLib Types K8s Iface Selector.

(** ** The maps the selection starts from *)

Section names.
Context {ord : MapRange}.

(** a name in the two-level map comes from an interface of that network *)
Lemma add_names_sound (cache : gmap string InterfaceInfoType) l net dm pci dev :
  (∀ n i, (n, i) ∈ l → cache !! n = Some i) →
  foldl add_name ∅ l !! net = Some dm → dm !! pci = Some dev →
  ∃ i, cache !! dev = Some i ∧ i_NetAddress i = net.
Proof.
  intros Hl. revert dm. induction l as [|[n i] l IH] using rev_ind; intros dm; [done|].
  rewrite foldl_app. cbn [foldl add_name].
  assert (Hl' : ∀ n i, (n, i) ∈ l → cache !! n = Some i)
    by (intros; apply Hl, elem_of_app; by left).
  destruct (decide (i_NetAddress i = net)) as [<-|Hne].
  - rewrite lookup_insert_eq. intros [= <-]. rewrite lookup_insert_Some.
    intros [[_ <-]|[_ Hd]].
    + exists i. split; [|done]. apply Hl, elem_of_app. right. by left.
    + destruct (foldl add_name ∅ l !! i_NetAddress i) as [dm|] eqn:E; [|done].
      by apply (IH Hl' dm).
  - rewrite lookup_insert_ne by done. by apply IH.
Qed.

(** the flattened map: each network has the name of one of its interfaces *)
Lemma flatten_sound h cache0 cache m net dev :
  GetInterfaceNameMap h cache0 = (cache, m) →
  flatten_masters m !! net = Some dev →
  ∃ i, cache !! dev = Some i ∧ i_NetAddress i = net.
Proof.
  unfold GetInterfaceNameMap. destruct (refreshed h cache0) as [c [|]]; intros [= <- <-];
    unfold flatten_masters; rewrite lookup_omap; [|done].
  destruct (foldl add_name ∅ (range_map c) !! net) as [dm|] eqn:E; [|done]. cbn.
  intros Hl. apply last_Some_elem_of in Hl. apply list_elem_of_fmap in Hl as ([pci d] & -> & Hin).
  apply elem_of_range_map in Hin.
  apply (add_names_sound c (range_map c) net dm pci); [|done|done].
  intros n i. apply elem_of_range_map.
Qed.

Lemma GetSize_zero {V} (c : SafeCache V) : GetSize c = 0 → c = ∅.
Proof. unfold GetSize. intros. apply map_size_empty_inv. lia. Qed.

(** the second map is taken from the same cache *)
Lemma GetNameNetMap_same h cache0 cache m cache' nameNet :
  GetInterfaceNameMap h cache0 = (cache, m) → GetNameNetMap h cache = (cache', nameNet) →
  m ≠ ∅ → cache' = cache ∧ nameNet = i_NetAddress <$> cache.
Proof.
  unfold GetInterfaceNameMap. destruct (refreshed h cache0) as [c [|]]; intros [= <- <-]; [|done].
  unfold GetNameNetMap, refreshed. intros HN Hm.
  destruct (Z.eqb_spec (GetSize c) 0) as [Hz|_]; [|by injection HN as <- <-].
  exfalso. apply Hm. apply GetSize_zero in Hz as ->.
  assert (range_map (∅ : gmap string InterfaceInfoType) = []) as ->; [|done].
  apply Permutation_nil_r. rewrite range_map_perm. by rewrite map_to_list_empty.
Qed.

(** ** The device class *)

(** a strategy only takes entries away *)
Lemma class_loop_sub cache nameNet spec l m :
  foldl (class_step cache nameNet spec) m l ⊆ m.
Proof.
  revert m. induction l as [|[k d] l IH]; intros m; [done|]. cbn [foldl].
  etrans; [apply IH|]. unfold class_step. repeat case_match; try done. apply delete_subseteq.
Qed.

(** what the loop leaves is in the class *)
Lemma class_loop_in_class cache nameNet spec l m k d i :
  (k, d) ∈ l → nameNet !! d = Some k → cache !! d = Some i →
  foldl (class_step cache nameNet spec) m l !! k = Some d → in_class spec i = true.
Proof.
  revert m. induction l as [|[k' d'] l IH]; intros m Hin Hn Hi Hk; [by apply not_elem_of_nil in Hin|].
  cbn [foldl] in Hk. apply elem_of_cons in Hin as [[= <- <-]|Hin]; [|by eapply IH].
  set (m1 := class_step cache nameNet spec m (k, d)) in Hk.
  assert (Hm1 : m1 !! k = Some d).
  { eapply lookup_weaken; [exact Hk|apply class_loop_sub]. }
  unfold m1, class_step in Hm1. rewrite Hn, Hi in Hm1.
  destruct (m !! k) eqn:Hmk; [|congruence].
  destruct (in_class spec i); [done|]. by rewrite lookup_delete_eq in Hm1.
Qed.

Lemma DevClass_sound s req m nameNet res m' sel ids net dev i :
  sel_Select (S:=DevClassSelector) s req m nameNet res = (m', sel) →
  na_DevClass (nq_NicSet req) ≠ "" → dc_Get s (na_DevClass (nq_NicSet req)) = inl ids →
  m' !! net = Some dev → nameNet !! dev = Some net → dc_cache s !! dev = Some i →
  m !! net = Some dev ∧ in_class (dev_spec_map ids) i = true.
Proof.
  intros HS Hc Hg Hm Hn Hi. injection HS as <- _.
  rewrite bool_decide_eq_false_2, Hg in Hm by done.
  assert (Hm0 : m !! net = Some dev) by (eapply lookup_weaken; [exact Hm|apply class_loop_sub]).
  split; [done|]. eapply class_loop_in_class; [by apply elem_of_range_map|exact Hn|exact Hi|exact Hm].
Qed.

Lemma slice_to_length {A} (l : list A) n : 0 ≤ n → Z.of_nat (length (slice_to l n)) ≤ n.
Proof. intros. unfold slice_to. rewrite length_take. lia. Qed.

Lemma default_select_length req m nameNet :
  0 < na_NumOfInterfaces (nq_NicSet req) →
  Z.of_nat (length (default_select req m nameNet)) ≤ na_NumOfInterfaces (nq_NicSet req).
Proof.
  intros Hn. unfold default_select. rewrite (proj2 (Z.ltb_lt _ _) Hn).
  etrans; [apply slice_to_length; lia|]. lia.
Qed.

(** every strategy shrinks the map and respects the number of interfaces *)
Lemma run_strategy_spec e cache strategy req m nameNet res m' sel :
  run_strategy e cache strategy req m nameNet res = (m', sel) →
  m' ⊆ m ∧ (0 < na_NumOfInterfaces (nq_NicSet req) →
            Z.of_nat (length sel) ≤ na_NumOfInterfaces (nq_NicSet req)).
Proof.
  assert (Hdef : ∀ m0, m0 ⊆ m → (m0, default_select req m0 nameNet) = (m', sel) →
    m' ⊆ m ∧ (0 < na_NumOfInterfaces (nq_NicSet req) →
            Z.of_nat (length sel) ≤ na_NumOfInterfaces (nq_NicSet req))).
  { intros m0 Hsub [= <- <-]. split; [done|apply default_select_length]. }
  unfold run_strategy. repeat case_bool_decide; try by apply Hdef.
  - apply Hdef. repeat case_match; try done. apply class_loop_sub.
  - intros [= <- <-]. split; [done|]. intros Hn.
    set (l := if bool_decide _ then _ else _).
    destruct (Z.ltb_spec (na_NumOfInterfaces (nq_NicSet req)) (Z.of_nat (length l)));
      rewrite (proj2 (Z.ltb_lt _ _) Hn); cbn [andb]; [apply slice_to_length; lia|lia].
Qed.

Lemma pick_masters_spec e m sel master :
  master ∈ pick_masters e m sel ↔
  master ≠ "" ∧ DeviceExists (se_test_mode e) (se_host e) master = true ∧
  ∃ net, net ∈ sel ∧ m !! net = Some master.
Proof.
  unfold pick_masters. rewrite list_elem_of_omap. split.
  - intros (net & Hin & H). destruct (m !! net) as [d|] eqn:E; [|done].
    case_bool_decide; [done|]. destruct (DeviceExists _ _ d) eqn:Ed; [|done].
    injection H as ->. by eauto.
  - intros (Hne & Hd & net & Hin & E). exists net. split; [done|].
    rewrite E, bool_decide_eq_false_2, Hd by done. done.
Qed.

Lemma pick_masters_length e m sel : (length (pick_masters e m sel) ≤ length sel)%nat.
Proof.
  unfold pick_masters. induction sel as [|net sel IH]; [done|]. cbn.
  case_match; cbn; lia.
Qed.

(** C35: The interfaces selected for a pod are fit.  When the pod holds no devices
    of the network and the network's strategy is known, every selected master is an
    existing device, cached as an interface of this host; there are at most as many
    as the pod asked for; and under the device class strategy with a known class,
    each belongs to the class. *)
Theorem Select_sound e cache0 req cache resp strategy :
  se_policy e = inl strategy → (pod_devices e).2 = [] →
  Select e cache0 req = (cache, resp) →
  (0 < na_NumOfInterfaces (nq_NicSet req) →
     Z.of_nat (length (np_Masters resp)) ≤ na_NumOfInterfaces (nq_NicSet req)) ∧
  ∀ master, master ∈ np_Masters resp →
    DeviceExists (se_test_mode e) (se_host e) master = true ∧
    ∃ i, cache !! master = Some i ∧
      ∀ ids, strategy = "devClass" → na_DevClass (nq_NicSet req) ≠ "" →
        se_class e (na_DevClass (nq_NicSet req)) = inl ids →
        in_class (dev_spec_map ids) i = true.
Proof.
  intros Hp Hd HS. unfold Select in HS. destruct (pod_devices e) as [ids0 masters0]. cbn in Hd.
  subst masters0. cbn in HS. destruct (GetInterfaceNameMap (se_host e) cache0) as [c1 m] eqn:HI.
  destruct (GetNameNetMap (se_host e) c1) as [c2 nameNet] eqn:HN. rewrite Hp in HS.
  destruct (run_strategy e c2 strategy req (flatten_masters m) nameNet (se_resources e).1)
    as [m' sel] eqn:HR. injection HS as <- <-. cbn [np_Masters].
  destruct (run_strategy_spec _ _ _ _ _ _ _ _ _ HR) as [Hsub Hlen]. split.
  { intros Hn. pose proof (pick_masters_length e m' sel). specialize (Hlen Hn). lia. }
  intros master (_ & Hex & net & _ & Hm)%pick_masters_spec. split; [done|].
  assert (Hf : flatten_masters m !! net = Some master) by (by eapply lookup_weaken).
  destruct (flatten_sound _ _ _ _ _ _ HI Hf) as (i & Hi & Hnet).
  assert (Hne : m ≠ ∅) by (intros ->; unfold flatten_masters in Hf; by rewrite lookup_omap in Hf).
  destruct (GetNameNetMap_same _ _ _ _ _ _ HI HN Hne) as [-> ->].
  exists i. split; [done|]. intros ids -> Hc Hg.
  refine (proj2 (DevClass_sound (mkDevClassSelector (se_class e) c1) req _ _
    (se_resources e).1 m' sel ids net
    master i HR Hc Hg Hm _ Hi)).
  by rewrite lookup_fmap, Hi, <- Hnet.
Qed.

(** ** Topology *)

Lemma nic_priorities_lookup s m np l a :
  nic_priorities s m np l !! a = if decide (a ∈ l) then nic_priority s m np a else None.
Proof.
  unfold nic_priorities. induction l as [|b l IH] using rev_ind; [done|].
  rewrite foldl_app. cbn [foldl].
  destruct (decide (a = b)) as [->|Hne].
  - rewrite decide_True by (apply elem_of_app; right; by left).
    destruct (nic_priority s m np b) as [p|] eqn:E; [by rewrite lookup_insert_eq|].
    rewrite IH. case_decide; congruence.
  - assert (Hiff : a ∈ l ++ [b] ↔ a ∈ l)
      by (rewrite elem_of_app, list_elem_of_singleton; tauto).
    destruct (nic_priority s m np b) as [p|]; [rewrite lookup_insert_ne by done|];
      rewrite IH; by repeat case_decide; tauto.
Qed.

Lemma getSortedKeyByMap_keys m k : k ∈ getSortedKeyByMap m ↔ is_Some (m !! k).
Proof.
  unfold getSortedKeyByMap. rewrite list_elem_of_fmap. setoid_rewrite sort_by_perm. split.
  - intros ([k' v] & -> & Hin%elem_of_range_map). by eexists.
  - intros [v Hv]. exists (k, v). split; [done|]. by apply elem_of_range_map.
Qed.

(** the keys come in decreasing order of value *)
Lemma getSortedKeyByMap_sorted m l1 l2 a b x y :
  getSortedKeyByMap m = l1 ++ l2 → a ∈ l1 → b ∈ l2 →
  m !! a = Some x → m !! b = Some y → y ≤ x.
Proof.
  unfold getSortedKeyByMap. intros Hl Ha Hb Hx Hy.
  pose proof (sort_by_sorted (λ kv : string * Z, - kv.2) (range_map m)) as Hs.
  pose proof (sort_by_perm (λ kv : string * Z, - kv.2) (range_map m)) as Hp.
  apply fmap_app_inv in Hl as (k1 & k2 & -> & -> & Hk). rewrite Hk in Hs, Hp.
  apply list_elem_of_fmap in Ha as ([a' xa] & -> & Ha), Hb as ([b' yb] & -> & Hb).
  assert (Hval : ∀ kv, kv ∈ k1 ++ k2 → m !! kv.1 = Some kv.2).
  { intros [k v]. rewrite Hp. apply elem_of_range_map. }
  pose proof (Hval (a', xa) ltac:(apply elem_of_app; by left)) as Ea.
  pose proof (Hval (b', yb) ltac:(apply elem_of_app; by right)) as Eb. cbn in *.
  apply StronglySorted_app in Hs as (Hs & _ & _). specialize (Hs _ _ Ha Hb). cbn in Hs.
  simplify_eq. lia.
Qed.

(** The topology strategy takes the interfaces nearest to the pod's GPUs.
    When the pod holds GPUs, the NUMA map is known, every candidate's device has a
    NUMA node, and fewer interfaces than candidates are asked for, exactly that many
    candidates are selected, and no candidate left out is on a NUMA node with more
    of the pod's GPUs than a selected one. *)
Theorem topology_selects_nearest s req m nameNet res m' sel gpuIds :
  let n := na_NumOfInterfaces (nq_NicSet req) in
  let candidates := nq_MasterNetAddrs req in
  let prio := nic_priority s m (numa_priority s gpuIds) in
  sel_Select (S:=NumaAwareSelector) s req m nameNet res = (m', sel) →
  res !! GPUResourceName = Some gpuIds → nu_NumaMap s ≠ ∅ →
  candidates ≠ [] → NoDup candidates → Forall (λ a, is_Some (prio a)) candidates →
  0 < n < Z.of_nat (length candidates) →
  Z.of_nat (length sel) = n ∧ (∀ a, a ∈ sel → a ∈ candidates) ∧
  ∀ a b x y, a ∈ sel → b ∈ candidates → (b ∉ sel) → prio a = Some x → prio b = Some y → y ≤ x.
Proof.
  intros n candidates prio HS Hres Hnuma Hne Hnd Hprio Hn.
  assert (Hcand : filter (λ a, is_Some (m !! a)) candidates = candidates).
  { apply filter_id. eapply Forall_impl; [exact Hprio|]. intros a [p Hp].
    unfold prio, nic_priority in Hp. by destruct (m !! a). }
  injection HS as _ <-. fold candidates. rewrite Hcand.
  rewrite bool_decide_eq_false_2 by done. fold n.
  rewrite !(proj2 (Z.ltb_lt _ _)) by lia. cbn [andb]. unfold SortByNumaAware. rewrite Hres.
  rewrite bool_decide_eq_false_2 by (by rewrite map_size_empty_iff).
  set (pm := nic_priorities s m (numa_priority s gpuIds) candidates).
  assert (Hpm : ∀ a, pm !! a = if decide (a ∈ candidates) then prio a else None)
    by (intros a; apply nic_priorities_lookup).
  assert (Hperm : getSortedKeyByMap pm ≡ₚ candidates).
  { apply NoDup_Permutation; [|done|].
    - unfold getSortedKeyByMap. rewrite sort_by_perm. apply range_map_keys_nodup.
    - intros a. rewrite getSortedKeyByMap_keys, Hpm. case_decide as Ha.
      + rewrite Forall_forall in Hprio. split; [done|]. intros _. by apply Hprio.
      + split; [by intros []|done]. }
  rewrite (Permutation_length Hperm), Nat.eqb_refl. cbn [negb]. unfold slice_to.
  split_and!.
  - rewrite length_take, (Permutation_length Hperm). lia.
  - intros a Ha%take_subset. by rewrite Hperm in Ha.
  - intros a b x y Ha Hb Hnb Hx Hy.
    assert (Ha' : a ∈ candidates) by (apply take_subset in Ha; by rewrite Hperm in Ha).
    assert (Hb' : b ∈ drop (Z.to_nat n) (getSortedKeyByMap pm)).
    { rewrite <- Hperm, <- (take_drop (Z.to_nat n) (getSortedKeyByMap pm)), elem_of_app in Hb.
      by destruct Hb. }
    eapply (getSortedKeyByMap_sorted pm _ _ a b);
      [by rewrite (take_drop (Z.to_nat n))|exact Ha|exact Hb'| |].
    + rewrite Hpm. by rewrite decide_True.
    + rewrite Hpm. by rewrite decide_True.
Qed.
End names.

(** ** A host with two interfaces *)

#[local] Existing Instance map_to_list_range.

Definition ex_link (n : string) : LinkState + string :=
  if bool_decide (n = "eth1")
  then inl (mkLink (inl [Some (Net.mkIPNet [10; 0; 1; 7] [255; 255; 255; 0])]) true)
  else if bool_decide (n = "eth2")
  then inl (mkLink (inl [Some (Net.mkIPNet [10; 0; 2; 7] [255; 255; 255; 0])]) true)
  else inr "Link not found".

Definition ex_hostnet : HostNet :=
  mkHostNet [mkNetDevice "eth1" "15b3" "101e" "0000:01:00.0"; mkNetDevice "eth2" "1af4" "1041" "0000:02:00.0"]
    ex_link (inl []) (λ _, inr "none") (inl []).

Definition ex_env (strategy : string) : SelectEnv :=
  mkSelectEnv (∅, false) [] (λ d, d) (inl strategy)
    (λ c, if bool_decide (c = "mlx") then inl [mkDeviceID "15b3" ["101e"]] else inr "not found")
    {["gpu0" := "0000:81:00.0"]}
    {["0000:81:00.0" := "1"; "0000:01:00.0" := "0"; "0000:02:00.0" := "1"]} false ex_hostnet.

Definition ex_req (n : Z) (nets : list string) (class : string) : NICSelectRequest :=
  mkNICRequest "pod" "ns" "host" "net" nets (mkNicArgs n [] "" class).

Example GetInterfaces_ex :
  i_NetAddress <$> (GetInterfaces ex_hostnet ∅).2 = ["10.0.1.0/24"; "10.0.2.0/24"].
Proof. vm_compute. reflexivity. Qed.

Lemma Select_sound_witness :
  np_Masters (Select (ex_env "devClass") ∅ (ex_req 1 [] "mlx")).2 = ["eth1"] ∧
  DeviceExists false ex_hostnet "eth1" = true.
Proof.
  split; [vm_compute; reflexivity|].
  refine (proj1 (proj2 (Select_sound (ex_env "devClass") ∅ (ex_req 1 [] "mlx")
    (Select (ex_env "devClass") ∅ (ex_req 1 [] "mlx")).1
    (mkNICResponse [] ["eth1"]) "devClass" _ _ _) "eth1" _)).
  - reflexivity.
  - reflexivity.
  - vm_compute. reflexivity.
  - left.
Defined.

(** the limit on the number is applied before the class: the pod asks for one
    interface of a class the host has, and gets none *)
Example devClass_limit_before_class :
  let nets := ["10.0.2.0/24"; "10.0.1.0/24"] in
  np_Masters (Select (ex_env "devClass") ∅ (ex_req 2 nets "mlx")).2 = ["eth1"] ∧
  np_Masters (Select (ex_env "devClass") ∅ (ex_req 1 nets "mlx")).2 = [].
Proof. vm_compute. done. Qed.

Definition ex_numa : NumaAwareSelector :=
  mkNuma (se_gpus (ex_env "topology")) (se_numa (ex_env "topology")) (GetInterfaces ex_hostnet ∅).1.

Lemma topology_selects_nearest_witness :
  let req := ex_req 1 ["10.0.1.0/24"; "10.0.2.0/24"] "" in
  let m := {["10.0.1.0/24" := "eth1"; "10.0.2.0/24" := "eth2"]} in
  let prio := nic_priority ex_numa m (numa_priority ex_numa ["gpu0"]) in
  (sel_Select ex_numa req m ∅ {[GPUResourceName := ["gpu0"]]}).2 = ["10.0.2.0/24"] ∧
  ∀ x y, prio "10.0.2.0/24" = Some x → prio "10.0.1.0/24" = Some y → y ≤ x.
Proof.
  intros req m prio. split; [vm_compute; reflexivity|].
  intros x y. eapply (topology_selects_nearest ex_numa req m ∅ {[GPUResourceName := ["gpu0"]]} m
    ["10.0.2.0/24"] ["gpu0"]).
  - vm_compute. reflexivity.
  - reflexivity.
  - intros H. vm_compute in H. discriminate H.
  - discriminate.
  - apply (bool_decide_unpack (NoDup ["10.0.1.0/24"; "10.0.2.0/24"])). vm_compute. exact I.
  - repeat constructor; vm_compute; by eexists.
  - vm_compute. done.
  - left.
  - left.
  - intros H. apply list_elem_of_singleton in H. discriminate H.
Defined.
