(* ===== verification/Messages.v ===== *)
(** * The messages between plugins, daemon and operator

    The structs sent as JSON, by their field tags: the daemon's requests and
    responses (src/daemon/src/allocator/ip.go, router/router.go,
    selector/selector.go, main.go, backend/hostinterface.go) and the plugins' and the
    operator's own copies of them (src/cni/plugins/ipam/multi-nic-ipam/ipam.go,
    src/cni/plugins/main/multi-nic/selector.go, src/controllers/daemon_connector.go),
    which have the same fields and tags.

    [Wire] is the interface of a message type: its zero value, what is printed and
    how it is read; [WireLaw] is what the receiver relies on: a message is read back
    as it was sent. *)

From S2P Require Import Prelude GoLib GoText Json JsonSpec Types K8s Iface Selector Cidr Route.
Import Json.

Class Wire (A : Type) := {
  w_zero : A;
  w_json : A → json;
  w_dec : decoder A
}.

(** integers of the message fit in 64 bits *)
Class WireOk (A : Type) := w_ok : A → Prop.

Class WireLaw (A : Type) `{Wire A, WireOk A} := {
  wire_read : ∀ a, w_ok a → w_dec (w_json a) w_zero = (a, false)
}.

(** a nil slice is printed as [null]; an empty one that is not nil, which Go prints as
    [[]], is not told apart: both are read as the same list *)
Definition slice_json {A} (f : A → json) (l : list A) : json :=
  if bool_decide (l = []) then JNull else JArr (f <$> l).

Definition strs (l : list string) : json := slice_json JStr l.

Section messages.

(** ** allocator/ip.go, ipam.go *)

#[export] Instance IPRequest_wire : Wire IPRequest := {|
  w_zero := mkIPRequest "" "" "" "" [];
  w_json r := JObj [("pod", JStr (rq_PodName r)); ("namespace", JStr (rq_PodNamespace r));
    ("host", JStr (rq_HostName r)); ("def", JStr (rq_NetAttachDefName r));
    ("masters", strs (rq_InterfaceNames r))];
  w_dec := dec_struct [
    field "pod" dec_string rq_PodName
      (λ x '(mkIPRequest _ n h d m), mkIPRequest x n h d m);
    field "namespace" dec_string rq_PodNamespace
      (λ x '(mkIPRequest p _ h d m), mkIPRequest p x h d m);
    field "host" dec_string rq_HostName
      (λ x '(mkIPRequest p n _ d m), mkIPRequest p n x d m);
    field "def" dec_string rq_NetAttachDefName
      (λ x '(mkIPRequest p n h _ m), mkIPRequest p n h x m);
    field "masters" (dec_slice "" dec_string) rq_InterfaceNames
      (λ x '(mkIPRequest p n h d _), mkIPRequest p n h d x)]
|}.

#[export] Instance IPResponse_wire : Wire IPResponse := {|
  w_zero := mkIPResponse "" "" "";
  w_json r := JObj [("interface", JStr (rs_InterfaceName r)); ("ip", JStr (rs_IPAddress r));
    ("block", JStr (rs_VLANBlockSize r))];
  w_dec := dec_struct [
    field "interface" dec_string rs_InterfaceName (λ x '(mkIPResponse _ a b), mkIPResponse x a b);
    field "ip" dec_string rs_IPAddress (λ x '(mkIPResponse i _ b), mkIPResponse i x b);
    field "block" dec_string rs_VLANBlockSize (λ x '(mkIPResponse i a _), mkIPResponse i a x)]
|}.

(** ** selector.go *)

#[export] Instance NicArgs_wire : Wire NicArgs := {|
  w_zero := mkNicArgs 0 [] "" "";
  w_json a := JObj (
    omit_empty "nics" (na_NumOfInterfaces a =? 0) (JInt (na_NumOfInterfaces a)) ++
    omit_empty "masters" (bool_decide (na_InterfaceNames a = [])) (JStrs (na_InterfaceNames a)) ++
    omit_empty "target" (bool_decide (na_Target a = "")) (JStr (na_Target a)) ++
    omit_empty "class" (bool_decide (na_DevClass a = "")) (JStr (na_DevClass a)));
  w_dec := dec_struct [
    field "nics" dec_int na_NumOfInterfaces (λ x '(mkNicArgs _ m t c), mkNicArgs x m t c);
    field "masters" (dec_slice "" dec_string) na_InterfaceNames
      (λ x '(mkNicArgs n _ t c), mkNicArgs n x t c);
    field "target" dec_string na_Target (λ x '(mkNicArgs n m _ c), mkNicArgs n m x c);
    field "class" dec_string na_DevClass (λ x '(mkNicArgs n m t _), mkNicArgs n m t x)]
|}.

#[export] Instance NICSelectRequest_wire : Wire NICSelectRequest := {|
  w_zero := mkNICRequest "" "" "" "" [] w_zero;
  w_json r := JObj [("pod", JStr (nq_PodName r)); ("namespace", JStr (nq_PodNamespace r));
    ("host", JStr (nq_HostName r)); ("def", JStr (nq_NetAttachDefName r));
    ("masterNets", strs (nq_MasterNetAddrs r)); ("args", w_json (nq_NicSet r))];
  w_dec := dec_struct [
    field "pod" dec_string nq_PodName
      (λ x '(mkNICRequest _ n h d m a), mkNICRequest x n h d m a);
    field "namespace" dec_string nq_PodNamespace
      (λ x '(mkNICRequest p _ h d m a), mkNICRequest p x h d m a);
    field "host" dec_string nq_HostName
      (λ x '(mkNICRequest p n _ d m a), mkNICRequest p n x d m a);
    field "def" dec_string nq_NetAttachDefName
      (λ x '(mkNICRequest p n h _ m a), mkNICRequest p n h x m a);
    field "masterNets" (dec_slice "" dec_string) nq_MasterNetAddrs
      (λ x '(mkNICRequest p n h d _ a), mkNICRequest p n h d x a);
    field "args" w_dec nq_NicSet
      (λ x '(mkNICRequest p n h d m _), mkNICRequest p n h d m x)]
|}.

#[export] Instance NICSelectResponse_wire : Wire NICSelectResponse := {|
  w_zero := mkNICResponse [] [];
  w_json r := JObj [("deviceIDs", strs (np_DeviceIDs r)); ("masters", strs (np_Masters r))];
  w_dec := dec_struct [
    field "deviceIDs" (dec_slice "" dec_string) np_DeviceIDs (λ x '(mkNICResponse _ m), mkNICResponse x m);
    field "masters" (dec_slice "" dec_string) np_Masters (λ x '(mkNICResponse d _), mkNICResponse d x)]
|}.

(** ** router.go, daemon_connector.go *)

#[export] Instance HostRoute_wire : Wire HostRoute := {|
  w_zero := mkHostRoute "" "" "";
  w_json r := JObj [("net", JStr (hr_Subnet r)); ("via", JStr (hr_NextHop r));
    ("iface", JStr (hr_InterfaceName r))];
  w_dec := dec_struct [
    field "net" dec_string hr_Subnet (λ x '(mkHostRoute _ v i), mkHostRoute x v i);
    field "via" dec_string hr_NextHop (λ x '(mkHostRoute n _ i), mkHostRoute n x i);
    field "iface" dec_string hr_InterfaceName (λ x '(mkHostRoute n v _), mkHostRoute n v x)]
|}.

#[export] Instance L3ConfigRequest_wire : Wire L3ConfigRequest := {|
  w_zero := mkL3 "" "" [] false;
  w_json r := JObj [("name", JStr (l3_Name r)); ("subnet", JStr (l3_Subnet r));
    ("routes", slice_json w_json (l3_Routes r)); ("force", JBool (l3_Force r))];
  w_dec := dec_struct [
    field "name" dec_string l3_Name (λ x '(mkL3 _ s r f), mkL3 x s r f);
    field "subnet" dec_string l3_Subnet (λ x '(mkL3 n _ r f), mkL3 n x r f);
    field "routes" (dec_slice w_zero w_dec) l3_Routes (λ x '(mkL3 n s _ f), mkL3 n s x f);
    field "force" dec_bool l3_Force (λ x '(mkL3 n s r _), mkL3 n s r x)]
|}.

#[export] Instance RouteUpdateResponse_wire : Wire RouteUpdateResponse := {|
  w_zero := mkRouteResp false "";
  w_json r := JObj [("success", JBool (rr_Success r)); ("msg", JStr (rr_Message r))];
  w_dec := dec_struct [
    field "success" dec_bool rr_Success (λ x '(mkRouteResp _ m), mkRouteResp x m);
    field "msg" dec_string rr_Message (λ x '(mkRouteResp s _), mkRouteResp s x)]
|}.

(** ** hostinterface.go, main.go *)

#[export] Instance InterfaceInfoType_wire : Wire InterfaceInfoType := {|
  w_zero := mkInterfaceInfo "" "" "" "" "" "";
  w_json i := JObj [("interfaceName", JStr (i_InterfaceName i)); ("netAddress", JStr (i_NetAddress i));
    ("hostIP", JStr (i_HostIP i)); ("vendor", JStr (i_Vendor i)); ("product", JStr (i_Product i));
    ("pciAddress", JStr (i_PciAddress i))];
  w_dec := dec_struct [
    field "interfaceName" dec_string i_InterfaceName
      (λ x '(mkInterfaceInfo _ n h v p a), mkInterfaceInfo x n h v p a);
    field "netAddress" dec_string i_NetAddress
      (λ x '(mkInterfaceInfo i _ h v p a), mkInterfaceInfo i x h v p a);
    field "hostIP" dec_string i_HostIP
      (λ x '(mkInterfaceInfo i n _ v p a), mkInterfaceInfo i n x v p a);
    field "vendor" dec_string i_Vendor
      (λ x '(mkInterfaceInfo i n h _ p a), mkInterfaceInfo i n h x p a);
    field "product" dec_string i_Product
      (λ x '(mkInterfaceInfo i n h v _ a), mkInterfaceInfo i n h v x a);
    field "pciAddress" dec_string i_PciAddress
      (λ x '(mkInterfaceInfo i n h v p _), mkInterfaceInfo i n h v p x)]
|}.

(** a list as the whole message *)
#[export] Instance list_wire {A} `{Wire A} : Wire (list A) := {|
  w_zero := [];
  w_json := slice_json w_json;
  w_dec := dec_slice w_zero w_dec
|}.
End messages.

(** ** Messages are read back *)

Lemma read_strs l old : dec_slice "" dec_string (strs l) old = (l, false).
Proof.
  unfold strs, slice_json. case_bool_decide as Hl; [by subst|]. cbn [dec_slice].
  rewrite <- list_fmap_compose. f_equal.
  - rewrite (list_fmap_ext _ id), list_fmap_id; [done|]. intros ? x ?. by destruct x.
  - induction l as [|x l IH]; [done|]. cbn. destruct l; [done|]. apply IH. done.
Qed.

Lemma read_JStrs l old : dec_slice "" dec_string (JStrs l) old = (l, false).
Proof.
  unfold JStrs. cbn [dec_slice]. rewrite <- list_fmap_compose. f_equal.
  - rewrite (list_fmap_ext _ id), list_fmap_id; done.
  - by induction l as [|x l IH].
Qed.

#[export] Instance IPRequest_ok : WireOk IPRequest := λ _, True.
#[export] Instance IPResponse_ok : WireOk IPResponse := λ _, True.
#[export] Instance NicArgs_ok : WireOk NicArgs := λ a, - 2 ^ 63 ≤ na_NumOfInterfaces a < 2 ^ 63.
#[export] Instance NICSelectRequest_ok : WireOk NICSelectRequest := λ r, w_ok (nq_NicSet r).
#[export] Instance NICSelectResponse_ok : WireOk NICSelectResponse := λ _, True.
#[export] Instance HostRoute_ok : WireOk HostRoute := λ _, True.
#[export] Instance L3ConfigRequest_ok : WireOk L3ConfigRequest := λ _, True.
#[export] Instance RouteUpdateResponse_ok : WireOk RouteUpdateResponse := λ _, True.
#[export] Instance InterfaceInfoType_ok : WireOk InterfaceInfoType := λ _, True.
#[export] Instance list_ok {A} `{WireOk A} : WireOk (list A) := Forall w_ok.

#[export] Instance IPRequest_law : WireLaw IPRequest.
Proof. constructor. intros [p n h d m] _. lazy -[strs dec_slice dec_string]. rewrite read_strs. done. Qed.

#[export] Instance IPResponse_law : WireLaw IPResponse.
Proof. constructor. by intros [i a b] _. Qed.

#[export] Instance NicArgs_law : WireLaw NicArgs.
Proof.
  constructor. intros [n m t c] Hn. unfold w_ok, NicArgs_ok in Hn. cbn [na_NumOfInterfaces] in Hn.
  cbn [w_json NicArgs_wire na_NumOfInterfaces na_InterfaceNames na_Target na_DevClass].
  destruct (Z.eqb_spec n 0) as [->|], (bool_decide_reflect (m = [])) as [->|],
    (bool_decide_reflect (t = "")) as [->|], (bool_decide_reflect (c = "")) as [->|];
    lazy -[JStrs dec_slice dec_string JInt dec_int];
    rewrite ?dec_int_JInt, ?read_JStrs by done; done.
Qed.

#[export] Instance NICSelectRequest_law : WireLaw NICSelectRequest.
Proof.
  constructor. intros [p n h d m a] Ha. pose proof (wire_read a Ha) as Hr.
  cbn [w_json w_dec w_zero NICSelectRequest_wire] in Hr |- *.
  lazy -[strs dec_slice dec_string NicArgs_wire w_dec w_json w_zero].
  rewrite read_strs. lazy -[NicArgs_wire w_dec w_json w_zero]. by rewrite Hr.
Qed.

#[export] Instance NICSelectResponse_law : WireLaw NICSelectResponse.
Proof.
  constructor. intros [d m] _. lazy -[strs dec_slice dec_string]. by rewrite !read_strs.
Qed.

#[export] Instance HostRoute_law : WireLaw HostRoute.
Proof. constructor. by intros [n v i] _. Qed.

#[export] Instance RouteUpdateResponse_law : WireLaw RouteUpdateResponse.
Proof. constructor. by intros [s m] _. Qed.

#[export] Instance InterfaceInfoType_law : WireLaw InterfaceInfoType.
Proof. constructor. by intros [i n h v p a] _. Qed.

Lemma read_slice {A} `{WireLaw A} (l old : list A) :
  Forall w_ok l → dec_slice w_zero w_dec (slice_json w_json l) old = (l, false).
Proof.
  intros Hl. unfold slice_json. case_bool_decide as He; [by subst|]. cbn [dec_slice]. clear He.
  f_equal; induction Hl as [|x l Hx Hl IH]; [done| |done|]; cbn.
  - rewrite (wire_read x Hx). cbn. by f_equal.
  - rewrite (wire_read x Hx). cbn. apply IH.
Qed.

#[export] Instance list_law {A} `{WireLaw A} : WireLaw (list A).
Proof. constructor. intros l Hl. by apply read_slice. Qed.

#[export] Instance L3ConfigRequest_law : WireLaw L3ConfigRequest.
Proof.
  constructor. intros [n s r f] _. pose proof (read_slice r [] ltac:(by apply Forall_true)) as Hr.
  cbn [w_json w_dec w_zero L3ConfigRequest_wire].
  lazy -[dec_slice slice_json HostRoute_wire w_dec w_json w_zero].
  by rewrite Hr.
Qed.

(** ** The text of a message *)

(** the strings of a message are ASCII *)
Definition sendable {A} `{Wire A} (a : A) : Prop := json_ok (w_json a) = true.

Lemma receive {A} `{WireLaw A} (a : A) :
  sendable a → w_ok a → Unmarshal w_dec (print (w_json a)) w_zero = (a, true).
Proof. intros Hs Ha. rewrite Unmarshal_print by done. by rewrite wire_read. Qed.

Lemma receive_Encode {A} `{WireLaw A} (a : A) :
  sendable a → w_ok a → Unmarshal w_dec (Encode (w_json a)) w_zero = (a, true).
Proof. intros Hs Ha. rewrite Unmarshal_Encode by done. by rewrite wire_read. Qed.
