(* ===== verification/Backend.v ===== *)
(** * daemon/src/backend: the cluster's objects, seen from the daemon

    The daemon reads and patches custom resources through the dynamic client, as
    untyped JSON: [handler.go] (objects), [ippool.go], [hostinterface.go],
    [multinicnetwork.go], [netattachdef.go], [deviceclass.go].  An object is a [json]
    value; a type assertion on a missing member or on another kind of value panics. *)

From S2P Require Import Prelude GoLib GoText Json JsonSpec JsonText Types K8s Iface Selector Cidr Route Messages.
Import Json.

(** the dynamic client, by resource and namespace ([NamespaceAll] is the empty one) *)
Class DynAPI (W : Type) := {
  dyn_Get : W → string → string → string → json + string;            (* resource, name, namespace *)
  dyn_List : W → string → string → string → list json + string;      (* resource, namespace, selector *)
  dyn_JSONPatch : W → string → string → string → string → W * option string
                                                 (* resource, name, namespace, text *)
}.

Definition NamespaceAll : string := "".

(** [obj[key].(map[string]interface{})] and [obj[key].(string)] *)
Definition member_object (key : string) (obj : json) : go json :=
  match member key obj with Some (JObj l) => Ret (JObj l) | _ => Panic end.

Definition member_string (key : string) (obj : json) : go string :=
  match member key obj with Some (JStr s) => Ret s | _ => Panic end.

(** [Marshal] of a member, [nil] when it is missing *)
Definition member_or_null (key : string) (obj : json) : json := default JNull (member key obj).

(** ** handler.go *)

Definition GetName (uobj : json) : go string :=
  metadata ← member_object "metadata" uobj; member_string "name" metadata.

(** the error of [Unmarshal] is dropped *)
Definition Parse {A} (dec : decoder A) (obj : json) (output : A) : A :=
  fst (Unmarshal dec (print obj) output).

(** ** ippool.go *)

Definition IPPOOL_RESOURCE : string := "ippools.v1.multinic.fms.io".

#[export] Instance Allocation_wire : Wire Allocation := {|
  w_zero := mkAllocation "" "" 0 "";
  w_json a := JObj [("pod", JStr (a_Pod a)); ("namespace", JStr (a_Namespace a));
    ("index", JInt (a_Index a)); ("address", JStr (a_Address a))];
  w_dec := dec_struct [
    field "pod" dec_string a_Pod (λ x '(mkAllocation _ n i a), mkAllocation x n i a);
    field "namespace" dec_string a_Namespace (λ x '(mkAllocation p _ i a), mkAllocation p x i a);
    field "index" dec_int a_Index (λ x '(mkAllocation p n _ a), mkAllocation p n x a);
    field "address" dec_string a_Address (λ x '(mkAllocation p n i _), mkAllocation p n i x)]
|}.

(** [IPPoolType]; the tag of Excludes is malformed, so the field has its Go name *)
Definition ippool_fields : fields IPPoolSpec := [
  field "podCIDR" dec_string p_PodCIDR
    (λ x '(mkIPPoolSpec _ v d h i e a), mkIPPoolSpec x v d h i e a);
  field "vlanCIDR" dec_string p_VlanCIDR
    (λ x '(mkIPPoolSpec p _ d h i e a), mkIPPoolSpec p x d h i e a);
  field "netAttachDef" dec_string p_NetAttachDefName
    (λ x '(mkIPPoolSpec p v _ h i e a), mkIPPoolSpec p v x h i e a);
  field "hostName" dec_string p_HostName
    (λ x '(mkIPPoolSpec p v d _ i e a), mkIPPoolSpec p v d x i e a);
  field "interfaceName" dec_string p_InterfaceName
    (λ x '(mkIPPoolSpec p v d h _ e a), mkIPPoolSpec p v d h x e a);
  field "Excludes" (dec_slice "" dec_string) p_Excludes
    (λ x '(mkIPPoolSpec p v d h i _ a), mkIPPoolSpec p v d h i x a);
  field "allocations" (dec_slice w_zero w_dec) p_Allocations
    (λ x '(mkIPPoolSpec p v d h i e _), mkIPPoolSpec p v d h i e x)].

Definition dec_ippool : decoder IPPoolSpec := dec_struct ippool_fields.

Definition zero_ippool : IPPoolSpec := mkIPPoolSpec "" "" "" "" "" [] [].

Definition parse_ippool (uobj : json) : go IPPoolSpec :=
  spec ← member_object "spec" uobj; Ret (Parse dec_ippool spec zero_ippool).

(** the text of the patch *)
Definition allocation_patch (allocations : list Allocation) : string :=
  "[" +:+ "{" +:+ quoted "op" +:+ ":" +:+ quoted "replace" +:+ "," +:+
  quoted "path" +:+ ":" +:+ quoted "/spec/allocations" +:+ "," +:+
  quoted "value" +:+ ":" +:+ print (w_json allocations) +:+ "}" +:+ "]".

Section handlers.
Context {W : Type} `{DynAPI W}.

Fixpoint pool_map (l : list json) (m : gmap string IPPoolSpec) : go (gmap string IPPoolSpec) :=
  match l with
  | [] => Ret m
  | pool :: rest =>
      poolName ← GetName pool;
      poolInfo ← parse_ippool pool;
      pool_map rest (<[poolName := poolInfo]> m)
  end.

Definition ListIPPool (w : W) (selector : string) : go (gmap string IPPoolSpec + string) :=
  match dyn_List w IPPOOL_RESOURCE NamespaceAll selector with
  | inr err => Ret (inr err)
  | inl items => m ← pool_map items ∅; Ret (inl m)
  end.

Definition PatchIPPool (w : W) (poolname : string) (allocations : list Allocation)
    : W * option string :=
  dyn_JSONPatch w IPPOOL_RESOURCE poolname NamespaceAll (allocation_patch allocations).

(** ** hostinterface.go *)

Definition HOSTINTERFACE_RESOURCE : string := "hostinterfaces.v1.multinic.fms.io".
Definition unmanagedLabelName : string := "multi-nic-unmanaged".

Fixpoint parse_infos (l : list json) : go (list InterfaceInfoType) :=
  match l with
  | [] => Ret []
  | v :: rest =>
      match v with
      | JObj _ =>
          infos ← parse_infos rest;
          Ret (Parse w_dec v (w_zero (A := InterfaceInfoType)) :: infos)
      | _ => Panic
      end
  end.

(** the interfaces read and the error *)
Definition parse_hostinterface (uobj : json) : go (list InterfaceInfoType * option string) :=
  spec ← member_object "spec" uobj;
  match member "interfaces" spec with
  | Some (JArr vals) => infos ← parse_infos vals; Ret (infos, None)
  | Some _ => Ret ([], Some "cannot parse value of interfaces")
  | None => Ret ([], Some "`interfaces` field not found")
  end.

Definition GetHostInterfaces (w : W) (hostName : string) : go (list InterfaceInfoType * option string) :=
  match dyn_Get w HOSTINTERFACE_RESOURCE hostName NamespaceAll with
  | inl hifobj => parse_hostinterface hifobj
  | inr err => Ret ([], Some err)
  end.

(** [GetLabels]: a map of strings, or nothing *)
Definition labels_of (uobj : json) : option (gmap string string) :=
  match member "metadata" uobj ≫= member "labels" with
  | Some (JObj l) =>
      if forallb (λ kv, match kv.2 with JStr _ => true | _ => false end) l
      then Some (list_to_map (omap (λ kv, match kv.2 with JStr s => Some (kv.1, s) | _ => None end) l))
      else None
  | _ => None
  end.

Definition GetUnmanagedHostInterfaces (w : W) (hostName : string)
    : go (list InterfaceInfoType * option string) :=
  match dyn_Get w HOSTINTERFACE_RESOURCE hostName NamespaceAll with
  | inl hifobj =>
      if bool_decide (labels_of hifobj ≫= (.!! unmanagedLabelName) = Some "true")
      then parse_hostinterface hifobj else Ret ([], None)
  | inr err => Ret ([], Some err)
  end.

(** ** multinicnetwork.go *)

Definition MULTINICNET_RESOURCE : string := "multinicnetworks.v1.multinic.fms.io".

Record NetPolicy := mkNetPolicy { np_Strategy : string; np_Target : string }.
Record NetSpec := mkNetPolicySpec { nps_Policy : NetPolicy; nps_MasterNetAddrs : list string }.

Definition policy_fields : fields NetPolicy := [
  field "strategy" dec_string np_Strategy (λ x '(mkNetPolicy _ t), mkNetPolicy x t);
  field "target" dec_string np_Target (λ x '(mkNetPolicy s _), mkNetPolicy s x)].

Definition netspec_fields : fields NetSpec := [
  field "attachPolicy" (dec_struct policy_fields) nps_Policy (λ x '(mkNetPolicySpec _ m), mkNetPolicySpec x m);
  field "masterNets" (dec_slice "" dec_string) nps_MasterNetAddrs
    (λ x '(mkNetPolicySpec p _), mkNetPolicySpec p x)].

Definition GetNetworkSpec (w : W) (name : string) : NetSpec * option string :=
  match dyn_Get w MULTINICNET_RESOURCE name NamespaceAll with
  | inr err => (mkNetPolicySpec (mkNetPolicy "none" "") [], Some err)
  | inl obj =>
      (Parse (dec_struct netspec_fields) (member_or_null "spec" obj)
         (mkNetPolicySpec (mkNetPolicy "" "") []), None)
  end.

(** ** deviceclass.go *)

Definition DEVICECLASS_RESOURCE : string := "deviceclasses.v1.multinic.fms.io".

Definition deviceid_fields : fields DeviceID := [
  field "vendor" dec_string di_Vendor (λ x '(mkDeviceID _ p), mkDeviceID x p);
  field "products" (dec_slice "" dec_string) di_Products (λ x '(mkDeviceID v _), mkDeviceID v x)].

(** [DeviceClassSpec], by its one field *)
Definition deviceclass_fields : fields (list DeviceID) := [
  field "ids" (dec_slice (mkDeviceID "" []) (dec_struct deviceid_fields)) id (λ x _, x)].

Definition GetDeviceClass (w : W) (name : string) : list DeviceID * option string :=
  match dyn_Get w DEVICECLASS_RESOURCE name NamespaceAll with
  | inr err => ([], Some err)
  | inl obj => (Parse (dec_struct deviceclass_fields) (member_or_null "spec" obj) [], None)
  end.

(** ** netattachdef.go *)

Definition NET_ATTACH_DEF_RESOURCE : string := "network-attachment-definitions.v1.k8s.cni.cncf.io".
Definition RESOURCE_ANNOTATION : string := "k8s.v1.cni.cncf.io/resourceName".

Definition GetResourceNames (w : W) (name namespace : string) : go (list string) :=
  match dyn_Get w NET_ATTACH_DEF_RESOURCE name namespace with
  | inr _ => Ret []
  | inl obj =>
      metadata ← member_object "metadata" obj;
      match member "annotations" metadata with
      | None => Ret []
      | Some (JObj l) =>
          match member RESOURCE_ANNOTATION (JObj l) with
          | None => Ret []
          | Some (JStr s) => Ret (Strings.Split s ",")
          | Some _ => Panic
          end
      | Some _ => Panic
      end
  end.
End handlers.
