(* ===== verification/BackendProps.v ===== *)
(** * Properties of the daemon's backend

    The IPPool handler of the daemon implements what the allocator relies on
    ([IPPoolAPI]): a patched pool is listed with the new allocations and nothing else
    changed, although the pools are untyped JSON and the patch is a text. *)

From S2P Require Import Prelude GoLib GoText Json JsonSpec JsonText Types K8s Iface Selector Cidr Route.
From S2P Require Import Messages Backend.
Import Json.

(** ** JSON patches, as the API server applies them *)

Fixpoint replace_member (k : string) (f : json → option json) (l : list (string * json))
    : option (list (string * json)) :=
  match l with
  | [] => None
  | kv :: l' =>
      if bool_decide (kv.1 = k) then (λ y, (kv.1, y) :: l') <$> f kv.2
      else cons kv <$> replace_member k f l'
  end.

(** the value at a path, which must exist, is replaced *)
Fixpoint replace_at (path : list string) (v obj : json) : option json :=
  match path with
  | [] => Some v
  | k :: path' =>
      match obj with
      | JObj l => JObj <$> replace_member k (replace_at path' v) l
      | _ => None
      end
  end.

Definition replace_op (path : string) (v : json) : json :=
  JArr [JObj [("op", JStr "replace"); ("path", JStr path); ("value", v)]].

(** what the daemon relies on, relative to the stored objects of a resource *)
Class DynAPILaws (W : Type) `{DynAPI W} (obj_at : W → string → string → option json) := {
  list_items : ∀ w res sel items item,
    dyn_List w res NamespaceAll sel = inl items → item ∈ items →
    ∃ name, GetName item = Ret name ∧ obj_at w res name = Some item;
  patch_replaces : ∀ w w' res n text path keys v obj,
    dyn_JSONPatch w res n NamespaceAll text = (w', None) →
    parse text = Some (replace_op path v) → Strings.Split path "/" = "" :: keys →
    obj_at w res n = Some obj →
    ∃ obj', replace_at keys v obj = Some obj' ∧ obj_at w' res n = Some obj';
  patch_others : ∀ w w' res n text err n',
    dyn_JSONPatch w res n NamespaceAll text = (w', err) → n ≠ n' → obj_at w' res n' = obj_at w res n'
}.

(** ** Decoding pools *)

#[export] Instance Allocation_ok : WireOk Allocation := λ a, - 2 ^ 63 ≤ a_Index a < 2 ^ 63.

#[export] Instance Allocation_law : WireLaw Allocation.
Proof.
  constructor. intros [p n i a] Hi. unfold w_ok, Allocation_ok in Hi. cbn [a_Index] in Hi.
  lazy -[JInt dec_int]. by rewrite dec_int_JInt.
Qed.

Lemma find_field_fold {R} (fs : fields R) k dec :
  find_field fs k = Some dec → ∃ f, (f ∈ fs) ∧ f.2 = dec ∧ fold_case f.1 = fold_case k.
Proof.
  unfold find_field. destruct (list_find (λ f, f.1 = k) fs) as [[i f]|] eqn:E.
  - apply list_find_Some in E as (Hl & Hk & _). intros [= <-]. exists f.
    split; [by eapply list_elem_of_lookup_2|]. by rewrite Hk.
  - destruct (list_find (λ f, fold_case f.1 = fold_case k) fs) as [[i f]|] eqn:E2; [|done].
    apply list_find_Some in E2 as (Hl & Hk & _). intros [= <-]. exists f.
    split; [by eapply list_elem_of_lookup_2|done].
Qed.

(** the other members do not touch the allocations *)
Lemma dec_member_other kv r e a e' :
  fold_case kv.1 ≠ "allocations" →
  p_Allocations (dec_member ippool_fields (r, e) kv).1 = p_Allocations r ∧
  (dec_member ippool_fields (set_Allocations r a, e') kv).1
  = set_Allocations (dec_member ippool_fields (r, e) kv).1 a.
Proof.
  intros Hk. unfold dec_member. destruct (find_field ippool_fields kv.1) as [dec|] eqn:E; [|done].
  apply find_field_fold in E as (f & Hf & <- & Hfold). cbn [fst]. unfold ippool_fields in Hf.
  rewrite !elem_of_cons, elem_of_nil in Hf.
  destruct Hf as [->|[->|[->|[->|[->|[->|[->|[]]]]]]]];
    try (destruct r as [pod vlan net host iface ex al]; unfold field; cbn;
         match goal with |- context [?d kv.2 ?old] => destruct (d kv.2 old) end; done).
Qed.

Lemma dec_members_other l : ∀ r e a e',
  Forall (λ kv, fold_case kv.1 ≠ "allocations") l →
  p_Allocations (foldl (dec_member ippool_fields) (r, e) l).1 = p_Allocations r ∧
  (foldl (dec_member ippool_fields) (set_Allocations r a, e') l).1
  = set_Allocations (foldl (dec_member ippool_fields) (r, e) l).1 a.
Proof.
  induction l as [|kv l IH]; intros r e a e' Hl; [done|].
  apply Forall_cons in Hl as [Hk Hl]. cbn [foldl].
  destruct (dec_member_other kv r e a e' Hk) as [H1 H2].
  destruct (dec_member ippool_fields (r, e) kv) as [r1 e1].
  destruct (dec_member ippool_fields (set_Allocations r a, e') kv) as [r2 e2]. cbn [fst] in H1, H2.
  subst r2. rewrite <- H1. by apply IH.
Qed.

(** reading the allocations of a pool *)
Lemma dec_member_alloc r e v :
  dec_member ippool_fields (r, e) ("allocations", v)
  = (set_Allocations r (dec_slice w_zero w_dec v (p_Allocations r)).1,
     e || (dec_slice w_zero w_dec v (p_Allocations r)).2).
Proof.
  unfold dec_member. change (find_field ippool_fields ("allocations", v).1)
    with (Some (snd (field "allocations" (dec_slice w_zero w_dec) p_Allocations
      (λ x '(mkIPPoolSpec p v d h i e _), mkIPPoolSpec p v d h i e x)))).
  destruct r as [a1 a2 a3 a4 a5 a6 a7]. unfold field. cbn [fst snd p_Allocations]. by destruct (dec_slice _ _ _ _).
Qed.

Lemma dec_member_allocations r e l :
  w_ok l →
  dec_member ippool_fields (r, e) ("allocations", w_json l) = (set_Allocations r l, e).
Proof.
  intros Hl. rewrite dec_member_alloc. change (w_json l) with (slice_json w_json l).
  rewrite (read_slice l _ Hl). cbn [fst snd]. by rewrite orb_false_r.
Qed.

(** ** Objects of pools *)

(** an IPPool as it is stored: ASCII text, and one member for the allocations *)
Definition pool_object (obj : json) : Prop :=
  ∃ l1 x l2, member "spec" obj = Some (JObj (l1 ++ ("allocations", x) :: l2)) ∧
    json_ok (JObj (l1 ++ ("allocations", x) :: l2)) = true ∧
    Forall (λ kv, fold_case kv.1 ≠ "allocations") (l1 ++ l2).

Lemma replace_member_mid k f l1 x l2 y :
  Forall (λ kv, kv.1 ≠ k) l1 → f x = Some y →
  replace_member k f (l1 ++ (k, x) :: l2) = Some (l1 ++ (k, y) :: l2).
Proof.
  intros Hl Hf. induction Hl as [|kv l1 Hk Hl IH]; cbn.
  - rewrite bool_decide_true by done. by rewrite Hf.
  - rewrite bool_decide_false by done. by rewrite IH.
Qed.

Lemma member_replaced k f l l' x :
  find_member k l = Some x → replace_member k f l = Some l' →
  ∃ y, f x = Some y ∧ find_member k l' = Some y.
Proof.
  revert l'. induction l as [|kv l IH]; intros l' Hx Hl; [done|]. cbn in Hx, Hl.
  case_bool_decide as Hk.
  - injection Hx as Hx. rewrite Hx in Hl. destruct (f x) as [y|]; [|done]. injection Hl as <-. exists y.
    split; [done|]. cbn. by rewrite bool_decide_true.
  - destruct (replace_member k f l) as [l0|]; [|done]. injection Hl as <-.
    destruct (IH l0 Hx eq_refl) as (y & ? & ?). exists y. split; [done|]. cbn.
    by rewrite bool_decide_false.
Qed.

(** what the patch does to the members of the spec *)
Lemma replace_allocations obj obj' l1 x l2 v :
  member "spec" obj = Some (JObj (l1 ++ ("allocations", x) :: l2)) →
  Forall (λ kv, fold_case kv.1 ≠ "allocations") l1 →
  replace_at ["spec"; "allocations"] v obj = Some obj' →
  member "spec" obj' = Some (JObj (l1 ++ ("allocations", v) :: l2)).
Proof.
  intros Hm Hl Hr. destruct obj as [| | | | |l]; try done. cbn [member] in Hm.
  change (replace_at ["spec"; "allocations"] v (JObj l))
    with (JObj <$> replace_member "spec" (replace_at ["allocations"] v) l) in Hr.
  destruct (replace_member _ _ l) as [l'|] eqn:E; [|done]. injection Hr as <-.
  destruct (member_replaced _ _ _ _ _ Hm E) as (y & Hy & Hm'). cbn [member]. rewrite Hm'. f_equal.
  change (JObj <$> replace_member "allocations" (replace_at [] v) (l1 ++ ("allocations", x) :: l2)
    = Some y) in Hy.
  rewrite (replace_member_mid _ _ _ _ _ v) in Hy; [by injection Hy|..|done].
  eapply Forall_impl; [exact Hl|]. intros kv Hk Heq. apply Hk. by rewrite Heq.
Qed.

Lemma json_ok_replaced l1 k x l2 v :
  json_ok (JObj (l1 ++ (k, x) :: l2)) = true → json_ok v = true →
  json_ok (JObj (l1 ++ (k, v) :: l2)) = true.
Proof.
  cbn. rewrite !forallb_app. cbn. rewrite !andb_true_iff. intros (? & [? ?] & ?) ?. done.
Qed.

(** the decoded pool, with other allocations *)
Lemma dec_ippool_replaced l1 x l2 l :
  Forall (λ kv, fold_case kv.1 ≠ "allocations") (l1 ++ l2) → w_ok l →
  (dec_ippool (JObj (l1 ++ ("allocations", w_json l) :: l2)) zero_ippool).1
  = set_Allocations (dec_ippool (JObj (l1 ++ ("allocations", x) :: l2)) zero_ippool).1 l.
Proof.
  intros [H1 H2]%Forall_app Hl. unfold dec_ippool, dec_struct. rewrite !foldl_app. cbn [foldl].
  destruct (foldl (dec_member ippool_fields) (zero_ippool, false) l1) as [r e].
  rewrite dec_member_allocations by done.
  rewrite dec_member_alloc. destruct (dec_slice _ _ x _) as [a b]. cbn [fst snd].
  destruct (dec_members_other l2 (set_Allocations r a) (e || b) l e H2) as [_ <-].
  by destruct r.
Qed.

Lemma patch_text l : allocation_patch l = print (replace_op "/spec/allocations" (w_json l)).
Proof.
  unfold allocation_patch. generalize (w_json l). intros v.
  assert (∀ v, print (replace_op "/spec/allocations" v)
    = "[" +:+ ("{" +:+ ((print_string "op" +:+ ":" +:+ print_string "replace") +:+ "," +:+
      (print_string "path" +:+ ":" +:+ print_string "/spec/allocations") +:+ "," +:+
      (print_string "value" +:+ ":" +:+ print v)) +:+ "}") +:+ "]") as -> by done.
  rewrite !plain_print_string by done. by rewrite !str_app_assoc.
Qed.

(** the patch, as the server reads it *)
Lemma parse_patch l :
  sendable l → parse (allocation_patch l) = Some (replace_op "/spec/allocations" (w_json l)).
Proof.
  intros Hl. rewrite patch_text. apply parse_print. unfold sendable in Hl.
  cbn [replace_op json_ok forallb fst snd]. by rewrite Hl.
Qed.

Lemma parse_ippool_object obj l1 x l2 :
  member "spec" obj = Some (JObj (l1 ++ ("allocations", x) :: l2)) →
  json_ok (JObj (l1 ++ ("allocations", x) :: l2)) = true →
  parse_ippool obj
  = Ret (dec_ippool (JObj (l1 ++ ("allocations", x) :: l2)) zero_ippool).1.
Proof.
  intros Hm Hok. unfold parse_ippool, member_object. rewrite Hm. cbn [mbind go_bind].
  unfold Parse. rewrite Unmarshal_print by done. by destruct (dec_ippool _ _).
Qed.

Section store.
Context {W : Type} `{DynAPI W} (obj_at : W → string → string → option json).

Lemma pool_map_elem items : ∀ m0 m name spec,
  pool_map items m0 = Ret m → m !! name = Some spec →
  m0 !! name = Some spec ∨
  ∃ item, (item ∈ items) ∧ GetName item = Ret name ∧ parse_ippool item = Ret spec.
Proof.
  induction items as [|item items IH]; intros m0 m name spec Hm Hs.
  { injection Hm as <-. by left. }
  cbn [pool_map] in Hm. destruct (GetName item) as [n|] eqn:Hn; [|done].
  destruct (parse_ippool item) as [s|] eqn:Hp; [|done]. cbn [mbind go_bind] in Hm.
  destruct (IH _ _ _ _ Hm Hs) as [Hl|(it & ? & ? & ?)].
  - apply lookup_insert_Some in Hl as [[<- <-]|[_ ?]]; [|by left].
    right. exists item. split; [by left|done].
  - right. exists it. split; [by right|done].
Qed.

(** a listed pool is a stored one *)
Lemma ListIPPool_stored {laws : DynAPILaws W obj_at} w sel m name spec :
  ListIPPool w sel = Ret (inl m) → m !! name = Some spec →
  ∃ obj, obj_at w IPPOOL_RESOURCE name = Some obj ∧ parse_ippool obj = Ret spec.
Proof.
  unfold ListIPPool. destruct (dyn_List _ _ _ _) as [items|] eqn:Hl; [|done].
  destruct (pool_map items ∅) as [m0|] eqn:Hm; [|done]. intros [= <-] Hs.
  destruct (pool_map_elem _ _ _ _ _ Hm Hs) as [He|(item & Hin & Hn & Hp)].
  { by rewrite lookup_empty in He. }
  destruct (list_items _ _ _ _ _ Hl Hin) as (n & Hn' & Ho). rewrite Hn in Hn'.
  injection Hn' as <-. eauto.
Qed.

(** listing pools that are stored as the operator writes them does not panic *)
Lemma ListIPPool_safe {laws : DynAPILaws W obj_at} w sel :
  (∀ name obj, obj_at w IPPOOL_RESOURCE name = Some obj → pool_object obj) →
  ListIPPool w sel ≠ Panic.
Proof.
  intros Hall. unfold ListIPPool. destruct (dyn_List _ _ _ _) as [items|] eqn:Hl; [|done].
  assert (∀ items0 m0, (∀ item, item ∈ items0 → item ∈ items) → pool_map items0 m0 ≠ Panic) as Hmap.
  { intros items0. induction items0 as [|item items0 IH]; intros m0 Hsub; [done|]. cbn [pool_map].
    destruct (list_items _ _ _ _ _ Hl (Hsub item ltac:(by left))) as (n & -> & Ho).
    destruct (Hall _ _ Ho) as (l1 & x & l2 & Hm & Hok & _).
    rewrite (parse_ippool_object _ _ _ _ Hm Hok). cbn [mbind go_bind]. apply IH.
    intros it Hit. apply Hsub. by right. }
  specialize (Hmap items ∅ ltac:(auto)). by destruct (pool_map items ∅).
Qed.

(** C13: the backend keeps the contract of the allocator's store through JSON
    text: when a patch of a stored pool succeeds, every later listing shows
    the pool with exactly the given allocations and otherwise unchanged, the
    stored object has the same shape as before, and all other pools are as
    they were. *)
Theorem backend_patch_roundtrip w w' name obj spec l :
  DynAPILaws W obj_at → pool_object obj → w_ok l → sendable l →
  obj_at w IPPOOL_RESOURCE name = Some obj → parse_ippool obj = Ret spec →
  PatchIPPool w name l = (w', None) →
  (∀ sel m spec', ListIPPool w' sel = Ret (inl m) → m !! name = Some spec' →
     spec' = set_Allocations spec l) ∧
  (∃ obj', obj_at w' IPPOOL_RESOURCE name = Some obj' ∧ pool_object obj' ∧
     parse_ippool obj' = Ret (set_Allocations spec l)) ∧
  (∀ other, other ≠ name → obj_at w' IPPOOL_RESOURCE other = obj_at w IPPOOL_RESOURCE other).
Proof.
  intros Hlaws (l1 & x & l2 & Hm & Hok & Hl12) Hl Hsend Ho Hp Hpatch.
  destruct (patch_replaces w w' IPPOOL_RESOURCE name _ "/spec/allocations" ["spec"; "allocations"]
    (w_json l) obj Hpatch (parse_patch l Hsend) eq_refl Ho) as (obj' & Hr & Ho').
  apply Forall_app in Hl12 as Hl12'. destruct Hl12' as [Hl1 _].
  pose proof (replace_allocations _ _ _ _ _ _ Hm Hl1 Hr) as Hm'.
  pose proof (json_ok_replaced _ _ _ _ _ Hok Hsend) as Hok'.
  assert (parse_ippool obj' = Ret (set_Allocations spec l)) as Hp'.
  { rewrite (parse_ippool_object _ _ _ _ Hm' Hok'), (dec_ippool_replaced _ x) by done.
    rewrite (parse_ippool_object _ _ _ _ Hm Hok) in Hp. by injection Hp as <-. }
  split_and!.
  - intros sel m spec' Hlist Hs. destruct (ListIPPool_stored _ _ _ _ _ Hlist Hs) as (o & Ho2 & Hp2).
    rewrite Ho' in Ho2. injection Ho2 as <-. rewrite Hp' in Hp2. by injection Hp2.
  - exists obj'. split; [done|]. split; [|done]. exists l1, (w_json l), l2. done.
  - intros other Hne. by eapply patch_others.
Qed.
End store.

(** ** A server that stores pools as JSON *)

Definition jstore : Type := gmap string json.

Definition named (n : string) (obj : json) : bool :=
  match GetName obj with Ret m => bool_decide (m = n) | Panic => false end.

Definition apply_patch (w : jstore) (n text : string) : jstore * option string :=
  match parse text with
  | Some (JArr [JObj [("op", JStr "replace"); ("path", JStr path); ("value", v)]]) =>
      match Strings.Split path "/" with
      | "" :: keys =>
          match (w : gmap string json) !! n ≫= replace_at keys v with
          | Some obj => (<[n := obj]> (w : gmap string json), None)
          | None => (w, Some "no such path")
          end
      | _ => (w, Some "bad path")
      end
  | _ => (w, Some "bad patch")
  end.

#[export] Instance jstore_api : DynAPI jstore := {|
  dyn_Get w _ n _ := match (w : gmap string json) !! n with Some o => inl o | None => inr "not found" end;
  dyn_List w _ _ _ :=
    inl (omap (λ kv, if named kv.1 kv.2 then Some kv.2 else None) (map_to_list (w : gmap string json)));
  dyn_JSONPatch w _ n _ text := apply_patch w n text
|}.

Definition jstore_at (w : jstore) (_ n : string) : option json := (w : gmap string json) !! n.

Lemma apply_patch_other w n text n' : n ≠ n' → jstore_at (apply_patch w n text).1 "" n' = jstore_at w "" n'.
Proof.
  intros Hne. unfold apply_patch, jstore_at. repeat case_match; try done. cbn [fst].
  by rewrite lookup_insert_ne.
Qed.

#[export] Instance jstore_laws : DynAPILaws jstore jstore_at.
Proof.
  split; unfold jstore_at; simpl.
  - intros w _ _ items item [= <-] Hin. apply list_elem_of_omap in Hin as ([n o] & Hin & Ho).
    simpl in Ho. unfold named in Ho. destruct (GetName o) as [m|] eqn:Hn; [|done].
    case_bool_decide as Hmn; [|done]. injection Ho as <-. subst m. exists n.
    split; [done|]. by apply elem_of_map_to_list in Hin.
  - intros w w' _ n text path keys v obj Hp Hparse Hsplit Ho. unfold apply_patch in Hp.
    rewrite Hparse in Hp. cbn [replace_op] in Hp. rewrite Hsplit, Ho in Hp. cbn [mbind option_bind] in Hp.
    destruct (replace_at keys v obj) as [obj'|]; [|done]. injection Hp as <-. exists obj'.
    split; [done|]. by rewrite lookup_insert_eq.
  - intros w w' _ n text err n' Hp Hne. pose proof (apply_patch_other w n text n' Hne) as Ho.
    rewrite Hp in Ho. exact Ho.
Qed.

Definition ex_json_pool : json := JObj [
  ("metadata", JObj [("name", JStr "net-192.168.0.0-29")]);
  ("spec", JObj [("podCIDR", JStr "192.168.0.0/29"); ("netAttachDef", JStr "net");
     ("allocations", JArr []); ("excludes", JStrs ["192.168.0.2/32"])])].

Definition ex_allocs : list Allocation := [mkAllocation "a" "ns" 1 "192.168.0.1"].

(** the excludes are read although the tag of the field is malformed *)
Example malformed_tag :
  parse_ippool ex_json_pool = Ret (mkIPPoolSpec "192.168.0.0/29" "" "net" "" "" ["192.168.0.2/32"] []).
Proof. vm_compute. reflexivity. Qed.

Lemma backend_patch_roundtrip_witness :
  let w' := (PatchIPPool (W := jstore) {["net-192.168.0.0-29" := ex_json_pool]} "net-192.168.0.0-29" ex_allocs).1 in
  let spec := mkIPPoolSpec "192.168.0.0/29" "" "net" "" "" ["192.168.0.2/32"] ex_allocs in
  (∀ sel m spec', ListIPPool w' sel = Ret (inl m) → m !! "net-192.168.0.0-29" = Some spec' →
     spec' = spec) ∧
  (∃ obj', jstore_at w' IPPOOL_RESOURCE "net-192.168.0.0-29" = Some obj' ∧ pool_object obj' ∧
     parse_ippool obj' = Ret spec) ∧
  (∀ other, other ≠ "net-192.168.0.0-29" →
     jstore_at w' IPPOOL_RESOURCE other
     = jstore_at {["net-192.168.0.0-29" := ex_json_pool]} IPPOOL_RESOURCE other).
Proof.
  apply (backend_patch_roundtrip jstore_at {["net-192.168.0.0-29" := ex_json_pool]} _ "net-192.168.0.0-29"
    ex_json_pool (mkIPPoolSpec "192.168.0.0/29" "" "net" "" "" ["192.168.0.2/32"] []) ex_allocs).
  - apply jstore_laws.
  - exists [("podCIDR", JStr "192.168.0.0/29"); ("netAttachDef", JStr "net")], (JArr []),
      [("excludes", JStrs ["192.168.0.2/32"])].
    split_and!; [by vm_compute|by vm_compute|]. repeat constructor; by vm_compute.
  - constructor; [|constructor]. by vm_compute.
  - by vm_compute.
  - by vm_compute.
  - by vm_compute.
  - vm_compute. reflexivity.
Defined.
