(* ===== verification/Daemon.v ===== *)
(** * daemon/src/main.go: the HTTP server of the daemon

    One handler per path; a handler reads its request from the body, calls the
    allocator, the router, the selector or the interface discovery and encodes the
    answer.  State [Server]: the allocator's, the host's routing tables and the cache
    of interfaces.  Greetings run in goroutines and change nothing: a handler
    returns the POST requests it starts. *)

From S2P Require Import Prelude GoLib GoText Json JsonSpec Types Allocator K8s Iface Selector Cidr Route.
From S2P Require Import Router Messages.
Import Json.

Definition JOIN_PATH : string := "/join".
Definition GREET_PATH : string := "/greet".
Definition INTERFACE_PATH : string := "/interface".
Definition ADD_ROUTE_PATH : string := "/addroute".
Definition DELETE_ROUTE_PATH : string := "/deleteroute".
Definition ADD_L3CONFIG_PATH : string := "/addl3".
Definition DELETE_L3CONFIG_PATH : string := "/deletel3".
Definition ALLOCATE_PATH : string := "/allocate".
Definition DEALLOCATE_PATH : string := "/deallocate".
Definition NIC_SELECT_PATH : string := "/select".

Record IPAMInfo := mkIPAMInfo { ii_HIFList : list InterfaceInfoType }.

#[export] Instance IPAMInfo_wire : Wire IPAMInfo := {|
  w_zero := mkIPAMInfo [];
  w_json i := JObj [("hifs", slice_json w_json (ii_HIFList i))];
  w_dec := dec_struct [
    field "hifs" (dec_slice w_zero w_dec) ii_HIFList (λ x _, mkIPAMInfo x)]
|}.

(** ** Start-up: settings from the environment *)

(** [LookupEnv]: the value of a variable that is set *)
Definition initHostName (env : string → option string) (hostname : string + string) : string :=
  match env "K8S_NODENAME" with
  | Some h => h
  | None => match hostname with inl h => h | inr _ => "" end
  end.

Definition daemon_port (env : string → option string) : Z :=
  match env "DAEMON_PORT" with
  | Some s =>
      if bool_decide (s = "") then 11000
      else let '(n, err) := Strconv.Atoi s in if err : bool then 11000 else n
  | None => 11000
  end.

Definition SetRTTablePath (env : string → option string) : string :=
  match env "RT_TABLE_PATH" with
  | Some p => if bool_decide (p = "") then "/etc/iproute2/rt_tables" else p
  | None => "/etc/iproute2/rt_tables"
  end.

(** ** Greetings *)

(** the POST of [Greet], if any: address and body *)
Definition Greet (DAEMON_PORT : Z) (targetHost myIP : string) : option (string * string) :=
  if bool_decide (targetHost = myIP) then None
  else Some ("http://" +:+ targetHost +:+ ":" +:+ Strconv.Itoa DAEMON_PORT +:+ GREET_PATH,
             print (JStr myIP)).

Definition ip_net_map (interfaces : list InterfaceInfoType) : gmap string string :=
  foldl (λ m i, <[i_NetAddress i := i_HostIP i]> m) ∅ interfaces.

Definition join_greetings (DAEMON_PORT : Z) (interfaces hifs : list InterfaceInfoType)
    : list (string * string) :=
  omap (λ hif, ip_net_map interfaces !! i_NetAddress hif ≫= Greet DAEMON_PORT (i_HostIP hif)) hifs.

(** ** Handlers *)

(** what the client gets: a status and a body, or nothing (the handler panicked or
    waits for a lock) *)
Inductive reply := Reply (code : Z) (body : string) | NoReply.

(** the paths *)
Inductive endpoint :=
| EJoin | EGreet | EInterface | EAddRoute | EDeleteRoute | EAddL3 | EDeleteL3 | ESelect | EAllocate
| EDeallocate.

#[export] Instance endpoint_eq_dec : EqDecision endpoint.
Proof. solve_decision. Defined.

(** ** github.com/gorilla/mux, the router of requests

    The router is not part of this program.  A route is a path, the methods it
    admits (none listed: all of them) and a handler; the router either calls the
    handler of a route or answers itself, with a status and a text. *)

Record route := mkRoute { ro_path : string; ro_methods : list string; ro_handler : endpoint }.

Class Mux := mux_serve : list route → string → string → endpoint + (Z * string).

Definition admits (method path : string) (r : route) : Prop :=
  ro_path r = path ∧ (ro_methods r = [] ∨ method ∈ ro_methods r).

#[export] Instance admits_dec method path r : Decision (admits method path r).
Proof. unfold admits. apply _. Defined.

(** a path without variables, dots or a slash at its end *)
Definition alnum_lower (c : ascii) : bool :=
  let n := nat_of_ascii c in ((97 <=? n) && (n <=? 122) || (48 <=? n) && (n <=? 57))%nat.

Definition literal (path : string) : bool :=
  match path with
  | String "/" (String c rest) => forallb alnum_lower (String.list_ascii_of_string (String c rest))
  | _ => false
  end.

(** the router's documentation, for a table of such paths: the first route with
    the path and the method gets the request; any other request is redirected (a
    path to clean, a slash at the end) or answered with 404 or 405 *)
Class MuxLaws (mux : Mux) : Prop := mux_literal : ∀ (routes : list route) method path,
  Forall (λ r, literal (ro_path r) = true) routes →
  match list_find (admits method path) routes with
  | Some (_, r) => mux_serve routes method path = inl (ro_handler r)
  | None => ∃ code text, mux_serve routes method path = inr (code, text) ∧
              (300 ≤ code < 400 ∨ code = 404 ∨ code = 405)
  end.

(** a router without redirections *)
Definition mux_first : Mux := λ routes method path,
  match list_find (admits method path) routes with
  | Some (_, r) => inl (ro_handler r)
  | None =>
      if existsb (λ r, bool_decide (ro_path r = path)) routes then inr (405, "")
      else inr (404, "404 page not found")
  end.

Lemma mux_first_laws : MuxLaws mux_first.
Proof.
  intros routes method path _. unfold mux_serve, mux_first.
  destruct (list_find _ _) as [[i r]|]; [done|].
  destruct (existsb _ _); eexists _, _; (split; [done|lia]).
Qed.

(** the table *)
Definition endpoints : list route := [
  mkRoute JOIN_PATH ["POST"] EJoin;
  mkRoute GREET_PATH ["POST"] EGreet;
  mkRoute INTERFACE_PATH [] EInterface;
  mkRoute ADD_ROUTE_PATH ["POST"] EAddRoute;
  mkRoute DELETE_ROUTE_PATH ["POST"] EDeleteRoute;
  mkRoute ADD_L3CONFIG_PATH ["POST"] EAddL3;
  mkRoute DELETE_L3CONFIG_PATH ["POST"] EDeleteL3;
  mkRoute NIC_SELECT_PATH ["POST"] ESelect;
  mkRoute ALLOCATE_PATH ["POST"] EAllocate;
  mkRoute DEALLOCATE_PATH ["POST"] EDeallocate].

Section routing.
Context {mux : Mux} {laws : MuxLaws mux}.

Lemma endpoints_literal : Forall (λ r, literal (ro_path r) = true) endpoints.
Proof. repeat constructor. Qed.

(** a POST on a path of the table reaches its handler *)
Lemma mux_post i r :
  endpoints !! i = Some r → mux_serve endpoints "POST" (ro_path r) = inl (ro_handler r).
Proof.
  intros Hr. pose proof (mux_literal endpoints "POST" (ro_path r) endpoints_literal) as H.
  do 10 (destruct i as [|i]; [injection Hr as <-; exact H|]). done.
Qed.

(** what reaches a handler *)
Lemma mux_handler method path ep :
  mux_serve endpoints method path = inl ep →
  ∃ r, r ∈ endpoints ∧ ro_handler r = ep ∧ admits method path r.
Proof.
  pose proof (mux_literal endpoints method path endpoints_literal) as H. intros Hs.
  rewrite Hs in H. destruct (list_find _ _) as [[i r]|] eqn:Hf; [|by destruct H as (? & ? & ? & _)].
  apply list_find_Some in Hf as (Hl & Ha & _). injection H as ->.
  exists r. split; [by eapply list_elem_of_lookup_2|done].
Qed.

Lemma mux_own method path code text :
  mux_serve endpoints method path = inr (code, text) → 300 ≤ code < 400 ∨ code = 404 ∨ code = 405.
Proof.
  pose proof (mux_literal endpoints method path endpoints_literal) as H. intros Hs.
  rewrite Hs in H. destruct (list_find _ _) as [[i r]|]; [done|].
  destruct H as (code' & text' & [= <- <-] & ?). done.
Qed.
End routing.

Section server.
Context {mux : Mux}.
Context {W : Type} `{IPPoolAPI W} {ord : MapRange}.
Context {K L : Type} `{EqDecision L} `{Netlink K L}.
Context (range_devs : list (L * list KRoute) → list (L * list KRoute)).
Context (RT_TABLE_PATH : string) (DAEMON_PORT : Z) (hostName : string) (fs : SysFs).

(** the message of the error [json.Unmarshal] returns for a text *)
Context (json_err : string → string).

(** what a request finds: the clock, the host's network, the cluster as the selector
    sees it *)
Record Env := mkEnv {
  en_clk : string → Z;
  en_now : Z;
  en_net : HostNet;
  en_select : NICSelectRequest → SelectEnv
}.

Record Server := mkServer {
  sv_alloc : daemon W;
  sv_host : Host K;
  sv_cache : SafeCache InterfaceInfoType
}.

Definition set_alloc (s : Server) (d : daemon W) : Server := mkServer d (sv_host s) (sv_cache s).
Definition set_host (s : Server) (h : Host K) : Server := mkServer (sv_alloc s) h (sv_cache s).
Definition set_cache (s : Server) (c : SafeCache InterfaceInfoType) : Server :=
  mkServer (sv_alloc s) (sv_host s) c.

Definition ok_reply (v : json) : reply := Reply 200 (Encode v).

Definition Join (e : Env) (s : Server) (body : string) : Server * reply * list (string * string) :=
  let '(ipamInfo, _) := Unmarshal w_dec body (w_zero (A := IPAMInfo)) in
  let '(cache, interfaces) := GetInterfaces (en_net e) (sv_cache s) in
  (set_cache s cache, ok_reply (JStr ""),
   join_greetings DAEMON_PORT interfaces (ii_HIFList ipamInfo)).

Definition GreetAck (s : Server) (body : string) : Server * reply * list (string * string) :=
  let '(host, _) := Unmarshal dec_string body "" in
  (s, ok_reply (JStr ""),
   if bool_decide (host = "") then [] else option_list (Greet DAEMON_PORT host "")).

Definition GetInterface (e : Env) (s : Server) : Server * reply :=
  let '(cache, interfaces) := GetInterfaces (en_net e) (sv_cache s) in
  (set_cache s cache, ok_reply (w_json interfaces)).

(** a request of the router, or the error of reading it *)
Definition decode_request {A} `{Wire A} (body : string) : A + string :=
  match Unmarshal w_dec body w_zero with
  | (req, true) => inl req
  | (_, false) => inr (json_err body)
  end.

Definition route_reply (s : Server) (r : Host K * RouteUpdateResponse) : Server * reply :=
  (set_host s r.1, ok_reply (w_json r.2)).

Definition AddRoute (s : Server) (body : string) : Server * reply :=
  route_reply s (Router.AddRoute (sv_host s) (decode_request body)).

Definition DeleteRoute (s : Server) (body : string) : Server * reply :=
  route_reply s (Router.DeleteRoute (sv_host s) (decode_request body)).

Definition ApplyL3Config (s : Server) (body : string) : Server * reply :=
  route_reply s (Router.ApplyL3Config RT_TABLE_PATH range_devs (sv_host s) (decode_request body)).

Definition DeleteL3Config (s : Server) (body : string) : Server * reply :=
  route_reply s (Router.DeleteL3Config RT_TABLE_PATH (sv_host s) (decode_request body)).

(** a host name that is part of the node's name stands for it *)
Definition node_name (host : string) : string :=
  if Strings.Contains hostName host then hostName else host.

Definition select_host (r : NICSelectRequest) : NICSelectRequest :=
  mkNICRequest (nq_PodName r) (nq_PodNamespace r) (node_name (nq_HostName r))
    (nq_NetAttachDefName r) (nq_MasterNetAddrs r) (nq_NicSet r).

Definition SelectNic (e : Env) (s : Server) (body : string) : Server * reply :=
  let '(req, err_nil) := Unmarshal w_dec body (w_zero (A := NICSelectRequest)) in
  let req := select_host req in
  if (err_nil : bool) then
    let '(cache, resp) := Select (en_select e req) (sv_cache s) req in
    (set_cache s cache, ok_reply (w_json resp))
  else (s, ok_reply (w_json (w_zero (A := NICSelectResponse)))).

Definition request_host (r : IPRequest) : IPRequest :=
  mkIPRequest (rq_PodName r) (rq_PodNamespace r) (node_name (rq_HostName r))
    (rq_NetAttachDefName r) (rq_InterfaceNames r).

Definition outcome_reply (s : Server) (o : outcome W (list IPResponse)) : Server * reply :=
  match o with
  | Done d rs => (set_alloc s d, ok_reply (w_json rs))
  | Blocked d | Crashed d => (set_alloc s d, NoReply)
  end.

Definition Allocate (e : Env) (s : Server) (body : string) : Server * reply :=
  let '(req, err_nil) := Unmarshal w_dec body (w_zero (A := IPRequest)) in
  if (err_nil : bool)
  then outcome_reply s (AllocateIP fs (en_clk e) (request_host req) (sv_alloc s))
  else (s, ok_reply (w_json (A := list IPResponse) [])).

Definition Deallocate (e : Env) (s : Server) (body : string) : Server * reply :=
  let '(req, err_nil) := Unmarshal w_dec body (w_zero (A := IPRequest)) in
  if (err_nil : bool)
  then outcome_reply s (DeallocateIP fs (en_now e) (request_host req) (sv_alloc s))
  else (s, ok_reply (w_json (A := list IPResponse) [])).

(** ** The router of requests *)

Definition no_greeting (r : Server * reply) : Server * reply * list (string * string) := (r, []).

Definition handleRequests (e : Env) (s : Server) (method path body : string)
    : Server * reply * list (string * string) :=
  match mux_serve endpoints method path with
  | inl EJoin => Join e s body
  | inl EGreet => GreetAck s body
  | inl EInterface => no_greeting (GetInterface e s)
  | inl EAddRoute => no_greeting (AddRoute s body)
  | inl EDeleteRoute => no_greeting (DeleteRoute s body)
  | inl EAddL3 => no_greeting (ApplyL3Config s body)
  | inl EDeleteL3 => no_greeting (DeleteL3Config s body)
  | inl ESelect => no_greeting (SelectNic e s body)
  | inl EAllocate => no_greeting (Allocate e s body)
  | inl EDeallocate => no_greeting (Deallocate e s body)
  | inr (code, text) => (s, Reply code text, [])
  end.
End server.

Arguments Server W K : clear implicits.
Arguments mkServer {W K} _ _ _.
Arguments sv_alloc {W K} _.
Arguments sv_host {W K} _.
Arguments sv_cache {W K} _.
