(* ===== verification/Cni.v ===== *)
(** * What the CNI plugins use of the CNI library and of HTTP

    The CNI library (github.com/containernetworking/cni) is a dependency: the class
    [CniLib] has the parts the plugins use, its network configuration struct with
    how JSON is read into it, the conversion of results, and the library's routes
    and DNS settings as opaque types.  [Http] is a client's POST.  A command of a
    plugin ends in a [cmd_out], or in a panic. *)

From S2P Require Import Prelude GoLib Json JsonText Types Messages.
Import Json.

(** ** types/100: the result of a plugin *)

Record IPConfig := mkIPConfig {
  ic_Interface : option Z;
  ic_Address : Net.IPNet;
  ic_Gateway : option (list Z)
}.

Record Interface := mkInterface { if_Name : string; if_Mac : string; if_Sandbox : string }.

Record Result (R D : Type) := mkResult {
  re_CNIVersion : string;
  re_Interfaces : list Interface;
  re_IPs : list IPConfig;
  re_Routes : list R;
  re_DNS : D
}.
Arguments mkResult {R D} _ _ _ _ _.
Arguments re_CNIVersion {R D} _.
Arguments re_Interfaces {R D} _.
Arguments re_IPs {R D} _.
Arguments re_Routes {R D} _.
Arguments re_DNS {R D} _.

(** ** types.NetConf *)

Record NetConf (D P : Type) := mkNetConf {
  nc_CNIVersion : string;
  nc_Name : string;
  nc_Type : string;
  nc_IPAM_Type : string;
  nc_DNS : D;
  nc_RawPrevResult : option (gmap string json);
  nc_PrevResult : option P
}.
Arguments mkNetConf {D P} _ _ _ _ _ _ _.
Arguments nc_CNIVersion {D P} _.
Arguments nc_Name {D P} _.
Arguments nc_Type {D P} _.
Arguments nc_IPAM_Type {D P} _.
Arguments nc_DNS {D P} _.
Arguments nc_RawPrevResult {D P} _.
Arguments nc_PrevResult {D P} _.

Class CniLib := {
  CRoute : Type;                                   (* types.Route *)
  CDNS : Type;                                     (* types.DNS *)
  CPrev : Type;                                    (* types.Result *)
  zero_DNS : CDNS;
  dec_routes : decoder (list CRoute);
  dec_DNS : decoder CDNS;
  dec_IPAM : decoder string;                       (* types.IPAM, its type *)
  netconf_fields : fields (NetConf CDNS CPrev);    (* reading types.NetConf *)
  netconf_json : NetConf CDNS CPrev → list (string * json);   (* printing it *)
  ParsePrevResult : NetConf CDNS CPrev → NetConf CDNS CPrev + string;
  NewResultFromResult : option CPrev → Result CRoute CDNS + string;
  ImplementedSpecVersion : string
}.

Definition cni_result `{CniLib} : Type := Result CRoute CDNS.
Definition net_conf `{CniLib} : Type := NetConf CDNS CPrev.

Definition empty_netconf `{CniLib} : net_conf := mkNetConf "" "" "" "" zero_DNS None None.
Definition empty_result `{CniLib} : cni_result := mkResult ImplementedSpecVersion [] [] [] zero_DNS.

(** the fields of an embedded struct; a field of the outer struct with the same name
    comes first *)
Definition embed {R S} (get : R → S) (set : S → R → R) (fs : fields S) : fields R :=
  (λ f, (f.1, λ v r, let '(x, err) := f.2 v (get r) in (set x r, err))) <$> fs.

(** the arguments of a command *)
Record CmdArgs := mkCmdArgs {
  ca_ContainerID : string;
  ca_Netns : string;
  ca_IfName : string;
  ca_Args : string;
  ca_StdinData : string
}.

(** an error, success without output, or a result printed in a version *)
Inductive cmd_out `{CniLib} :=
| CmdErr (e : string)
| CmdNil
| Printed (r : cni_result) (version : string).

(** ** net/http *)

(** an answer: the status code, the status text, and the body or the error of
    reading it *)
Inductive http_result :=
| PostFail (e : string)
| Response (code : Z) (status : string) (body : string + string).

Class Http (W : Type) := post : W → string → string → W * http_result.

(** a POST of a message, up to the decoding of the answer: the answer as far as it
    was read, and the error *)
Definition post_message {W A B} `{Http W, Wire A, Wire B} (json_err : string → string)
    (w : W) (address : string) (request : A) (nothing : B → bool) : W * (B * option string) :=
  let '(w, res) := post w address (print (w_json request)) in
  (w, match res with
      | PostFail e => (w_zero, Some ("post fail: " +:+ e))
      | Response code status body =>
          if negb (code =? 200) then (w_zero, Some status)
          else match body with
               | inr e => (w_zero, Some ("read body: " +:+ e))
               | inl text =>
                   match Unmarshal w_dec text w_zero with
                   | (response, true) =>
                       (response, if nothing response then Some "response nothing" else None)
                   | (response, false) => (response, Some (json_err text))
                   end
               end
      end).

(** ** Arguments of the container runtime *)

(** the last value of each of the two keys *)
Definition pod_info_step (acc : string * string) (split : string) : string * string :=
  let '(podName, podNamespace) := acc in
  (if Strings.HasPrefix split "K8S_POD_NAME=" then Strings.TrimPrefix split "K8S_POD_NAME=" else podName,
   if Strings.HasPrefix split "K8S_POD_NAMESPACE="
   then Strings.TrimPrefix split "K8S_POD_NAMESPACE=" else podNamespace).

Definition getPodInfo (cniArgs : string) : string * string :=
  foldl pod_info_step ("", "") (Strings.Split cniArgs ";"%char).

Example getPodInfo_ex :
  getPodInfo "IgnoreUnknown=1;K8S_POD_NAMESPACE=ns;K8S_POD_NAME=p;K8S_POD_INFRA_CONTAINER_ID=x"
  = ("p", "ns").
Proof. vm_compute. reflexivity. Qed.

(** ** The library's JSON, with routes and DNS settings kept as they are

    The keys are those of the CNI specification; a previous result in a configuration is
    not read, and results of plugins are in the current version. *)

Definition cni_plain : CniLib := {|
  CRoute := json; CDNS := json; CPrev := Result json json;
  zero_DNS := JNull;
  dec_routes := dec_slice JNull dec_any;
  dec_DNS := dec_any;
  dec_IPAM := dec_struct [field "type" dec_string id (λ x _, x)];
  netconf_fields := [
    field "cniVersion" dec_string nc_CNIVersion
      (λ x '(mkNetConf _ n t i d r p), mkNetConf x n t i d r p);
    field "name" dec_string nc_Name (λ x '(mkNetConf v _ t i d r p), mkNetConf v x t i d r p);
    field "type" dec_string nc_Type (λ x '(mkNetConf v n _ i d r p), mkNetConf v n x i d r p);
    field "ipam" (dec_struct [field "type" dec_string id (λ x _, x)]) nc_IPAM_Type
      (λ x '(mkNetConf v n t _ d r p), mkNetConf v n t x d r p);
    field "dns" dec_any nc_DNS (λ x '(mkNetConf v n t i _ r p), mkNetConf v n t i x r p);
    field "prevResult" (dec_map JNull dec_any) nc_RawPrevResult
      (λ x '(mkNetConf v n t i d _ p), mkNetConf v n t i d x p)];
  netconf_json c :=
    omit_empty "cniVersion" (bool_decide (nc_CNIVersion c = "")) (JStr (nc_CNIVersion c)) ++
    omit_empty "name" (bool_decide (nc_Name c = "")) (JStr (nc_Name c)) ++
    omit_empty "type" (bool_decide (nc_Type c = "")) (JStr (nc_Type c)) ++
    [("ipam", JObj (omit_empty "type" (bool_decide (nc_IPAM_Type c = "")) (JStr (nc_IPAM_Type c))));
     ("dns", nc_DNS c)] ++
    match nc_RawPrevResult c with None => [] | Some m => [("prevResult", JMap m)] end;
  ParsePrevResult := λ _, inr "not supported";
  NewResultFromResult o := match o with Some r => inl r | None => inr "no result" end;
  ImplementedSpecVersion := "1.0.0"
|}.

(** ** What the plugins rely on of the JSON of a [types.NetConf]

    One without IPAM type, DNS settings and previous result: its IPAM section is
    printed as an empty object, a name is printed, its keys are those of the CNI
    specification, and no other value has members [ipam] or [plugin] to replace. *)

Definition plain_netconf `{CniLib} (version name type : string) : net_conf :=
  mkNetConf version name type "" zero_DNS None None.

Definition netconf_keys : list string :=
  ["cniVersion"; "name"; "type"; "capabilities"; "ipam"; "dns"; "prevResult"; "cni.dev/valid-attachments"].

Record netconf_text `{CniLib} : Prop := {
  nt_ipam : ∀ v n t, member "ipam" (JObj (netconf_json (plain_netconf v n t))) = Some (JObj []);
  nt_name : ∀ v n t, n ≠ "" → member "name" (JObj (netconf_json (plain_netconf v n t))) = Some (JStr n);
  nt_keys : ∀ v n t k x, member k (JObj (netconf_json (plain_netconf v n t))) = Some x → k ∈ netconf_keys;
  nt_inert : ∀ v n t k x, k ≠ "ipam" → member k (JObj (netconf_json (plain_netconf v n t))) = Some x →
    inert "ipam" (JObj []) x ∧ inert "plugin" JNull x
}.

Lemma netconf_other `{CniLib} v n t k :
  netconf_text → k ∉ netconf_keys → member k (JObj (netconf_json (plain_netconf v n t))) = None.
Proof.
  intros Ht Hk. destruct (member k _) as [x|] eqn:E; [|done]. exfalso. by apply Hk, (nt_keys Ht v n t k x).
Qed.

Lemma cni_plain_text : netconf_text (H := cni_plain).
Proof.
  split; intros v n t; cbn [netconf_json cni_plain plain_netconf nc_CNIVersion nc_Name nc_Type nc_IPAM_Type
    nc_DNS nc_RawPrevResult zero_DNS]; unfold omit_empty, member.
  - by repeat case_bool_decide.
  - intros Hn. rewrite (bool_decide_false (n = "")) by done. by repeat case_bool_decide.
  - intros k x. repeat case_bool_decide; cbn -[bool_decide netconf_keys elem_of];
      repeat case_bool_decide; intros Hx; try discriminate Hx; subst k; unfold netconf_keys; set_solver.
  - intros k x Hk. repeat case_bool_decide; cbn -[bool_decide]; repeat case_bool_decide; try done; by intros [= <-].
Qed.
