(* ===== verification/Ipam.v ===== *)
(** * cni/plugins/ipam/multi-nic-ipam: the IPAM plugin

    The plugin of the address management: ADD asks the daemon of the node for an
    address per master interface, DEL gives the pod's addresses back, CHECK compares
    the addresses of a result with the subnet.  [ipam.go] has the requests,
    [multi-nic-ipam.go] the commands. *)

From S2P Require Import Prelude GoLib GoText Json JsonSpec Types Iface Messages Cni.
Import Json.

Section ipam.
Context `{CniLib} {W : Type} `{Http W}.
Context (json_err : string → string) (Hostname : string + string).

(** ** ipam.go *)

Definition DEFAULT_DAEMON_PORT : Z := 11000.
Definition DEFAULT_DAEMON_IP : string := "localhost".

Definition daemon_address (ip : string) (port : Z) (path : string) : string :=
  "http://" +:+ ip +:+ ":" +:+ Strconv.Itoa port +:+ "/" +:+ path.

Definition RequestIP (w : W) (daemonIP : string) (daemonPort : Z)
    (podName podNamespace hostName defName : string) (masters : list string)
    : W * (list IPResponse * option string) :=
  let daemonPort := if daemonPort =? 0 then DEFAULT_DAEMON_PORT else daemonPort in
  let daemonIP := if bool_decide (daemonIP = "") then DEFAULT_DAEMON_IP else daemonIP in
  post_message json_err w (daemon_address daemonIP daemonPort "allocate")
    (mkIPRequest podName podNamespace hostName defName masters) (λ r, bool_decide (r = [])).

Definition Deallocate (w : W) (daemonPort : Z)
    (podName podNamespace hostName defName : string) : W * (list IPResponse * option string) :=
  let daemonPort := if daemonPort =? 0 then DEFAULT_DAEMON_PORT else daemonPort in
  post_message json_err w (daemon_address "localhost" daemonPort "deallocate")
    (mkIPRequest podName podNamespace hostName defName []) (λ r, bool_decide (r = [])).

(** ** multi-nic-ipam.go: the configuration *)

Record IPAMConfig := mkIPAMConfig {
  im_Name : string;
  im_Type : string;
  im_DaemonIP : string;
  im_DaemonPort : Z;
  im_HostBlock : Z;
  im_InterfaceBlock : Z;
  im_ExcludeCIDRs : list string;
  im_Routes : list CRoute;
  im_DNS : CDNS
}.

Definition zero_IPAM : IPAMConfig := mkIPAMConfig "" "" "" 0 0 0 [] [] zero_DNS.

Definition ipam_fields : fields IPAMConfig := [
  field "Name" dec_string im_Name
    (λ x '(mkIPAMConfig _ t i p h b e r d), mkIPAMConfig x t i p h b e r d);
  field "type" dec_string im_Type
    (λ x '(mkIPAMConfig n _ i p h b e r d), mkIPAMConfig n x i p h b e r d);
  field "daemonIP" dec_string im_DaemonIP
    (λ x '(mkIPAMConfig n t _ p h b e r d), mkIPAMConfig n t x p h b e r d);
  field "daemonPort" dec_int im_DaemonPort
    (λ x '(mkIPAMConfig n t i _ h b e r d), mkIPAMConfig n t i x h b e r d);
  field "hostBlock" dec_int im_HostBlock
    (λ x '(mkIPAMConfig n t i p _ b e r d), mkIPAMConfig n t i p x b e r d);
  field "interfaceBlock" dec_int im_InterfaceBlock
    (λ x '(mkIPAMConfig n t i p h _ e r d), mkIPAMConfig n t i p h x e r d);
  field "excludeCIDRs" (dec_slice "" dec_string) im_ExcludeCIDRs
    (λ x '(mkIPAMConfig n t i p h b _ r d), mkIPAMConfig n t i p h b x r d);
  field "routes" dec_routes im_Routes
    (λ x '(mkIPAMConfig n t i p h b e _ d), mkIPAMConfig n t i p h b e x d);
  field "dns" dec_DNS im_DNS
    (λ x '(mkIPAMConfig n t i p h b e r _), mkIPAMConfig n t i p h b e r x)].

Record Net := mkNet {
  n_NetConf : net_conf;
  n_Subnet : string;
  n_MasterNetAddrs : list string;
  n_Masters : list string;
  n_IPAM : option IPAMConfig
}.

Definition zero_Net : Net := mkNet empty_netconf "" [] [] None.

Definition net_fields : fields Net := [
  field "subnet" dec_string n_Subnet (λ x '(mkNet c _ a m i), mkNet c x a m i);
  field "masterNets" (dec_slice "" dec_string) n_MasterNetAddrs (λ x '(mkNet c s _ m i), mkNet c s x m i);
  field "masters" (dec_slice "" dec_string) n_Masters (λ x '(mkNet c s a _ i), mkNet c s a x i);
  field "ipam" (dec_ptr zero_IPAM (dec_struct ipam_fields)) n_IPAM
    (λ x '(mkNet c s a m _), mkNet c s a m x)]
  ++ embed n_NetConf (λ x '(mkNet _ s a m i), mkNet x s a m i) netconf_fields.

Definition dec_Net : decoder Net := dec_struct net_fields.

Definition set_Name (i : IPAMConfig) (name : string) : IPAMConfig :=
  mkIPAMConfig name (im_Type i) (im_DaemonIP i) (im_DaemonPort i) (im_HostBlock i)
    (im_InterfaceBlock i) (im_ExcludeCIDRs i) (im_Routes i) (im_DNS i).

Definition LoadIPAMConfig (bytes : string) : (IPAMConfig * string) + string :=
  match Unmarshal dec_Net bytes zero_Net with
  | (_, false) => inr (json_err bytes)
  | (n, true) =>
      match n_IPAM n with
      | None => inr "IPAM config missing 'ipam' key"
      | Some ipam => inl (set_Name ipam (nc_Name (n_NetConf n)), nc_CNIVersion (n_NetConf n))
      end
  end.

Definition loadNetConf (bytes : string) : (Net * string) + string :=
  match Unmarshal dec_Net bytes zero_Net with
  | (_, false) => inr ("failed to load netconf: " +:+ json_err bytes)
  | (n, true) => inl (n, nc_CNIVersion (n_NetConf n))
  end.

(** ** The addresses of a result *)

(** the first response for a master: [None] if there is none; a panic when its
    address does not parse, because the network is used before the error is seen *)
Fixpoint master_ip (index : Z) (master : string) (ipResponses : list IPResponse)
    : go (option IPConfig) :=
  match ipResponses with
  | [] => Ret None
  | ipResponse :: rest =>
      if bool_decide (rs_InterfaceName ipResponse = master) then
        match Net.ParseCIDR (rs_IPAddress ipResponse +:+ "/" +:+ rs_VLANBlockSize ipResponse) with
        | None => Panic
        | Some (ipVal, reservedIP) =>
            Ret (Some (mkIPConfig (Some index) (Net.mkIPNet ipVal (Net.Mask reservedIP)) None))
        end
      else master_ip index master rest
  end.

Fixpoint master_ips (index : Z) (masters : list string) (ipResponses : list IPResponse)
    : go (list IPConfig) :=
  match masters with
  | [] => Ret []
  | master :: rest =>
      ip ← master_ip index master ipResponses;
      ips ← master_ips (index + 1) rest ipResponses;
      Ret (match ip with Some c => c :: ips | None => ips end)
  end.

(** [append(result.IPs, ...)], then the DNS settings and routes of the IPAM section *)
Definition set_ips (result : cni_result) (ips : list IPConfig) (ipamConf : IPAMConfig) : cni_result :=
  mkResult (re_CNIVersion result) (re_Interfaces result) (re_IPs result ++ ips) (im_Routes ipamConf)
    (im_DNS ipamConf).

(** the previous result of the chain, or the empty one *)
Definition previous (n : Net) : cni_result + string :=
  match nc_RawPrevResult (n_NetConf n) with
  | None => inl empty_result
  | Some _ =>
      match ParsePrevResult (n_NetConf n) with
      | inr e => inr ("could not parse prevResult: " +:+ e)
      | inl conf =>
          match NewResultFromResult (nc_PrevResult conf) with
          | inr e => inr ("could not convert result to current version: " +:+ e)
          | inl result => inl result
          end
      end
  end.

(** ** The commands *)

Definition cmdAdd (w : W) (args : CmdArgs) : W * go cmd_out :=
  match loadNetConf (ca_StdinData args) with
  | inr e => (w, Ret (CmdErr e))
  | inl (n, confVersion) =>
      match previous n with
      | inr e => (w, Ret (CmdErr e))
      | inl result =>
          if negb (bool_decide (re_IPs result = [])) then (w, Ret (Printed result confVersion))
          else if bool_decide (n_Masters n = []) then (w, Ret (Printed result confVersion))
          else match Hostname with
          | inr _ => (w, Ret (CmdErr "failed to get host name"))
          | inl hostName =>
              match LoadIPAMConfig (ca_StdinData args) with
              | inr _ => (w, Panic)
              | inl (ipamConf, _) =>
                  let '(podName, podNamespace) := getPodInfo (ca_Args args) in
                  let '(w, (ipResponses, err)) :=
                    RequestIP w (im_DaemonIP ipamConf) (im_DaemonPort ipamConf) podName podNamespace
                      hostName (im_Name ipamConf) (n_Masters n) in
                  match err with
                  | Some e => (w, Ret (CmdErr ("failed to request ip " +:+ e)))
                  | None =>
                      (w, ips ← master_ips 0 (n_Masters n) ipResponses;
                          Ret (Printed (set_ips result ips ipamConf) confVersion))
                  end
              end
          end
      end
  end.

Definition cmdDel (w : W) (args : CmdArgs) : W * go cmd_out :=
  match loadNetConf (ca_StdinData args) with
  | inr e => (w, Ret (CmdErr e))
  | inl (n, confVersion) =>
      match previous n with
      | inr e => (w, Ret (CmdErr e))
      | inl result =>
          if bool_decide (ca_Netns args = "") then (w, Ret CmdNil)
          else match LoadIPAMConfig (ca_StdinData args) with
          | inr _ => (w, Ret (CmdErr "fail to load ipam conf"))
          | inl (ipamConf, _) =>
              match Hostname with
              | inr _ => (w, Ret (CmdErr "failed to get host name"))
              | inl hostName =>
                  let '(podName, podNamespace) := getPodInfo (ca_Args args) in
                  let '(w, (ipResponses, _)) :=
                    Deallocate w (im_DaemonPort ipamConf) podName podNamespace hostName
                      (im_Name ipamConf) in
                  (w, ips ← master_ips 0 (n_Masters n) ipResponses;
                      Ret (Printed (set_ips result ips ipamConf) confVersion))
              end
          end
      end
  end.

(** the error of the first address outside the subnet *)
Fixpoint check_ips (subnet : string) (ips : list IPConfig) : option string :=
  match ips with
  | [] => None
  | ip :: rest =>
      match Net.ParseCIDR subnet with
      | None => Some ("cannot parse subnet " +:+ subnet)
      | Some (_, subnetNet) =>
          if Net.Contains subnetNet (Some (Net.IP (ic_Address ip))) then check_ips subnet rest
          else Some ("allocated ip " +:+ Net.ip_string (Net.IP (ic_Address ip)) +:+
                     " is not in designated subnet " +:+ subnet)
      end
  end.

Definition cmdCheck (args : CmdArgs) : cmd_out :=
  match loadNetConf (ca_StdinData args) with
  | inr e => CmdErr e
  | inl (n, _) =>
      match nc_RawPrevResult (n_NetConf n) with
      | None => CmdErr "required prevResult missing"
      | Some _ =>
          match ParsePrevResult (n_NetConf n) with
          | inr e => CmdErr e
          | inl conf =>
              match NewResultFromResult (nc_PrevResult conf) with
              | inr e => CmdErr e
              | inl result =>
                  if bool_decide (re_IPs result = []) then CmdErr "no ip allocated"
                  else if bool_decide (n_Subnet n = "") then CmdNil
                  else match check_ips (n_Subnet n) (re_IPs result) with
                       | Some e => CmdErr e
                       | None => CmdNil
                       end
              end
          end
      end
  end.

(** ** Names of interfaces by network (not used by the commands) *)

(** the interfaces of the container with their addresses *)
Fixpoint getInterfaceNameFromNetAddress (ifaces : list (string * (list Net.IPNet + string)))
    (targetNet : string) : string :=
  match ifaces with
  | [] => ""
  | (name, inr _) :: rest => getInterfaceNameFromNetAddress rest targetNet
  | (name, inl addrs) :: rest =>
      if existsb (λ v, bool_decide (length (Net.IP v) = 4%nat)
                       && bool_decide (getNetAddress v = targetNet)) addrs
      then name
      else getInterfaceNameFromNetAddress rest targetNet
  end.
End ipam.

Arguments IPAMConfig {_}.
Arguments Net {_}.
