(* ===== verification/IpamProps.v ===== *)
(** * The IPAM plugin with the daemon of its node

    The plugin's HTTP client is connected to the daemon's server on the same node;
    the requests and answers go through their JSON text. *)

From S2P Require Import Prelude GoLib GoText Json JsonSpec Types Allocator AllocatorSpec AllocatorProps K8s.
From S2P Require Import AddressService AllocatorProgress.
From S2P Require Import Iface Selector Cidr Route Router RouterSpec RouterProps Messages Daemon Cni Ipam.
Import Json.

(** ** The addresses of a result *)

Lemma master_ip_spec k master rs c :
  master_ip k master rs = Ret (Some c) →
  ic_Interface c = Some k ∧ ∃ rsp n, rsp ∈ rs ∧ rs_InterfaceName rsp = master ∧
    Net.ParseCIDR (rs_IPAddress rsp +:+ "/" +:+ rs_VLANBlockSize rsp) = Some (Net.IP (ic_Address c), n).
Proof.
  induction rs as [|rsp rs IH]; cbn [master_ip]; [done|]. case_bool_decide as Hi.
  - destruct (Net.ParseCIDR _) as [[ipVal net]|] eqn:E; [|done]. intros [= <-]. split; [done|].
    exists rsp, net. cbn. split_and!; [left|done|done].
  - intros H. destruct (IH H) as (? & rsp' & n & ? & ? & ?). split; [done|].
    exists rsp', n. split_and!; [by right|done..].
Qed.

Lemma master_ips_spec masters rs : ∀ k ips c,
  master_ips k masters rs = Ret ips → c ∈ ips →
  ∃ (j : nat) master rsp n, masters !! j = Some master ∧ ic_Interface c = Some (k + Z.of_nat j) ∧
    rsp ∈ rs ∧ rs_InterfaceName rsp = master ∧
    Net.ParseCIDR (rs_IPAddress rsp +:+ "/" +:+ rs_VLANBlockSize rsp) = Some (Net.IP (ic_Address c), n).
Proof.
  induction masters as [|m masters IH]; intros k ips c; cbn [master_ips].
  { intros [= <-] Hc. by apply elem_of_nil in Hc. }
  destruct (master_ip k m rs) as [o|] eqn:Em; [|done]. cbn.
  destruct (master_ips (k + 1) masters rs) as [ips'|] eqn:Ei; [|done]. cbn.
  assert (Hrest : c ∈ ips' → ∃ (j : nat) master rsp n, (m :: masters) !! j = Some master ∧
    ic_Interface c = Some (k + Z.of_nat j) ∧ rsp ∈ rs ∧ rs_InterfaceName rsp = master ∧
    Net.ParseCIDR (rs_IPAddress rsp +:+ "/" +:+ rs_VLANBlockSize rsp) = Some (Net.IP (ic_Address c), n)).
  { intros Hc. destruct (IH _ _ _ Ei Hc) as (j & master & rsp & n & ? & Hj & ? & ? & ?).
    exists (S j), master, rsp, n. split_and!; [done| |done..]. rewrite Hj. f_equal. lia. }
  destruct o as [c'|]; intros [= <-]; [|done]. intros [->|Hc]%elem_of_cons; [|auto].
  destruct (master_ip_spec _ _ _ _ Em) as (Hi & rsp & n & ? & ? & ?).
  exists O, m, rsp, n. split_and!; [done| |done..]. rewrite Hi. f_equal. lia.
Qed.

Lemma split_single s sep x : Strings.Split s sep = [x] → s = x.
Proof.
  revert x. induction s as [|c s IH]; intros x; cbn [Strings.Split]; [by intros [= <-]|].
  destruct (Ascii.eqb c sep); [|destruct (Strings.Split s sep) as [|y [|]] eqn:E]; try done.
  - intros [= _ E]. by apply split_nonempty in E.
  - by apply split_nonempty in E.
  - intros [= <-]. f_equal. by apply IH.
Qed.

(** the address of a parsed [address/block] *)
Lemma ParseCIDR_address a b ip n :
  Net.ParseCIDR (a +:+ "/" +:+ b) = Some (ip, n) → Net.ParseIP a = Some ip.
Proof.
  unfold Net.ParseCIDR. change (a +:+ "/" +:+ b) with (a +:+ String "/" b). rewrite split_app_sep.
  destruct (Strings.Split a "/"%char) as [|x [|y l]] eqn:Ea.
  - by apply split_nonempty in Ea.
  - apply split_single in Ea as ->. destruct (Strings.Split b "/"%char) as [|z [|]]; [done| |done].
    cbn. destruct (Net.ParseIP x); [|done]. cbn. destruct (Net.prefix_len z); [|done]. by intros [= -> _].
  - destruct (Strings.Split b "/"%char) as [|z l'] eqn:Eb; [by apply split_nonempty in Eb|].
    cbn. by destruct l.
Qed.

(** ** The node: the plugin's requests reach the daemon's server *)

Section node.
Context {mux : Mux} {mlaws : MuxLaws mux}.
Context {W : Type} {api : IPPoolAPI W} {ord : MapRange}.
Context {K L : Type} {Leq : EqDecision L} {nl : Netlink K L}.
Context (range_devs : list (L * list KRoute) → list (L * list KRoute)).
Context (RT_TABLE_PATH : string) (DAEMON_PORT : Z) (hostName : string) (fs : SysFs).
Context (json_err : string → string).

Abbreviation serve := (handleRequests range_devs RT_TABLE_PATH DAEMON_PORT hostName fs json_err).

(** a POST from the node: the port of the daemon answers, no other address does *)
Definition node_post (e : Env) : Http (Server W K) := λ s address body,
  match strip ("http://localhost:" +:+ Strconv.Itoa DAEMON_PORT) address with
  | None => (s, PostFail "connection refused")
  | Some path =>
      let '(s, r, _) := serve e s "POST" path body in
      (s, match r with
          | Reply code text => Response code "" (inl text)
          | NoReply => PostFail "timeout"
          end)
  end.

Lemma strip_app p s : strip p (p +:+ s) = Some s.
Proof. induction p as [|c p IH]; [by destruct s|]. rewrite str_app_cons. cbn. by rewrite Ascii.eqb_refl. Qed.

Lemma node_post_path e s path body :
  node_post e s (daemon_address "localhost" DAEMON_PORT path) body =
  (let '(s, r, _) := serve e s "POST" ("/" +:+ path) body in
   (s, match r with
       | Reply code text => Response code "" (inl text)
       | NoReply => PostFail "timeout"
       end)).
Proof.
  unfold node_post, daemon_address.
  assert ("http://" +:+ "localhost" +:+ ":" +:+ Strconv.Itoa DAEMON_PORT +:+ "/" +:+ path
    = ("http://localhost:" +:+ Strconv.Itoa DAEMON_PORT) +:+ "/" +:+ path) as ->.
  { by rewrite !str_app_assoc. }
  by rewrite strip_app.
Qed.

Lemma serve_allocate e s body :
  serve e s "POST" "/allocate" body = (Daemon.Allocate hostName fs e s body, []).
Proof. unfold handleRequests. by rewrite (mux_post 8 (mkRoute ALLOCATE_PATH ["POST"] EAllocate)). Qed.

Lemma Allocate_request e (s : Server W K) req :
  sendable req →
  Daemon.Allocate hostName fs e s (print (w_json req)) =
  outcome_reply s (AllocateIP fs (en_clk e) (request_host hostName req) (sv_alloc s)).
Proof. intros Hs. unfold Daemon.Allocate. rewrite receive by done. done. Qed.

Lemma serve_deallocate e s body :
  serve e s "POST" "/deallocate" body = (Daemon.Deallocate hostName fs e s body, []).
Proof. unfold handleRequests. by rewrite (mux_post 9 (mkRoute DEALLOCATE_PATH ["POST"] EDeallocate)). Qed.

Lemma Deallocate_request e (s : Server W K) req :
  sendable req →
  Daemon.Deallocate hostName fs e s (print (w_json req)) =
  outcome_reply s (DeallocateIP fs (en_now e) (request_host hostName req) (sv_alloc s)).
Proof. intros Hs. unfold Daemon.Deallocate. rewrite receive by done. done. Qed.

(** the request as the daemon sees it *)
Definition seen_request (podName podNamespace host defName : string) (masters : list string) : IPRequest :=
  request_host hostName (mkIPRequest podName podNamespace host defName masters).

(** a plugin configured for the daemon of its node *)
Definition local_daemon (ip : string) (port : Z) : Prop :=
  (ip = "" ∨ ip = "localhost") ∧ (port = DAEMON_PORT ∨ port = 0 ∧ DAEMON_PORT = DEFAULT_DAEMON_PORT).

Lemma local_host ip :
  ip = "" ∨ ip = "localhost" → (if bool_decide (ip = "") then DEFAULT_DAEMON_IP else ip) = "localhost".
Proof. by intros [-> | ->]. Qed.

Lemma local_port port :
  port = DAEMON_PORT ∨ port = 0 ∧ DAEMON_PORT = DEFAULT_DAEMON_PORT → DAEMON_PORT ≠ 0 →
  (if port =? 0 then DEFAULT_DAEMON_PORT else port) = DAEMON_PORT.
Proof. intros [->|[-> ->]]; [|done]. by destruct (Z.eqb_spec DAEMON_PORT 0). Qed.

Lemma RequestIP_answer e s ip port podName podNamespace host defName masters s' rs :
  local_daemon ip port → DAEMON_PORT ≠ 0 →
  sendable (mkIPRequest podName podNamespace host defName masters) →
  (∀ d l, AllocateIP fs (en_clk e) (seen_request podName podNamespace host defName masters)
            (sv_alloc s) = Done d l → sendable l) →
  RequestIP (H0 := node_post e) json_err s ip port podName podNamespace host defName masters
    = (s', (rs, None)) →
  AllocateIP fs (en_clk e) (seen_request podName podNamespace host defName masters) (sv_alloc s)
    = Done (sv_alloc s') rs.
Proof.
  intros [Hip Hport] Hp0 Hs Hans. unfold RequestIP.
  rewrite (local_host ip Hip), (local_port port Hport Hp0).
  unfold post_message, post. rewrite node_post_path.
  change ("/" +:+ "allocate") with "/allocate". rewrite serve_allocate, Allocate_request by done.
  unfold seen_request in *. destruct (AllocateIP _ _ _ _) as [d l|d|d] eqn:Ea; cbn [outcome_reply].
  - unfold ok_reply. change (negb (200 =? 200)) with false. cbv iota beta.
    rewrite receive_Encode; [by intros [= <- <- _]|by apply (Hans d l)|by apply Forall_true].
  - by intros [= _ _].
  - by intros [= _ _].
Qed.

Context {cni : CniLib} (pool_at : W → string → option IPPoolSpec).

Lemma LoadIPAMConfig_netconf bytes n v ipam :
  loadNetConf json_err bytes = inl (n, v) → n_IPAM n = Some ipam →
  LoadIPAMConfig json_err bytes
  = inl (set_Name ipam (nc_Name (n_NetConf n)), nc_CNIVersion (n_NetConf n)).
Proof.
  unfold loadNetConf, LoadIPAMConfig. destruct (Unmarshal dec_Net bytes zero_Net) as [n' []]; [|done].
  intros [= -> _] Hi. by rewrite Hi.
Qed.

(** C10: Every address the IPAM plugin reports is allocated to the pod.  When ADD on a
    node, with no previous result and the daemon of the node as its daemon, prints a
    result, each address of the result belongs to a master interface by its index, and
    a pool of the cluster records that address for the pod, through the texts of the
    requests and answers, the daemon's server and the allocator. *)
Theorem cmdAdd_addresses_recorded e (s s' : Server W K) args host n v ipam r v' :
  IPPoolLaws W pool_at → DAEMON_PORT ≠ 0 →
  loadNetConf json_err (ca_StdinData args) = inl (n, v) →
  nc_RawPrevResult (n_NetConf n) = None → n_Masters n ≠ [] →
  n_IPAM n = Some ipam → local_daemon (im_DaemonIP ipam) (im_DaemonPort ipam) →
  let pod := (getPodInfo (ca_Args args)).1 in
  let ns := (getPodInfo (ca_Args args)).2 in
  let def := nc_Name (n_NetConf n) in
  sendable (mkIPRequest pod ns host def (n_Masters n)) →
  (∀ d l, AllocateIP fs (en_clk e) (seen_request pod ns host def (n_Masters n)) (sv_alloc s)
            = Done d l → sendable l) →
  cmdAdd (H0 := node_post e) json_err (inl host) s args = (s', Ret (Printed r v')) →
  ∀ c, c ∈ re_IPs r →
  ∃ (j : nat) master name spec a, n_Masters n !! j = Some master ∧ ic_Interface c = Some (Z.of_nat j) ∧
    pool_at (d_world (sv_alloc s')) name = Some spec ∧ a ∈ p_Allocations spec ∧
    a_Pod a = pod ∧ a_Namespace a = ns ∧ Net.ParseIP (a_Address a) = Some (Net.IP (ic_Address c)).
Proof.
  intros Hlaws Hp0 Hload Hraw Hm Hi Hloc pod ns def Hs Hans. unfold cmdAdd.
  rewrite Hload. unfold previous. rewrite Hraw. rewrite bool_decide_true by done. cbn [negb].
  rewrite bool_decide_false by done.
  rewrite (LoadIPAMConfig_netconf _ _ _ _ Hload Hi).
  destruct (getPodInfo (ca_Args args)) as [pod' ns'] eqn:Ep. cbn [fst snd] in *. subst pod ns.
  destruct (RequestIP _ _ _ _ _ _ _ _ _) as [s1 [rs [err|]]] eqn:Er; [done|].
  intros [= <- Hips]. destruct (master_ips 0 (n_Masters n) rs) as [ips|] eqn:Ei; [|done].
  injection Hips as <- _. cbn [re_IPs set_ips empty_result]. intros c Hc.
  apply RequestIP_answer in Er; [|done..].
  destruct (master_ips_spec _ _ _ _ _ Ei Hc) as (j & master & rsp & net & Hj & Hci & Hrsp & _ & Hpc).
  apply ParseCIDR_address in Hpc.
  destruct (AllocateIP_responses pool_at _ _ _ _ _ _ _ Er Hrsp)
    as (name & spec & new & _ & (Hpod & Hns & _) & Haddr & Hp).
  exists j, master, name. eexists _, (n_Allocation new). split_and!; [done|done|exact Hp|..].
  - apply insertAllocation_new.
  - exact Hpod.
  - exact Hns.
  - by rewrite <- Haddr.
Qed.

(** ** DEL *)

(** whatever the plugin makes of the answer, its request has reached the allocator *)
Lemma RequestIP_state e s ip port podName podNamespace host defName masters :
  local_daemon ip port → DAEMON_PORT ≠ 0 →
  sendable (mkIPRequest podName podNamespace host defName masters) →
  sv_alloc (RequestIP (H0 := node_post e) json_err s ip port podName podNamespace host defName masters).1
  = state_of (AllocateIP fs (en_clk e) (seen_request podName podNamespace host defName masters)
                (sv_alloc s)).
Proof.
  intros [Hip Hport] Hp0 Hs. unfold RequestIP.
  rewrite (local_host ip Hip), (local_port port Hport Hp0).
  unfold post_message, post. rewrite node_post_path.
  change ("/" +:+ "allocate") with "/allocate". rewrite serve_allocate, Allocate_request by done.
  unfold seen_request. by destruct (AllocateIP _ _ _ _).
Qed.

Lemma Deallocate_state e s port podName podNamespace host defName :
  port = DAEMON_PORT ∨ port = 0 ∧ DAEMON_PORT = DEFAULT_DAEMON_PORT → DAEMON_PORT ≠ 0 →
  sendable (mkIPRequest podName podNamespace host defName []) →
  sv_alloc (Ipam.Deallocate (H0 := node_post e) json_err s port podName podNamespace host defName).1
  = state_of (DeallocateIP fs (en_now e) (seen_request podName podNamespace host defName [])
                (sv_alloc s)).
Proof.
  intros Hport Hp0 Hs. unfold Ipam.Deallocate.
  rewrite (local_port port Hport Hp0).
  unfold post_message, post. rewrite node_post_path.
  change ("/" +:+ "deallocate") with "/deallocate". rewrite serve_deallocate, Deallocate_request by done.
  unfold seen_request. by destruct (DeallocateIP _ _ _ _).
Qed.

Context (listed : list (string * string) → string → Prop) (up : W → Prop).

(** the arguments of a command with another network namespace *)
Definition with_netns (args : CmdArgs) (netns : string) : CmdArgs :=
  mkCmdArgs (ca_ContainerID args) netns (ca_IfName args) (ca_Args args) (ca_StdinData args).

(** C11: what DEL gives back of what ADD took. The plugin is configured for the
    node's daemon on a port that is not 0, with at least one master and no previous
    result, and the host name can be read; the daemon's mutex is free and its history of
    releases well formed; the cluster answers; every pool is well formed, has room behind its last index and carries
    nothing of the pod; the pools listed for the node and network carry that network
    and a host name that contains the requested one; the texts of the requests are
    ASCII. After an ADD and a DEL of the pod with the same configuration, through the
    texts of the requests, the daemon's server (with any router that behaves as
    documented) and the allocator, and whatever the two commands print: when the DEL
    names a network namespace, every pool of the cluster is as before the ADD and the
    daemon's mutex is free; when it names none, which the specification of CNI allows,
    DEL answers success and changes nothing, so the addresses of the ADD stay
    allocated. *)
Theorem add_del_restores e e' (s : Server W K) args netns host n v ipam name :
  IPPoolLaws W pool_at → Available W pool_at listed up → DAEMON_PORT ≠ 0 →
  loadNetConf json_err (ca_StdinData args) = inl (n, v) →
  nc_RawPrevResult (n_NetConf n) = None → n_Masters n ≠ [] →
  n_IPAM n = Some ipam → local_daemon (im_DaemonIP ipam) (im_DaemonPort ipam) →
  let pod := (getPodInfo (ca_Args args)).1 in
  let ns := (getPodInfo (ca_Args args)).2 in
  let def := nc_Name (n_NetConf n) in
  let req := seen_request pod ns host def (n_Masters n) in
  sendable (mkIPRequest pod ns host def (n_Masters n)) →
  sendable (mkIPRequest pod ns host def []) →
  let d := sv_alloc s in
  d_locked d = false → up (d_world d) → history_ok (d_history d) →
  (∀ n s, pool_at (d_world d) n = Some s →
     pool_texts s ∧ (∃ ip p, pool_net s ip p ∧ indexes_ok s p) ∧
     Forall (λ a, (a_Pod a, a_Namespace a) ≠ (pod, ns)) (p_Allocations s)) →
  (∀ n s, pool_at (d_world d) n = Some s →
     listed (host_def_selector (rq_HostName req) def) n → request_matches req s = true) →
  has_room pool_at (en_clk e) req d →
  let s1 := (cmdAdd (H0 := node_post e) json_err (inl host) s args).1 in
  let r2 := cmdDel (H0 := node_post e') json_err (inl host) s1 (with_netns args netns) in
  (netns ≠ "" → d_locked (sv_alloc r2.1) = false ∧
     pool_at (d_world (sv_alloc r2.1)) name = pool_at (d_world d) name) ∧
  (netns = "" → r2 = (s1, Ret CmdNil)).
Proof.
  intros Hlaws Hav Hp0 Hload Hraw Hm Hi Hloc pod ns def req Hsend Hsend' d Hl Hup Hh Hpools
    Hmatch Hroom s1 r2. split.
  2: { intros ->. subst r2. unfold cmdDel, previous. cbn [ca_StdinData with_netns].
       by rewrite Hload, Hraw, bool_decide_true by done. }
  intros Hns. set (s2 := r2.1).
  assert (sv_alloc s1 = state_of (AllocateIP fs (en_clk e) req d)) as Hs1.
  { subst s1. unfold cmdAdd, previous. rewrite Hload, Hraw, bool_decide_true by done. cbn [negb].
    rewrite bool_decide_false, (LoadIPAMConfig_netconf _ _ _ _ Hload Hi) by done.
    subst req d def pod ns. destruct (getPodInfo (ca_Args args)) as [pod ns]. cbn [fst snd] in *.
    rewrite <- (RequestIP_state e s _ _ _ _ _ _ _ Hloc Hp0 Hsend). simpl.
    by destruct (RequestIP _ _ _ _ _ _ _ _ _) as [s' [rs [err|]]]. }
  assert (sv_alloc s2 = state_of (DeallocateIP fs (en_now e') (seen_request pod ns host def [])
    (sv_alloc s1))) as Hs2.
  { subst s2 r2. unfold cmdDel, previous. cbn [ca_StdinData ca_Netns ca_Args with_netns].
    rewrite Hload, Hraw, bool_decide_false by done.
    rewrite (LoadIPAMConfig_netconf _ _ _ _ Hload Hi).
    subst def pod ns. destruct (getPodInfo (ca_Args args)) as [pod ns]. cbn [fst snd] in *.
    rewrite <- (Deallocate_state e' s1 _ _ _ _ _ (proj2 Hloc) Hp0 Hsend'). simpl.
    by destruct (Ipam.Deallocate _ _ _ _ _ _ _) as [s' [rs err]]. }
  destruct (allocate_release pool_at listed up fs fs (en_clk e) (en_now e') req
    (seen_request pod ns host def []) d name) as (d1 & rs & d2 & rs' & Hd1 & Hd2 & Hl2 & Hsame);
    [done..|].
  rewrite Hd1 in Hs1. simpl in Hs1. rewrite Hs1, Hd2 in Hs2. simpl in Hs2. by rewrite Hs2.
Qed.
End node.

(** ** A node with one pool *)

Definition ex_conf : string := print (JObj [
  ("cniVersion", JStr "0.3.0"); ("name", JStr "net"); ("type", JStr "multi-nic");
  ("masters", JStrs ["eth1"]); ("ipam", JObj [("type", JStr "multi-nic-ipam")])]).

Definition ex_args : CmdArgs :=
  mkCmdArgs "c1" "/var/run/netns/x" "net1" "IgnoreUnknown=1;K8S_POD_NAMESPACE=ns;K8S_POD_NAME=b" ex_conf.

Definition ex_server : Server memstore memkernel :=
  mkServer (ex_daemon [al "a" 1] false) (mkHost (mkMem [] [] [] 0) (mkFile None false false)) ∅.

Definition ex_hostnet : HostNet := mkHostNet [] (λ _, inr "no link") (inl []) (λ _, inr "no link") (inl []).

Definition ex_env : Env :=
  mkEnv (λ _, 0) 0 ex_hostnet
    (λ _, mkSelectEnv (∅, true) [] id (inr "no policy") (λ _, inr "no class") ∅ ∅ false ex_hostnet).

Definition no_error (s : string) : string := "invalid".

#[local] Existing Instance cni_plain.
#[local] Existing Instance map_to_list_range.
#[local] Existing Instance mux_first.
#[local] Existing Instance mux_first_laws.

Definition ex_add : Server memstore memkernel * go cmd_out :=
  cmdAdd (H0 := node_post id "/etc/iproute2/rt_tables" 11000 "host1" no_vf no_error ex_env)
    no_error (inl "host1") ex_server ex_args.

Definition ex_net : Net :=
  match loadNetConf no_error ex_conf with inl (n, _) => n | inr _ => zero_Net end.

Definition ex_ip : IPConfig :=
  mkIPConfig (Some 0) (Net.mkIPNet [192; 168; 0; 3] [255; 255; 192; 0]) None.

Lemma cmdAdd_addresses_recorded_witness :
  ∃ (j : nat) master name spec a, n_Masters ex_net !! j = Some master ∧
    ic_Interface ex_ip = Some (Z.of_nat j) ∧
    mem_pool_at (d_world (sv_alloc ex_add.1)) name = Some spec ∧ a ∈ p_Allocations spec ∧
    a_Pod a = "b" ∧ a_Namespace a = "ns" ∧ Net.ParseIP (a_Address a) = Some (Net.IP (ic_Address ex_ip)).
Proof.
  apply (cmdAdd_addresses_recorded id "/etc/iproute2/rt_tables" 11000 "host1" no_vf no_error mem_pool_at
    ex_env ex_server ex_add.1 ex_args "host1" ex_net "0.3.0" (default zero_IPAM (n_IPAM ex_net))
    (mkResult "1.0.0" [] [ex_ip] [] JNull) "0.3.0").
  - apply memstore_laws.
  - done.
  - vm_refl.
  - vm_refl.
  - vm_compute. discriminate.
  - vm_refl.
  - split; [left; by vm_compute|right; by vm_compute].
  - unfold sendable. vm_refl.
  - intros d l H. vm_compute in H. injection H as _ <-. by vm_compute.
  - vm_refl.
  - left.
Defined.

(** DEL with the given network namespace *)
Definition ex_del (netns : string) : Server memstore memkernel * go cmd_out :=
  cmdDel (H0 := node_post id "/etc/iproute2/rt_tables" 11000 "host1" no_vf no_error ex_env)
    no_error (inl "host1") ex_add.1 (with_netns ex_args netns).

Lemma add_del_restores_witness :
  ("/var/run/netns/x" ≠ "" → d_locked (sv_alloc (ex_del "/var/run/netns/x").1) = false ∧
  mem_pool_at (d_world (sv_alloc (ex_del "/var/run/netns/x").1)) "net-192.168.0.0-29"
    = Some (ex_pool [al "a" 1])) ∧
  ("/var/run/netns/x" = "" → ex_del "/var/run/netns/x" = (ex_add.1, Ret CmdNil)).
Proof.
  apply (add_del_restores id "/etc/iproute2/rt_tables" 11000 "host1" no_vf no_error mem_pool_at
    (mem_listed ex_labels_of) (mem_up ex_labels_of)
    ex_env ex_env ex_server ex_args "/var/run/netns/x" "host1" ex_net "0.3.0"
    (default zero_IPAM (n_IPAM ex_net)) "net-192.168.0.0-29").
  - apply memstore_laws.
  - apply mem_available.
  - done.
  - vm_refl.
  - vm_refl.
  - vm_compute. discriminate.
  - vm_refl.
  - split; [left; by vm_compute|right; by vm_compute].
  - unfold sendable. vm_refl.
  - unfold sendable. vm_refl.
  - reflexivity.
  - apply ex_up.
  - intros pod r H. by apply (lookup_empty_Some pod r) in H.
  - intros n s [_ ->]%ex_only. split; [apply ex_pool_texts|]. split.
    + exists [192; 168; 0; 0], 29. split; [apply ex_pool_net|apply ex_indexes_ok].
    + repeat constructor. vm_compute. discriminate.
  - intros n s [_ ->]%ex_only _. by vm_compute.
  - intros n s ip p H Hnet. refine (ex_room n s ip p H Hnet).
Defined.

(** a DEL without a network namespace leaves the address of the ADD in the pool *)
Example ex_del_leaks :
  (λ spec, (λ a, (a_Pod a, a_Address a)) <$> p_Allocations spec) <$>
    mem_pool_at (d_world (sv_alloc (ex_del "").1)) "net-192.168.0.0-29"
  = Some [("a", "192.168.0.1"); ("b", "192.168.0.3")].
Proof. vm_refl. Qed.
