(* ===== verification/DaemonProps.v ===== *)
(** * Properties of the daemon's HTTP server

    What a client of the daemon can rely on for every request, whatever the state of
    the daemon: the status codes, and that an answer is a text of the type the client
    decodes. *)

From S2P Require Import Prelude GoLib GoText Json JsonSpec Types Allocator K8s Iface Selector Cidr Route.
From S2P Require Import Router Messages Daemon AllocatorProps RouterProps IpamProps.
Import Json.

(** the body is the text of a value of type [A], and reads back as that value when
    its strings are ASCII *)
Definition answer_as (A : Type) `{Wire A} (body : string) : Prop :=
  ∃ a : A, body = Encode (w_json a) ∧
    (sendable a → Unmarshal w_dec body w_zero = (a, true)).

(** the type of the answers of a path *)
Definition typed_answer (ep : endpoint) (body : string) : Prop :=
  match ep with
  | EJoin | EGreet => body = Encode (JStr "")
  | EInterface => answer_as (list InterfaceInfoType) body
  | EAddRoute | EDeleteRoute | EAddL3 | EDeleteL3 => answer_as RouteUpdateResponse body
  | ESelect => answer_as NICSelectResponse body
  | EAllocate | EDeallocate => answer_as (list IPResponse) body
  end.

Lemma answer_as_Encode {A} `{WireLaw A} (a : A) : w_ok a → answer_as A (Encode (w_json a)).
Proof. intros Ha. exists a. split; [done|]. intros Hs. by apply receive_Encode. Qed.

Lemma list_all_ok {A} `{WireOk A} (l : list A) : (∀ a : A, w_ok a) → w_ok l.
Proof. intros Ha. by apply Forall_true. Qed.

(** every integer of these messages fits *)
Lemma interfaces_ok (l : list InterfaceInfoType) : w_ok l.
Proof. by apply list_all_ok. Qed.

Lemma responses_ok (l : list IPResponse) : w_ok l.
Proof. by apply list_all_ok. Qed.

Lemma ok_reply_typed {A} `{WireLaw A} (a : A) code body :
  w_ok a → ok_reply (w_json a) = Reply code body → code = 200 ∧ answer_as A body.
Proof.
  intros Ha Hr. unfold ok_reply in Hr. inversion Hr. subst. split; [done|].
  by apply answer_as_Encode.
Qed.

Section typed.
Context {mux : Mux} {mlaws : MuxLaws mux}.
Context {W : Type} `{IPPoolAPI W} {ord : MapRange}.
Context {K L : Type} `{EqDecision L} `{Netlink K L}.
Context (range_devs : list (L * list KRoute) → list (L * list KRoute)).
Context (RT_TABLE_PATH : string) (DAEMON_PORT : Z) (hostName : string) (fs : SysFs).
Context (json_err : string → string).

Lemma outcome_typed (s s' : Server W K) o code body :
  outcome_reply s o = (s', Reply code body) → code = 200 ∧ answer_as (list IPResponse) body.
Proof.
  destruct o as [d rs|d|d]; intros Hr; apply (f_equal snd) in Hr; [|done..].
  exact (ok_reply_typed rs code body (responses_ok rs) Hr).
Qed.

Lemma route_typed (s s' : Server W K) r code body :
  route_reply s r = (s', Reply code body) → code = 200 ∧ answer_as RouteUpdateResponse body.
Proof. intros Hr. apply (f_equal snd) in Hr. exact (ok_reply_typed r.2 code body I Hr). Qed.

(** C18: the daemon's server is well typed. For every router that behaves as
    documented on the table of the ten paths, and whatever the request and the
    state, an answer either has status 200, belongs to one of the ten paths (asked
    with POST, or /interface with any method) and is the text of a value of the
    response type of that path, which the clients' decoder reads back unchanged
    when its strings are ASCII; or it is the router's own, a redirection, 404 or
    405, and the request changed nothing and started no greeting. *)
Theorem handleRequests_typed e (s s' : Server W K) method path body code text greetings :
  handleRequests range_devs RT_TABLE_PATH DAEMON_PORT hostName fs json_err e s method path body
  = (s', Reply code text, greetings) →
  (code = 200 ∧ ∃ r, (r ∈ endpoints) ∧ ro_path r = path ∧ typed_answer (ro_handler r) text ∧
     (ro_handler r = EInterface ∨ method = "POST")) ∨
  (mux_serve endpoints method path = inr (code, text) ∧
   (300 ≤ code < 400 ∨ code = 404 ∨ code = 405) ∧ s' = s ∧ greetings = []).
Proof.
  unfold handleRequests.
  destruct (mux_serve endpoints method path) as [ep|[code' text']] eqn:Hm.
  2: { intros [= <- <- <- <-]. right. by apply mux_own in Hm. }
  intros Hr. left. apply mux_handler in Hm as (r & Hin & <- & Hpath & Hmeth).
  assert (ro_handler r = EInterface ∨ method = "POST") as Hpost.
  { repeat (apply elem_of_cons in Hin as [->|Hin];
      [destruct Hmeth as [Hmeth|Hmeth]; [done || by left|right; set_solver]|]). by apply elem_of_nil in Hin. }
  enough (code = 200 ∧ typed_answer (ro_handler r) text) as [? ?] by (split; [done|by exists r]).
  generalize dependent (ro_handler r). intros ep Hr _.
  unfold no_greeting in Hr.
  destruct ep; cbn [typed_answer]; try (apply (f_equal fst) in Hr; cbn [fst] in Hr; by eapply route_typed).
  - unfold Join, ok_reply in Hr. destruct (Unmarshal _ _ _), (GetInterfaces _ _). by simplify_eq.
  - unfold GreetAck, ok_reply in Hr. destruct (Unmarshal _ _ _). by simplify_eq.
  - apply (f_equal fst) in Hr; cbn [fst] in Hr. unfold GetInterface in Hr. destruct (GetInterfaces _ _) as [c l].
    apply (f_equal snd) in Hr. exact (ok_reply_typed l code text (interfaces_ok l) Hr).
  - apply (f_equal fst) in Hr; cbn [fst] in Hr. unfold SelectNic in Hr. destruct (Unmarshal _ _ _) as [req []];
      [destruct (Select _ _ _) as [c resp]|]; apply (f_equal snd) in Hr;
      exact (ok_reply_typed (A := NICSelectResponse) _ code text I Hr).
  - apply (f_equal fst) in Hr; cbn [fst] in Hr. unfold Allocate in Hr. destruct (Unmarshal _ _ _) as [req []];
      [by eapply outcome_typed|]. apply (f_equal snd) in Hr.
    exact (ok_reply_typed (A := list IPResponse) [] code text (responses_ok []) Hr).
  - apply (f_equal fst) in Hr; cbn [fst] in Hr. unfold Deallocate in Hr. destruct (Unmarshal _ _ _) as [req []];
      [by eapply outcome_typed|]. apply (f_equal snd) in Hr.
    exact (ok_reply_typed (A := list IPResponse) [] code text (responses_ok []) Hr).
Qed.
End typed.

#[local] Existing Instance map_to_list_range.
#[local] Existing Instance mux_first.
#[local] Existing Instance mux_first_laws.

(** pod b asks for an address *)
Definition ex_answer : Server memstore memkernel * reply * list (string * string) :=
  handleRequests id "/etc/iproute2/rt_tables" 11000 "host1" no_vf no_error ex_env ex_server
    "POST" "/allocate" (print (w_json (ex_req "b"))).

Definition ex_text : string := match ex_answer.1.2 with Reply _ text => text | NoReply => "" end.

Lemma handleRequests_typed_witness :
  (200 = 200 ∧ ∃ r, (r ∈ endpoints) ∧ ro_path r = "/allocate" ∧ typed_answer (ro_handler r) ex_text ∧
     (ro_handler r = EInterface ∨ "POST" = "POST")) ∨
  (mux_serve endpoints "POST" "/allocate" = inr (200, ex_text) ∧
   (300 ≤ 200 < 400 ∨ 200 = 404 ∨ 200 = 405) ∧ ex_answer.1.1 = ex_server ∧ ex_answer.2 = []).
Proof.
  apply (handleRequests_typed id "/etc/iproute2/rt_tables" 11000 "host1" no_vf no_error ex_env ex_server
    ex_answer.1.1 "POST" "/allocate" (print (w_json (ex_req "b"))) 200 ex_text ex_answer.2). vm_refl.
Defined.
