(* ===== verification/RouteInstall.v ===== *)
(** * From the operator's plan to the kernels of the nodes

    A forced synchronisation of the routes of a network posts, as JSON text, one
    request to the daemon of every host in the plan; the daemon's server decodes
    it and the router enters the routes in the kernel. When the operator reports
    that all routes are applied, they are in the kernels. *)

From S2P Require Import Prelude GoLib GoText Json JsonSpec Types Allocator K8s Cidr Network Route CidrHandler.
From S2P Require Import RouteProps Router RouterSpec RouterProps Messages Iface Selector Daemon.
From S2P Require AllocatorProps IpamProps.
Import Json.

(** what the kernel does about links, and about a route that is added *)
Class LinkLaws (K L : Type) `{Netlink K L} (routes_of : K → list KRoute)
    (links_of : K → string → option Z) := {
  link_found : ∀ k n i, links_of k n = Some i →
    ∃ k' dev, LinkByName k n = (k', inl dev) ∧ Attrs_Index dev = i;
  link_links : ∀ k k' n l, LinkByName k n = (k', l) → ∀ x, links_of k' x = links_of k x;
  ruleadd_links : ∀ k k' r e, RuleAdd k r = (k', e) → ∀ x, links_of k' x = links_of k x;
  ruledel_links : ∀ k k' r e, RuleDel k r = (k', e) → ∀ x, links_of k' x = links_of k x;
  routedel_links : ∀ k k' r e, RouteDel k r = (k', e) → ∀ x, links_of k' x = links_of k x;
  add_new : ∀ k k' r, RouteAdd k r = (k', None) → main_if_0 r ∈ routes_of k'
}.

Section router.
Context {K L : Type} {Leq : EqDecision L} {nl : Netlink K L}.
Context (routes_of : K → list KRoute) (rules_of : K → list Rule) (links_of : K → string → option Z).
Context {laws : NetlinkLaws K L routes_of rules_of} {llaws : LinkLaws K L routes_of links_of}.
Context (path : string) (range_devs : list (L * list KRoute) → list (L * list KRoute)).

Abbreviation same_links k k' := (∀ x, links_of k' x = links_of k x).

(** *** The links stay as they are *)

Lemma addRule_links h subnet id :
  same_links (h_kernel h) (h_kernel (addRule h subnet id).1).
Proof.
  unfold addRule. destruct (id =? -1); [done|]. destruct (RuleAdd _ _) as [k e] eqn:E.
  by eapply ruleadd_links.
Qed.

Lemma deleteRule_links h id : same_links (h_kernel h) (h_kernel (deleteRule h id).1).
Proof.
  unfold deleteRule. destruct (id =? -1); [done|]. destruct (RuleDel _ _) as [k e] eqn:E.
  by eapply ruledel_links.
Qed.

Lemma GetTableID_links h name subnet add :
  same_links (h_kernel h) (h_kernel (GetTableID path h name subnet add).1.1).
Proof.
  unfold GetTableID. destruct (getTableIDAndReservedIDs h name) as [[id reserved] [err|]]; [done|].
  assert (∀ h1 id e, same_links (h_kernel h) (h_kernel h1) →
    same_links (h_kernel h) (h_kernel (if negb (id =? -1) && negb (isRuleExist h1 id)
      then let '(h2, err) := addRule h1 subnet id in (h2, id, err) else (h1, id, e)).1.1)) as Hrule.
  { intros h1 id' e H1. destruct (_ && _); [|done]. pose proof (addRule_links h1 subnet id') as H2.
    destruct (addRule _ _ _) as [h2 err]. intros x. simpl in *. by rewrite H2. }
  destruct (add && (id =? -1)); [|by apply Hrule].
  destruct (addTable path h name reserved) as [[h1 id1] err] eqn:Ea.
  assert (same_links (h_kernel h) (h_kernel h1)) as H1.
  { revert Ea. unfold addTable. destruct (negb _); [|by intros [= <- _ _]].
    destruct (AppendFile _ _). by intros [= <- _ _]. }
  destruct err; [by apply Hrule|].
  pose proof (deleteRule_links h1 id1) as H2. destruct (deleteRule h1 id1) as [h2 e2].
  pose proof (addRule_links h2 subnet id1) as H3. destruct (addRule h2 subnet id1) as [h3 e3].
  apply Hrule. intros x. simpl in *. by rewrite H3, H2.
Qed.

Lemma delete_routes_links id rs k : same_links k (foldl (delete_route id) k rs).
Proof.
  revert k. induction rs as [|r rs IH]; intros k x; [done|]. simpl. rewrite IH.
  unfold delete_route. destruct (_ =? _); [|done]. destruct (RouteDel k r) as [k' e] eqn:E.
  by eapply routedel_links.
Qed.

Lemma deleteL3Config_links h name id :
  same_links (h_kernel h) (h_kernel (deleteL3Config h name id).1).
Proof.
  unfold deleteL3Config. destruct (id =? -1); [done|].
  assert (same_links (h_kernel h) (h_kernel (DeleteTable h name id).1)) as H.
  { unfold DeleteTable, deleteRoutes. destruct (GetRoutes h id) as [rs|]; [|done].
    pose proof (delete_routes_links id rs (h_kernel h)) as Hr. cbn [set_kernel h_file].
    destruct (ReadFile _); [|done]. destruct (WriteFile _ _) as [f e]. intros x.
    by rewrite deleteRule_links. }
  by destruct (DeleteTable h name id) as [h1 [e|]].
Qed.

(** *** Every requested route has its place in the map of devices *)

Lemma add_dev_route_keeps dev dev' r r' (m : list (L * list KRoute)) rs :
  (dev, rs) ∈ m → r ∈ rs →
  ∃ rs', ((dev, rs') ∈ add_dev_route dev' r' m) ∧ r ∈ rs'.
Proof.
  intros Hm Hr. induction m as [|[d x] m IH]; [by apply elem_of_nil in Hm|]. simpl.
  apply elem_of_cons in Hm as [[= <- <-]|Hm].
  - case_decide; [|exists rs; split; [by left|done]]. subst.
    exists (rs ++ [r']). split; [by left|]. apply elem_of_app. by left.
  - case_decide; [exists rs; split; [by right|done]|].
    destruct (IH Hm) as (rs' & ? & ?). exists rs'. split; [by right|done].
Qed.

Lemma add_dev_route_new dev r (m : list (L * list KRoute)) :
  ∃ rs, ((dev, rs) ∈ add_dev_route dev r m) ∧ r ∈ rs.
Proof.
  induction m as [|[d x] m (rs & ? & ?)]; simpl; [exists [r]; split; by left|].
  case_decide; [|exists rs; split; [by right|done]]. subst.
  exists (x ++ [r]). split; [by left|]. apply elem_of_app. right. by left.
Qed.

Lemma dev_routes_keeps dev r rs0 id routes : ∀ k m k' m',
  dev_routes k id routes m = (k', m') → (dev, rs0) ∈ m → r ∈ rs0 →
  ∃ rs, ((dev, rs) ∈ m') ∧ r ∈ rs.
Proof.
  revert rs0. induction routes as [|hr routes IH]; intros rs0 k m k' m' H Hm Hr; simpl in H.
  { injection H as _ <-. eauto. }
  destruct (LinkByName k _) as [k1 [d|e]]; [|by eapply IH].
  destruct (add_dev_route_keeps dev d r (make_route d hr id) m rs0 Hm Hr) as (rs1 & ? & ?).
  by eapply IH.
Qed.

Lemma dev_routes_has id routes hr i : ∀ k m k' m',
  dev_routes k id routes m = (k', m') → hr ∈ routes → links_of k (hr_InterfaceName hr) = Some i →
  ∃ dev rs, ((dev, rs) ∈ m') ∧ make_route dev hr id ∈ rs ∧ Attrs_Index dev = i.
Proof.
  induction routes as [|hr0 routes IH]; intros k m k' m' H Hin Hl; [by apply elem_of_nil in Hin|].
  simpl in H. apply elem_of_cons in Hin as [<-|Hin].
  - destruct (link_found _ _ _ Hl) as (k1 & dev & Hk1 & Hi). rewrite Hk1 in H.
    destruct (add_dev_route_new dev (make_route dev hr id) m) as (rs0 & H0 & H1).
    destruct (dev_routes_keeps dev _ rs0 id routes _ _ _ _ H H0 H1) as (rs & ? & ?). eauto.
  - destruct (LinkByName k (hr_InterfaceName hr0)) as [k1 d] eqn:Ed.
    assert (links_of k1 (hr_InterfaceName hr) = Some i) by (by rewrite (link_links _ _ _ _ Ed)).
    destruct d as [d|e]; by eapply IH.
Qed.

(** *** Applying them *)

(** the kernel holds the route, or has one like it in the main table *)
Definition installed (k : K) (route : KRoute) : Prop :=
  main_if_0 route ∈ routes_of k ∨
  ∃ x, (x ∈ routes_of k) ∧ kr_Table x = RT_TABLE_MAIN ∧ same_route x route = true.

Lemma apply_route_keeps dev acc r route :
  installed (h_kernel acc.1) route → installed (h_kernel (apply_route dev acc r).1) route.
Proof.
  destruct acc as [h [msg b]]. unfold apply_route. simpl. destruct (isRouteExist h r dev).1; [done|].
  destruct (RouteAdd _ r) as [k e] eqn:E. intros H.
  assert (installed k route) as Hk.
  { destruct H as [H|(x & H & ?)]; [left|right; exists x; split; [|done]]; by eapply add_keeps. }
  by destruct e.
Qed.

Lemma apply_route_installs dev acc r :
  (apply_route dev acc r).2.2 = true →
  acc.2.2 = true ∧ installed (h_kernel (apply_route dev acc r).1) r.
Proof.
  destruct acc as [h [msg b]]. unfold apply_route, isRouteExist.
  destruct (RouteList (h_kernel h) dev) as [rs|] eqn:El; simpl.
  1: destruct (existsb _ rs) eqn:Ex; simpl.
  - intros ->. split; [done|right]. apply existsb_exists in Ex as (x & Hx & Hs).
    rewrite <- list_elem_of_In in Hx. destruct (list_main _ _ _ El x Hx). eauto.
  - destruct (RouteAdd _ r) as [k [e|]] eqn:E; [done|]. simpl. intros ->.
    split; [done|left]. by eapply add_new.
  - destruct (RouteAdd _ r) as [k [e|]] eqn:E; [done|]. simpl. intros ->.
    split; [done|left]. by eapply add_new.
Qed.

Lemma apply_list_installs dev rs : ∀ acc,
  (foldl (apply_route dev) acc rs).2.2 = true →
  acc.2.2 = true ∧
  (∀ route, installed (h_kernel acc.1) route ∨ route ∈ rs →
     installed (h_kernel (foldl (apply_route dev) acc rs).1) route).
Proof.
  induction rs as [|r rs IH]; intros acc H; simpl in *.
  { split; [done|]. by intros route [?|?%elem_of_nil]. }
  destruct (IH _ H) as [Hb Hall]. destruct (apply_route_installs dev acc r Hb) as [Hb0 Hr].
  split; [done|]. intros route [Hi|[->|Hin]%elem_of_cons]; apply Hall.
  - left. by apply apply_route_keeps.
  - by left.
  - by right.
Qed.

Lemma apply_devs_installs (m : list (L * list KRoute)) : ∀ acc,
  let a := foldl (λ acc dr, foldl (apply_route dr.1) acc dr.2) acc m in
  a.2.2 = true →
  acc.2.2 = true ∧
  (∀ route, installed (h_kernel acc.1) route ∨ (∃ dr, dr ∈ m ∧ route ∈ dr.2) →
     installed (h_kernel a.1) route).
Proof.
  induction m as [|[d rs] m IH]; intros acc; simpl.
  { intros H. split; [done|]. by intros route [?|(? & ?%elem_of_nil & _)]. }
  intros H. destruct (IH _ H) as [Hb Hall]. destruct (apply_list_installs d rs acc Hb) as [Hb0 Hrs].
  split; [done|]. intros route [Hi|(dr & [->|Hin]%elem_of_cons & Hr)]; apply Hall; [left|left|right];
    [by apply Hrs; left|by apply Hrs; right|eauto].
Qed.

Lemma addTable_error (h : Host K) name reserved : (addTable path h name reserved).2 ≠ None.
Proof. unfold addTable. destruct (negb _); [|done]. by destruct (AppendFile _ _). Qed.

Lemma GetTableID_some h name subnet h' id :
  GetTableID path h name subnet true = (h', id, None) → id ≠ -1.
Proof.
  unfold GetTableID. destruct (getTableIDAndReservedIDs h name) as [[id0 reserved] [err|]]; [done|].
  cbn [andb]. destruct (Z.eqb_spec id0 (-1)) as [->|Hne].
  - pose proof (addTable_error h name reserved) as He.
    destruct (addTable path h name reserved) as [[h1 id1] [e|]]; [|done].
    destruct (Z.eqb_spec id1 (-1)) as [->|Hne1]; [done|]. cbn [negb andb].
    destruct (isRuleExist h1 id1); [done|]. destruct (addRule _ _ _). by intros [= _ <- _].
  - cbn [negb andb]. destruct (Z.eqb_spec id0 (-1)); [done|]. cbn [negb andb].
    destruct (isRuleExist h id0); [by intros [= _ <-]|].
    destruct (addRule _ _ _). by intros [= _ <- _].
Qed.

(** a configuration that was applied with success: one table for all routes *)
Lemma ApplyL3Config_installs h req :
  (∀ l, range_devs l ≡ₚ l) →
  rr_Success (Router.ApplyL3Config path range_devs h (inl req)).2 = true →
  ∃ id, ∀ r i, r ∈ l3_Routes req → links_of (h_kernel h) (hr_InterfaceName r) = Some i →
    installed (h_kernel (Router.ApplyL3Config path range_devs h (inl req)).1)
      (mkKRoute i SCOPE_UNIVERSE (snd <$> Net.ParseCIDR (hr_Subnet r)) (Net.ParseIP (hr_NextHop r)) id).
Proof.
  intros Hrange. unfold Router.ApplyL3Config, getRoutesFromRequest, getRoutesFromL3Config.
  match goal with |- context [GetTableID path ?x _ _ true] => set (h1 := x) end.
  assert (same_links (h_kernel h) (h_kernel h1)) as H1.
  { subst h1. destruct (l3_Force req); [|done].
    pose proof (GetTableID_links h (l3_Name req) (l3_Subnet req) false) as Hg.
    destruct (GetTableID _ h _ _ false) as [[h0 id0] [e|]]; [done|].
    intros x. simpl in Hg. by rewrite deleteL3Config_links. }
  pose proof (GetTableID_links h1 (l3_Name req) (l3_Subnet req) true) as H2.
  destruct (GetTableID path h1 _ _ true) as [[h2 id] err] eqn:Eg. cbn [fst] in H2.
  destruct err as [e|]; [by rewrite orb_true_r|].
  apply GetTableID_some in Eg as Hid. rewrite (proj2 (Z.eqb_neq _ _) Hid). cbn [orb].
  destruct (dev_routes (h_kernel h2) id (l3_Routes req) []) as [k m] eqn:Ed.
  destruct (apply_routes range_devs (set_kernel h2 k) m) as [h3 [msg b]] eqn:Ea.
  cbn [rr_Success fst snd]. intros ->. exists id. intros r i Hr Hi.
  destruct (dev_routes_has id (l3_Routes req) r i (h_kernel h2) [] k m Ed Hr)
    as (dev & rs & Hm & Hin & <-); [by rewrite H2, H1|].
  unfold apply_routes in Ea.
  destruct (apply_devs_installs (range_devs m) (set_kernel h2 k, ("", true))) as [_ Hall];
    rewrite Ea in *; [done|]. apply Hall. right. exists (dev, rs). by rewrite Hrange.
Qed.
End router.

(** ** The daemons on the network *)

Section network.
Context {mux : Mux} {mlaws : MuxLaws mux}.
Context {W : Type} {api : IPPoolAPI W} {ord : MapRange}.
Context {K L : Type} {Leq : EqDecision L} {nl : Netlink K L}.
Context (range_devs : list (L * list KRoute) → list (L * list KRoute)).
Context (RT_TABLE_PATH : string) (DAEMON_PORT : Z) (hostName : string → string) (fs : SysFs).
Context (json_err : string → string) (e : Env).

(** the operator's world holds the daemons' servers, by the address of their host *)
Context {O : Type} {nets : Client O MultiNicNetwork}.
Context (servers : O → gmap string (Server W K))
  (set_servers : O → gmap string (Server W K) → O).

(** the host of [http://host:port...] *)
Definition url_host (rest : string) : string := hd "" (Strings.Split rest ":"%char).

(** a POST of the operator to a daemon *)
Definition l3_post (w : O) (address : string) (req : L3ConfigRequest) : O * http_answer :=
  match strip "http://" address with
  | None => (w, PostError "unsupported protocol scheme")
  | Some rest =>
      let ip := url_host rest in
      match servers w !! ip, strip (ip +:+ ":" +:+ Strconv.Itoa DAEMON_PORT) rest with
      | Some s, Some path =>
          let '(s', r, _) :=
            handleRequests range_devs RT_TABLE_PATH DAEMON_PORT (hostName ip) fs json_err e s "POST"
              path (print (w_json req)) in
          (set_servers w (<[ip := s']> (servers w)),
           match r with
           | NoReply => PostError "EOF"
           | Reply code text =>
               if negb (code =? 200) then BadStatus ""
               else match Unmarshal w_dec text (w_zero (A := RouteUpdateResponse)) with
                    | (resp, true) => Body resp
                    | (_, false) => BadBody (json_err text)
                    end
           end)
      | _, _ => (w, PostError "connection refused")
      end
  end.

Context (Hget : ∀ w m, servers (set_servers w m) = m).

Abbreviation apply s req := (Router.ApplyL3Config RT_TABLE_PATH range_devs (sv_host s) (inl req)).

Lemma l3_post_other w address req ip :
  (∀ rest, strip "http://" address = Some rest → url_host rest ≠ ip) →
  servers (l3_post w address req).1 !! ip = servers w !! ip.
Proof.
  intros Hne. unfold l3_post. destruct (strip _ address) as [rest|]; [|done].
  specialize (Hne rest eq_refl). destruct (servers w !! url_host rest); [|done].
  destruct (strip _ rest); [|done]. destruct (handleRequests _ _ _ _ _ _ _ _ _ _ _) as [[s' r] g].
  simpl. rewrite Hget. by rewrite (lookup_insert_ne (M := gmap string)).
Qed.

Lemma daemon_url d path :
  Strings.no_char ":"%char (dp_HostIP d) = true →
  ∃ rest, strip "http://" (GetDaemonAddressByPod (Strconv.Itoa DAEMON_PORT) d +:+ path) = Some rest ∧
    url_host rest = dp_HostIP d ∧
    strip (dp_HostIP d +:+ ":" +:+ Strconv.Itoa DAEMON_PORT) rest = Some path.
Proof.
  intros Hc. exists ((dp_HostIP d +:+ ":" +:+ Strconv.Itoa DAEMON_PORT) +:+ path). split_and!.
  - unfold GetDaemonAddressByPod. rewrite !str_app_assoc. apply IpamProps.strip_app.
  - unfold url_host. rewrite !str_app_assoc. rewrite (str_app_cons ":"%char "").
    by rewrite split_app.
  - apply IpamProps.strip_app.
Qed.

(** a daemon that answers success has the routes of the request in its kernel *)
Lemma l3_post_success w d req w' msg s :
  Strings.no_char ":"%char (dp_HostIP d) = true → sendable req →
  (∀ s, servers w !! dp_HostIP d = Some s → sendable (apply s req).2) →
  l3_post w (GetDaemonAddressByPod (Strconv.Itoa DAEMON_PORT) d +:+ Route.ADD_ROUTE_PATH) req
    = (w', Body (mkRouteResp true msg)) →
  servers w !! dp_HostIP d = Some s →
  rr_Success (apply s req).2 = true ∧
  servers w' !! dp_HostIP d = Some (set_host s (apply s req).1).
Proof.
  intros Hc Hs Hans. unfold l3_post. destruct (daemon_url d Route.ADD_ROUTE_PATH Hc) as (rest & -> & -> & ->).
  intros H Hd. rewrite Hd in H.
  assert (handleRequests range_devs RT_TABLE_PATH DAEMON_PORT (hostName (dp_HostIP d)) fs json_err e s
    "POST" Route.ADD_ROUTE_PATH (print (w_json req)) = (route_reply s (apply s req), [])) as Hh.
  { unfold handleRequests. change Route.ADD_ROUTE_PATH with ADD_L3CONFIG_PATH.
    rewrite (mux_post 5 (mkRoute ADD_L3CONFIG_PATH ["POST"] EAddL3)) by done. unfold no_greeting.
    unfold Daemon.ApplyL3Config, decode_request. by rewrite receive. }
  rewrite Hh in H. unfold route_reply, ok_reply in H. change (negb (200 =? 200)) with false in H.
  cbv iota beta in H. rewrite receive_Encode in H; [|by apply Hans|done].
  injection H as <- ->. split; [done|]. rewrite Hget. by rewrite (lookup_insert_eq (M := gmap string)).
Qed.

(** ** The synchronisation of all daemons *)

Context (cache : DaemonCache) (spec : CIDRSpec) (force : bool).
Abbreviation info := (GetHostInterfaceIndexMap (c_CIDRs spec)).
Abbreviation port := (Strconv.Itoa DAEMON_PORT).

(** the request for one host *)
Definition l3_request (hn : string) (d : DaemonPod) : L3ConfigRequest :=
  mkL3 (pc_Name (c_Config spec)) (pc_Subnet (c_Config spec))
    (host_routes cache info hn (dp_HostIP d) (c_CIDRs spec)) force.

Abbreviation add_routes w hn d := (AddRoutesToHost l3_post port w cache spec hn d (c_CIDRs spec) info force).

(** addresses without a colon; requests and answers that have a text *)
Definition reachable_daemon (w : O) (hn : string) (d : DaemonPod) : Prop :=
  Strings.no_char ":"%char (dp_HostIP d) = true ∧ sendable (l3_request hn d) ∧
  ∀ s, servers w !! dp_HostIP d = Some s → sendable (apply s (l3_request hn d)).2.

Lemma add_routes_frame w hn d ip :
  Strings.no_char ":"%char (dp_HostIP d) = true → dp_HostIP d ≠ ip →
  servers (add_routes w hn d).1 !! ip = servers w !! ip.
Proof.
  intros Hc Hne. unfold AddRoutesToHost, Route.ApplyL3Config, putRouteRequest.
  destruct (Daemon_GetCache cache hn); [|done].
  pose proof (l3_post_other w (GetDaemonAddressByPod port d +:+ Route.ADD_ROUTE_PATH)
    (l3_request hn d) ip) as Hf. unfold l3_request in Hf.
  destruct (l3_post _ _ _) as [w1 ans]. cbn [fst] in Hf.
  rewrite <- Hf; [by destruct ans|]. intros rest Hr.
  destruct (daemon_url d Route.ADD_ROUTE_PATH Hc) as (rest' & Hr' & Hh & _). congruence.
Qed.

Lemma add_routes_success w hn d cf w' :
  reachable_daemon w hn d → add_routes w hn d = (w', (true, cf)) →
  ∃ s, servers w !! dp_HostIP d = Some s ∧ rr_Success (apply s (l3_request hn d)).2 = true ∧
    servers w' !! dp_HostIP d = Some (set_host s (apply s (l3_request hn d)).1).
Proof.
  intros (Hc & Hs & Hans). unfold AddRoutesToHost, Route.ApplyL3Config, putRouteRequest.
  destruct (Daemon_GetCache cache hn); [|done]. fold (l3_request hn d).
  destruct (l3_post _ _ _) as [w1 ans] eqn:Ep. destruct ans as [| | |[[] msg]]; try done.
  intros [= <- _]. destruct (servers w !! dp_HostIP d) as [s|] eqn:Hd.
  - exists s. split; [done|]. rewrite <- Hd in Hans. by apply (l3_post_success w d (l3_request hn d) w1 msg s Hc Hs Hans Ep).
  - exfalso. unfold l3_post in Ep.
    destruct (daemon_url d Route.ADD_ROUTE_PATH Hc) as (rest & Hr & Hh & _). 
    rewrite Hr, Hh, Hd in Ep. done.
Qed.

Lemma loop_frame daemons ip : ∀ w s n,
  Forall (λ kv, Strings.no_char ":"%char (dp_HostIP kv.2) = true ∧ dp_HostIP kv.2 ≠ ip) daemons →
  servers (AddRoutes_loop l3_post port w cache spec (c_CIDRs spec) info force daemons s n).1 !! ip
  = servers w !! ip.
Proof.
  induction daemons as [|[hn d] daemons IH]; intros w s n Hall; [done|]. simpl.
  apply Forall_cons in Hall as [[Hc Hne] Hall]. simpl in Hc, Hne.
  destruct (info !! hn); [|by apply IH].
  pose proof (add_routes_frame w hn d ip Hc Hne) as Hf.
  destruct (add_routes w hn d) as [w1 [c cf]]. simpl in Hf. rewrite <- Hf. by apply IH.
Qed.

Lemma loop_installs daemons : ∀ w s n w' n',
  AddRoutes_loop l3_post port w cache spec (c_CIDRs spec) info force daemons s n = (w', (true, n')) →
  NoDup (dp_HostIP <$> daemons.*2) → Forall (λ kv, reachable_daemon w kv.1 kv.2) daemons →
  s = true ∧ ∀ hn d, (hn, d) ∈ daemons → is_Some (info !! hn) →
    ∃ sv, servers w !! dp_HostIP d = Some sv ∧ rr_Success (apply sv (l3_request hn d)).2 = true ∧
      servers w' !! dp_HostIP d = Some (set_host sv (apply sv (l3_request hn d)).1).
Proof.
  induction daemons as [|[hn0 d0] daemons IH]; intros w s n w' n' H Hnd Hall; simpl in H.
  { injection H as _ -> _. split; [done|]. by intros hn d ?%elem_of_nil. }
  simpl in Hnd. apply NoDup_cons in Hnd as [Hn0 Hnd]. apply Forall_cons in Hall as [H0 Hall].
  simpl in H0. pose proof H0 as (Hc0 & _).
  assert (∀ hn d, (hn, d) ∈ daemons → dp_HostIP d0 ≠ dp_HostIP d) as Hother.
  { intros hn d Hin Heq. apply Hn0. rewrite Heq. apply list_elem_of_fmap. exists d. split; [done|].
    apply list_elem_of_fmap. by exists (hn, d). }
  destruct (info !! hn0) as [i|] eqn:Ei.
  2: { apply IH in H as [Hs Hrest]; [|done..]. split; [done|].
       intros hn d [[= -> ->]|Hin]%elem_of_cons Hsome; [by rewrite Ei in Hsome; destruct Hsome|by auto]. }
  destruct (add_routes w hn0 d0) as [w1 [c cf]] eqn:E0.
  assert (∀ hn d, (hn, d) ∈ daemons → servers w1 !! dp_HostIP d = servers w !! dp_HostIP d) as Hsame.
  { intros hn d Hin. change w1 with (w1, (c, cf)).1. rewrite <- E0.
    apply add_routes_frame; [done|by eapply Hother]. }
  assert (Forall (λ kv, reachable_daemon w1 kv.1 kv.2) daemons) as Hall1.
  { rewrite Forall_forall in Hall |- *. intros [hn d] Hin. destruct (Hall _ Hin) as (? & ? & Ha).
    split_and!; [done..|]. simpl. rewrite (Hsame hn d Hin). exact Ha. }
  pose proof H as Hw. apply IH in H as [Hs Hrest]; [|done..].
  destruct c, cf; simpl in Hs; try done. split; [done|].
  intros hn d [[= -> ->]|Hin]%elem_of_cons Hsome.
  - destruct (add_routes_success _ _ _ _ _ H0 E0) as (sv & ? & ? & Hsv). exists sv.
    split_and!; [done..|]. rewrite <- Hsv.
    change w' with (w', (true, n')).1. rewrite <- Hw. apply loop_frame.
    rewrite Forall_forall in Hall |- *. intros [hn d] Hin. destruct (Hall _ Hin) as (? & _).
    split; [done|]. simpl. by apply not_eq_sym, (Hother hn d).
  - rewrite <- (Hsame hn d Hin). by apply Hrest.
Qed.
End network.

Section theorem.
Context {mux : Mux} {mlaws : MuxLaws mux}.
Context {W : Type} {api : IPPoolAPI W} {ord : MapRange}.
Context {K L : Type} {Leq : EqDecision L} {nl : Netlink K L}.
Context (range_devs : list (L * list KRoute) → list (L * list KRoute)).
Context (RT_TABLE_PATH : string) (DAEMON_PORT : Z) (hostName : string → string) (fs : SysFs).
Context (json_err : string → string) (e : Env).
Context {O : Type} {nets : Client O MultiNicNetwork}.
Context (servers : O → gmap string (Server W K))
  (set_servers : O → gmap string (Server W K) → O).
Context (routes_of : K → list KRoute) (rules_of : K → list Rule) (links_of : K → string → option Z).

Lemma distinct_addresses (daemons : DaemonCache) :
  (∀ hn hn' d d', daemons !! hn = Some d → daemons !! hn' = Some d' →
     dp_HostIP d = dp_HostIP d' → hn = hn') →
  NoDup (dp_HostIP <$> (range_map daemons).*2).
Proof.
  intros Hinj. rewrite <- list_fmap_compose. apply NoDup_fmap_2_strong.
  - intros [hn d] [hn' d'] H%elem_of_range_map H'%elem_of_range_map Heq. simpl in Heq.
    assert (hn = hn') as -> by (by eapply Hinj). congruence.
  - rewrite range_map_perm. apply NoDup_map_to_list.
Qed.

(** C7: when the operator reports that all routes of a network are applied, they
    are. After a forced synchronisation that ends with [AllRouteApplied], posted as
    JSON text to the servers of the daemons at distinct addresses (with any router
    that behaves as documented), the kernel of
    every host of the plan with a known daemon holds, for each pod network of
    another host that the plan routes over one of its existing interfaces, a route
    to that network through the other host's address, in one table of the network
    (or the same route in the main table). *)
Theorem forced_sync_installs_routes w daemons spec w' hn d :
  NetlinkLaws K L routes_of rules_of → LinkLaws K L routes_of links_of →
  (∀ l, range_devs l ≡ₚ l) → (∀ w m, servers (set_servers w m) = m) →
  (∀ hn hn' d d', daemons !! hn = Some d → daemons !! hn' = Some d' →
     dp_HostIP d = dp_HostIP d' → hn = hn') →
  (∀ hn d, daemons !! hn = Some d →
     reachable_daemon range_devs RT_TABLE_PATH servers daemons spec true w hn d) →
  IsL3Mode w (c_Config spec) = true →
  SyncCIDRRoute
    (l3_post range_devs RT_TABLE_PATH DAEMON_PORT hostName fs json_err e servers set_servers)
    (Strconv.Itoa DAEMON_PORT) w daemons spec true = (w', AllRouteApplied) →
  daemons !! hn = Some d → is_Some (GetHostInterfaceIndexMap (c_CIDRs spec) !! hn) →
  ∃ s s' id, servers w !! dp_HostIP d = Some s ∧ servers w' !! dp_HostIP d = Some s' ∧
    ∀ r i,
      r ∈ host_routes daemons (GetHostInterfaceIndexMap (c_CIDRs spec)) hn (dp_HostIP d)
            (c_CIDRs spec) →
      links_of (h_kernel (sv_host s)) (hr_InterfaceName r) = Some i →
      installed routes_of (h_kernel (sv_host s'))
        (mkKRoute i SCOPE_UNIVERSE (snd <$> Net.ParseCIDR (hr_Subnet r))
           (Net.ParseIP (hr_NextHop r)) id).
Proof.
  intros Hlaws Hlinks Hrange Hget Hinj Hreach Hl3. unfold SyncCIDRRoute, AddRoutes. rewrite Hl3.
  destruct (AddRoutes_loop _ _ _ _ _ _ _ _ _ _ _) as [w1 [success n]] eqn:E.
  destruct n; [done|]. destruct success; [|done]. intros [= <-] Hd Hsome.
  apply loop_installs in E as [_ Hall]; [|done|by apply distinct_addresses|].
  2: { apply Forall_forall. intros [hn0 d0] Hin%elem_of_range_map. by apply Hreach. }
  destruct (Hall hn d) as (s & Hs & Hok & Hs'); [by apply elem_of_range_map|done|].
  destruct (ApplyL3Config_installs routes_of rules_of links_of RT_TABLE_PATH range_devs (sv_host s)
    (l3_request daemons spec true hn d) Hrange Hok) as (id & Hid).
  by exists s, (set_host s (Router.ApplyL3Config RT_TABLE_PATH range_devs (sv_host s)
    (inl (l3_request daemons spec true hn d))).1), id.
Qed.
End theorem.

(** ** Two hosts *)

Definition mem_links (k : memkernel) (n : string) : option Z :=
  (λ x, x.2.2) <$> list_find (λ x, x.1 = n) (m_links k).

#[export] Instance mem_link_laws : LinkLaws memkernel (Z * Z) m_routes mem_links.
Proof.
  split; simpl.
  - intros k n i. unfold mem_links. destruct (list_find _ _) as [[j [n' i']]|]; [|done].
    intros [= <-]. by eexists _, _.
  - intros k k' n l. destruct (list_find _ _) as [[j [n' i']]|]; by intros [= <- _].
  - intros k k' r e. case_bool_decide; by intros [= <- _].
  - intros k k' r e. destruct (existsb _ _); by intros [= <- _].
  - intros k k' r e. destruct (existsb _ _); by intros [= <- _].
  - intros k k' r. case_bool_decide; [done|]. intros [= <-]. simpl. apply elem_of_app. right. by left.
Qed.

#[local] Existing Instance map_to_list_range.
#[local] Existing Instance mux_first.
#[local] Existing Instance mux_first_laws.

Definition ex_world : Type := kstore MultiNicNetwork * gmap string (Server memstore memkernel).

#[export] Instance ex_world_nets : Client ex_world MultiNicNetwork :=
  part_client fst (λ c s, (s, c.2)).

Definition ex_router : Server memstore memkernel :=
  mkServer (AllocatorProps.ex_daemon [] false) ex_host ∅.

Definition ex_cluster : ex_world :=
  (ex_l3_store, {["1.1.1.1" := ex_router; "1.1.1.2" := ex_router]}).

Definition ex_post : ex_world → string → L3ConfigRequest → ex_world * http_answer :=
  l3_post id ex_path 11000 id AllocatorProps.no_vf IpamProps.no_error IpamProps.ex_env snd
    (λ w m, (w.1, m)).

Definition ex_synced : ex_world := (SyncCIDRRoute ex_post "11000" ex_cluster ex_daemons ex_l3_spec true).1.

Definition ex_daemonA : DaemonPod := mkDaemonPod "da" "ns" "1.1.1.1" "A" ∅.

Lemma ex_daemons_cases hn d :
  ex_daemons !! hn = Some d →
  (hn = "A" ∧ d = ex_daemonA) ∨ (hn = "B" ∧ d = mkDaemonPod "db" "ns" "1.1.1.2" "B" ∅).
Proof.
  unfold ex_daemons. intros [[<- <-]|[_ [<- <-]%(lookup_singleton_Some (M := gmap string))]]%(lookup_insert_Some (M := gmap string)); auto.
Qed.

Lemma forced_sync_installs_routes_witness :
  ∃ s s' id, ex_cluster.2 !! "1.1.1.1" = Some s ∧ ex_synced.2 !! "1.1.1.1" = Some s' ∧
    ∀ r i,
      r ∈ host_routes ex_daemons (GetHostInterfaceIndexMap (c_CIDRs ex_l3_spec)) "A" "1.1.1.1"
            (c_CIDRs ex_l3_spec) →
      mem_links (h_kernel (sv_host s)) (hr_InterfaceName r) = Some i →
      installed m_routes (h_kernel (sv_host s'))
        (mkKRoute i SCOPE_UNIVERSE (snd <$> Net.ParseCIDR (hr_Subnet r))
           (Net.ParseIP (hr_NextHop r)) id).
Proof.
  apply (forced_sync_installs_routes id ex_path 11000 id AllocatorProps.no_vf IpamProps.no_error
    IpamProps.ex_env snd (λ w m, (w.1, m)) m_routes m_rules mem_links
    ex_cluster ex_daemons ex_l3_spec ex_synced "A" ex_daemonA).
  - apply mem_laws.
  - apply mem_link_laws.
  - done.
  - done.
  - intros hn hn' d d' [[-> ->]|[-> ->]]%ex_daemons_cases [[-> ->]|[-> ->]]%ex_daemons_cases; done.
  - intros hn d [[-> ->]|[-> ->]]%ex_daemons_cases; (split_and!; [done|unfold sendable; vm_refl|]);
      intros s [= <-]; unfold sendable; vm_refl.
  - vm_compute. reflexivity.
  - vm_compute. reflexivity.
  - vm_compute. reflexivity.
  - by vm_compute; eexists.
Defined.

(** the kernel of host A afterwards *)
Example ex_synced_routes :
  (λ s, (kr_Dst <$> m_routes (h_kernel (sv_host s)), kr_Table <$> m_routes (h_kernel (sv_host s))))
    <$> ex_synced.2 !! "1.1.1.1"
  = Some ([Some (Net.mkIPNet [192; 168; 1; 0] [255; 255; 255; 0])], [100]).
Proof. vm_compute. reflexivity. Qed.
