(* ===== verification/ConfigProps.v ===== *)
(** * Properties of the IPPool and configuration reconcilers

    How deleting the configuration depends on the IPPool reconciler emptying its
    cache, that the default configuration makes operator and daemon agree on ports
    and paths, and where a configuration does not reach the daemons. *)

From S2P Require Import Prelude GoLib GoText Types K8s.
From S2P Require Import IPPool Network Cidr Route CidrHandler Sync HostInterface Startup Reconcilers Config.
From S2P Require Daemon.

(** ** The cache of pools *)

Section pools.
Context {W : Type} {poolobjs : Client W (KObject IPPool)}
  (pool_obj : W → string → option (KObject IPPool))
  (retryOnConflict : (W → W * option kerr) → W → W * option kerr).

(** [retry.RetryOnConflict] only runs its function *)
Definition only_runs : Prop :=
  ∀ (P : W → Prop) f, (∀ w, P w → P (f w).1) → ∀ w, P w → P (retryOnConflict f w).1.

(** the other goroutines reconcile pools, in any number and order *)
Definition reconcile_all (names : list string) (o : Operator W) : Operator W :=
  foldl (λ o n, (ReconcileIPPool retryOnConflict n o).1) o names.

Context {laws : ClientFrame W (KObject IPPool) pool_obj}.

Lemma drop_finalizer_other name n w :
  n ≠ name → pool_obj (drop_finalizer (O:=IPPool) ippoolFinalizer name w).1 n = pool_obj w n.
Proof.
  intros Hne. unfold drop_finalizer. destruct (cl_Get w name) as [inst|[]]; [|done..].
  destruct (cl_Update w name _) as [w' e] eqn:E. by eapply update_other.
Qed.

Lemma ensure_finalizer_other name n inst w :
  n ≠ name → pool_obj (ensure_finalizer (O:=IPPool) ippoolFinalizer name inst w).1.1 n = pool_obj w n.
Proof.
  intros Hne. unfold ensure_finalizer. destruct (ContainsFinalizer _ _); [done|].
  destruct (cl_Update w name _) as [w' e] eqn:E. by eapply update_other.
Qed.

(** a pool whose object is gone stays in the cache *)
Definition stale (n : string) (o : Operator W) : Prop :=
  is_Some (o_ippools o !! n) ∧ pool_obj (o_w o) n = None.

Lemma ReconcileIPPool_stale name n o :
  only_runs → stale n o → stale n (ReconcileIPPool retryOnConflict name o).1.
Proof.
  intros Hretry [Hc Ho]. unfold ReconcileIPPool. destruct (negb (o_ready o)); [done|].
  destruct (cl_Get (o_w o) name) as [inst|[]] eqn:Hg; [|done..].
  assert (n ≠ name) as Hne.
  { intros ->. apply get_sound in Hg. congruence. }
  destruct (ko_Deleted inst).
  - unfold finish_pool_deletion. destruct (ContainsFinalizer _ _); [|done]. cbn [finalize_pool].
    destruct (retryOnConflict _ _) as [w err] eqn:Hr. split; simpl.
    + unfold UnsetCache. by rewrite lookup_delete_ne.
    + replace w with (retryOnConflict (drop_finalizer (O:=IPPool) ippoolFinalizer name)
        (o_w (finalize_pool name o))).1 by (by rewrite Hr).
      apply (Hretry (λ w, pool_obj w n = None)); [|done].
      intros w0 Hw0. by rewrite drop_finalizer_other.
  - pose proof (ensure_finalizer_other name n inst (o_w o) Hne) as He.
    destruct (ensure_finalizer _ _ _ _) as [[w i] err] eqn:E. split; simpl.
    + unfold SetCache. by rewrite lookup_insert_ne.
    + simpl in He. congruence.
Qed.

Lemma reconcile_all_stale names n o : only_runs → stale n o → stale n (reconcile_all names o).
Proof.
  intros Hretry. revert o. induction names as [|m names IH]; intros o Hs; [done|].
  apply IH. by apply ReconcileIPPool_stale.
Qed.

Lemma stale_not_empty n o : stale n o → (GetSize (o_ippools o) =? 0) = false.
Proof.
  intros [[x Hx] _]. apply Z.eqb_neq. unfold GetSize. intros Hz.
  assert (size (o_ippools o) = 0%nat) as H0 by lia. apply map_size_empty_inv in H0.
  by rewrite H0, lookup_empty in Hx.
Qed.

Lemma wait_pools_stale names n fuel : ∀ i o,
  only_runs → stale n o →
  (wait_pools fuel (λ i, reconcile_all (names i)) i o).2 = OutOfFuel.
Proof.
  induction fuel as [|fuel IH]; intros i o Hretry Hs; simpl; rewrite (stale_not_empty n o Hs); [done|].
  apply IH; [done|]. by apply reconcile_all_stale.
Qed.

(** ** Draining the cache *)

(** every pool that is cached is being deleted and still has the finalizer *)
Definition draining (names : list string) (o : Operator W) : Prop :=
  o_ready o = true ∧
  (∀ n, is_Some (o_ippools o !! n) → n ∈ names) ∧
  (∀ n, n ∈ names → ∃ inst, pool_obj (o_w o) n = Some inst ∧ ko_Deleted inst = true ∧
     ContainsFinalizer ippoolFinalizer inst = true).

(** the API server answers *)
Definition answers : Prop :=
  ∀ (w : W) n inst, pool_obj w n = Some inst → cl_Get w n = inl inst.

Lemma ReconcileIPPool_drains name names o :
  only_runs → answers → (name ∉ names) → draining (name :: names) o →
  draining names (ReconcileIPPool retryOnConflict name o).1.
Proof.
  intros Hretry Hans Hnew (Hready & Hcache & Hobjs). unfold ReconcileIPPool. rewrite Hready. simpl.
  destruct (Hobjs name) as (inst & Hi & Hdel & Hfin); [by left|].
  rewrite (Hans _ _ _ Hi), Hdel. unfold finish_pool_deletion. rewrite Hfin.
  destruct (retryOnConflict _ _) as [w err] eqn:Hr. split_and!; simpl; [done|..].
  - intros n [x Hx]. unfold UnsetCache in Hx. apply lookup_delete_Some in Hx as [Hne Hx].
    destruct (elem_of_cons names n name) as [Hc _].
    destruct Hc as [->|?]; [apply Hcache; eauto|done|done].
  - intros n Hn. assert (n ≠ name) as Hne by (intros ->; done).
    destruct (Hobjs n) as (i & Ho & Hd & Hf); [by right|]. exists i. split; [|done].
    replace w with (retryOnConflict (drop_finalizer (O:=IPPool) ippoolFinalizer name)
      (o_w (finalize_pool name o))).1 by (by rewrite Hr).
    apply (Hretry (λ w, pool_obj w n = Some i)); [|done].
    intros w0 Hw0. by rewrite drop_finalizer_other.
Qed.

Lemma wait_pools_drains names : ∀ fuel i o,
  only_runs → answers → NoDup names → draining names o → (length names ≤ fuel)%nat →
  ∃ o', wait_pools fuel (λ k, reconcile_all (option_list (names !! (k - i)%nat))) i o = (o', Fin ()) ∧
    o_ippools o' = ∅.
Proof.
  induction names as [|n names IH]; intros fuel i o Hretry Hans Hnd Hd Hf.
  - assert (o_ippools o = ∅) as He.
    { apply map_empty. intros n. destruct (o_ippools o !! n) eqn:E; [|done].
      destruct Hd as (_ & Hc & _). exfalso. eapply not_elem_of_nil, Hc. eauto. }
    exists o. destruct fuel; simpl; by rewrite He.
  - destruct fuel as [|fuel]; simpl in Hf; [lia|]. apply NoDup_cons in Hnd as [Hn Hnd].
    pose proof (ReconcileIPPool_drains n names o Hretry Hans Hn Hd) as Hd1.
    destruct (IH fuel (S i) (ReconcileIPPool retryOnConflict n o).1) as (o' & Hw & He); [done..|lia|].
    destruct (GetSize (o_ippools o) =? 0) eqn:Hz.
    { exists o. simpl. rewrite Hz. split; [done|]. apply Z.eqb_eq in Hz. unfold GetSize in Hz.
      apply map_size_empty_inv. lia. }
    exists o'. split; [|done]. simpl. rewrite Hz, Nat.sub_diag. simpl. rewrite <- Hw.
    clear. generalize (ReconcileIPPool retryOnConflict n o).1. intros o1.
    assert (∀ fuel k o1, (S i ≤ k)%nat →
      wait_pools fuel (λ k0, reconcile_all (option_list ((n :: names) !! (k0 - i)%nat))) k o1
      = wait_pools fuel (λ k0, reconcile_all (option_list (names !! (k0 - S i)%nat))) k o1) as H.
    { clear. intros fuel. induction fuel as [|fuel IH]; intros k o1 Hk; [done|]. simpl.
      destruct (_ =? 0); [done|]. rewrite IH by lia.
      replace (k - i)%nat with (S (k - S i)) by lia. done. }
    by apply H.
Qed.
End pools.

(** ** Deleting the configuration *)

Section deletion.
Context {W : Type} {pools : Client W IPPool} {cidrs : Client W CIDRSpec}
  {nets : Client W MultiNicNetwork} {ord : MapRange} {daemonsets : Client W DaemonSet}
  {poolobjs : Client W (KObject IPPool)}.
Context (post : W → string → L3ConfigRequest → W * http_answer).
Context (pool_obj : W → string → option (KObject IPPool))
  (retryOnConflict : (W → W * option kerr) → W → W * option kerr).

(** C19: deleting the configuration ends and deletes the daemon set. When the
    operator is ready, the CIDRs can be listed, their deletion leaves every cached IPPool marked for deletion with
    its finalizer in place, the API server answers every read of a stored pool,
    retries only run what they are given, and the IPPool reconciler serves one of
    these pools per second, then the finalizer of the configuration returns after as
    many seconds as there are pools: the wait ends with an empty cache of pools, the
    daemon set of the given name is then deleted in the cluster as the wait left it
    (an error of that call is ignored), and the state returned is the result of this
    call with the operator no longer ready. *)
Theorem config_deletion_ends DAEMON_PORT dsName o cidrMap names fuel :
  ClientFrame W (KObject IPPool) pool_obj → only_runs retryOnConflict → answers pool_obj →
  ListCIDR (o_w o) = (cidrMap, None) →
  draining pool_obj names (delete_cidrs post DAEMON_PORT o (range_map cidrMap)) →
  NoDup names → (length names ≤ fuel)%nat →
  let others i := reconcile_all retryOnConflict (option_list (names !! i)) in
  ∃ o1 w e,
    wait_pools fuel others 0 (delete_cidrs post DAEMON_PORT o (range_map cidrMap)) = (o1, Fin ()) ∧
    o_ippools o1 = ∅ ∧ cl_Delete (O:=DaemonSet) (o_w o1) dsName = (w, e) ∧
    config_finalizer post DAEMON_PORT fuel others dsName o = (set_ready (set_w o1 w) false, Fin ()).
Proof.
  intros Hlaws Hretry Hans Hlist Hd Hnd Hf others.
  destruct (wait_pools_drains pool_obj retryOnConflict names fuel 0
    (delete_cidrs post DAEMON_PORT o (range_map cidrMap))) as (o1 & Hw & He); [done..|].
  assert (∀ fuel k o1, wait_pools fuel others k o1
    = wait_pools fuel (λ i, reconcile_all retryOnConflict (option_list (names !! (i - 0)%nat))) k o1) as Heq.
  { clear. intros fuel. induction fuel as [|fuel IH]; intros k o1; [done|]. simpl.
    rewrite IH, Nat.sub_0_r. done. }
  rewrite <- Heq in Hw. unfold config_finalizer. rewrite Hlist, Hw.
  destruct (cl_Delete (O:=DaemonSet) (o_w o1) dsName) as [w e] eqn:Hdel.
  by exists o1, w, e.
Qed.

(** one pool that is cached and no longer stored blocks the deletion of
    the configuration for ever: the IPPool reconciler finds no object and
    leaves the cache as it is, so whatever reconciliations of pools run
    meanwhile, the finalizer never leaves its waiting loop. *)
Theorem stale_pool_blocks_config DAEMON_PORT dsName o cidrMap n fuel names :
  ClientFrame W (KObject IPPool) pool_obj → only_runs retryOnConflict →
  ListCIDR (o_w o) = (cidrMap, None) →
  stale pool_obj n (delete_cidrs post DAEMON_PORT o (range_map cidrMap)) →
  (config_finalizer post DAEMON_PORT fuel (λ i, reconcile_all retryOnConflict (names i)) dsName o).2
  = OutOfFuel.
Proof.
  intros Hlaws Hretry Hlist Hs. unfold config_finalizer. rewrite Hlist.
  pose proof (wait_pools_stale pool_obj retryOnConflict names n fuel 0 _ Hretry Hs) as Hw.
  destruct (wait_pools _ _ _ _) as [o' r]. simpl in Hw. by subst r.
Qed.
End deletion.

(** ** A cluster whose API server is up *)

Record ccluster := mkCC {
  cc_pools : gmap string (KObject IPPool);
  cc_cidrs : kstore CIDRSpec;
  cc_nets : kstore MultiNicNetwork;
  cc_sets : kstore DaemonSet
}.

Definition set_pools (c : ccluster) (m : gmap string (KObject IPPool)) : ccluster :=
  mkCC m (cc_cidrs c) (cc_nets c) (cc_sets c).

(** the objects themselves *)
#[export] Instance cc_poolobjs : Client ccluster (KObject IPPool) := {|
  cl_Get c n := match cc_pools c !! n with Some i => inl i | None => inr NotFound end;
  cl_List c := inl (map_to_list (cc_pools c));
  cl_Create c n i :=
    match cc_pools c !! n with
    | Some _ => (c, Some AlreadyExists)
    | None => (set_pools c (<[n := i]> (cc_pools c)), None)
    end;
  cl_Update c n i :=
    match cc_pools c !! n with
    | None => (c, Some NotFound)
    | Some _ =>
        if ko_Deleted i && bool_decide (ko_Finalizers i = [])
        then (set_pools c (delete n (cc_pools c)), None)
        else (set_pools c (<[n := i]> (cc_pools c)), None)
    end;
  cl_Delete c n :=
    match cc_pools c !! n with
    | None => (c, Some NotFound)
    | Some i =>
        if bool_decide (ko_Finalizers i = []) then (set_pools c (delete n (cc_pools c)), None)
        else (set_pools c (<[n := mkKObj (ko_Finalizers i) true (ko_Obj i)]> (cc_pools c)), None)
    end;
  cl_Patch c n _ i :=
    match cc_pools c !! n with
    | None => (c, Some NotFound)
    | Some _ => (set_pools c (<[n := i]> (cc_pools c)), None)
    end
|}.

#[export] Instance cc_poolobjs_laws : ClientFrame ccluster (KObject IPPool) (λ c n, cc_pools c !! n).
Proof.
  split; simpl; store_law.
Qed.

(** the pools as the handlers see them; an object with finalizers is only marked when
    it is deleted *)
#[export] Instance cc_pool_client : Client ccluster IPPool := {|
  cl_Get c n := match cc_pools c !! n with Some i => inl (ko_Obj i) | None => inr NotFound end;
  cl_List c := inl ((λ kv, (kv.1, ko_Obj kv.2)) <$> map_to_list (cc_pools c));
  cl_Create c n p :=
    match cc_pools c !! n with
    | Some _ => (c, Some AlreadyExists)
    | None => (set_pools c (<[n := mkKObj [] false p]> (cc_pools c)), None)
    end;
  cl_Update c n p :=
    match cc_pools c !! n with
    | None => (c, Some NotFound)
    | Some i => (set_pools c (<[n := mkKObj (ko_Finalizers i) (ko_Deleted i) p]> (cc_pools c)), None)
    end;
  cl_Delete c n :=
    match cc_pools c !! n with
    | None => (c, Some NotFound)
    | Some i =>
        if bool_decide (ko_Finalizers i = []) then (set_pools c (delete n (cc_pools c)), None)
        else (set_pools c (<[n := mkKObj (ko_Finalizers i) true (ko_Obj i)]> (cc_pools c)), None)
    end;
  cl_Patch c n _ p :=
    match cc_pools c !! n with
    | None => (c, Some NotFound)
    | Some i => (set_pools c (<[n := mkKObj (ko_Finalizers i) (ko_Deleted i) p]> (cc_pools c)), None)
    end
|}.

#[export] Instance cc_cidr_client : Client ccluster CIDRSpec :=
  part_client cc_cidrs (λ c s, mkCC (cc_pools c) s (cc_nets c) (cc_sets c)).
#[export] Instance cc_net_client : Client ccluster MultiNicNetwork :=
  part_client cc_nets (λ c s, mkCC (cc_pools c) (cc_cidrs c) s (cc_sets c)).
#[export] Instance cc_set_client : Client ccluster DaemonSet :=
  part_client cc_sets (λ c s, mkCC (cc_pools c) (cc_cidrs c) (cc_nets c) s).

#[local] Existing Instance map_to_list_range.

(** one network with one pool, and its configuration *)
Definition cc_host : HostInterfaceInfo :=
  mkHostInterfaceInfo 0 "host1" "eth1" "10.0.0.1" "192.168.0.0/24" "net-192.168.0.0-24".

Definition cc_cidr : CIDRSpec :=
  mkCIDRSpec (mkPluginConfig "net" "ipvlan" "192.168.0.0/16" [] 8 2 [] "l2")
    [mkCIDREntry "10.0.0.0/24" 0 "192.168.0.0/18" [cc_host]].

Definition cc_pool : IPPool :=
  mkIPPool ∅ (mkIPPoolSpec "192.168.0.0/24" "192.168.0.0/18" "net" "host1" "eth1" [] []).

(** the operator, with the pool in its cache; the pool has the finalizer or not *)
Definition cc_op (finalizers : list string) : Operator ccluster :=
  mkOp (mkCC {["net-192.168.0.0-24" := mkKObj finalizers false cc_pool]}
             (mkK {["net" := cc_cidr]} false) (mkK ∅ false)
             (mkK {["multi-nicd" := newCNIDaemonSet "ns" "multi-nicd"
                                      (cf_Daemon (getDefaultConfigSpec "/opt/cni/bin"))]} false))
    {["net-192.168.0.0-24" := ip_Spec cc_pool]} ∅ ∅ (mkNetHandler false ∅) ∅ 0 false true.

Definition no_post (w : ccluster) (a : string) (r : L3ConfigRequest) : ccluster * http_answer :=
  (w, PostError "refused").

Definition once (f : ccluster → ccluster * option kerr) (w : ccluster) : ccluster * option kerr := f w.

Lemma once_only_runs : only_runs once.
Proof. intros P f Hf w Hw. by apply Hf. Qed.

Lemma config_deletion_ends_witness :
  let others i := reconcile_all once (option_list (["net-192.168.0.0-24"] !! i)) in
  ∃ o1 w e,
    wait_pools 1 others 0 (delete_cidrs no_post "11000" (cc_op [ippoolFinalizer])
      (range_map {["net" := cc_cidr]})) = (o1, Fin ()) ∧
    o_ippools o1 = ∅ ∧ cl_Delete (O:=DaemonSet) (o_w o1) "multi-nicd" = (w, e) ∧
    config_finalizer no_post "11000" 1 others "multi-nicd" (cc_op [ippoolFinalizer])
    = (set_ready (set_w o1 w) false, Fin ()).
Proof.
  apply (config_deletion_ends no_post (λ c n, cc_pools c !! n) once "11000" "multi-nicd"
    (cc_op [ippoolFinalizer]) {["net" := cc_cidr]} ["net-192.168.0.0-24"] 1).
  - apply cc_poolobjs_laws.
  - apply once_only_runs.
  - intros w n inst H. simpl. by rewrite H.
  - vm_compute. reflexivity.
  - split_and!; [by vm_compute|..].
    + intros n [x Hx].
      assert (o_ippools (delete_cidrs no_post "11000" (cc_op [ippoolFinalizer])
        (range_map {["net" := cc_cidr]})) = {["net-192.168.0.0-24" := ip_Spec cc_pool]}) as Hc
        by (vm_compute; reflexivity).
      rewrite Hc in Hx. apply lookup_singleton_Some in Hx as [<- _]. apply list_elem_of_here.
    + intros n ->%list_elem_of_singleton.
      exists (mkKObj [ippoolFinalizer] true cc_pool). split_and!; by vm_compute.
  - apply NoDup_singleton.
  - done.
Defined.

(** the daemon set and the pool are gone afterwards *)
Example config_deletion_gone :
  let w := o_w (config_finalizer no_post "11000" 1
    (λ i, reconcile_all once (option_list (["net-192.168.0.0-24"] !! i))) "multi-nicd"
    (cc_op [ippoolFinalizer])).1 in
  (k_objs (cc_sets w), cc_pools w) = (∅, ∅).
Proof. vm_compute. reflexivity. Qed.

(** the pool was cached at start-up, before it got the finalizer *)
Example cached_without_finalizer :
  o_ippools (fst (InitIppoolCache (set_ippools (cc_op []) ∅))) = o_ippools (cc_op []).
Proof. vm_compute. reflexivity. Qed.

Lemma stale_pool_blocks_config_witness :
  (config_finalizer no_post "11000" 1000 (λ _, reconcile_all once ["net-192.168.0.0-24"]) "multi-nicd"
     (cc_op [])).2 = OutOfFuel.
Proof.
  apply (stale_pool_blocks_config no_post (λ c n, cc_pools c !! n) once "11000" "multi-nicd" (cc_op [])
    {["net" := cc_cidr]} "net-192.168.0.0-24" 1000 (λ _, ["net-192.168.0.0-24"])).
  - apply cc_poolobjs_laws.
  - apply once_only_runs.
  - vm_compute. reflexivity.
  - split; [|by vm_compute]. vm_compute. eauto.
Defined.

(** ** What the daemons get to see *)

(** the environment of a container on a node: the last variable of a name counts, a
    field reference gives the name of the node *)
Definition pod_env (node : string) (vars : list EnvVar) (key : string) : option string :=
  (λ v, match ev_FieldPath v with Some _ => node | None => ev_Value v end)
  <$> last (filter (λ v, ev_Name v = key) vars).

Definition daemon_env (node : string) (ds : DaemonSet) : string → option string :=
  pod_env node (dse_Containers ds ≫= ct_Env).

Lemma pod_env_snoc node vars v key :
  ev_Name v ≠ key → pod_env node (vars ++ [v]) key = pod_env node vars key.
Proof.
  intros Hne. unfold pod_env. rewrite filter_app, (filter_cons_False _ v) by done.
  by rewrite app_nil_r.
Qed.

Lemma pod_env_last node vars v :
  pod_env node (vars ++ [v]) (ev_Name v)
  = Some (match ev_FieldPath v with Some _ => node | None => ev_Value v end).
Proof. unfold pod_env. by rewrite filter_app, filter_cons_True, filter_nil, last_snoc. Qed.

Lemma daemon_env_eq ns name spec node :
  daemon_env node (newCNIDaemonSet ns name spec) = pod_env node (dm_Env spec ++ [hostNameVar]).
Proof. unfold daemon_env. simpl. by rewrite app_nil_r. Qed.

(** a configuration whose environment tells the daemon the configured port
    connects operator and daemons: in the daemon set built from it every
    daemon takes the name of its node whatever else the environment says,
    listens on the port that the operator's requests go to, gets each host
    path mounted at its pod path under one volume name, and its pods are the
    ones the operator's watcher takes for daemons. *)
Theorem daemonset_connects ns name spec node h pod :
  pod_env node (dm_Env (cf_Daemon spec)) "DAEMON_PORT"
    = Some (Strconv.Itoa (dm_DaemonPort (cf_Daemon spec))) →
  0 < dm_DaemonPort (cf_Daemon spec) < 2 ^ 63 →
  let ds := newCNIDaemonSet ns name (cf_Daemon spec) in
  let env := daemon_env node ds in
  Daemon.initHostName env h = node ∧
  GetDaemonAddressByPod (cn_DAEMON_PORT (SetDaemonConnector ns spec)) pod
  = "http://" +:+ dp_HostIP pod +:+ ":" +:+ Strconv.Itoa (Daemon.daemon_port env) ∧
  (∀ mnt, mnt ∈ dm_HostPathMounts (cf_Daemon spec) →
     (mkVolume (hm_Name mnt) (Some (hm_HostCNIPath mnt)) ∈ dse_Volumes ds) ∧
     ∀ c, c ∈ dse_Containers ds → mkVolumeMount (hm_Name mnt) (hm_PodCNIPath mnt) ∈ ct_VolumeMounts c) ∧
  (∀ p, kp_Labels p = dse_PodLabels ds → isDaemonPod p = true) ∧
  dse_MatchLabels ds = dse_PodLabels ds.
Proof.
  intros Hport Hrange ds env. unfold env, ds. rewrite daemon_env_eq. split_and!.
  - unfold Daemon.initHostName. by rewrite (pod_env_last node _ hostNameVar).
  - unfold Daemon.daemon_port, GetDaemonAddressByPod. rewrite pod_env_snoc, Hport by done.
    rewrite bool_decide_eq_false_2 by (apply Itoa_nonempty; lia).
    unfold Strconv.Atoi. by rewrite ParseInt_Itoa.
  - intros mnt Hm. split.
    + simpl. by apply (list_elem_of_fmap_2 (λ mnt, mkVolume (hm_Name mnt) (Some (hm_HostCNIPath mnt)))).
    + intros c ->%list_elem_of_singleton. simpl.
      by apply (list_elem_of_fmap_2 (λ mnt, mkVolumeMount (hm_Name mnt) (hm_PodCNIPath mnt))).
  - intros p Hp. unfold isDaemonPod. rewrite Hp. simpl. by rewrite lookup_singleton_eq.
  - done.
Qed.

(** the default configuration is such a one *)
Lemma daemonset_connects_witness :
  let spec := getDefaultConfigSpec "/opt/cni/bin" in
  let ds := newCNIDaemonSet "ns" "multi-nicd" (cf_Daemon spec) in
  let env := daemon_env "node1" ds in
  Daemon.initHostName env (inr "no name") = "node1" ∧
  GetDaemonAddressByPod (cn_DAEMON_PORT (SetDaemonConnector "ns" spec))
    (mkDaemonPod "d" "ns" "10.0.0.1" "node1" ∅)
  = "http://" +:+ "10.0.0.1" +:+ ":" +:+ Strconv.Itoa (Daemon.daemon_port env) ∧
  (∀ mnt, mnt ∈ dm_HostPathMounts (cf_Daemon spec) →
     (mkVolume (hm_Name mnt) (Some (hm_HostCNIPath mnt)) ∈ dse_Volumes ds) ∧
     ∀ c, c ∈ dse_Containers ds → mkVolumeMount (hm_Name mnt) (hm_PodCNIPath mnt) ∈ ct_VolumeMounts c) ∧
  (∀ p, kp_Labels p = dse_PodLabels ds → isDaemonPod p = true) ∧
  dse_MatchLabels ds = dse_PodLabels ds.
Proof.
  apply (daemonset_connects "ns" "multi-nicd" (getDefaultConfigSpec "/opt/cni/bin") "node1"
    (inr "no name") (mkDaemonPod "d" "ns" "10.0.0.1" "node1" ∅)).
  - vm_compute. reflexivity.
  - by vm_compute.
Defined.

(** the default paths are those of the daemon's server, and the routing tables of the
    host are where the daemon looks for them *)
Example default_config_paths :
  let spec := getDefaultConfigSpec "/opt/cni/bin" in
  (cf_JoinPath spec, cf_InterfacePath spec, cf_AddRoutePath spec, cf_DeleteRoutePath spec)
  = (Daemon.JOIN_PATH, Daemon.INTERFACE_PATH, Daemon.ADD_L3CONFIG_PATH, Daemon.DELETE_L3CONFIG_PATH) ∧
  (cf_AddRoutePath spec, cf_DeleteRoutePath spec) = (ADD_ROUTE_PATH, DELETE_ROUTE_PATH) ∧
  Daemon.SetRTTablePath (daemon_env "node1" (newCNIDaemonSet "ns" "multi-nicd" (cf_Daemon spec)))
  = "/opt/rt_tables".
Proof. split_and!; vm_compute; reflexivity. Qed.

(** the configured port alone does not reach the daemon: without the variable it
    listens on 11000 while the operator calls the configured port *)
Lemma port_not_passed ns name spec node :
  pod_env node (dm_Env (cf_Daemon spec)) "DAEMON_PORT" = None →
  Daemon.daemon_port (daemon_env node (newCNIDaemonSet ns name (cf_Daemon spec))) = 11000 ∧
  cn_DAEMON_PORT (SetDaemonConnector ns spec) = Strconv.Itoa (dm_DaemonPort (cf_Daemon spec)).
Proof.
  intros Hn. split; [|done]. rewrite daemon_env_eq. unfold Daemon.daemon_port.
  by rewrite pod_env_snoc, Hn by done.
Qed.

(** a daemon set that cannot be read leaves the connector as it was, and the
    reconciliation counts as done *)
Lemma deploy_error_dropped {W} `{Client W DaemonSet} ns name spec (s : ConfigState W) e :
  cl_Get (O:=DaemonSet) (o_w (cs_op s)) name = inr (Failure e) → deploy ns name spec s = s.
Proof. intros He. unfold deploy. by rewrite He. Qed.
