(* ===== verification/Plugin.v ===== *)
(** * internal/plugin: the main plugins of a network

    The operator turns the [mainPlugin] section of a MultiNicNetwork into the
    configuration text of a CNI plugin: one implementation of the interface
    [PluginInterface] per type (ipvlan, macvlan, sriov, aws-ipvlan, mellanox).  The
    SR-IOV and Mellanox plugins read and write objects of other operators through
    the dynamic client: the class [Dynamic] has its operations on JSON objects,
    [DynCreate] and the others are [dynamic.go].  Fields of those operators' objects
    that the code neither sets nor reads are left out. *)

From S2P Require Import Prelude GoLib GoText Json Types K8s Network Cidr CidrHandler Messages Cni.
Import Json.

(** ** metav1 *)

Record OwnerReference := mkOwner {
  or_UID : string;
  or_Name : string;
  or_Controller : option bool;
  or_BlockOwnerDeletion : option bool
}.

Record ObjectMeta := mkMeta {
  om_Name : string;
  om_Namespace : string;
  om_Labels : gmap string string;
  om_Annotations : gmap string string;
  om_OwnerReferences : list OwnerReference;
  om_ResourceVersion : string
}.

Definition zero_meta : ObjectMeta := mkMeta "" "" ∅ ∅ [] "".

(** a network object of the cluster: its metadata and its content *)
Record NetObject := mkNetObj {
  no_UID : string;
  no_Namespace : string;
  no_Finalizers : list string;
  no_Deleted : bool;
  no_Net : MultiNicNetwork
}.

(** ** plugin.go *)

Definition AUTO_GEN_LABEL : string := "multi-nic-cni-generated".

Definition netConfKeys : list string := ["cniVersion"; "type"].

Definition GetMetaObject (name namespace : string) (annotations : gmap string string) : ObjectMeta :=
  mkMeta name namespace {[AUTO_GEN_LABEL := "true"]} annotations [] "".

(** a missing key is nil *)
Definition net_conf_keys (pluginObj : gmap string json) : gmap string json :=
  foldl (λ m key, <[key := default JNull (pluginObj !! key)]> m) ∅ netConfKeys.

Definition RemoveEmpty (args : gmap string string) (pluginStr : string) : string :=
  match Unmarshal (dec_map JNull dec_any) pluginStr None with
  | (_, false) => pluginStr
  | (pluginObj, true) =>
      let pluginObj := default ∅ pluginObj in
      let cleanedObj := net_conf_keys pluginObj in
      let given := filter (λ kv, is_Some (args !! kv.1)) pluginObj in
      print (JMap (given ∪ cleanedObj))
  end.

(** ** utils.go *)

Definition RESOURCE_ANNOTATION : string := "k8s.v1.cni.cncf.io/resourceName".
Definition HOLDER_SUFFIX : string := "-net".

(** [None]: an error *)
Definition getInt (values : gmap string string) (key : string) : option Z :=
  value ← values !! key;
  let '(n, err) := Strconv.Atoi value in if err : bool then None else Some n.

(** [strconv.ParseBool] *)
Definition ParseBool (s : string) : option bool :=
  if bool_decide (s ∈ ["1"; "t"; "T"; "true"; "TRUE"; "True"]) then Some true
  else if bool_decide (s ∈ ["0"; "f"; "F"; "false"; "FALSE"; "False"]) then Some false
  else None.

Definition getBoolean (values : gmap string string) (key : string) : option bool :=
  value ← values !! key; ParseBool value.

Definition ValidateResourceName (name : string) : string :=
  Strings.ReplaceText (Strings.ReplaceText name "." "") "-" "".

Definition GetHolderNetName (name : string) : string := name +:+ HOLDER_SUFFIX.

(** [args[key]] *)
Definition arg (args : gmap string string) (key : string) : string := default "" (args !! key).

(** ** dynamic.go *)

(** [dynamic.Interface] by resource, namespace and name; [Unstructured] to and from
    JSON text *)
Class Dynamic (W : Type) := {
  dyn_Create : W → string → string → json → W * (json + kerr);
  dyn_Update : W → string → string → json → W * (json + kerr);
  dyn_Delete : W → string → string → string → W * option kerr;
  dyn_Get : W → string → string → string → json + kerr;
  dyn_List : W → string → string → list json + kerr;
  un_UnmarshalJSON : string → json + kerr;
  un_MarshalJSON : json → string + kerr
}.

Section dynamic.
Context {W : Type} `{Dynamic W} (json_err : string → string).

(** reading an answer into the result *)
Definition dyn_result {O} `{Wire O} (ures : json) : O * option kerr :=
  match un_MarshalJSON ures with
  | inr err => (w_zero, Some err)
  | inl outbytes =>
      match Unmarshal w_dec outbytes w_zero with
      | (result, true) => (result, None)
      | (result, false) => (result, Some (Failure (json_err outbytes)))
      end
  end.

Definition dyn_write {O} `{Wire O} (call : W → string → string → json → W * (json + kerr))
    (w : W) (gvr namespace : string) (dynamicObj : O) : W * (O * option kerr) :=
  match un_UnmarshalJSON (print (w_json dynamicObj)) with
  | inr err => (w, (w_zero, Some err))
  | inl obj =>
      match call w gvr namespace obj with
      | (w, inr err) => (w, (w_zero, Some err))
      | (w, inl ures) => (w, dyn_result ures)
      end
  end.

Definition DynCreate {O} `{Wire O} (w : W) (gvr namespace : string) (dynamicObj : O)
    : W * (O * option kerr) := dyn_write dyn_Create w gvr namespace dynamicObj.

Definition DynUpdate {O} `{Wire O} (w : W) (gvr namespace : string) (dynamicObj : O)
    : W * (O * option kerr) := dyn_write dyn_Update w gvr namespace dynamicObj.

Definition DynDelete (w : W) (gvr name namespace : string) : W * option kerr :=
  dyn_Delete w gvr namespace name.

Definition DynGet {O} `{Wire O} (w : W) (gvr name namespace : string) : O * option kerr :=
  match dyn_Get w gvr namespace name with
  | inr err => (w_zero, Some err)
  | inl ures => dyn_result ures
  end.

Definition GetFirst {O} `{Wire O} (w : W) (gvr namespace : string) : O * option kerr :=
  match dyn_List w gvr namespace with
  | inr err => (w_zero, Some err)
  | inl [] => (w_zero, Some (Failure "no item"))
  | inl (ures :: _) => dyn_result ures
  end.
End dynamic.

(** ** The interface of the plugins *)

(** configuration text, annotations and error; the objects it creates are in the
    cluster *)
Record PluginInterface (W : Type) := mkPlugin {
  GetConfig : W → NetObject → gmap string HostInterface →
    W * go (string * gmap string string * option string);
  CleanUp : W → NetObject → W * option string
}.
Arguments mkPlugin {W} _ _.
Arguments GetConfig {W} _ _ _ _.
Arguments CleanUp {W} _ _ _.

Definition main_plugin (net : NetObject) : PluginSpec := ns_MainPlugin (mn_Spec (no_Net net)).

Section plugins.
Context {W : Type} `{Dynamic W} `{CniLib} {meta : Wire ObjectMeta} {ord : MapRange}.
Context (json_err : string → string) (err_text : kerr → string).

(** [types.NetConf] with a version and a type *)
Definition typed_conf (version type : string) : net_conf :=
  mkNetConf version "" type "" zero_DNS None None.

(** ** ipvlan.go, macvlan.go *)

Definition IPVLAN_TYPE : string := "ipvlan".
Definition MACVLAN_TYPE : string := "macvlan".

(** IPVLANTypeNetConf; MACVLANTypeNetConf has the same fields *)
Record IPVLANTypeNetConf := mkIPVLAN {
  iv_NetConf : net_conf;
  iv_Master : string;
  iv_Mode : string;
  iv_MTU : Z
}.

Definition ipvlan_json (c : IPVLANTypeNetConf) : json :=
  JObj (netconf_json (iv_NetConf c) ++
    [("master", JStr (iv_Master c)); ("mode", JStr (iv_Mode c)); ("mtu", JInt (iv_MTU c))]).

Definition ipvlan_conf (type : string) (net : NetObject) : IPVLANTypeNetConf :=
  let spec := main_plugin net in
  let args := pl_CNIArgs spec in
  mkIPVLAN (typed_conf (pl_CNIVersion spec) type) (arg args "master") (arg args "mode")
    (default 0 (getInt args "mtu")).

Definition no_cleanup (w : W) (net : NetObject) : W * option string := (w, None).

Definition IPVLANPlugin : PluginInterface W :=
  mkPlugin (λ w net _, (w, Ret (print (ipvlan_json (ipvlan_conf IPVLAN_TYPE net)), ∅, None)))
    no_cleanup.

Definition MACVLANPlugin : PluginInterface W :=
  mkPlugin (λ w net _, (w, Ret (print (ipvlan_json (ipvlan_conf MACVLAN_TYPE net)), ∅, None)))
    no_cleanup.

(** ** awsipvlan.go *)

Definition AWS_IPVLAN_TYPE : string := "aws-ipvlan".

Record AWSIPVLANNetConf := mkAWS {
  aw_NetConf : net_conf;
  aw_PrimaryIP : option (gmap string json);
  aw_PodIP : string;
  aw_Master : string;
  aw_Mode : string;
  aw_MTU : Z
}.

(** a nil map is [null] *)
Definition map_json (m : option (gmap string json)) : json :=
  match m with None => JNull | Some m => JMap m end.

Definition aws_json (c : AWSIPVLANNetConf) : json :=
  JObj (netconf_json (aw_NetConf c) ++
    [("primaryIP", map_json (aw_PrimaryIP c)); ("podIP", JStr (aw_PodIP c));
     ("master", JStr (aw_Master c)); ("mode", JStr (aw_Mode c)); ("mtu", JInt (aw_MTU c))]).

Definition aws_conf (net : NetObject) : AWSIPVLANNetConf :=
  let spec := main_plugin net in
  let args := pl_CNIArgs spec in
  let '(primaryIP, ok) := Unmarshal (dec_map JNull dec_any) (arg args "primaryIP") None in
  mkAWS (typed_conf (pl_CNIVersion spec) AWS_IPVLAN_TYPE) (if ok : bool then primaryIP else None)
    (arg args "podIP") (arg args "master") (arg args "mode") (default 0 (getInt args "mtu")).

Definition AwsVpcCNIPlugin : PluginInterface W :=
  mkPlugin (λ w net _, (w, Ret (print (aws_json (aws_conf net)), ∅, None))) no_cleanup.

(** ** mellanox.go *)

Definition HOST_DEVICE_TYPE : string := "host-device".
Definition MELLANOX_TYPE : string := "mellanox".
Definition DEFAULT_MELLANOX_PREFIX : string := "nvidia.com".
Definition MELLANOX_NIC_CLUSTER_POLICY_RESOURCE : string := "nicclusterpolicies.v1alpha1.mellanox.com".

Record SrIoVResource := mkSrIoV { sr_Prefix : string; sr_ResourceName : string }.

Definition GetAnnotation (r : SrIoVResource) : string := sr_Prefix r +:+ "/" +:+ sr_ResourceName r.

Definition Valid (r : SrIoVResource) : bool := negb (bool_decide (sr_ResourceName r = "")).

(** the type assertion [v.(string)]; a nil value has no type *)
Definition as_string (v : json) : go string :=
  match v with JStr s => Ret s | _ => Panic end.

Definition GetSrIoVResource (resourceMap : gmap string json) : go (option SrIoVResource) :=
  match resourceMap !! "resourcePrefix" with
  | None => Ret None
  | Some resourcePrefix =>
      match resourceMap !! "resourceName" with
      | Some resourceName =>
          p ← as_string resourcePrefix; n ← as_string resourceName; Ret (Some (mkSrIoV p n))
      | None => n ← as_string JNull; Ret (Some (mkSrIoV DEFAULT_MELLANOX_PREFIX n))
      end
  end.

Fixpoint resource_list (l : list json) : go (list SrIoVResource) :=
  match l with
  | [] => Ret []
  | resource :: rest =>
      r ← match resource with JObj m => GetSrIoVResource (map_of m) | _ => Ret None end;
      rs ← resource_list rest;
      Ret (match r with Some r => r :: rs | None => rs end)
  end.

(** the resources and whether the error is nil *)
Definition GetSrIoVResourcesFromSrIoVPlugin (configStr : string) : go (list SrIoVResource * bool) :=
  match Unmarshal (dec_map JNull dec_any) configStr None with
  | (_, false) => Ret ([], false)
  | (config, true) =>
      match default ∅ config !! "resourceList" with
      | Some (JArr resourceList) => rs ← resource_list resourceList; Ret (rs, true)
      | _ => Ret ([], true)
      end
  end.

Definition GetCombinedResourceNames (rs : list SrIoVResource) : string :=
  Strings.Join (GetAnnotation <$> filter (λ r, Valid r = true) rs) ",".

(** NicClusterPolicy: the SR-IOV device plugin's configuration, nil at either pointer *)
Record NicClusterPolicy := mkPolicyObj { np_Name : string; np_SriovConfig : option (option string) }.

(** how the API server's policy object is read *)
Context {policy_wire : Wire NicClusterPolicy}.

Definition getPolicy (w : W) : NicClusterPolicy + kerr :=
  match GetFirst json_err w MELLANOX_NIC_CLUSTER_POLICY_RESOURCE "" with
  | (_, Some err) => inr err
  | (policy, None) => inl policy
  end.

Definition GetSrIoVResources (w : W) : go (list SrIoVResource) :=
  match getPolicy w with
  | inr _ => Ret []
  | inl policy =>
      match np_SriovConfig policy with
      | Some (Some config) => '(rs, _) ← GetSrIoVResourcesFromSrIoVPlugin config; Ret rs
      | _ => Ret []
      end
  end.

Record HostDeviceTypeNetConf := mkHostDevice { hd_NetConf : net_conf; hd_IPAM : option (gmap string json) }.

(** the field [ipam] hides the one of the embedded struct, and is omitted when empty;
    [deviceID] is never set *)
Definition hostdevice_json (c : HostDeviceTypeNetConf) : json :=
  JObj (filter (λ kv, kv.1 ≠ "ipam") (netconf_json (hd_NetConf c)) ++
    omit_empty "ipam" (bool_decide (default ∅ (hd_IPAM c) = ∅)) (map_json (hd_IPAM c))).

Definition mellanox_GetConfig (w : W) (net : NetObject) (hifList : gmap string HostInterface)
    : W * go (string * gmap string string * option string) :=
  (w,
   rs ← GetSrIoVResources w;
   let resourceAnnotation := GetCombinedResourceNames rs in
   if bool_decide (resourceAnnotation = "") then
     Ret ("", ∅, Some "failed to get resource annotation from sriov plugin config")
   else
     let conf := mkNetConf (pl_CNIVersion (main_plugin net)) (mn_Name (no_Net net)) HOST_DEVICE_TYPE
                   "" zero_DNS None None in
     let ipam := ns_IPAM (mn_Spec (no_Net net)) in
     match Unmarshal (dec_map JNull dec_any) ipam None with
     | (_, false) => Ret ("", ∅, Some (json_err ipam))
     | (obj, true) =>
         Ret (print (hostdevice_json (mkHostDevice conf obj)),
              {[RESOURCE_ANNOTATION := resourceAnnotation]}, None)
     end).

Definition MellanoxPlugin : PluginInterface W := mkPlugin mellanox_GetConfig no_cleanup.

(** ** sriov_resource.go, sriov.go *)

Definition SRIOV_RESOURCE_PREFIX : string := "openshift.io".
Definition SRIOV_NAMESPACE : string := "openshift-sriov-network-operator".
Definition SRIOV_TYPE : string := "sriov".
Definition SRIOV_DEFAULT_NUMVFS : Z := 1.
Definition SRIOV_NETWORK_RESOURCE : string := "sriovnetworks.v1.sriovnetwork.openshift.io".
Definition SRIOV_POLICY_RESOURCE : string := "sriovnetworknodepolicies.v1.sriovnetwork.openshift.io".
Definition SRIOV_NODE_STATE_RESOURCE : string := "sriovnetworknodestates.v1.sriovnetwork.openshift.io".

Record SriovNetworkSpec := mkSriovNetworkSpec {
  ss_NetworkNamespace : string;
  ss_ResourceName : string;
  ss_Vlan : Z;
  ss_VlanQoS : Z;
  ss_MinTxRate : option Z;
  ss_MaxTxRate : option Z
}.

Record SriovNetwork := mkSriovNetwork { sn_Meta : ObjectMeta; sn_Spec : SriovNetworkSpec }.

Record SriovNetworkNodePolicySpec := mkPolicySpec {
  sp_ResourceName : string;
  sp_Priority : Z;
  sp_Mtu : Z;
  sp_NumVfs : Z;
  sp_RootDevices : list string;
  sp_IsRdma : bool;
  sp_NeedVhostNet : bool
}.

Record SriovNetworkNodePolicy := mkNodePolicy {
  sy_Meta : ObjectMeta;
  sy_Spec : SriovNetworkNodePolicySpec
}.

(** the SR-IOV interfaces of a node: name and PCI address *)
Record SriovNetworkNodeState := mkNodeState { sx_Interfaces : list (string * string) }.

(** how the objects of the SR-IOV operator are printed and read *)
Context {network_wire : Wire SriovNetwork} {node_policy_wire : Wire SriovNetworkNodePolicy}
  {node_state_wire : Wire SriovNetworkNodeState}.

Record SriovNetConf := mkSriovConf {
  sc_NetConf : net_conf;
  sc_Vlan : Z;
  sc_VlanQoS : Z;
  sc_SpoofChk : option bool;
  sc_Trust : option bool;
  sc_MinTxRate : option Z;
  sc_MaxTxRate : option Z
}.

Definition omit_nil {A} (k : string) (f : A → json) (v : option A) : list (string * json) :=
  match v with None => [] | Some x => [(k, f x)] end.

Definition sriov_json (c : SriovNetConf) : json :=
  JObj (netconf_json (sc_NetConf c) ++
    omit_empty "vlan" (sc_Vlan c =? 0) (JInt (sc_Vlan c)) ++
    omit_empty "vlanQoS" (sc_VlanQoS c =? 0) (JInt (sc_VlanQoS c)) ++
    omit_nil "spoofchk" JBool (sc_SpoofChk c) ++ omit_nil "trust" JBool (sc_Trust c) ++
    omit_nil "min_tx_rate" JInt (sc_MinTxRate c) ++ omit_nil "max_tx_rate" JInt (sc_MaxTxRate c)).

Definition sriov_conf (net : NetObject) : SriovNetConf :=
  let spec := main_plugin net in
  let args := pl_CNIArgs spec in
  mkSriovConf (typed_conf (pl_CNIVersion spec) SRIOV_TYPE)
    (default 0 (getInt args "vlan")) (default 0 (getInt args "vlanQoS"))
    (getBoolean args "spoofchk") (getBoolean args "trust")
    (getInt args "minTxRate") (getInt args "maxTxRate").

(** the networks to serve, without devices yet *)
Definition target_networks (masterNets : list string) (hifs : list (string * HostInterface))
    : gmap string string :=
  let addrs :=
    if bool_decide (masterNets = [])
    then hifs ≫= λ h, i_NetAddress <$> hi_Interfaces (hf_Spec h.2)
    else masterNets in
  foldl (λ m a, <[a := ""]> m) ∅ addrs.

Definition name_device_map (ifaces : list (string * string)) : gmap string string :=
  foldl (λ m i, <[i.1 := i.2]> m) ∅ ifaces.

(** a device for each served network of a host *)
Definition host_devices (w : W) (netAddrHash : gmap string string) (h : string * HostInterface)
    : gmap string string :=
  match DynGet (O:=SriovNetworkNodeState) json_err w SRIOV_NODE_STATE_RESOURCE h.1 SRIOV_NAMESPACE with
  | (_, Some _) => netAddrHash
  | (state, None) =>
      if bool_decide (sx_Interfaces state = []) then netAddrHash
      else
        let nameDeviceMap := name_device_map (sx_Interfaces state) in
        foldl (λ m iface,
                 match m !! i_NetAddress iface with
                 | Some _ => <[i_NetAddress iface := arg nameDeviceMap (i_InterfaceName iface)]> m
                 | None => m
                 end) netAddrHash (hi_Interfaces (hf_Spec h.2))
  end.

Definition getRootDevices (w : W) (net : NetObject) (hifList : gmap string HostInterface) : list string :=
  let hifs := range_map hifList in
  let netAddrHash := target_networks (ns_MasterNetAddrs (mn_Spec (no_Net net))) hifs in
  let netAddrHash := foldl (host_devices w) netAddrHash hifs in
  filter (λ v, v ≠ "") (snd <$> range_map netAddrHash).

Definition getResource (w : W) (name : string) (args : gmap string string) (resourceName : string)
    (rootDevices : list string) : W * string :=
  if bool_decide (arg args "resourceName" = "") then
    let spec := mkPolicySpec resourceName (default 0 (getInt args "priority"))
      (default 0 (getInt args "mtu")) (default SRIOV_DEFAULT_NUMVFS (getInt args "numVfs"))
      rootDevices (default false (getBoolean args "isRdma"))
      (default false (getBoolean args "needVhostNet")) in
    let policy := mkNodePolicy (GetMetaObject name SRIOV_NAMESPACE ∅) spec in
    let '(w, _) := DynCreate json_err w SRIOV_POLICY_RESOURCE SRIOV_NAMESPACE policy in
    (w, resourceName)
  else (w, arg args "resourceName").

(** [MinTxRate] and [MaxTxRate] both point to the variable [val]: when both are given
    they share the value read last; a rate that does not parse still sets [val] *)
Definition shared_rates (args : gmap string string) : option Z * option Z :=
  match getInt args "maxTxRate", getInt args "minTxRate" with
  | Some mx, Some _ => (Some mx, Some mx)
  | Some mx, None => (None, Some mx)
  | None, Some mn =>
      (Some (match args !! "maxTxRate" with Some v => (Strconv.Atoi v).1 | None => 0 end), None)
  | None, None => (None, None)
  end.

Definition createSriovNetwork (w : W) (name namespace : string) (args : gmap string string)
    (resourceName : string) : W * (SriovNetwork * option kerr) :=
  let '(minTxRate, maxTxRate) := shared_rates args in
  let spec := mkSriovNetworkSpec namespace resourceName (default 0 (getInt args "vlan"))
    (default 0 (getInt args "vlanQoS")) minTxRate maxTxRate in
  let netName := GetHolderNetName name in
  let sriovnet := mkSriovNetwork (GetMetaObject netName SRIOV_NAMESPACE ∅) spec in
  let '(w, (result, err)) := DynCreate json_err w SRIOV_NETWORK_RESOURCE SRIOV_NAMESPACE sriovnet in
  (w, (result, if bool_decide (err = Some AlreadyExists) then None else err)).

Definition sriov_GetConfig (w : W) (net : NetObject) (hifList : gmap string HostInterface)
    : W * go (string * gmap string string * option string) :=
  let name := mn_Name (no_Net net) in
  let args := pl_CNIArgs (main_plugin net) in
  let rootDevices := getRootDevices w net hifList in
  let '(w, resourceName) := getResource w name args (ValidateResourceName name) rootDevices in
  match createSriovNetwork w name (no_Namespace net) args resourceName with
  | (w, (_, Some err)) => (w, Ret ("", ∅, Some (err_text err)))
  | (w, (_, None)) =>
      (w, Ret (print (sriov_json (sriov_conf net)),
               {[RESOURCE_ANNOTATION := SRIOV_RESOURCE_PREFIX +:+ "/" +:+ resourceName]}, None))
  end.

(** [%v] of an error *)
Definition opt_text (e : option kerr) : string :=
  match e with None => "<nil>" | Some e => err_text e end.

Definition sriov_CleanUp (w : W) (net : NetObject) : W * option string :=
  let name := mn_Name (no_Net net) in
  let args := pl_CNIArgs (main_plugin net) in
  let '(w, policyerr) :=
    if bool_decide (arg args "resourceName" = "")
    then DynDelete w SRIOV_POLICY_RESOURCE name SRIOV_NAMESPACE else (w, None) in
  let '(w, err) := DynDelete w SRIOV_NETWORK_RESOURCE (GetHolderNetName name) SRIOV_NAMESPACE in
  (w, match policyerr, err with
      | None, None => None
      | _, _ => Some (opt_text policyerr +:+ "," +:+ opt_text err)
      end).

Definition SriovPlugin : PluginInterface W := mkPlugin sriov_GetConfig sriov_CleanUp.

(** ** controllers/multinicnetwork_controller.go: the plugins by type *)

Definition GetPluginMap : gmap string (PluginInterface W) :=
  {[IPVLAN_TYPE := IPVLANPlugin; MACVLAN_TYPE := MACVLANPlugin; SRIOV_TYPE := SriovPlugin;
    AWS_IPVLAN_TYPE := AwsVpcCNIPlugin; MELLANOX_TYPE := MellanoxPlugin]}.
End plugins.
