(* ===== verification/NetAttachDef.v ===== *)
(** * internal/plugin/net_attach_def.go: NetworkAttachmentDefinitions

    A MultiNicNetwork is offered to pods as one NetworkAttachmentDefinition per
    namespace, whose configuration text is the multi-nic plugin's with the main
    plugin's and the IPAM section written into it by text replacement. *)

From S2P Require Import Prelude GoLib GoText Json JsonSpec Types K8s Network Messages Cni Plugin.
Import Json.

Definition CNI_VERSION : string := "0.3.0".
Definition NET_ATTACH_DEF_API_VERSION : string := "k8s.cni.cncf.io/v1".
Definition NET_ATTACH_DEF_RESOURCE : string := "network-attachment-definitions.v1.k8s.cni.cncf.io".
Definition NET_ATTACH_DEF_KIND : string := "NetworkAttachmentDefinition".

(** [TypeMeta], [ObjectMeta] and [Spec.Config] *)
Record NetworkAttachmentDefinition := mkNAD {
  na_Kind : string;
  na_APIVersion : string;
  na_Meta : ObjectMeta;
  na_Config : string
}.

Definition NewNetworkAttachmentDefinition (metaObj : ObjectMeta) (config : string)
    : NetworkAttachmentDefinition :=
  mkNAD NET_ATTACH_DEF_KIND NET_ATTACH_DEF_API_VERSION metaObj config.

Definition nad_fields {meta : Wire ObjectMeta} : fields NetworkAttachmentDefinition := [
  field "kind" dec_string na_Kind (λ x '(mkNAD _ a m c), mkNAD x a m c);
  field "apiVersion" dec_string na_APIVersion (λ x '(mkNAD k _ m c), mkNAD k x m c);
  field "metadata" w_dec na_Meta (λ x '(mkNAD k a _ c), mkNAD k a x c);
  field "spec" (dec_struct [field "config" dec_string id (λ x _, x)]) na_Config
    (λ x '(mkNAD k a m _), mkNAD k a m x)].

#[export] Instance NAD_wire {meta : Wire ObjectMeta} : Wire NetworkAttachmentDefinition := {|
  w_zero := mkNAD "" "" w_zero "";
  w_json d := JObj (
    omit_empty "kind" (bool_decide (na_Kind d = "")) (JStr (na_Kind d)) ++
    omit_empty "apiVersion" (bool_decide (na_APIVersion d = "")) (JStr (na_APIVersion d)) ++
    [("metadata", w_json (na_Meta d)); ("spec", JObj [("config", JStr (na_Config d))])]);
  w_dec := dec_struct nad_fields
|}.

Definition set_meta (d : NetworkAttachmentDefinition) (m : ObjectMeta) : NetworkAttachmentDefinition :=
  mkNAD (na_Kind d) (na_APIVersion d) m (na_Config d).

(** a missing annotation is the empty string *)
Definition CheckDefChanged (def existingDef : NetworkAttachmentDefinition) : bool :=
  let ann := om_Annotations (na_Meta def) in
  let old := om_Annotations (na_Meta existingDef) in
  if negb (bool_decide (na_Config def = na_Config existingDef)) || negb (size ann =? size old)%nat
  then true
  else bool_decide (filter (λ kv, arg ann kv.1 ≠ kv.2) old ≠ ∅).

Section netattachdef.
Context {W : Type} `{Dynamic W} `{CniLib} {meta : Wire ObjectMeta}.
Context (json_err : string → string) (err_text : kerr → string).

(** [vars.TargetCNI], [vars.DaemonPort] *)
Context (TargetCNI : string) (DaemonPort : Z).

(** [controllerutil.SetControllerReference] *)
Context (SetControllerReference : NetObject → NetworkAttachmentDefinition →
  NetworkAttachmentDefinition + string).

(** the namespaces of the cluster with their phases *)
Context (list_namespaces : W → list (string * string) + kerr).

(** ** NetConf *)

(** [NetConf] as [NetToDef] fills it: the main plugin is nil, there are no device IDs
    and no daemon address *)
Definition config_json (net : MultiNicNetwork) : json :=
  let spec := mn_Spec net in
  JObj (netconf_json (mkNetConf CNI_VERSION (mn_Name net) TargetCNI "" zero_DNS None None) ++
    [("plugin", JNull); ("subnet", JStr (ns_Subnet spec)); ("masterNets", strs (ns_MasterNetAddrs spec))]
    ++ omit_empty "multiNICIPAM" (negb (ns_IsMultiNICIPAM spec)) (JBool (ns_IsMultiNICIPAM spec)) ++
    [("daemonIP", JStr ""); ("daemonPort", JInt DaemonPort)]).

(** the texts that are searched *)
Definition empty_ipam : string := quoted "ipam" +:+ ":{}".
Definition null_plugin : string := quoted "plugin" +:+ ":null".

Definition NetToDef (namespace : string) (net : MultiNicNetwork) (pluginStr : string)
    (annotations : gmap string string) : NetworkAttachmentDefinition + string :=
  let name := mn_Name net in
  let configStr := print (config_json net) in
  let ipam := ns_IPAM (mn_Spec net) in
  match Unmarshal (dec_map JNull dec_any) ipam None with
  | (_, false) => inr (json_err ipam)
  | (ipamObj, true) =>
      let pluginValue := quoted "plugin" +:+ ":" +:+ pluginStr in
      let ipamValue := quoted "ipam" +:+ ":" +:+ print (map_json ipamObj) in
      let configStr := Strings.ReplaceText configStr empty_ipam ipamValue in
      let configStr := Strings.ReplaceText configStr null_plugin pluginValue in
      inl (NewNetworkAttachmentDefinition (GetMetaObject name namespace annotations) configStr)
  end.

(** ** Get, delete *)

Definition Get (w : W) (name namespace : string) : NetworkAttachmentDefinition * option kerr :=
  DynGet json_err w NET_ATTACH_DEF_RESOURCE name namespace.

Definition IsExist (w : W) (name namespace : string) : bool :=
  match Get w name namespace with (_, Some _) => false | (_, None) => true end.

Definition Delete (w : W) (name namespace : string) : W * option kerr :=
  DynDelete w NET_ATTACH_DEF_RESOURCE name namespace.

(** ** Create or update *)

(** owner references of the network control and block deletion *)
Definition own (uid : string) (m : ObjectMeta) : ObjectMeta :=
  mkMeta (om_Name m) (om_Namespace m) (om_Labels m) (om_Annotations m)
    ((λ r, if bool_decide (or_UID r = uid)
           then mkOwner (or_UID r) (or_Name r) (Some true) (Some true) else r)
       <$> om_OwnerReferences m)
    (om_ResourceVersion m).

Definition append_error (errMsg namespace : string) (err : option kerr) : string :=
  match err with
  | None => errMsg
  | Some e => errMsg +:+ String (chr 10) (namespace +:+ ": " +:+ err_text e)
  end.

Definition createOrUpdate (w : W) (multinicnetwork : NetObject) (def : NetworkAttachmentDefinition)
    (errMsg : string) : W * string :=
  match SetControllerReference multinicnetwork def with
  | inr e => (w, "failed to set controller reference: " +:+ e)
  | inl def =>
      let def := set_meta def (own (no_UID multinicnetwork) (na_Meta def)) in
      let name := om_Name (na_Meta def) in
      let namespace := om_Namespace (na_Meta def) in
      if IsExist w name namespace then
        let existingDef := fst (Get w name namespace) in
        let def := set_meta def (na_Meta existingDef) in
        if CheckDefChanged def existingDef then
          let '(w, (_, err)) := DynUpdate json_err w NET_ATTACH_DEF_RESOURCE namespace def in
          (w, append_error errMsg namespace err)
        else (w, errMsg)
      else
        let '(w, (_, err)) := DynCreate json_err w NET_ATTACH_DEF_RESOURCE namespace def in
        (w, append_error errMsg namespace err)
  end.

(** the active namespaces, unless the network names some *)
Definition getNamespace (w : W) (net : MultiNicNetwork) : list string * option kerr :=
  let namespaces := ns_Namespaces (mn_Spec net) in
  if bool_decide (namespaces = []) then
    match list_namespaces w with
    | inl items => (fst <$> filter (λ ns, ns.2 = "Active") items, None)
    | inr err => ([], Some err)
    end
  else (namespaces, None).

Fixpoint generate_defs (namespaces : list string) (net : MultiNicNetwork) (pluginStr : string)
    (annotations : gmap string string) : list NetworkAttachmentDefinition + string :=
  match namespaces with
  | [] => inl []
  | ns :: rest =>
      match NetToDef ns net pluginStr annotations with
      | inr err => inr err
      | inl def =>
          match generate_defs rest net pluginStr annotations with
          | inr err => inr err
          | inl defs => inl (def :: defs)
          end
      end
  end.

Definition generate (w : W) (net : MultiNicNetwork) (pluginStr : string)
    (annotations : gmap string string) : list NetworkAttachmentDefinition + string :=
  match getNamespace w net with
  | (_, Some err) => inr (err_text err)
  | (namespaces, None) => generate_defs namespaces net pluginStr annotations
  end.

Fixpoint createOrUpdate_all (w : W) (net : NetObject) (defs : list NetworkAttachmentDefinition)
    (errMsg : string) : W * string :=
  match defs with
  | [] => (w, errMsg)
  | def :: rest =>
      let '(w, errMsg) := createOrUpdate w net def errMsg in createOrUpdate_all w net rest errMsg
  end.

(** the errors of single definitions are only logged *)
Definition CreateOrUpdate (w : W) (net : NetObject) (pluginStr : string)
    (annotations : gmap string string) : W * option string :=
  match generate w (no_Net net) pluginStr annotations with
  | inr err => (w, Some err)
  | inl defs => (fst (createOrUpdate_all w net defs ""), None)
  end.

Definition CreateOrUpdateOnNamespace (w : W) (ns : string) (net : NetObject) (pluginStr : string)
    (annotations : gmap string string) : W * option string :=
  match NetToDef ns (no_Net net) pluginStr annotations with
  | inr err => (w, Some err)
  | inl def =>
      let '(w, errMsg) := createOrUpdate w net def "" in
      (w, if bool_decide (errMsg = "") then None else Some errMsg)
  end.

Fixpoint delete_nets (w : W) (name : string) (namespaces : list string) (err : option kerr)
    : W * option kerr :=
  match namespaces with
  | [] => (w, err)
  | ns :: rest =>
      let '(w, nsErr) := Delete w name ns in
      delete_nets w name rest (match nsErr with Some _ => nsErr | None => err end)
  end.

Definition DeleteNets (w : W) (net : MultiNicNetwork) : W * option kerr :=
  let '(namespaces, err) := getNamespace w net in delete_nets w (mn_Name net) namespaces err.
End netattachdef.
