(* ===== verification/NetworkReconciler.v ===== *)
(** * controllers/multinicnetwork_controller.go: reconciling a network

    A MultiNicNetwork gets a finalizer, a NetworkAttachmentDefinition in each of its
    namespaces and, when the multi-nic IPAM manages its addresses, a CIDR; its status
    follows the state of the routes.  A deleted network loses its CIDR, the objects
    of its plugin and its definitions before the finalizer goes. *)

From S2P Require Import Prelude GoLib GoText Json Types K8s.
From S2P Require Import IPPool Network Cidr Route CidrHandler HostInterface Messages Cni Plugin NetAttachDef.
Import Json.

Definition multinicnetworkFinalizer : string := "finalizers.multinicnetwork.multinic.fms.io".

(** [PluginConfig], read from an IPAM section *)
Definition plugin_config_fields : fields PluginConfig := [
  field "name" dec_string pc_Name
    (λ x '(mkPluginConfig _ t s m h i e v), mkPluginConfig x t s m h i e v);
  field "type" dec_string pc_Type
    (λ x '(mkPluginConfig n _ s m h i e v), mkPluginConfig n x s m h i e v);
  field "subnet" dec_string pc_Subnet
    (λ x '(mkPluginConfig n t _ m h i e v), mkPluginConfig n t x m h i e v);
  field "masterNets" (dec_slice "" dec_string) pc_MasterNetAddrs
    (λ x '(mkPluginConfig n t s _ h i e v), mkPluginConfig n t s x h i e v);
  field "hostBlock" dec_int pc_HostBlock
    (λ x '(mkPluginConfig n t s m _ i e v), mkPluginConfig n t s m x i e v);
  field "interfaceBlock" dec_int pc_InterfaceBlock
    (λ x '(mkPluginConfig n t s m h _ e v), mkPluginConfig n t s m h x e v);
  field "excludeCIDRs" (dec_slice "" dec_string) pc_ExcludeCIDRs
    (λ x '(mkPluginConfig n t s m h i _ v), mkPluginConfig n t s m h i x v);
  field "vlanMode" dec_string pc_VlanMode
    (λ x '(mkPluginConfig n t s m h i e _), mkPluginConfig n t s m h i e x)].

Definition zero_PluginConfig : PluginConfig := mkPluginConfig "" "" "" [] 0 0 [] "".

(** [GetCIDR] of a missing object leaves an empty one *)
Definition zero_CIDR : CIDRSpec := mkCIDRSpec zero_PluginConfig [].

Section reconciler.
Context {W : Type} {pools : Client W IPPool} {cidrs : Client W CIDRSpec}
  {nets : Client W MultiNicNetwork} {netobjs : Client W NetObject} {ord : MapRange}.
Context `{Dynamic W} `{CniLib} {meta : Wire ObjectMeta}.
Context (post : W → string → L3ConfigRequest → W * http_answer) (DAEMON_PORT : string).
Context (json_err : string → string) (err_text : kerr → string).
Context (MultiNICIPAMType TargetCNI : string) (DaemonPort : Z).
Context (SetControllerReference : NetObject → NetworkAttachmentDefinition →
  NetworkAttachmentDefinition + string).
Context (list_namespaces : W → list (string * string) + kerr).
Context (retryOnConflict : (W → W * option kerr) → W → W * option kerr).
Context (PluginMap : gmap string (PluginInterface W)).

(** the error, or whether the IPAM section is the multi-nic IPAM's *)
Definition IsMultiNICIPAM (instance : MultiNicNetwork) : bool + string :=
  let ipam := ns_IPAM (mn_Spec instance) in
  match Unmarshal dec_IPAM ipam "" with
  | (_, false) => inr (ipam +:+ ": " +:+ json_err ipam)
  | (type, true) => inl (bool_decide (type = MultiNICIPAMType))
  end.

(** [None]: not the multi-nic IPAM *)
Definition GetIPAMConfig (instance : MultiNicNetwork) : option PluginConfig + string :=
  match IsMultiNICIPAM instance with
  | inr err => inr err
  | inl false => inl None
  | inl true =>
      let spec := mn_Spec instance in
      match Unmarshal (dec_struct plugin_config_fields) (ns_IPAM spec) zero_PluginConfig with
      | (_, false) => inr (json_err (ns_IPAM spec))
      | (c, true) =>
          inl (Some (mkPluginConfig (mn_Name instance) (pl_Type (ns_MainPlugin spec)) (ns_Subnet spec)
                       (ns_MasterNetAddrs spec) (pc_HostBlock c) (pc_InterfaceBlock c)
                       (pc_ExcludeCIDRs c) (pc_VlanMode c)))
      end
  end.

(** a missing CIDR is created; an existing one is left to the CIDR reconciler *)
Definition HandleMultiNicIPAM (fuel : nat) (now : Z) (getNode : string → node_answer)
    (instance : MultiNicNetwork) : op W (option string) := λ o,
  match GetIPAMConfig instance with
  | inr err => (o, Fin (Some err))
  | inl None => (o, Fin None)
  | inl (Some ipamConfig) =>
      match GetCIDR (o_w o) (mn_Name instance) with
      | inl _ => (o, Fin None)
      | inr NotFound =>
          let '(o, r) := NewCIDRWithNewConfig fuel now getNode ipamConfig o in
          (o, r ← r; Fin (match r with Ok _ => None | Err e => Some e end))
      | inr err => (o, Fin (Some (err_text err)))
      end
  end.

Definition GetMainPluginConf (w : W) (instance : NetObject) (hifs : gmap string HostInterface)
    : W * go (string * gmap string string * option string) :=
  let type := pl_Type (main_plugin instance) in
  match PluginMap !! type with
  | Some p => GetConfig p w instance hifs
  | None => (w, Ret ("", ∅, Some ("cannot find plugin " +:+ type)))
  end.

Definition GenerateNetAttachDef (instance : NetObject) : op W (option string) := λ o,
  match GetMainPluginConf (o_w o) instance (ListCache (o_hifs o)) with
  | (w, Panic) => (set_w o w, Crash)
  | (w, Ret (mainPlugin, annotations, Some err)) => (set_w o w, Fin (Some err))
  | (w, Ret (mainPlugin, annotations, None)) =>
      let mainPlugin := RemoveEmpty (pl_CNIArgs (main_plugin instance)) mainPlugin in
      let '(w, err) := CreateOrUpdate json_err err_text TargetCNI DaemonPort SetControllerReference
                         list_namespaces w instance mainPlugin annotations in
      (set_w o w, Fin err)
  end.

(** ** Deletion *)

(** every error is dropped *)
Definition call_finalizer (instance : NetObject) (o : Operator W) : Operator W :=
  let net := no_Net instance in
  let w := o_w o in
  let w :=
    match IsMultiNICIPAM net with
    | inl true =>
        match GetCIDR w (mn_Name net) with
        | inl cidr => fst (DeleteCIDR post DAEMON_PORT w (o_daemons o) (mn_Name net) cidr)
        | inr _ => fst (DeleteCIDR post DAEMON_PORT w (o_daemons o) "" zero_CIDR)
        end
    | _ => w
    end in
  let w :=
    match PluginMap !! pl_Type (main_plugin instance) with
    | Some p => fst (CleanUp p w instance)
    | None => w
    end in
  let w := fst (DeleteNets list_namespaces w net) in
  let h := o_nets o in
  set_nets (set_w o w) (mkNetHandler (nh_syncFlag h) (UnsetCache (nh_cache h) (mn_Name net))).

Definition net_finalizers (i : NetObject) (f : list string) : NetObject :=
  mkNetObj (no_UID i) (no_Namespace i) f (no_Deleted i) (no_Net i).

Definition remove_net_finalizer (name : string) (w : W) : W * option kerr :=
  match cl_Get (O:=NetObject) w name with
  | inr NotFound => (w, None)
  | inr err => (w, Some err)
  | inl instance =>
      cl_Update w name
        (net_finalizers instance (filter (λ f, f ≠ multinicnetworkFinalizer) (no_Finalizers instance)))
  end.

Definition add_net_finalizer (name : string) (instance : NetObject) (w : W)
    : W * NetObject * option kerr :=
  if bool_decide (multinicnetworkFinalizer ∈ no_Finalizers instance) then (w, instance, None)
  else
    let instance := net_finalizers instance (no_Finalizers instance ++ [multinicnetworkFinalizer]) in
    let '(w, err) := cl_Update w name instance in
    (w, instance, err).

Definition finish_net_deletion (name : string) (instance : NetObject) (o : Operator W)
    : Operator W * rec_result :=
  if bool_decide (multinicnetworkFinalizer ∈ no_Finalizers instance) then
    let o := call_finalizer instance o in
    let '(w, err) := retryOnConflict (remove_net_finalizer name) (o_w o) in
    (set_w o w, match err with Some e => ReconcileError e | None => Reconciled end)
  else (o, Reconciled).

(** ** Reconcile *)

(** the instance with all networks of the hosts when it names none, and the latest
    discovery information *)
Definition refresh_instance (o : Operator W) (instance : NetObject) : NetObject :=
  let net := no_Net instance in
  let spec := mn_Spec net in
  let st := mn_Status net in
  let masters :=
    if bool_decide (ns_MasterNetAddrs spec = [])
    then GetAllNetAddrs (hf_Spec <$> ListCache (o_hifs o)) else ns_MasterNetAddrs spec in
  let spec := mkNetSpec masters (ns_Subnet spec) (ns_IPAM spec) (ns_IsMultiNICIPAM spec)
                (ns_MainPlugin spec) (ns_Policy spec) (ns_Namespaces spec) in
  let discover := mkDiscover (GetSize (o_daemons o)) (GetInfoAvailableSize (o_hifs o))
                    (ds_CIDRProcessedHost (st_DiscoverStatus st)) in
  mkNetObj (no_UID instance) (no_Namespace instance) (no_Finalizers instance) (no_Deleted instance)
    (mkNetwork (mn_Name net) spec
       (mkNetStatus (st_ComputeResults st) discover (st_NetConfigStatus st) (st_RouteStatus st)
          (st_Message st) (st_LastSyncTime st))).

(** the status update whose error is only logged *)
Definition update_config_status (now : Z) (instance : MultiNicNetwork) (status message : string)
    (o : Operator W) : Operator W :=
  let '(w, nh, _) := UpdateNetConfigStatus now (o_w o) (o_nets o) instance status message in
  set_nets (set_w o w) nh.

(** applying the routes of a network whose routes are unknown or not applied *)
Definition sync_routes (now : Z) (name : string) : op W rec_result := λ o,
  match GetCache (o_cidrs o) name with
  | None => (o, Fin Reconciled)
  | Some cidr =>
      let '(w, routeStatus) := SyncCIDRRoute post DAEMON_PORT (o_w o) (o_daemons o) cidr false in
      let '(w, nh, (netStatus, err)) :=
        SyncAllStatus now w (o_nets o) name cidr routeStatus (GetSize (o_daemons o))
          (GetInfoAvailableSize (o_hifs o)) false in
      let o := set_nets (set_w o w) nh in
      let '(o, r) :=
        match err with
        | Some _ => (o, Fin ())
        | None =>
            if bool_decide (ds_CIDRProcessedHost (st_DiscoverStatus netStatus)
                            = ds_InterfaceInfoAvailable (st_DiscoverStatus netStatus))
            then (o, Fin ()) else UpdateCIDRs o
        end in
      (o, _ ← r; Fin (if bool_decide (routeStatus = RouteUnknown) then RequeueAfter Normal
                      else Reconciled))
  end.

(** the status of a network whose definitions are in place *)
Definition sync_route_status (now : Z) (instance : MultiNicNetwork) : op W rec_result := λ o,
  let st := mn_Status instance in
  let routeStatus := st_RouteStatus st in
  let l3 := ns_IsMultiNICIPAM (mn_Spec instance) in
  if bool_decide (routeStatus = RouteUnknown) || (l3 && bool_decide (routeStatus = RouteNoApplied))
  then sync_routes now (mn_Name instance) o
  else if negb l3 && (bool_decide (routeStatus = "") || bool_decide (routeStatus = RouteNoApplied))
  then
    let instance := set_Status instance
      (mkNetStatus (st_ComputeResults st) (st_DiscoverStatus st) (st_NetConfigStatus st)
         RouteNoApplied "" (st_LastSyncTime st)) in
    (update_config_status now instance ConfigComplete "" o, Fin Reconciled)
  else if negb (bool_decide (routeStatus = AllRouteApplied))
  then (update_config_status now instance WaitForConfig "" o, Fin Reconciled)
  else (o, Fin Reconciled).

Definition reconcile_live (fuel : nat) (now : Z) (getNode : string → node_answer)
    (instance : NetObject) : op W rec_result := λ o,
  let instance := refresh_instance o instance in
  let net := no_Net instance in
  let '(o, r) := GenerateNetAttachDef instance o in
  match r with
  | Crash => (o, Crash)
  | OutOfFuel => (o, OutOfFuel)
  | Stuck => (o, Stuck)
  | Fin (Some err) =>
      (update_config_status now net ConfigFailed
         ("Failed to create " +:+ mn_Name net +:+ ": " +:+ err) o, Fin (RequeueAfter Normal))
  | Fin None =>
      let '(o, r) := HandleMultiNicIPAM fuel now getNode net o in
      match r with
      | Crash => (o, Crash)
      | OutOfFuel => (o, OutOfFuel)
      | Stuck => (o, Stuck)
      | Fin (Some err) => (o, Fin (RequeueAfter Normal))
      | Fin None => sync_route_status now net o
      end
  end.

Definition ReconcileNetwork (fuel : nat) (now : Z) (getNode : string → node_answer) (name : string)
    : op W rec_result := λ o,
  if negb (o_ready o) then (o, Fin (RequeueAfter Normal))
  else match cl_Get (O:=NetObject) (o_w o) name with
  | inr NotFound => (o, Fin Reconciled)
  | inr _ => (o, Fin (RequeueAfter Long))
  | inl instance =>
      let '(w, instance, err) := add_net_finalizer name instance (o_w o) in
      let o := set_w o w in
      match err with
      | Some e => (o, Fin (ReconcileError e))
      | None =>
          if no_Deleted instance then
            let '(o, r) := finish_net_deletion name instance o in (o, Fin r)
          else reconcile_live fuel now getNode instance o
      end
  end.

(** ** A new namespace *)

(** the object, with its metadata, of a cached network *)
Context (net_object : MultiNicNetwork → NetObject).

Fixpoint new_namespace_nets (namespace : string) (l : list MultiNicNetwork) : op W () := λ o,
  match l with
  | [] => (o, Fin ())
  | net :: rest =>
      let instance := net_object net in
      match GetMainPluginConf (o_w o) instance (ListCache (o_hifs o)) with
      | (w, Panic) => (set_w o w, Crash)
      | (w, Ret (_, _, Some _)) => new_namespace_nets namespace rest (set_w o w)
      | (w, Ret (mainPlugin, annotations, None)) =>
          let mainPlugin := RemoveEmpty (pl_CNIArgs (ns_MainPlugin (mn_Spec net))) mainPlugin in
          let '(w, _) := CreateOrUpdateOnNamespace json_err err_text TargetCNI DaemonPort
                           SetControllerReference w namespace instance mainPlugin annotations in
          new_namespace_nets namespace rest (set_w o w)
      end
  end.

Definition HandleNewNamespace (namespace : string) : op W () := λ o,
  new_namespace_nets namespace (FilterNetworksByNamespace (o_nets o) namespace) o.

(** ** namespace_watcher.go *)

(** the goroutine takes one namespace out of the channel *)
Definition ProcessNamespaceQueue (ns : string) : op W () := HandleNewNamespace ns.

(** the informer reports objects one after the other, and its handler waits until
    the goroutine has taken the namespace; an object of another type is skipped *)
Fixpoint watch_namespaces (objs : list (option string)) : op W () := λ o,
  match objs with
  | [] => (o, Fin ())
  | None :: rest => watch_namespaces rest o
  | Some ns :: rest =>
      match ProcessNamespaceQueue ns o with
      | (o, Fin _) => watch_namespaces rest o
      | (o, Crash) => (o, Crash)
      | (o, OutOfFuel) => (o, OutOfFuel)
      | (o, Stuck) => (o, Stuck)
      end
  end.
End reconciler.
