(* ===== verification/NetAttachSpec.v ===== *)
(** * The cluster's definitions as the operator relies on them

    [DynLaws] states what the dynamic client promises for one kind of object;
    [nad_store] is a cluster of NetworkAttachmentDefinitions that keeps it, with
    metadata printed by the keys of the Kubernetes API. *)

From S2P Require Import Prelude GoLib GoText Json JsonSpec JsonText Types K8s Network Messages Cni Plugin.
From S2P Require Import NetAttachDef.
Import Json.

(** ** The cluster of one kind of object behind the dynamic client

    [obj_at] is the stored object as a client reads it; [kept] relates what was
    written to what is stored: the server sets metadata of its own.  [ok] are the
    objects whose JSON text is read back as it was printed. *)
Class DynLaws {W O} `{Dynamic W} `{Wire O} (json_err : string → string) (gvr : string)
    (name_of : O → string) (obj_at : W → string → string → option O) (kept : O → O → Prop)
    (ok : O → Prop) := {
  dl_name : ∀ w ns n o, obj_at w ns n = Some o → name_of o = n;
  dl_ok : ∀ w ns n o, obj_at w ns n = Some o → ok o;
  dl_get : ∀ w ns n v, dyn_Get w gvr ns n = inl v →
    ∃ o, obj_at w ns n = Some o ∧ dyn_result json_err v = (o, None);
  dl_create : ∀ w ns o v w' r, ok o → un_UnmarshalJSON (print (w_json o)) = inl v →
    dyn_Create w gvr ns v = (w', inl r) →
    obj_at w ns (name_of o) = None ∧ ∃ o', obj_at w' ns (name_of o) = Some o' ∧ kept o o';
  dl_create_other : ∀ w ns o v w' r ns' n', ok o → un_UnmarshalJSON (print (w_json o)) = inl v →
    dyn_Create w gvr ns v = (w', r) → (ns', n') ≠ (ns, name_of o) → obj_at w' ns' n' = obj_at w ns' n';
  dl_update : ∀ w ns o v w' r, ok o → un_UnmarshalJSON (print (w_json o)) = inl v →
    dyn_Update w gvr ns v = (w', inl r) → ∃ o', obj_at w' ns (name_of o) = Some o' ∧ kept o o';
  dl_update_other : ∀ w ns o v w' r ns' n', ok o → un_UnmarshalJSON (print (w_json o)) = inl v →
    dyn_Update w gvr ns v = (w', r) → (ns', n') ≠ (ns, name_of o) → obj_at w' ns' n' = obj_at w ns' n'
}.

Section dyn.
Context {W O} `{DynLaws W O json_err gvr name_of obj_at kept ok}.

Lemma DynCreate_ok w ns o w' r :
  ok o → DynCreate json_err w gvr ns o = (w', (r, None)) →
  obj_at w ns (name_of o) = None ∧ ∃ o', obj_at w' ns (name_of o) = Some o' ∧ kept o o'.
Proof.
  intros Hok. unfold DynCreate, dyn_write. destruct (un_UnmarshalJSON _) as [v|] eqn:Hv; [|done].
  destruct (dyn_Create _ _ _ _) as [w1 [u|]] eqn:Hc; [|done]. intros [= <- _]. by eapply dl_create.
Qed.

Lemma DynUpdate_ok w ns o w' r :
  ok o → DynUpdate json_err w gvr ns o = (w', (r, None)) →
  ∃ o', obj_at w' ns (name_of o) = Some o' ∧ kept o o'.
Proof.
  intros Hok. unfold DynUpdate, dyn_write. destruct (un_UnmarshalJSON _) as [v|] eqn:Hv; [|done].
  destruct (dyn_Update _ _ _ _) as [w1 [u|]] eqn:Hc; [|done]. intros [= <- _]. by eapply dl_update.
Qed.

Lemma DynCreate_other w ns o w' r ns' n' :
  ok o → DynCreate json_err w gvr ns o = (w', r) → (ns', n') ≠ (ns, name_of o) →
  obj_at w' ns' n' = obj_at w ns' n'.
Proof.
  intros Hok. unfold DynCreate, dyn_write. destruct (un_UnmarshalJSON _) as [v|] eqn:Hv; [|by intros [= <- _]].
  destruct (dyn_Create _ _ _ _) as [w1 u] eqn:Hc. intros Heq Hne.
  assert (w' = w1) as -> by (by destruct u; injection Heq). by eapply dl_create_other.
Qed.

Lemma DynUpdate_other w ns o w' r ns' n' :
  ok o → DynUpdate json_err w gvr ns o = (w', r) → (ns', n') ≠ (ns, name_of o) →
  obj_at w' ns' n' = obj_at w ns' n'.
Proof.
  intros Hok. unfold DynUpdate, dyn_write. destruct (un_UnmarshalJSON _) as [v|] eqn:Hv; [|by intros [= <- _]].
  destruct (dyn_Update _ _ _ _) as [w1 u] eqn:Hc. intros Heq Hne.
  assert (w' = w1) as -> by (by destruct u; injection Heq). by eapply dl_update_other.
Qed.

Lemma DynGet_ok w ns n o :
  DynGet json_err w gvr n ns = (o, None) → obj_at w ns n = Some o.
Proof.
  unfold DynGet. destruct (dyn_Get _ _ _ _) as [v|] eqn:Hg; [|done].
  destruct (dl_get _ _ _ _ Hg) as (o' & Ho & ->). by intros [= ->].
Qed.
End dyn.

(** ** Definitions in the cluster *)

Definition def_name (d : NetworkAttachmentDefinition) : string := om_Name (na_Meta d).

(** everything but the resource version *)
Definition same_def (d d' : NetworkAttachmentDefinition) : Prop :=
  na_Config d' = na_Config d ∧ om_Labels (na_Meta d') = om_Labels (na_Meta d) ∧
  om_Annotations (na_Meta d') = om_Annotations (na_Meta d) ∧
  om_OwnerReferences (na_Meta d') = om_OwnerReferences (na_Meta d).

Definition nad_ok {meta : Wire ObjectMeta} (d : NetworkAttachmentDefinition) : Prop :=
  json_ok (w_json d) = true.

(** [SetControllerReference] changes the owner references only *)
Definition owner_only {meta : Wire ObjectMeta} (scr : NetObject → NetworkAttachmentDefinition →
    NetworkAttachmentDefinition + string) : Prop :=
  ∀ net d d', scr net d = inl d' →
    na_Config d' = na_Config d ∧ om_Name (na_Meta d') = om_Name (na_Meta d) ∧
    om_Namespace (na_Meta d') = om_Namespace (na_Meta d) ∧
    om_Labels (na_Meta d') = om_Labels (na_Meta d) ∧
    om_Annotations (na_Meta d') = om_Annotations (na_Meta d) ∧
    (nad_ok d → nad_ok (set_meta d' (own (no_UID net) (na_Meta d')))).

Lemma nad_ok_iff {meta : Wire ObjectMeta} d :
  nad_ok d ↔ ascii_only (na_Kind d) = true ∧ ascii_only (na_APIVersion d) = true ∧
    json_ok (w_json (na_Meta d)) = true ∧ ascii_only (na_Config d) = true.
Proof.
  unfold nad_ok. cbn [w_json NAD_wire json_ok]. rewrite !forallb_app. unfold omit_empty.
  assert (Hm : ∀ k (s : string), ascii_only k = true →
    forallb (λ kv, ascii_only kv.1 && json_ok kv.2)
      (if bool_decide (s = "") then [] else [(k, JStr s)]) = ascii_only s).
  { intros k s Hk. case_bool_decide as Hs; [by subst|]. cbn. by rewrite Hk, andb_true_r. }
  rewrite !Hm by done. cbn. rewrite !andb_true_r, !andb_true_iff. tauto.
Qed.

Lemma nad_ok_set_meta {meta : Wire ObjectMeta} d e : nad_ok d → nad_ok e → nad_ok (set_meta d (na_Meta e)).
Proof. rewrite !nad_ok_iff. cbn. tauto. Qed.

(** ** Metadata as JSON *)

Definition str_map (m : gmap string string) : json := JMap (JStr <$> m).

Definition dec_str_map : decoder (gmap string string) := λ v old,
  let '(m, err) := dec_map "" dec_string v (Some old) in (default ∅ m, err).

Lemma dec_entries_strs l (m0 : gmap string string) e :
  dec_entries "" dec_string (prod_map id JStr <$> l) m0 e = (foldl (λ m kv, <[kv.1 := kv.2]> m) m0 l, e).
Proof.
  revert m0 e. induction l as [|[k s] l IH]; intros m0 e; [done|]. rewrite fmap_cons. cbn.
  by rewrite orb_false_r, IH.
Qed.

Lemma foldl_insert_map (l : list (string * string)) (m : gmap string string) :
  l ≡ₚ map_to_list m → foldl (λ m kv, <[kv.1 := kv.2]> m) ∅ l = m.
Proof.
  intros Hp. transitivity (list_to_map (reverse l) : gmap string string).
  { clear Hp. induction l as [|[k v] l IH] using rev_ind; [done|].
    rewrite foldl_app, reverse_snoc. cbn. by rewrite IH. }
  rewrite (list_to_map_proper (reverse l) (map_to_list m)).
  - apply list_to_map_to_list.
  - rewrite reverse_Permutation, Hp. apply NoDup_fst_map_to_list.
  - by rewrite reverse_Permutation.
Qed.

Lemma dec_str_map_read m : dec_str_map (str_map m) ∅ = (m, false).
Proof.
  unfold str_map, JMap, dec_str_map. cbn [dec_map default].
  assert (Hp : merge_sort key_le (map_to_list (JStr <$> m)) ≡ₚ prod_map id JStr <$> map_to_list m).
  { by rewrite merge_sort_Permutation, map_to_list_fmap. }
  apply Permutation_map_inv in Hp as (l & -> & Hl).
  rewrite (dec_entries_strs l ∅ false), (foldl_insert_map _ m) by done. done.
Qed.

Definition owner_json (o : OwnerReference) : json :=
  JObj ([("name", JStr (or_Name o)); ("uid", JStr (or_UID o))] ++
        omit_nil "controller" JBool (or_Controller o) ++
        omit_nil "blockOwnerDeletion" JBool (or_BlockOwnerDeletion o)).

Definition dec_owner : decoder OwnerReference := dec_struct [
  field "name" dec_string or_Name (λ x '(mkOwner u _ c b), mkOwner u x c b);
  field "uid" dec_string or_UID (λ x '(mkOwner _ n c b), mkOwner x n c b);
  field "controller" (dec_ptr false dec_bool) or_Controller (λ x '(mkOwner u n _ b), mkOwner u n x b);
  field "blockOwnerDeletion" (dec_ptr false dec_bool) or_BlockOwnerDeletion
    (λ x '(mkOwner u n c _), mkOwner u n c x)].

Definition zero_owner : OwnerReference := mkOwner "" "" None None.

Lemma dec_owner_read o : dec_owner (owner_json o) zero_owner = (o, false).
Proof. destruct o as [u n [[]|] [[]|]]; reflexivity. Qed.

Definition owners_json (l : list OwnerReference) : json := JArr (owner_json <$> l).
Definition dec_owners : decoder (list OwnerReference) := dec_slice zero_owner dec_owner.

Lemma dec_owners_read l : dec_owners (owners_json l) [] = (l, false).
Proof.
  unfold dec_owners, owners_json. cbn [dec_slice]. rewrite <- list_fmap_compose. f_equal.
  - rewrite <- (list_fmap_id l) at 2. apply list_fmap_ext. intros _ o _. unfold compose.
    by rewrite dec_owner_read.
  - induction l as [|o l IH]; [done|]. rewrite fmap_cons. cbn [existsb]. by rewrite dec_owner_read.
Qed.

Definition meta_plain : Wire ObjectMeta := {|
  w_zero := zero_meta;
  w_json m := JObj [("name", JStr (om_Name m)); ("namespace", JStr (om_Namespace m));
    ("labels", str_map (om_Labels m)); ("annotations", str_map (om_Annotations m));
    ("ownerReferences", owners_json (om_OwnerReferences m));
    ("resourceVersion", JStr (om_ResourceVersion m))];
  w_dec := dec_struct [
    field "name" dec_string om_Name (λ x '(mkMeta _ s l a o r), mkMeta x s l a o r);
    field "namespace" dec_string om_Namespace (λ x '(mkMeta n _ l a o r), mkMeta n x l a o r);
    field "labels" dec_str_map om_Labels (λ x '(mkMeta n s _ a o r), mkMeta n s x a o r);
    field "annotations" dec_str_map om_Annotations (λ x '(mkMeta n s l _ o r), mkMeta n s l x o r);
    field "ownerReferences" dec_owners om_OwnerReferences
      (λ x '(mkMeta n s l a _ r), mkMeta n s l a x r);
    field "resourceVersion" dec_string om_ResourceVersion (λ x '(mkMeta n s l a o _), mkMeta n s l a o x)]
|}.

Lemma meta_read m : w_dec (Wire := meta_plain) (w_json (Wire := meta_plain) m) (w_zero (Wire := meta_plain))
  = (m, false).
Proof.
  destruct m as [n s l a o r]. lazy -[str_map dec_str_map owners_json dec_owners empty].
  rewrite !dec_str_map_read, dec_owners_read. reflexivity.
Qed.

(** ** A cluster of definitions *)

#[local] Existing Instance meta_plain.

Lemma nad_read d : w_dec (w_json d) w_zero = ((d, false) : NetworkAttachmentDefinition * bool).
Proof.
  destruct d as [k a m c]. cbn [w_dec w_json w_zero NAD_wire dec_struct na_Kind na_APIVersion na_Meta na_Config].
  unfold omit_empty. rewrite foldl_app, foldl_app.
  assert (Hk : ∀ a m c, foldl (dec_member nad_fields) (mkNAD "" a m c, false)
                 (if bool_decide (k = "") then [] else [("kind", JStr k)]) = (mkNAD k a m c, false)).
  { intros. case_bool_decide; [by subst|reflexivity]. }
  assert (Ha : ∀ k m c, foldl (dec_member nad_fields) (mkNAD k "" m c, false)
                 (if bool_decide (a = "") then [] else [("apiVersion", JStr a)]) = (mkNAD k a m c, false)).
  { clear Hk. intros. case_bool_decide; [by subst|reflexivity]. }
  rewrite Hk, Ha. lazy -[w_dec w_json w_zero meta_plain]. rewrite meta_read. reflexivity.
Qed.

Abbreviation nad_store := (gmap (string * string) NetworkAttachmentDefinition).

(** what is stored under its own name and can be printed *)
Definition store_at (w : nad_store) (ns n : string) : option NetworkAttachmentDefinition :=
  d ← w !! (ns, n); if bool_decide (def_name d = n) && json_ok (w_json d) then Some d else None.

Definition store_write (fresh : bool) (w : nad_store) (gvr ns : string) (v : json)
    : nad_store * (json + kerr) :=
  match w_dec v w_zero with
  | (d, false) =>
      match store_at w ns (def_name d), fresh with
      | Some _, true => (w, inr AlreadyExists)
      | None, false => (w, inr NotFound)
      | _, _ => (<[(ns, def_name d) := d]> w, inl v)
      end
  | _ => (w, inr (Failure "bad request"))
  end.

#[export] Instance store_dynamic : Dynamic nad_store := {|
  dyn_Create := store_write true;
  dyn_Update := store_write false;
  dyn_Delete w gvr ns n :=
    match store_at w ns n with None => (w, Some NotFound) | Some _ => (delete (ns, n) w, None) end;
  dyn_Get w gvr ns n := match store_at w ns n with Some d => inl (w_json d) | None => inr NotFound end;
  dyn_List w gvr ns := inl [];
  un_UnmarshalJSON text := match parse text with Some v => inl v | None => inr (Failure "syntax") end;
  un_MarshalJSON v := inl (print v)
|}.

Lemma store_at_insert w ns d ns' n' :
  nad_ok d →
  store_at (<[(ns, def_name d) := d]> w) ns' n'
  = if bool_decide ((ns', n') = (ns, def_name d)) then Some d else store_at w ns' n'.
Proof.
  intros Hok. unfold store_at. case_bool_decide as Heq.
  - injection Heq as -> ->. rewrite lookup_insert_eq. cbn.
    rewrite bool_decide_true by done. by rewrite Hok.
  - by rewrite lookup_insert_ne by congruence.
Qed.

Lemma store_read d v :
  nad_ok d → match parse (print (w_json d)) with Some v => inl v | None => inr (Failure "syntax") end
             = (inl v : json + kerr) → v = w_json d.
Proof. intros Hok. rewrite parse_print by done. by intros [= <-]. Qed.

Lemma same_def_refl d : same_def d d.
Proof. by split_and!. Qed.

#[export] Instance store_laws json_err :
  DynLaws (W := nad_store) json_err NET_ATTACH_DEF_RESOURCE def_name store_at same_def nad_ok.
Proof.
  split.
  - intros w ns n d. unfold store_at. destruct (w !! _) as [x|]; [|done]. cbn.
    case_match eqn:E; [|done]. intros [= <-]. by apply andb_true_iff in E as [?%bool_decide_eq_true _].
  - intros w ns n d. unfold store_at. destruct (w !! _) as [x|]; [|done]. cbn.
    case_match eqn:E; [|done]. intros [= <-]. by apply andb_true_iff in E as [_ ?].
  - intros w ns n v. cbn [dyn_Get store_dynamic]. destruct (store_at w ns n) as [d|] eqn:E; [|done].
    intros Hv. assert (v = w_json d) as -> by congruence.
    exists d. split; [done|]. unfold dyn_result. cbn [un_MarshalJSON store_dynamic].
    rewrite Unmarshal_print, nad_read; [done|].
    unfold store_at in E. destruct (w !! _) as [x|]; [|done]. cbn in E.
    case_match eqn:E2; [|done]. injection E as ->. by apply andb_true_iff in E2 as [_ ?].
  - intros w ns d v w' r Hok Hv%store_read; [|done]. subst v. cbn [dyn_Create store_dynamic].
    unfold store_write. rewrite nad_read. destruct (store_at w ns (def_name d)) eqn:E; [done|].
    intros [= <- _]. split; [done|]. exists d. rewrite store_at_insert by done.
    rewrite bool_decide_true by done. split; [done|apply same_def_refl].
  - intros w ns d v w' r ns' n' Hok Hv%store_read; [|done]. subst v. cbn [dyn_Create store_dynamic].
    unfold store_write. rewrite nad_read. destruct (store_at w ns (def_name d)) eqn:E; [by intros [= <- _]|].
    intros [= <- _] Hne. rewrite store_at_insert by done. by rewrite bool_decide_false.
  - intros w ns d v w' r Hok Hv%store_read; [|done]. subst v. cbn [dyn_Update store_dynamic].
    unfold store_write. rewrite nad_read. destruct (store_at w ns (def_name d)) eqn:E; [|done].
    intros [= <- _]. exists d. rewrite store_at_insert by done.
    rewrite bool_decide_true by done. split; [done|apply same_def_refl].
  - intros w ns d v w' r ns' n' Hok Hv%store_read; [|done]. subst v. cbn [dyn_Update store_dynamic].
    unfold store_write. rewrite nad_read. destruct (store_at w ns (def_name d)) eqn:E; [|by intros [= <- _]].
    intros [= <- _] Hne. rewrite store_at_insert by done. by rewrite bool_decide_false.
Qed.
