(* ===== verification/NetAttachProps.v ===== *)
(** * What a network's definitions contain

    The definitions of a network are in place in each of its namespaces after a call
    without errors ([CreateOrUpdate_in_place]); their text reads as the object that
    was meant ([NetToDef_config]); of a main plugin's configuration exactly the given
    arguments remain ([RemoveEmpty_exact]); and what goes wrong: annotations are
    never updated, failures are not reported, rates of SR-IOV are lost. *)

From S2P Require Import Prelude GoLib GoText Json JsonSpec JsonText Types K8s Network Messages Cni Plugin.
From S2P Require Import NetAttachDef NetAttachSpec.
Import Json.

(** ** Definitions in the cluster *)

(** a definition is stored as generated, or, where one existed, with its old metadata *)
Definition in_place (old : option NetworkAttachmentDefinition) (def d : NetworkAttachmentDefinition) : Prop :=
  na_Config d = na_Config def ∧
  match old with
  | None => om_Labels (na_Meta d) = om_Labels (na_Meta def) ∧
            om_Annotations (na_Meta d) = om_Annotations (na_Meta def)
  | Some e => om_Labels (na_Meta d) = om_Labels (na_Meta e) ∧
              om_Annotations (na_Meta d) = om_Annotations (na_Meta e)
  end.

Section definitions.
Context {W : Type} `{Dynamic W} `{CniLib} {meta : Wire ObjectMeta}.
Context (json_err : string → string) (err_text : kerr → string) (TargetCNI : string) (DaemonPort : Z).
Context (scr : NetObject → NetworkAttachmentDefinition → NetworkAttachmentDefinition + string).
Context (list_namespaces : W → list (string * string) + kerr).
Context (nad_at : W → string → string → option NetworkAttachmentDefinition).

Abbreviation cou := (createOrUpdate json_err err_text scr).
Abbreviation cou_all := (createOrUpdate_all json_err err_text scr).

Lemma append_error_empty errMsg ns err : append_error err_text errMsg ns err = "" → errMsg = "" ∧ err = None.
Proof.
  destruct err as [e|]; cbn; [|by intros ->]. by destruct errMsg.
Qed.

Lemma CheckDefChanged_false def d :
  na_Meta def = na_Meta d → CheckDefChanged def d = false → na_Config def = na_Config d.
Proof. unfold CheckDefChanged. intros _. case_bool_decide; [done|]. done. Qed.

Section laws.
Context (laws : DynLaws json_err NET_ATTACH_DEF_RESOURCE def_name nad_at same_def nad_ok).
Context (Hscr : owner_only scr).

Lemma stored_name w ns n d : nad_at w ns n = Some d → def_name d = n.
Proof. apply (dl_name (DynLaws := laws)). Qed.

Lemma createOrUpdate_ok w net def errMsg w' :
  nad_ok def → cou w net def errMsg = (w', "") →
  errMsg = "" ∧
  ∃ d, nad_at w' (om_Namespace (na_Meta def)) (def_name def) = Some d ∧
    in_place (nad_at w (om_Namespace (na_Meta def)) (def_name def)) def d.
Proof.
  intros Hok. unfold createOrUpdate. destruct (scr net def) as [def'|e] eqn:Hs; [|done].
  destruct (Hscr _ _ _ Hs) as (Hcfg & Hname & Hns & Hlab & Hann & Hok'). specialize (Hok' Hok).
  cbn [na_Meta set_meta own om_Name om_Namespace]. unfold def_name. rewrite <- Hname, <- Hns.
  set (n := om_Name (na_Meta def')). set (ns := om_Namespace (na_Meta def')).
  unfold IsExist. destruct (Get json_err w n ns) as [d [e|]] eqn:Hg; cbn [fst].
  - destruct (DynCreate _ _ _ _ _) as [w1 [r err]] eqn:Hc.
    intros [= <- [-> ->]%append_error_empty]. split; [done|].
    apply DynCreate_ok in Hc as [Hnone (o' & Ho & Hk)]; [|exact Hok']. exists o'. unfold def_name in *. cbn in Hnone, Ho.
    split; [exact Ho|]. destruct Hk as (Hk1 & Hk2 & Hk3 & _). cbn in Hk1, Hk2, Hk3.
    unfold in_place. fold n ns in Hnone. rewrite Hnone. split_and!; congruence.
  - apply DynGet_ok in Hg. rewrite Hg. case_match eqn:Hch.
    + destruct (DynUpdate _ _ _ _ _) as [w1 [r err]] eqn:Hc.
      intros [= <- [-> ->]%append_error_empty]. split; [done|].
      apply DynUpdate_ok in Hc as (o' & Ho & Hk); [|apply nad_ok_set_meta; [exact Hok'|by eapply dl_ok]].
      destruct Hk as (Hk1 & Hk2 & Hk3 & _). cbn in Hk1, Hk2, Hk3.
      exists o'. change (def_name (set_meta _ (na_Meta d))) with (def_name d) in Ho.
      rewrite (stored_name _ _ _ _ Hg) in Ho. split; [exact Ho|]. unfold in_place. split_and!; congruence.
    + intros [= <- ->]. split; [done|]. exists d. split; [done|]. split; [|done].
      apply CheckDefChanged_false in Hch; [|done]. cbn in Hch. congruence.
Qed.

Lemma createOrUpdate_other w net def errMsg w' m ns n :
  nad_ok def → cou w net def errMsg = (w', m) → (ns, n) ≠ (om_Namespace (na_Meta def), def_name def) →
  nad_at w' ns n = nad_at w ns n.
Proof.
  intros Hok. unfold createOrUpdate. destruct (scr net def) as [def'|e] eqn:Hs; [|by intros [= <- _]].
  destruct (Hscr _ _ _ Hs) as (_ & Hname & Hns & _ & _ & Hok'). specialize (Hok' Hok).
  cbn [na_Meta set_meta own om_Name om_Namespace]. unfold def_name. rewrite <- Hname, <- Hns.
  unfold IsExist. destruct (Get _ _ _ _) as [d [e|]] eqn:Hg; cbn [fst].
  - destruct (DynCreate _ _ _ _ _) as [w1 [r err]] eqn:Hc. intros [= <- _] Hne.
    by eapply DynCreate_other; [exact Hok'|..].
  - case_match eqn:Hch; [|by intros [= <- _]].
    destruct (DynUpdate _ _ _ _ _) as [w1 [r err]] eqn:Hc. intros [= <- _] Hne.
    apply DynGet_ok in Hg. eapply DynUpdate_other; [|exact Hc|].
    { apply nad_ok_set_meta; [exact Hok'|by eapply dl_ok]. }
    apply stored_name in Hg. unfold def_name in *. cbn. by rewrite Hg.
Qed.

Lemma createOrUpdate_all_ok w net defs errMsg w' :
  Forall nad_ok defs → cou_all w net defs errMsg = (w', "") →
  NoDup ((λ d, (om_Namespace (na_Meta d), def_name d)) <$> defs) →
  errMsg = "" ∧
  (∀ def, def ∈ defs → ∃ d, nad_at w' (om_Namespace (na_Meta def)) (def_name def) = Some d ∧
     in_place (nad_at w (om_Namespace (na_Meta def)) (def_name def)) def d) ∧
  (∀ ns n, (ns, n) ∉ ((λ d, (om_Namespace (na_Meta d), def_name d)) <$> defs) →
     nad_at w' ns n = nad_at w ns n).
Proof.
  intros Hok. revert w errMsg. induction Hok as [|def defs Hd Hds IH]; intros w errMsg; cbn.
  { intros [= <- ->] _. split_and!; [done|by intros ? ?%elem_of_nil|done]. }
  destruct (cou w net def errMsg) as [w1 m] eqn:Hc. intros Hall [Hnin Hnd]%NoDup_cons.
  destruct (IH _ _ Hall Hnd) as (-> & Hin & Hout).
  destruct (createOrUpdate_ok _ _ _ _ _ Hd Hc) as (-> & d & Hat & Hp). split_and!; [done|..].
  - intros x [->|Hx]%elem_of_cons.
    + exists d. by rewrite Hout.
    + destruct (Hin x Hx) as (y & Hy & Hpy). exists y. split; [done|].
      erewrite <- createOrUpdate_other; [exact Hpy|exact Hd|exact Hc|]. intros Heq. apply Hnin.
      rewrite <- Heq. by apply (list_elem_of_fmap_2 (λ d, (om_Namespace (na_Meta d), def_name d))).
  - intros ns n [Hne Hni]%not_elem_of_cons. rewrite Hout by done. by eapply createOrUpdate_other.
Qed.

Abbreviation to_def := (NetToDef json_err TargetCNI DaemonPort).

Lemma NetToDef_meta ns net p ann def :
  to_def ns net p ann = inl def → na_Meta def = GetMetaObject (mn_Name net) ns ann.
Proof. unfold NetToDef. destruct (Unmarshal _ _ _) as [o []]; [|done]. by intros [= <-]. Qed.

Lemma generate_defs_Forall2 nss net p ann defs :
  generate_defs json_err TargetCNI DaemonPort nss net p ann = inl defs →
  Forall2 (λ ns def, to_def ns net p ann = inl def) nss defs.
Proof.
  revert defs. induction nss as [|ns nss IH]; intros defs; cbn; [by intros [= <-]; constructor|].
  destruct (to_def ns net p ann) as [def|] eqn:Hd; [|done].
  destruct (generate_defs _ _ _ nss _ _ _) as [rest|]; [|done].
  intros [= <-]. constructor; [done|]. by apply IH.
Qed.

Lemma generated_keys nss net p ann defs :
  Forall2 (λ ns def, to_def ns net p ann = inl def) nss defs →
  (λ d, (om_Namespace (na_Meta d), def_name d)) <$> defs = (λ ns, (ns, mn_Name net)) <$> nss.
Proof.
  induction 1 as [|ns def nss defs Hd _ IH]; [done|]. cbn. rewrite IH. f_equal.
  unfold def_name. by rewrite (NetToDef_meta _ _ _ _ _ Hd).
Qed.

(** C22: a call of [CreateOrUpdate] in which no write failed leaves the network's
    definition in each of its namespaces (the named ones, or all active ones): its
    configuration text is the generated one, and its labels and annotations are the
    generated ones if there was none before, and else the old ones; no other
    definition of the cluster is touched. *)
Theorem CreateOrUpdate_in_place w net pluginStr annotations defs w' :
  let namespaces := fst (getNamespace list_namespaces w (no_Net net)) in
  let name := mn_Name (no_Net net) in
  generate json_err err_text TargetCNI DaemonPort list_namespaces w (no_Net net) pluginStr annotations
    = inl defs →
  Forall nad_ok defs → NoDup namespaces →
  cou_all w net defs "" = (w', "") →
  CreateOrUpdate json_err err_text TargetCNI DaemonPort scr list_namespaces w net pluginStr annotations
    = (w', None) ∧
  (∀ ns, ns ∈ namespaces → ∃ def d,
     to_def ns (no_Net net) pluginStr annotations = inl def ∧ nad_at w' ns name = Some d ∧
     in_place (nad_at w ns name) def d) ∧
  (∀ ns n, n ≠ name ∨ ns ∉ namespaces → nad_at w' ns n = nad_at w ns n).
Proof.
  cbv zeta. intros Hgen Hok Hnd Hall. unfold CreateOrUpdate. rewrite Hgen, Hall. split; [done|].
  unfold generate in Hgen. destruct (getNamespace list_namespaces w (no_Net net)) as [nss [e|]]; [done|].
  cbn [fst] in *. apply generate_defs_Forall2 in Hgen as HF. pose proof (generated_keys _ _ _ _ _ HF) as Hk.
  apply createOrUpdate_all_ok in Hall as (_ & Hin & Hout); [|done|].
  2: { rewrite Hk. apply NoDup_fmap; [|done]. by intros a b [= ->]. }
  rewrite Hk in Hout. split.
  - intros ns Hns. apply list_elem_of_lookup in Hns as [i Hi].
    destruct (Forall2_lookup_l _ _ _ _ _ HF Hi) as (def & Hdef & Hd).
    destruct (Hin def) as (d & Hat & Hp); [by eapply list_elem_of_lookup_2|].
    unfold def_name in *. rewrite (NetToDef_meta _ _ _ _ _ Hd) in Hat, Hp. cbn in Hat, Hp.
    exists def, d. done.
  - intros ns n Hne. apply Hout. intros (x & Heq & Hx)%list_elem_of_fmap.
    injection Heq as -> ->. destruct Hne; [congruence|done].
Qed.
End laws.

(** A definition whose text did not change is never written: the annotations of an
    existing definition stay the old ones whatever the plugin asks for, because the
    old metadata is copied before the comparison. *)
Theorem createOrUpdate_stale_annotations w net def def' d errMsg :
  scr net def = inl def' →
  Get json_err w (om_Name (na_Meta def')) (om_Namespace (na_Meta def')) = (d, None) →
  na_Config def' = na_Config d →
  cou w net def errMsg = (w, errMsg).
Proof.
  intros Hs Hg Hcfg. unfold createOrUpdate. rewrite Hs. cbn [na_Meta set_meta own om_Name om_Namespace].
  unfold IsExist. rewrite Hg. cbn [fst]. unfold CheckDefChanged.
  cbn [na_Meta set_meta na_Config]. rewrite Hcfg, (bool_decide_true (na_Config d = _)) by done.
  rewrite Nat.eqb_refl. cbn.
  rewrite bool_decide_eq_false_2; [done|]. intros Hne. apply Hne. apply map_empty. intros k.
  apply map_lookup_filter_None. right. intros v Hv Hn. apply Hn. cbn. unfold arg. by rewrite Hv.
Qed.

(** [CreateOrUpdate] reports success when every definition failed to be written:
    the errors are collected in a message that is only logged, so the reconciler does
    not try again. *)
Theorem CreateOrUpdate_hides_errors w net pluginStr annotations defs :
  generate json_err err_text TargetCNI DaemonPort list_namespaces w (no_Net net) pluginStr annotations
    = inl defs →
  snd (CreateOrUpdate json_err err_text TargetCNI DaemonPort scr list_namespaces w net pluginStr annotations)
    = None.
Proof. intros Hgen. unfold CreateOrUpdate. by rewrite Hgen. Qed.
End definitions.

(** ** The configuration text *)

Section config.
Context `{CniLib} (json_err : string → string) (TargetCNI : string) (DaemonPort : Z).

Abbreviation conf := (config_json TargetCNI DaemonPort).

Lemma config_members net k x :
  netconf_text → k ≠ "ipam" → k ≠ "plugin" → member k (conf net) = Some x →
  inert "ipam" (JObj []) x ∧ inert "plugin" JNull x.
Proof.
  intros Hlib Hi Hp. unfold config_json, member. rewrite find_member_app.
  destruct (find_member k _) as [y|] eqn:Hf; [intros [= <-]; by eapply (nt_inert Hlib)|].
  rewrite find_member_app. cbn [find_member fst snd].
  rewrite bool_decide_false by done. repeat case_bool_decide; try by intros [= <-].
  - intros [= <-]. unfold strs, slice_json. case_bool_decide; [done|]. split; apply inert_strs.
  - rewrite find_member_app. unfold omit_empty. destruct (negb _); cbn [find_member fst snd];
      repeat case_bool_decide; by intros [= <-].
Qed.

Lemma config_ipam net : netconf_text → member "ipam" (conf net) = Some (JObj []).
Proof.
  intros Hlib. unfold config_json, member. rewrite find_member_app.
  pose proof (nt_ipam Hlib CNI_VERSION (mn_Name net) TargetCNI) as Hi. cbn in Hi.
  unfold plain_netconf in Hi. by rewrite Hi.
Qed.

Lemma config_plugin net : netconf_text → member "plugin" (conf net) = Some JNull.
Proof.
  intros Hlib. unfold config_json, member. rewrite find_member_app.
  pose proof (netconf_other CNI_VERSION (mn_Name net) TargetCNI "plugin" Hlib) as Hp. cbn in Hp.
  unfold plain_netconf in Hp. rewrite Hp; [done|]. apply (bool_decide_eq_true_1 _). vm_refl.
Qed.

Lemma NetToDef_text ns net plugin ann def ipam :
  Unmarshal (dec_map JNull dec_any) (ns_IPAM (mn_Spec net)) None = (Some ipam, true) →
  NetToDef json_err TargetCNI DaemonPort ns net plugin ann = inl def →
  na_Config def =
    Strings.ReplaceText
      (Strings.ReplaceText (print (conf net)) empty_ipam (quoted "ipam" +:+ ":" +:+ print (JMap ipam)))
      null_plugin (quoted "plugin" +:+ ":" +:+ plugin).
Proof. intros Hun. unfold NetToDef. rewrite Hun. by intros [= <-]. Qed.

(** C30: the text that [NetToDef] writes by two text replacements reads as the
    configuration that is meant: its main plugin is the given one, its IPAM section
    the network's, and every other member that of the multi-nic configuration, for
    strings that need no escapes and an IPAM section with no null member [plugin]. *)
Theorem NetToDef_config ns net plugin ann def ipam :
  netconf_text →
  Unmarshal (dec_map JNull dec_any) (ns_IPAM (mn_Spec net)) None = (Some ipam, true) →
  json_plain (conf net) = true → json_plain (JMap ipam) = true → json_plain plugin = true →
  inert "plugin" JNull (JMap ipam) →
  NetToDef json_err TargetCNI DaemonPort ns net (print plugin) ann = inl def →
  ∃ v, parse (na_Config def) = Some v ∧
    member "plugin" v = Some plugin ∧ member "ipam" v = Some (JMap ipam) ∧
    ∀ k, k ≠ "plugin" → k ≠ "ipam" → member k v = member k (conf net).
Proof.
  intros Hlib Hun Hpc Hpi Hpp Hin Hdef. rewrite (NetToDef_text _ _ _ _ _ _ Hun Hdef).
  set (c1 := set_member "ipam" (JObj []) (JMap ipam) (conf net)).
  assert (Hc1 : json_plain c1 = true) by (by apply set_member_plain).
  assert (E1 : Strings.ReplaceText (print (conf net)) empty_ipam
                 (quoted "ipam" +:+ ":" +:+ print (JMap ipam)) = print c1).
  { apply (ReplaceText_member "ipam" (JObj [])); [done|done|by right; left|done]. }
  assert (E2 : Strings.ReplaceText (print c1) null_plugin (quoted "plugin" +:+ ":" +:+ print plugin)
               = print (set_member "plugin" JNull plugin c1)).
  { apply (ReplaceText_member "plugin" JNull); [done|done|by left|done]. }
  rewrite E1, E2.
  eexists. split; [apply parse_print, json_plain_ok; by apply set_member_plain|].
  assert (Hmiss : ∀ k, k ≠ "ipam" → member k c1 = member k (conf net)).
  { intros k Hk. apply member_set_miss. intros x Hx. split; [|done].
    destruct (decide (k = "plugin")) as [->|Hkp]; [|by eapply config_members].
    change (JObj _) with (conf net) in Hx. rewrite config_plugin in Hx by done. by injection Hx as <-. }
  assert (Hi1 : member "ipam" c1 = Some (JMap ipam)) by (by apply member_set_hit, config_ipam).
  destruct c1 as [| | | | |l] eqn:Ec; try done.
  split_and!.
  - apply member_set_hit. rewrite Hmiss by done. by apply config_plugin.
  - rewrite member_set_miss; [done|]. intros x Hx. rewrite Hi1 in Hx. injection Hx as <-. by split.
  - intros k Hkp Hki. rewrite <- Hmiss by done. apply member_set_miss. intros x Hx. split; [|done].
    rewrite Hmiss in Hx by done. by eapply config_members.
Qed.
End config.

(** ** The main plugin's configuration *)

Lemma net_conf_keys_lookup m k :
  net_conf_keys m !! k = if bool_decide (k ∈ netConfKeys) then Some (default JNull (m !! k)) else None.
Proof.
  unfold net_conf_keys, netConfKeys. cbn. case_bool_decide as Hk.
  - apply elem_of_cons in Hk as [->|Hk]; [done|]. by apply list_elem_of_singleton in Hk as ->.
  - rewrite !lookup_insert_ne; [done|..]; intros <-; apply Hk; set_solver.
Qed.

(** Of a main plugin's configuration [RemoveEmpty] keeps the version, the type
    and exactly the members that the network gives as arguments; the version and the
    type are null when the configuration has none. *)
Theorem RemoveEmpty_exact args pluginStr m :
  Unmarshal (dec_map JNull dec_any) pluginStr None = (Some m, true) → json_ok (JMap m) = true →
  ∃ m', parse (RemoveEmpty args pluginStr) = Some (JMap m') ∧
    ∀ k, m' !! k = if bool_decide (k ∈ netConfKeys) then Some (default JNull (m !! k))
                   else if bool_decide (is_Some (args !! k)) then m !! k else None.
Proof.
  intros Hun Hok. unfold RemoveEmpty. rewrite Hun. cbn [default].
  set (given := filter (λ kv : string * json, is_Some (args !! kv.1)) m).
  assert (Hl : ∀ k, (given ∪ net_conf_keys m) !! k
    = if bool_decide (k ∈ netConfKeys) then Some (default JNull (m !! k))
      else if bool_decide (is_Some (args !! k)) then m !! k else None).
  { intros k. rewrite lookup_union, net_conf_keys_lookup. unfold given.
    rewrite map_lookup_filter. destruct (m !! k) as [v|] eqn:Hm; cbn;
      repeat case_bool_decide; try done; case_guard; try done. }
  exists (given ∪ net_conf_keys m). split; [|exact Hl]. apply parse_print. apply json_ok_JMap.
  rewrite json_ok_JMap in Hok. intros k v. rewrite Hl. case_bool_decide as Hk.
  - destruct (m !! k) as [x|] eqn:Hm; intros [= <-]; [by eapply Hok|]. cbn. rewrite andb_true_r.
    unfold netConfKeys in Hk. apply elem_of_cons in Hk as [->|Hk]; [done|].
    by apply list_elem_of_singleton in Hk as ->.
  - case_bool_decide; [|done]. intros Hm. by eapply Hok.
Qed.

Lemma nad_ok_all {meta : Wire ObjectMeta} l : forallb (λ d, json_ok (w_json d)) l = true → Forall nad_ok l.
Proof.
  induction l as [|d l IH]; [constructor|]. cbn [forallb]. intros [? ?]%andb_true_iff. constructor; auto.
Qed.

(** ** A network on a cluster with two namespaces *)

#[local] Existing Instance meta_plain.
#[local] Existing Instance cni_plain.

Definition ex_q (s : string) : string := Strings.ReplaceAll s "'" dq.

Definition ex_ipam : string := ex_q "{'type':'multi-nic-ipam','hostBlock':8,'vlanMode':'l3'}".

Definition ex_args : gmap string string := {["mode" := "l3"; "mtu" := "1500"]}.

Definition ex_network : MultiNicNetwork :=
  mkNetwork "net1" (mkNetSpec ["10.0.0.0/16"] "192.168.0.0/16" ex_ipam true
    (mkPluginSpec "0.3.0" "ipvlan" ex_args) (mkPolicy "" "") []) empty_status.

Definition ex_object : NetObject := mkNetObj "uid1" "" [] false ex_network.

(** an owner reference whose strings can be printed *)
Definition ex_owner (net : NetObject) (d : NetworkAttachmentDefinition)
    : NetworkAttachmentDefinition + string :=
  if ascii_only (no_UID net) && ascii_only (mn_Name (no_Net net)) then
    let m := na_Meta d in
    inl (set_meta d (mkMeta (om_Name m) (om_Namespace m) (om_Labels m) (om_Annotations m)
           [mkOwner (no_UID net) (mn_Name (no_Net net)) (Some true) (Some true)] (om_ResourceVersion m)))
  else inr "invalid name".

Lemma ex_owner_only : owner_only ex_owner.
Proof.
  intros net d d'. unfold ex_owner. destruct (_ && _) eqn:E; [|done]. intros [= <-]. split_and!; [done..|].
  apply andb_true_iff in E as [Hu Hn]. rewrite !nad_ok_iff. cbn [na_Kind na_APIVersion na_Config na_Meta set_meta].
  intros (? & ? & Hm & ?). split_and!; [done..| |done]. revert Hm. cbn [own om_Name om_Namespace om_Labels
    om_Annotations om_OwnerReferences om_ResourceVersion w_json meta_plain json_ok forallb fst snd].
  rewrite !andb_true_iff. intros (? & ? & ? & ? & _ & ? & ?). split_and!; try tauto.
  rewrite fmap_cons. cbn [or_UID]. rewrite bool_decide_true by done. cbn. by rewrite Hu, Hn.
Qed.

Definition ex_namespaces (w : nad_store) : list (string * string) + kerr :=
  inl [("default", "Active"); ("old", "Terminating"); ("kube-system", "Active")].

Definition ex_plugin_json : json :=
  ipvlan_json (ipvlan_conf IPVLAN_TYPE ex_object).

Definition ex_plugin : string := RemoveEmpty ex_args (print ex_plugin_json).

Definition ex_defs : list NetworkAttachmentDefinition :=
  match generate ex_q (λ _, "") "multi-nic" 11000 ex_namespaces ∅ ex_network ex_plugin ∅ with
  | inl l => l | inr _ => [] end.

Definition ex_after : nad_store :=
  fst (createOrUpdate_all ex_q (λ _, "") ex_owner ∅ ex_object ex_defs "").

Lemma CreateOrUpdate_in_place_witness :
  CreateOrUpdate ex_q (λ _, "") "multi-nic" 11000 ex_owner ex_namespaces ∅ ex_object ex_plugin ∅
    = (ex_after, None) ∧
  (∃ def d, NetToDef ex_q "multi-nic" 11000 "default" ex_network ex_plugin ∅ = inl def ∧
     store_at ex_after "default" "net1" = Some d ∧ in_place None def d) ∧
  store_at ex_after "old" "net1" = None.
Proof.
  destruct (CreateOrUpdate_in_place ex_q (λ _, "") "multi-nic" 11000 ex_owner ex_namespaces store_at
    (store_laws ex_q) ex_owner_only ∅ ex_object ex_plugin ∅ ex_defs ex_after) as (H1 & H2 & H3).
  - vm_refl.
  - apply nad_ok_all. vm_refl.
  - apply (bool_decide_eq_true_1 _). vm_refl.
  - vm_refl.
  - split; [exact H1|]. split; [apply (H2 "default"); left|].
    apply (H3 "old" "net1"). right. apply (bool_decide_eq_true_1 _). vm_refl.
Defined.

Definition ex_ipam_map : gmap string json :=
  {["type" := JStr "multi-nic-ipam"; "hostBlock" := JNum "8"; "vlanMode" := JStr "l3"]}.

Definition ex_plugin_v : json :=
  match parse ex_plugin with Some v => v | None => JNull end.

Definition ex_def : NetworkAttachmentDefinition :=
  match NetToDef ex_q "multi-nic" 11000 "default" ex_network (print ex_plugin_v) ∅ with
  | inl d => d | inr _ => mkNAD "" "" zero_meta "" end.

Lemma NetToDef_config_witness :
  ∃ v, parse (na_Config ex_def) = Some v ∧
    member "plugin" v = Some ex_plugin_v ∧ member "ipam" v = Some (JMap ex_ipam_map) ∧
    ∀ k, k ≠ "plugin" → k ≠ "ipam" → member k v = member k (config_json "multi-nic" 11000 ex_network).
Proof.
  apply (NetToDef_config ex_q "multi-nic" 11000 "default" ex_network ex_plugin_v ∅ ex_def ex_ipam_map).
  - exact cni_plain_text.
  - vm_refl.
  - vm_refl.
  - vm_refl.
  - vm_refl.
  - intros nv. vm_compute. reflexivity.
  - vm_refl.
Defined.

(** the text of the example *)
Example ex_config : na_Config ex_def = ex_q
  "{'cniVersion':'0.3.0','name':'net1','type':'multi-nic','ipam':{'hostBlock':8,'type':'multi-nic-ipam','vlanMode':'l3'},'dns':null,'plugin':{'cniVersion':'0.3.0','mode':'l3','mtu':1500,'type':'ipvlan'},'subnet':'192.168.0.0/16','masterNets':['10.0.0.0/16'],'multiNICIPAM':true,'daemonIP':'','daemonPort':11000}".
Proof. vm_refl. Qed.

Definition ex_conf_map : gmap string json :=
  default ∅ (fst (Unmarshal (dec_map JNull dec_any) (print ex_plugin_json) None)).

Lemma RemoveEmpty_exact_witness :
  ∃ m', parse (RemoveEmpty ex_args (print ex_plugin_json)) = Some (JMap m') ∧
    ∀ k, m' !! k = if bool_decide (k ∈ netConfKeys) then Some (default JNull (ex_conf_map !! k))
                   else if bool_decide (is_Some (ex_args !! k)) then ex_conf_map !! k else None.
Proof. apply (RemoveEmpty_exact ex_args (print ex_plugin_json) ex_conf_map); vm_refl. Defined.

(** ** Rates of an SR-IOV network *)

(** A minimal rate given alone is written to the SriovNetwork as 0: the field points
    to the variable that the next lookup overwrites. *)
Lemma sriov_min_rate_overwritten args mn :
  getInt args "minTxRate" = Some mn → args !! "maxTxRate" = None → shared_rates args = (Some 0, None).
Proof. intros Hmn Hmx. unfold shared_rates, getInt in *. rewrite Hmx. cbn. by rewrite Hmn. Qed.

(** The rates never reach the plugin: they are printed as [min_tx_rate] and
    [max_tx_rate], but the arguments, by which [RemoveEmpty] keeps members, are named
    [minTxRate] and [maxTxRate]. *)
Example sriov_rates_dropped :
  let args := {["minTxRate" := "10"; "maxTxRate" := "20"; "vlan" := "5"]} in
  let net := mkNetObj "" "" [] false (mkNetwork "n" (mkNetSpec [] "" "" false
               (mkPluginSpec "0.3.0" "sriov" args) (mkPolicy "" "") []) empty_status) in
  (print (sriov_json (sriov_conf net)), RemoveEmpty args (print (sriov_json (sriov_conf net)))) =
  (ex_q "{'cniVersion':'0.3.0','type':'sriov','ipam':{},'dns':null,'vlan':5,'min_tx_rate':10,'max_tx_rate':20}",
   ex_q "{'cniVersion':'0.3.0','type':'sriov','vlan':5}").
Proof. cbv zeta. vm_refl. Qed.
