(* ===== verification/NetworkReconcilerProps.v ===== *)
(** * Deleting a network

    The finalizer of a network drops every error.  When the network's CIDR cannot be
    read at that moment the network is released all the same, and its CIDR, IPPools
    and routes stay behind ([deleted_network_leaves_cidr]). *)

From S2P Require Import Prelude GoLib GoText Json JsonSpec Types K8s.
From S2P Require Import IPPool Network Cidr Route CidrHandler HostInterface Messages Cni Plugin NetAttachDef.
From S2P Require Import NetAttachSpec NetworkReconciler.
Import Json.

Section deletion.
Context {W : Type} {pools : Client W IPPool} {cidrs : Client W CIDRSpec}
  {nets : Client W MultiNicNetwork} {netobjs : Client W NetObject} {ord : MapRange}.
Context `{Dynamic W} `{CniLib} {meta : Wire ObjectMeta}.
Context (post : W → string → L3ConfigRequest → W * http_answer) (DAEMON_PORT : string).
Context (json_err : string → string) (err_text : kerr → string).
Context (MultiNICIPAMType TargetCNI : string) (DaemonPort : Z).
Context (scr : NetObject → NetworkAttachmentDefinition → NetworkAttachmentDefinition + string).
Context (list_namespaces : W → list (string * string) + kerr).
Context (PluginMap : gmap string (PluginInterface W)).
Context (cidr_at : W → string → option CIDRSpec) (net_at : W → string → option NetObject).

(** writes to objects of other kinds leave the CIDRs and the networks alone *)
Record net_frames := mkFrames {
  fr_nad_cidr : ∀ w gvr ns n m, cidr_at (fst (dyn_Delete w gvr ns n)) m = cidr_at w m;
  fr_nad_get : ∀ w gvr ns n m, cl_Get (O:=NetObject) (fst (dyn_Delete w gvr ns n)) m = cl_Get w m;
  fr_net_cidr : ∀ w n o m, cidr_at (fst (cl_Update (O:=NetObject) w n o)) m = cidr_at w m;
  fr_cleanup_cidr : ∀ t p w i m, PluginMap !! t = Some p → cidr_at (fst (CleanUp p w i)) m = cidr_at w m;
  fr_cleanup_get : ∀ t p w i m, PluginMap !! t = Some p →
    cl_Get (O:=NetObject) (fst (CleanUp p w i)) m = cl_Get w m
}.

Lemma delete_nets_frame {A} (f : W → A) w name nss err :
  (∀ w gvr ns n, f (fst (dyn_Delete w gvr ns n)) = f w) →
  f (fst (delete_nets w name nss err)) = f w.
Proof.
  intros Hf. revert w err. induction nss as [|ns nss IH]; intros w err; cbn; [done|].
  unfold Delete, DynDelete. destruct (dyn_Delete _ _ _ _) as [w1 e] eqn:E. rewrite IH.
  pose proof (Hf w NET_ATTACH_DEF_RESOURCE ns name) as Hw. by rewrite E in Hw.
Qed.

Lemma DeleteNets_frame {A} (f : W → A) w net :
  (∀ w gvr ns n, f (fst (dyn_Delete w gvr ns n)) = f w) →
  f (fst (DeleteNets list_namespaces w net)) = f w.
Proof. intros Hf. unfold DeleteNets. destruct (getNamespace _ _ _). by apply delete_nets_frame. Qed.

(** no CIDR has an empty name, and the empty configuration is not routed *)
Lemma DeleteCIDR_empty w daemons e :
  GetCIDR w "" = inr e → fst (DeleteCIDR post DAEMON_PORT w daemons "" zero_CIDR) = w.
Proof.
  intros He. unfold DeleteCIDR. cbn [zero_CIDR c_CIDRs mbind list_bind delete_pools].
  assert (Hr : deleteRoutesFromCIDR post DAEMON_PORT w daemons zero_CIDR = w).
  { unfold deleteRoutesFromCIDR, IsL3Mode. cbn. destruct (GetNetwork w ""); [|done].
    by destruct (negb _). }
  rewrite Hr, He. done.
Qed.

(** when the CIDR of a deleted network cannot be read, the reconciliation still
    releases the network: it ends without an error, the finalizer is gone from the
    object if that is still stored, and the CIDR object is still there; nothing refers to it any more. *)
Theorem deleted_network_leaves_cidr fuel now getNode o name instance cidr e e0 :
  ClientFrame W NetObject net_at → net_frames →
  o_ready o = true → cl_Get (o_w o) name = inl instance →
  multinicnetworkFinalizer ∈ no_Finalizers instance → no_Deleted instance = true →
  mn_Name (no_Net instance) = name →
  IsMultiNICIPAM json_err MultiNICIPAMType (no_Net instance) = inl true →
  cidr_at (o_w o) name = Some cidr → GetCIDR (o_w o) name = inr e → GetCIDR (o_w o) "" = inr e0 →
  (∀ w i o, cl_Get w name = inl i → snd (cl_Update (O:=NetObject) w name o) = None) →
  ∃ o', ReconcileNetwork post DAEMON_PORT json_err err_text MultiNICIPAMType TargetCNI DaemonPort scr
          list_namespaces (λ f w, f w) PluginMap fuel now getNode name o = (o', Fin Reconciled) ∧
    cidr_at (o_w o') name = Some cidr ∧
    ∀ obj, net_at (o_w o') name = Some obj → multinicnetworkFinalizer ∉ no_Finalizers obj.
Proof.
  intros Hlaws Hfr Hready Hget Hfin Hdel Hname Hipam Hat He He0 Hup.
  unfold ReconcileNetwork. rewrite Hready, Hget. cbn [negb].
  unfold add_net_finalizer. rewrite bool_decide_true by done. rewrite Hdel.
  unfold finish_net_deletion. rewrite bool_decide_true by done.
  set (o1 := call_finalizer _ _ _ _ _ _ _ _).
  assert (Hframe : ∀ A (f : W → A), (∀ w gvr ns n, f (fst (dyn_Delete w gvr ns n)) = f w) →
    (∀ t p w i, PluginMap !! t = Some p → f (fst (CleanUp p w i)) = f w) → f (o_w o1) = f (o_w o)).
  { intros A f Hd Hc. unfold o1, call_finalizer. rewrite Hipam, Hname. cbn [o_w set_w set_nets].
    rewrite He, (DeleteCIDR_empty _ _ _ He0), DeleteNets_frame by done.
    destruct (PluginMap !! _) eqn:Hp; [by eapply Hc|done]. }
  assert (Hc1 : cidr_at (o_w o1) name = Some cidr).
  { rewrite (Hframe _ (λ w, cidr_at w name)); [done|..]; intros; [by apply fr_nad_cidr|by eapply fr_cleanup_cidr]. }
  assert (Hg1 : cl_Get (o_w o1) name = inl instance).
  { rewrite (Hframe _ (λ w, cl_Get (O:=NetObject) w name)); [done|..]; intros;
      [by apply fr_nad_get|by eapply fr_cleanup_get]. }
  unfold remove_net_finalizer. rewrite Hg1.
  set (obj := net_finalizers instance _).
  destruct (cl_Update (o_w o1) name obj) as [w2 err] eqn:Hu.
  pose proof (Hup (o_w o1) instance obj Hg1) as Hnone. rewrite Hu in Hnone. cbn in Hnone. subst err.
  eexists. split; [reflexivity|]. cbn [o_w set_w]. split.
  - pose proof (fr_net_cidr Hfr (o_w o1) name obj name) as Hf. rewrite Hu in Hf. cbn in Hf. cbn [o_w set_w]. etransitivity; [exact Hf|exact Hc1].
  - intros obj' Ho. rewrite (update_set _ _ _ _ _ Hu Ho). cbn. intros [? _]%list_elem_of_filter. done.
Qed.
End deletion.

(** ** A cluster whose CIDRs are unreadable for a while *)

Record net_cluster := mkCluster {
  xc_pools : kstore IPPool;
  xc_cidrs : kstore CIDRSpec;
  xc_nets : kstore MultiNicNetwork;
  xc_objs : kstore NetObject;
  xc_defs : nad_store
}.

#[export] Instance xc_pool_client : Client net_cluster IPPool :=
  part_client xc_pools (λ '(mkCluster _ c n o d) s, mkCluster s c n o d).
#[export] Instance xc_cidr_client : Client net_cluster CIDRSpec :=
  part_client xc_cidrs (λ '(mkCluster p _ n o d) s, mkCluster p s n o d).
#[export] Instance xc_net_client : Client net_cluster MultiNicNetwork :=
  part_client xc_nets (λ '(mkCluster p c _ o d) s, mkCluster p c s o d).
#[export] Instance xc_obj_client : Client net_cluster NetObject :=
  part_client xc_objs (λ '(mkCluster p c n _ d) s, mkCluster p c n s d).

Definition lift_defs {A} (r : nad_store * A) (w : net_cluster) : net_cluster * A :=
  (mkCluster (xc_pools w) (xc_cidrs w) (xc_nets w) (xc_objs w) (fst r), snd r).

#[export] Instance xc_dynamic : Dynamic net_cluster := {|
  dyn_Create w gvr ns v := lift_defs (dyn_Create (xc_defs w) gvr ns v) w;
  dyn_Update w gvr ns v := lift_defs (dyn_Update (xc_defs w) gvr ns v) w;
  dyn_Delete w gvr ns n := lift_defs (dyn_Delete (xc_defs w) gvr ns n) w;
  dyn_Get w := dyn_Get (xc_defs w);
  dyn_List w := dyn_List (xc_defs w);
  un_UnmarshalJSON := un_UnmarshalJSON (W := nad_store);
  un_MarshalJSON := un_MarshalJSON (W := nad_store)
|}.

#[local] Existing Instance meta_plain.
#[local] Existing Instance cni_plain.
#[local] Existing Instance map_to_list_range.

Definition x_network : MultiNicNetwork :=
  mkNetwork "net1" (mkNetSpec ["10.0.0.0/16"] "192.168.0.0/16"
    (Strings.ReplaceAll "{'type':'multi-nic-ipam'}" "'" dq) true
    (mkPluginSpec "0.3.0" "ipvlan" ∅) (mkPolicy "" "") ["default"]) empty_status.

Definition x_object : NetObject := mkNetObj "uid1" "" [multinicnetworkFinalizer] true x_network.

Definition x_op : Operator net_cluster :=
  mkOp (mkCluster (mkK ∅ false) (mkK {["net1" := zero_CIDR]} true) (mkK {["net1" := x_network]} false)
          (mkK {["net1" := x_object]} false) ∅)
    ∅ ∅ ∅ (mkNetHandler false ∅) ∅ 0 false true.

Definition x_plugins : gmap string (PluginInterface net_cluster) := {[IPVLAN_TYPE := IPVLANPlugin]}.

Definition x_namespaces (w : net_cluster) : list (string * string) + kerr := inl [].

Definition x_cidr_at (w : net_cluster) (n : string) : option CIDRSpec := kstore_at (xc_cidrs w) n.
Definition x_net_at (w : net_cluster) (n : string) : option NetObject := kstore_at (xc_objs w) n.

Lemma x_frames : net_frames x_plugins x_cidr_at.
Proof.
  assert (Hp : ∀ t p w i, x_plugins !! t = Some p → fst (CleanUp p w i) = w).
  { intros t p w i. unfold x_plugins. rewrite lookup_singleton_Some. by intros [_ <-]. }
  split; try done.
  - intros [pl c n o d] m obj k. cbn. by destruct (kstore_update o m obj).
  - intros t p w i m Ht. by rewrite (Hp t).
  - intros t p w i m Ht. by rewrite (Hp t).
Qed.

Lemma deleted_network_leaves_cidr_witness :
  ∃ o', ReconcileNetwork (λ w _ _, (w, PostError "refused")) "11000" id (λ _, "") "multi-nic-ipam" "multi-nic" 11000
          (λ _ d, inl d) x_namespaces (λ f w, f w) x_plugins 0 0 (λ _, NodeError) "net1" x_op
        = (o', Fin Reconciled) ∧
    x_cidr_at (o_w o') "net1" = Some zero_CIDR ∧
    ∀ obj, x_net_at (o_w o') "net1" = Some obj → multinicnetworkFinalizer ∉ no_Finalizers obj.
Proof.
  apply (deleted_network_leaves_cidr (λ w _ _, (w, PostError "refused")) "11000" id (λ _, "") "multi-nic-ipam"
    "multi-nic" 11000 (λ _ d, inl d) x_namespaces x_plugins x_cidr_at x_net_at 0 0 (λ _, NodeError) x_op
    "net1" x_object zero_CIDR (Failure "unavailable") (Failure "unavailable")).
  - by apply part_laws; intros [].
  - exact x_frames.
  - done.
  - done.
  - left.
  - done.
  - done.
  - vm_refl.
  - done.
  - done.
  - done.
  - intros [pl c n [objs []] d] i obj; [done|]. cbn. unfold kstore_get, kstore_update. cbn.
    by destruct (objs !! "net1").
Defined.
