(* ===== verification/MultiNicConf.v ===== *)
(** * cni/plugins/main/multi-nic: the configurations of the single interfaces

    The main plugin turns its own configuration into one configuration per selected
    master interface or device, for the plugin of the device type.  Here are the
    configuration structs, the IPAM section written into them by text replacement
    ([utils.go]), the routes with several next hops ([route.go]) and the loader of
    each device type.  Addresses are IPv4.

    The operator's and the plugin's structs of the same name differ: these are the
    plugin's. *)

From S2P Require Import Prelude GoLib GoText Json JsonSpec Types Selector Messages Cni.
Import Json.

Definition MultiConfigIPAMType : string := "multi-config".
Definition WhereaboutsIPAMType : string := "whereabouts".
Definition HostDeviceIPAMType : string := "host-device-ipam".
Definition sysBusPCI : string := "/sys/bus/pci/devices".

(** ** getStaticIPs *)

(** the item at [index], its position compared with the length of its own text *)
Fixpoint static_items (before items : list string) (index : Z) : option (string * list string) :=
  match items with
  | [] => None
  | split :: rest =>
      if Strings.HasPrefix split "IP=" then
        Some (Strings.TrimPrefix split "IP=",
              before ++ (if index <? Z.of_nat (String.length split) - 1 then rest else []))
      else static_items (before ++ [split]) rest (index + 1)
  end.

Definition getStaticIPs (cniArgs : string) : list string * string :=
  match static_items [] (Strings.Split cniArgs ";") 0 with
  | Some (ipsStr, newItems) => (Strings.Split ipsStr ",", Strings.Join newItems ";")
  | None => ([], cniArgs)
  end.

Example getStaticIPs_ex :
  getStaticIPs "A=1;IP=10.0.0.1/24,10.0.1.1/24;B=2" = (["10.0.0.1/24"; "10.0.1.1/24"], "A=1;B=2").
Proof. vm_compute. reflexivity. Qed.

(** the items after a short text at a late position are lost *)
Example getStaticIPs_drops : getStaticIPs "A=1;B=2;C=3;IP=1;D=4" = (["1"], "A=1;B=2;C=3").
Proof. vm_compute. reflexivity. Qed.

(** ** injectMaster *)

(** an object that is not there cannot be assigned to *)
Definition injectMaster (inData : string) (selectedNetAddrs selectedMasters selectedDeviceIDs : list string)
    : go string :=
  match fst (Unmarshal (dec_map JNull dec_any) inData None) with
  | None => Panic
  | Some obj =>
      Ret (print (JMap (<["deviceIDs" := strs selectedDeviceIDs]>
             (<["masters" := strs selectedMasters]> (<["masterNets" := strs selectedNetAddrs]> obj)))))
  end.

(** ** Routes *)

(** [types.Route] as the plugin builds it *)
Record PRoute := mkPRoute { pr_Dst : Net.IPNet; pr_GW : option (list Z) }.

(** destination to next hops *)
Abbreviation multi_path := (gmap string (list (option (list Z)))).

Definition dst_map (ipamRoutes : list PRoute) : gmap string (list PRoute) :=
  foldl (λ m r, let dst := IPNet_String (pr_Dst r) in
                match m !! dst with
                | None => <[dst := [r]]> m
                | Some rs => <[dst := rs ++ [r]]> m
                end) ∅ ipamRoutes.

Definition separate_step (acc : multi_path * list PRoute) (entry : string * list PRoute)
    : multi_path * list PRoute :=
  let '(multiPathRoutes, nonMultiPathRoutes) := acc in
  match entry.2 with
  | [route] => (multiPathRoutes, nonMultiPathRoutes ++ [route])
  | routes => (<[entry.1 := pr_GW <$> routes]> multiPathRoutes, nonMultiPathRoutes)
  end.

Definition separateMultiPathRoutes {ord : MapRange} (ipamRoutes : list PRoute)
    : multi_path * list PRoute :=
  foldl separate_step (∅, []) (range_map (dst_map ipamRoutes)).

(** [v.(string)] *)
Definition string_of (v : json) : go string := match v with JStr s => Ret s | _ => Panic end.

(** a route of an IPAM section: none without destination and gateway *)
Definition ipam_route (routeInterface : json) : go (option PRoute) :=
  match routeInterface with
  | JObj l =>
      let routeMap := map_of l in
      match routeMap !! "dst" with
      | None => Ret None
      | Some dstStr =>
          dst ← string_of dstStr;
          match routeMap !! "gw" with
          | None => Ret None
          | Some gwStr =>
              gw ← string_of gwStr;
              match Net.ParseCIDR dst with
              | None => Panic
              | Some (_, d) => Ret (Some (mkPRoute d (Net.ParseIP gw)))
              end
          end
      end
  | _ => Panic
  end.

Fixpoint ipam_routes (l : list json) : go (list PRoute) :=
  match l with
  | [] => Ret []
  | r :: rest =>
      r ← ipam_route r; rs ← ipam_routes rest;
      Ret (match r with Some r => r :: rs | None => rs end)
  end.

(** routes with one next hop, nil without a section [routes], and the others *)
Definition getRoutesFromIPAM {ord : MapRange} (ipam : gmap string json)
    : go (option (list PRoute) * multi_path) :=
  match ipam !! "routes" with
  | None => Ret (None, ∅)
  | Some (JArr l) =>
      routes ← ipam_routes l;
      let '(multiPathRoutes, nonMultiPathRoutes) := separateMultiPathRoutes routes in
      Ret (Some nonMultiPathRoutes, multiPathRoutes)
  | Some _ => Panic
  end.

(** ** The IPAM section of a single configuration *)

(** [IPAMExtract] *)
Definition ipam_extract (multiNicConfBytes : string) : gmap string json * bool :=
  let '(m, ok) :=
    Unmarshal (dec_struct [field "ipam" (dec_map JNull dec_any) id (λ x _, x)]) multiNicConfBytes None in
  (default ∅ m, ok).

Definition empty_ipam : string := quoted "ipam" +:+ ":{}".

Definition replace_ipam (confStr ipamBytes : string) : string :=
  Strings.ReplaceText confStr empty_ipam (quoted "ipam" +:+ ":" +:+ ipamBytes).

(** the multi-path routes are read from the whole configuration; the routes with one
    next hop are stored in an object that is not printed any more *)
Definition replaceSingleNicIPAMWithMultiConfig {ord : MapRange}
    (singleNicConfBytes multiNicConfBytes ipamBytes : string) : go (string * multi_path) :=
  match ipam_extract multiNicConfBytes with
  | (_, false) => Ret (singleNicConfBytes, ∅)
  | (ipam, true) =>
      '(_, multiPathRoutes) ← getRoutesFromIPAM ipam;
      Ret (replace_ipam singleNicConfBytes ipamBytes, multiPathRoutes)
  end.

(** the text of [IPAMExtract.IPAM]: a missing or null section is a nil map *)
Definition ipam_text (multiNicConfBytes : string) : string * bool :=
  let '(m, ok) :=
    Unmarshal (dec_struct [field "ipam" (dec_map JNull dec_any) id (λ x _, x)]) multiNicConfBytes None in
  (match m with None => "null" | Some m => print (JMap m) end, ok).

Definition replaceSingleNicIPAM {ord : MapRange} (singleNicConfBytes multiNicConfBytes : string)
    : go (string * multi_path) :=
  match ipam_text multiNicConfBytes with
  | (_, false) => Ret (singleNicConfBytes, ∅)
  | (ipamBytes, true) =>
      replaceSingleNicIPAMWithMultiConfig singleNicConfBytes multiNicConfBytes ipamBytes
  end.

Definition injectSingleNicIPAM {ord : MapRange} (singleNicConfBytes multiNicConfBytes : string)
    : go (string * multi_path) :=
  replaceSingleNicIPAM singleNicConfBytes multiNicConfBytes.

(** how the library prints a route *)
Class RouteJson := route_json : PRoute → json.

Definition static_ipam `{RouteJson} (ipConfig : option IPConfig) (routes : option (list PRoute))
    : gmap string json :=
  let addresses :=
    match ipConfig with
    | Some c => [JObj [("address", JStr (IPNet_String (ic_Address c)))]]
    | None => []
    end in
  let obj := {["type" := JStr "static"; "addresses" := JArr addresses]} in
  match routes with
  | Some l => <["routes" := JArr (route_json <$> l)]> obj
  | None => obj
  end.

Definition replaceMultiNicIPAM {ord : MapRange} `{RouteJson}
    (singleNicConfBytes multiNicConfBytes : string) (ipConfig : option IPConfig)
    : go (string * multi_path) :=
  '(routes, multiPathRoutes) ←
    match ipam_extract multiNicConfBytes with
    | (_, false) => Ret (None, ∅)
    | (ipam, true) => getRoutesFromIPAM ipam
    end;
  Ret (replace_ipam singleNicConfBytes (print (JMap (static_ipam ipConfig routes))), multiPathRoutes).

Definition injectMultiNicIPAM {ord : MapRange} `{RouteJson}
    (singleNicConfBytes multiNicConfBytes : string) (ipConfigs : list IPConfig) (ipIndex : nat)
    : go (string * multi_path) :=
  replaceMultiNicIPAM singleNicConfBytes multiNicConfBytes (ipConfigs !! ipIndex).

Definition replaceEmptyIPAM (singleNicConfBytes : string) : string :=
  replace_ipam singleNicConfBytes (print (JObj [("type", JStr "static"); ("addresses", JArr [])])).
