(* ===== verification/MultiNicLoad.v ===== *)
(** * cni/plugins/main/multi-nic: loading the configuration of each device type

    [loadConf] reads the plugin's configuration and asks the daemon for the master
    interfaces; [loadIPVANConf] and the others return one configuration text per
    interface, the routes with several next hops (those of the interface loaded last)
    and an error, next to what was loaded before it.  The host's links and its sysfs
    are the class [HostLinks]. *)

From S2P Require Import Prelude GoLib GoText Json JsonSpec Types Selector Messages Cni MultiNicConf.
From S2P Require Ipam.
Import Json.

(** netlink and sysfs as the loaders use them; a link is its handle [K] *)
Class HostLinks (W K : Type) := {
  host_Lstat : W → string → bool;
  host_Glob : W → string → list string + string;
  host_ReadDir : W → string → list string + string;
  host_LinkByName : W → string → K + string;
  host_AddrList : W → K → list Net.IPNet + string;
  host_LinkIsUp : W → K → bool;
  host_LinkSetDown : W → K → W * option string;
  host_LinkSetUp : W → K → W * option string;
  host_LinkSetAlias : W → K → string → W * option string;
  host_LinkSetName : W → K → string → W * option string;
  host_delAltName : W → string → string → W * option string
}.

(** what a loader returns *)
Definition loaded : Type := list string * multi_path * option string.

Section load.
Context `{CniLib} {ord : MapRange} `{RouteJson}.
Context {W K : Type} `{Http W} `{HostLinks W K}.
Context (json_err : string → string) (Hostname : string + string).

(** ** multi-nic.go: the configuration *)

Record NetConf := mkMNConf {
  mc_NetConf : net_conf;
  mc_MainPlugin : option (gmap string json);
  mc_Subnet : string;
  mc_MasterNetAddrs : list string;
  mc_DeviceIDs : list string;
  mc_Masters : list string;
  mc_IsMultiNICIPAM : bool;
  mc_DaemonIP : string;
  mc_DaemonPort : Z;
  mc_Args : option (option NicArgs)
}.

Definition zero_conf : NetConf := mkMNConf empty_netconf None "" [] [] [] false "" 0 None.

Definition conf_fields : fields NetConf := [
  field "plugin" (dec_map JNull dec_any) mc_MainPlugin
    (λ x '(mkMNConf c _ s a d m i p q g), mkMNConf c x s a d m i p q g);
  field "subnet" dec_string mc_Subnet
    (λ x '(mkMNConf c l _ a d m i p q g), mkMNConf c l x a d m i p q g);
  field "masterNets" (dec_slice "" dec_string) mc_MasterNetAddrs
    (λ x '(mkMNConf c l s _ d m i p q g), mkMNConf c l s x d m i p q g);
  field "deviceIDs" (dec_slice "" dec_string) mc_DeviceIDs
    (λ x '(mkMNConf c l s a _ m i p q g), mkMNConf c l s a x m i p q g);
  field "masters" (dec_slice "" dec_string) mc_Masters
    (λ x '(mkMNConf c l s a d _ i p q g), mkMNConf c l s a d x i p q g);
  field "multiNICIPAM" dec_bool mc_IsMultiNICIPAM
    (λ x '(mkMNConf c l s a d m _ p q g), mkMNConf c l s a d m x p q g);
  field "daemonIP" dec_string mc_DaemonIP
    (λ x '(mkMNConf c l s a d m i _ q g), mkMNConf c l s a d m i x q g);
  field "daemonPort" dec_int mc_DaemonPort
    (λ x '(mkMNConf c l s a d m i p _ g), mkMNConf c l s a d m i p x g);
  field "args" (dec_ptr None (dec_struct [field "cni" (dec_ptr w_zero w_dec) id (λ x _, x)])) mc_Args
    (λ x '(mkMNConf c l s a d m i p q _), mkMNConf c l s a d m i p q x)]
  ++ embed mc_NetConf (λ x '(mkMNConf _ l s a d m i p q g), mkMNConf x l s a d m i p q g) netconf_fields.

Definition ipam_type (n : NetConf) : string := nc_IPAM_Type (mc_NetConf n).

Definition DEFAULT_SUBNET : string := "172.30.0.0/16".

(** ** selector.go *)

Definition selectNICs (w : W) (daemonIP : string) (daemonPort : Z)
    (podName podNamespace hostName defName : string) (nicSet : NicArgs) (masterNets : list string)
    : W * (NICSelectResponse * option string) :=
  let daemonPort := if daemonPort =? 0 then Ipam.DEFAULT_DAEMON_PORT else daemonPort in
  let daemonIP := if bool_decide (daemonIP = "") then Ipam.DEFAULT_DAEMON_IP else daemonIP in
  post_message json_err w (Ipam.daemon_address daemonIP daemonPort "select")
    (mkNICRequest podName podNamespace hostName defName masterNets nicSet)
    (λ r, bool_decide (np_Masters r = [])).

(** the subnet defaulted, and the selected interfaces *)
Definition with_subnet (n : NetConf) : NetConf :=
  let '(mkMNConf c l s a d m i p q g) := n in
  mkMNConf c l (if bool_decide (s = "") then DEFAULT_SUBNET else s) a d m i p q g.

Definition with_masters (n : NetConf) (masters : list string) : NetConf :=
  let '(mkMNConf c l s a d _ i p q g) := n in mkMNConf c l s a d masters i p q g.

Definition with_selection (n : NetConf) (r : NICSelectResponse) : NetConf :=
  let '(mkMNConf c l s a _ _ i p q g) := n in mkMNConf c l s a (np_DeviceIDs r) (np_Masters r) i p q g.

(** configuration, if it was read, device type and error *)
Definition loadConf (w : W) (args : CmdArgs) : W * go (option NetConf * string * option string) :=
  match Unmarshal (dec_struct conf_fields) (ca_StdinData args) zero_conf with
  | (_, false) => (w, Ret (None, "", Some (json_err (ca_StdinData args))))
  | (n, true) =>
      match string_of (default JNull (default ∅ (mc_MainPlugin n) !! "type")) with
      | Panic => (w, Panic)
      | Ret deviceType =>
          let n := with_subnet n in
          match Hostname with
          | inr err => (w, Ret (Some n, deviceType, Some err))
          | inl hostName =>
              let '(podName, podNamespace) := getPodInfo (ca_Args args) in
              let nicSet :=
                match mc_Args n with Some (Some nicSet) => nicSet | _ => mkNicArgs 0 [] "" "" end in
              let '(w, (response, err)) :=
                selectNICs w (mc_DaemonIP n) (mc_DaemonPort n) podName podNamespace hostName
                  (nc_Name (mc_NetConf n)) nicSet (mc_MasterNetAddrs n) in
              match err with
              | Some e => (w, Ret (Some n, deviceType, Some e))
              | None => (w, Ret (Some (with_selection n response), deviceType, None))
              end
          end
      end
  end.

(** ** utils.go: an IPAM configuration per master *)

Record MultiIPAMConfig := mkMultiIPAM {
  mi_Name : string;
  mi_Type : string;
  mi_IpamType : string;
  mi_Args : option (gmap string (option (gmap string json)));
  mi_Routes : list CRoute
}.

Definition zero_multi : MultiIPAMConfig := mkMultiIPAM "" "" "" None [].

Definition multi_fields : fields MultiIPAMConfig := [
  field "Name" dec_string mi_Name (λ x '(mkMultiIPAM _ t i a r), mkMultiIPAM x t i a r);
  field "type" dec_string mi_Type (λ x '(mkMultiIPAM n _ i a r), mkMultiIPAM n x i a r);
  field "ipam_type" dec_string mi_IpamType (λ x '(mkMultiIPAM n t _ a r), mkMultiIPAM n t x a r);
  field "args" (dec_map None (dec_map JNull dec_any)) mi_Args
    (λ x '(mkMultiIPAM n t i _ r), mkMultiIPAM n t i x r);
  field "routes" dec_routes mi_Routes (λ x '(mkMultiIPAM n t i a _), mkMultiIPAM n t i a x)].

(** the section and whether the error is nil *)
Definition getMultiIPAMConfig (multiNicConfBytes : string) : MultiIPAMConfig * bool :=
  Unmarshal (dec_struct [field "ipam" (dec_struct multi_fields) id (λ x _, x)]) multiNicConfBytes zero_multi.

(** type, network name, then the arguments of the master *)
Definition single_ipam (ipamType masterName : string) (args : gmap string json) : gmap string json :=
  let base : gmap string json := {["type" := JStr ipamType]} in
  let base :=
    if bool_decide (ipamType = WhereaboutsIPAMType)
    then <["network_name" := JStr masterName]> base else base in
  args ∪ base.

Definition getMultiIPAMConfigBytes (multiNicConfBytes : string) : gmap string string * bool :=
  let '(ipam, ok) := getMultiIPAMConfig multiNicConfBytes in
  (if (ok : bool) then
     map_imap (λ masterName obj, (λ args, print (JMap (single_ipam (mi_IpamType ipam) masterName args))) <$> obj)
       (default ∅ (mi_Args ipam))
   else ∅, ok).

(** ** The loop of a loader

    [step] is the configuration of one element: nothing to add, a text with the
    multi-path routes, or an error that ends the loop. *)

Inductive load_step := Skip | Conf (confBytes : string) (multiPathRoutes : multi_path) | LoadError (e : string).

Fixpoint load_loop (step : nat → string → W → W * go load_step) (index : nat) (l : list string)
    (confs : list string) (multiPathRoutes : multi_path) (w : W) : W * go loaded :=
  match l with
  | [] => (w, Ret (confs, multiPathRoutes, None))
  | x :: rest =>
      match step index x w with
      | (w, Panic) => (w, Panic)
      | (w, Ret Skip) => load_loop step (S index) rest confs multiPathRoutes w
      | (w, Ret (Conf c mp)) => load_loop step (S index) rest (confs ++ [c]) mp w
      | (w, Ret (LoadError e)) => (w, Ret (confs, multiPathRoutes, Some e))
      end
  end.

Definition conf_name (ifName : string) (index : nat) : string :=
  ifName +:+ "-" +:+ Strconv.Itoa (Z.of_nat index).

(** version, if there is none, and name of a single configuration *)
Definition single_netconf (n : NetConf) (ifName : string) (index : nat) (c : net_conf) : net_conf :=
  let version := if bool_decide (nc_CNIVersion c = "") then nc_CNIVersion (mc_NetConf n) else nc_CNIVersion c in
  mkNetConf version (conf_name ifName index) (nc_Type c) (nc_IPAM_Type c) (nc_DNS c) (nc_RawPrevResult c)
    (nc_PrevResult c).

Definition to_conf (r : go (string * multi_path)) : go load_step := '(c, mp) ← r; Ret (Conf c mp).

(** the main plugin's section of a configuration, and whether the error is nil *)
Definition plugin_section {A} (dec : decoder A) (zero : A) (bytes : string) : A * bool :=
  let fs : fields (A * net_conf) :=
    [field "plugin" dec fst (λ x r, (x, snd r))] ++ embed snd (λ x r, (fst r, x)) netconf_fields in
  let '(r, ok) := Unmarshal (dec_struct fs) bytes (zero, empty_netconf) in (fst r, ok).

(** ** ipvlan.go, macvlan.go *)

(** IPVLANTypeNetConf; MACVLANTypeNetConf has the same fields *)
Record IPVLANTypeNetConf := mkIPVLAN {
  iv_NetConf : net_conf;
  iv_Master : string;
  iv_Mode : string;
  iv_MTU : Z
}.

Definition zero_ipvlan : IPVLANTypeNetConf := mkIPVLAN empty_netconf "" "" 0.

Definition ipvlan_json (c : IPVLANTypeNetConf) : json :=
  JObj (netconf_json (iv_NetConf c) ++
    [("master", JStr (iv_Master c)); ("mode", JStr (iv_Mode c)); ("mtu", JInt (iv_MTU c))]).

Definition dec_ipvlan : decoder IPVLANTypeNetConf := dec_struct ([
  field "master" dec_string iv_Master (λ x '(mkIPVLAN c _ o t), mkIPVLAN c x o t);
  field "mode" dec_string iv_Mode (λ x '(mkIPVLAN c m _ t), mkIPVLAN c m x t);
  field "mtu" dec_int iv_MTU (λ x '(mkIPVLAN c m o _), mkIPVLAN c m o x)]
  ++ embed iv_NetConf (λ x '(mkIPVLAN _ m o t), mkIPVLAN x m o t) netconf_fields).

(** copied by printing and reading *)
Definition copyIPVLANConfig (original : IPVLANTypeNetConf) : IPVLANTypeNetConf + string :=
  let byteObject := print (ipvlan_json original) in
  match Unmarshal dec_ipvlan byteObject zero_ipvlan with
  | (c, true) => inl c
  | (_, false) => inr (json_err byteObject)
  end.

(** the configuration of the interface with a master *)
Definition ipvlan_single (n : NetConf) (ifName : string) (index : nat) (masterName : string)
    (plugin : IPVLANTypeNetConf) : string + string :=
  match copyIPVLANConfig plugin with
  | inr e => inr e
  | inl c => inl (print (ipvlan_json (mkIPVLAN (single_netconf n ifName index (iv_NetConf c)) masterName
                                        (iv_Mode c) (iv_MTU c))))
  end.

Definition ipvlan_step (bytes ifName : string) (n : NetConf) (ipConfigs : list IPConfig)
    (ipamMap : option (gmap string string)) (plugin : IPVLANTypeNetConf)
    (index : nat) (masterName : string) (w : W) : W * go load_step :=
  (w,
   if bool_decide (masterName = "") then Ret Skip
   else match ipvlan_single n ifName index masterName plugin with
   | inr e => Ret (LoadError e)
   | inl confBytes =>
       if negb (bool_decide (ipConfigs = [])) then
         to_conf (injectMultiNicIPAM confBytes bytes ipConfigs index)
       else match ipamMap with
       | Some m =>
           match m !! masterName with
           | Some ipamBytes => to_conf (replaceSingleNicIPAMWithMultiConfig confBytes bytes ipamBytes)
           | None => Ret Skip
           end
       | None => to_conf (injectSingleNicIPAM confBytes bytes)
       end
   end).

Definition loadIPVANConf (w : W) (bytes ifName : string) (n : NetConf) (ipConfigs : list IPConfig)
    : W * go loaded :=
  match plugin_section dec_ipvlan zero_ipvlan bytes with
  | (_, false) => (w, Ret ([], ∅, Some (json_err bytes)))
  | (plugin, true) =>
      let ipamMap :=
        if bool_decide (ipam_type n = MultiConfigIPAMType) then
          let '(m, ok) := getMultiIPAMConfigBytes bytes in if ok : bool then Some m else None
        else None in
      load_loop (ipvlan_step bytes ifName n ipConfigs ipamMap plugin) 0 (mc_Masters n) [] ∅ w
  end.

(** the IPAM section of all other types *)
Definition inject_ipam (n : NetConf) (confBytes bytes : string) (ipConfigs : list IPConfig)
    (index : nat) : go load_step :=
  to_conf (if mc_IsMultiNICIPAM n then injectMultiNicIPAM confBytes bytes ipConfigs index
           else injectSingleNicIPAM confBytes bytes).

Definition macvlan_step (bytes ifName : string) (n : NetConf) (ipConfigs : list IPConfig)
    (plugin : IPVLANTypeNetConf) (index : nat) (masterName : string) (w : W) : W * go load_step :=
  (w,
   if bool_decide (masterName = "") then Ret Skip
   else match ipvlan_single n ifName index masterName plugin with
   | inr e => Ret (LoadError e)
   | inl confBytes => inject_ipam n confBytes bytes ipConfigs index
   end).

Definition loadMACVLANConf (w : W) (bytes ifName : string) (n : NetConf) (ipConfigs : list IPConfig)
    : W * go loaded :=
  match plugin_section dec_ipvlan zero_ipvlan bytes with
  | (_, false) => (w, Ret ([], ∅, Some (json_err bytes)))
  | (plugin, true) => load_loop (macvlan_step bytes ifName n ipConfigs plugin) 0 (mc_Masters n) [] ∅ w
  end.

(** ** sriov.go *)

Record SriovNetConf := mkSriov {
  sv_NetConf : net_conf;
  sv_DPDKMode : bool;
  sv_Master : string;
  sv_Vlan : Z;
  sv_DeviceID : string;
  sv_VFID : Z;
  sv_HostIFNames : string;
  sv_ContIFNames : string
}.

Definition zero_sriov : SriovNetConf := mkSriov empty_netconf false "" 0 "" 0 "" "".

Definition sriov_json (c : SriovNetConf) : json :=
  JObj (netconf_json (sv_NetConf c) ++
    [("DPDKMode", JBool (sv_DPDKMode c)); ("Master", JStr (sv_Master c)); ("vlan", JInt (sv_Vlan c));
     ("deviceID", JStr (sv_DeviceID c)); ("VFID", JInt (sv_VFID c));
     ("HostIFNames", JStr (sv_HostIFNames c)); ("ContIFNames", JStr (sv_ContIFNames c))]).

Definition dec_sriov : decoder SriovNetConf := dec_struct ([
  field "DPDKMode" dec_bool sv_DPDKMode (λ x '(mkSriov c _ m v d f h t), mkSriov c x m v d f h t);
  field "Master" dec_string sv_Master (λ x '(mkSriov c k _ v d f h t), mkSriov c k x v d f h t);
  field "vlan" dec_int sv_Vlan (λ x '(mkSriov c k m _ d f h t), mkSriov c k m x d f h t);
  field "deviceID" dec_string sv_DeviceID (λ x '(mkSriov c k m v _ f h t), mkSriov c k m v x f h t);
  field "VFID" dec_int sv_VFID (λ x '(mkSriov c k m v d _ h t), mkSriov c k m v d x h t);
  field "HostIFNames" dec_string sv_HostIFNames (λ x '(mkSriov c k m v d f _ t), mkSriov c k m v d f x t);
  field "ContIFNames" dec_string sv_ContIFNames (λ x '(mkSriov c k m v d f h _), mkSriov c k m v d f h x)]
  ++ embed sv_NetConf (λ x '(mkSriov _ k m v d f h t), mkSriov x k m v d f h t) netconf_fields).

(** a nil pointer is printed as [null], which is read as an empty configuration *)
Definition copySRIOVconfig (original : option SriovNetConf) : SriovNetConf + string :=
  let byteObject := print (match original with None => JNull | Some c => sriov_json c end) in
  match Unmarshal dec_sriov byteObject zero_sriov with
  | (c, true) => inl c
  | (_, false) => inr (json_err byteObject)
  end.

Definition sriov_step (bytes ifName : string) (n : NetConf) (ipConfigs : list IPConfig)
    (plugin : option SriovNetConf) (index : nat) (deviceID : string) (w : W) : W * go load_step :=
  (w,
   if bool_decide (deviceID = "") then Ret Skip
   else match copySRIOVconfig plugin with
   | inr e => Ret (LoadError e)
   | inl c =>
       let '(mkSriov nc k m v _ f h t) := c in
       let confBytes := print (sriov_json (mkSriov (single_netconf n ifName index nc) k m v deviceID f h t)) in
       inject_ipam n confBytes bytes ipConfigs index
   end).

Definition loadSRIOVConf (w : W) (bytes ifName : string) (n : NetConf) (ipConfigs : list IPConfig)
    : W * go loaded :=
  match plugin_section (dec_ptr zero_sriov dec_sriov) None bytes with
  | (_, false) => (w, Ret ([], ∅, Some (json_err bytes)))
  | (plugin, true) => load_loop (sriov_step bytes ifName n ipConfigs plugin) 0 (mc_DeviceIDs n) [] ∅ w
  end.

(** ** aws-ipvlan.go *)

Record AWSIPVLANNetConf := mkAWSConf {
  aw_NetConf : net_conf;
  aw_PrimaryIP : string;
  aw_PodIP : string;
  aw_Master : string;
  aw_Mode : string;
  aw_MTU : Z
}.

Definition zero_aws : AWSIPVLANNetConf := mkAWSConf empty_netconf "" "" "" "" 0.

Definition aws_json (c : AWSIPVLANNetConf) : json :=
  JObj (netconf_json (aw_NetConf c) ++
    [("primaryIP", JStr (aw_PrimaryIP c)); ("podIP", JStr (aw_PodIP c)); ("master", JStr (aw_Master c));
     ("mode", JStr (aw_Mode c)); ("mtu", JInt (aw_MTU c))]).

Definition dec_aws : decoder AWSIPVLANNetConf := dec_struct ([
  field "primaryIP" dec_string aw_PrimaryIP (λ x '(mkAWSConf c _ q m o t), mkAWSConf c x q m o t);
  field "podIP" dec_string aw_PodIP (λ x '(mkAWSConf c p _ m o t), mkAWSConf c p x m o t);
  field "master" dec_string aw_Master (λ x '(mkAWSConf c p q _ o t), mkAWSConf c p q x o t);
  field "mode" dec_string aw_Mode (λ x '(mkAWSConf c p q m _ t), mkAWSConf c p q m x t);
  field "mtu" dec_int aw_MTU (λ x '(mkAWSConf c p q m o _), mkAWSConf c p q m o x)]
  ++ embed aw_NetConf (λ x '(mkAWSConf _ p q m o t), mkAWSConf x p q m o t) netconf_fields).

Definition copyAWSIPVLANConfig (original : AWSIPVLANNetConf) : AWSIPVLANNetConf + string :=
  let byteObject := print (aws_json original) in
  match Unmarshal dec_aws byteObject zero_aws with
  | (c, true) => inl c
  | (_, false) => inr (json_err byteObject)
  end.

(** the text of an address; nil has one too *)
Definition getHostIP (w : W) (devName : string) : option (list Z) :=
  match host_LinkByName w devName with
  | inr _ => None
  | inl link =>
      match host_AddrList w link with
      | inr _ => None
      | inl [] => None
      | inl (a :: _) => Some (Net.IP a)
      end
  end.

Definition ip_text (ip : option (list Z)) : string :=
  match ip with None => "<nil>" | Some ip => Net.ip_string ip end.

Definition injectPodIP (confBytes podIP : string) : string :=
  Strings.ReplaceText confBytes (quoted "podIP" +:+ ":" +:+ quoted "") (quoted "podIP" +:+ ":" +:+ quoted podIP).

Definition injectPrimaryIP (confBytes primaryIP : string) : string :=
  Strings.ReplaceText confBytes (quoted "primaryIP" +:+ ":" +:+ quoted "")
    (quoted "primaryIP" +:+ ":" +:+ quoted primaryIP).

Definition aws_step (bytes ifName : string) (n : NetConf) (ipConfigs : list IPConfig)
    (plugin : AWSIPVLANNetConf) (index : nat) (masterName : string) (w : W) : W * go load_step :=
  (w,
   match copyAWSIPVLANConfig plugin with
   | inr e => Ret (LoadError ("copyAWSIPVLANConfig: " +:+ e))
   | inl c =>
       let confBytes := print (aws_json (mkAWSConf (single_netconf n ifName index (aw_NetConf c))
                          (aw_PrimaryIP c) (aw_PodIP c) masterName (aw_Mode c) (aw_MTU c))) in
       let confBytes := injectPrimaryIP confBytes (ip_text (getHostIP w masterName)) in
       if mc_IsMultiNICIPAM n then
         match ipConfigs !! index with
         | Some ipConfig =>
             '(confBytes, mp) ← injectMultiNicIPAM confBytes bytes ipConfigs index;
             Ret (Conf (injectPodIP confBytes (Net.ip_string (Net.IP (ic_Address ipConfig)))) mp)
         | None => Ret Skip
         end
       else to_conf (injectSingleNicIPAM confBytes bytes)
   end).

Definition loadAWSCNIConf (w : W) (bytes ifName : string) (n : NetConf) (ipConfigs : list IPConfig)
    : W * go loaded :=
  match plugin_section dec_aws zero_aws bytes with
  | (_, false) => (w, Ret ([], ∅, Some ("unmarshal AWSIPVLANNetConfig: " +:+ json_err bytes)))
  | (plugin, true) => load_loop (aws_step bytes ifName n ipConfigs plugin) 0 (mc_Masters n) [] ∅ w
  end.

(** ** host-device.go *)

Record HostDeviceNetConf := mkHostDev {
  hv_NetConf : net_conf;
  hv_Device : string;
  hv_HWAddr : string;
  hv_DPDKMode : bool;
  hv_KernelPath : string;
  hv_PCIAddr : string;
  hv_RuntimeDeviceID : string
}.

Definition zero_hostdev : HostDeviceNetConf := mkHostDev empty_netconf "" "" false "" "" "".

(** the runtime configuration is a struct, printed also when it is empty *)
Definition hostdev_json (c : HostDeviceNetConf) : json :=
  JObj (netconf_json (hv_NetConf c) ++
    [("device", JStr (hv_Device c)); ("hwaddr", JStr (hv_HWAddr c)); ("DPDKMode", JBool (hv_DPDKMode c));
     ("kernelpath", JStr (hv_KernelPath c)); ("pciBusID", JStr (hv_PCIAddr c));
     ("runtimeConfig", JObj (omit_empty "deviceID" (bool_decide (hv_RuntimeDeviceID c = ""))
                               (JStr (hv_RuntimeDeviceID c))))]).

Definition dec_hostdev : decoder HostDeviceNetConf := dec_struct ([
  field "device" dec_string hv_Device (λ x '(mkHostDev c _ h d k p r), mkHostDev c x h d k p r);
  field "hwaddr" dec_string hv_HWAddr (λ x '(mkHostDev c v _ d k p r), mkHostDev c v x d k p r);
  field "DPDKMode" dec_bool hv_DPDKMode (λ x '(mkHostDev c v h _ k p r), mkHostDev c v h x k p r);
  field "kernelpath" dec_string hv_KernelPath (λ x '(mkHostDev c v h d _ p r), mkHostDev c v h d x p r);
  field "pciBusID" dec_string hv_PCIAddr (λ x '(mkHostDev c v h d k _ r), mkHostDev c v h d k x r);
  field "runtimeConfig" (dec_struct [field "deviceID" dec_string id (λ x _, x)]) hv_RuntimeDeviceID
    (λ x '(mkHostDev c v h d k p _), mkHostDev c v h d k p x)]
  ++ embed hv_NetConf (λ x '(mkHostDev _ v h d k p r), mkHostDev x v h d k p r) netconf_fields).

Definition copyHostDeviceConfig (original : option HostDeviceNetConf) : HostDeviceNetConf + string :=
  let byteObject := print (match original with None => JNull | Some c => hostdev_json c end) in
  match Unmarshal dec_hostdev byteObject zero_hostdev with
  | (c, true) => inl c
  | (_, false) => inr (json_err byteObject)
  end.

Definition linkNameFromPath (w : W) (path : string) : string + string :=
  match host_ReadDir w path with
  | inr e => inr e
  | inl (name :: _) => inl name
  | inl [] => inr ("failed to find network device in path " +:+ path)
  end.

Definition getLinkNameFromPciAddress (w : W) (pciaddr : string) : string + string :=
  let netDir := sysBusPCI +:+ "/" +:+ pciaddr +:+ "/net" in
  if host_Lstat w netDir then linkNameFromPath w netDir
  else match host_Glob w (sysBusPCI +:+ "/" +:+ pciaddr +:+ "/virtio*/net") with
       | inl (m :: _) => linkNameFromPath w m
       | _ => inr ("no net directory under pci device " +:+ pciaddr)
       end.

(** the link is renamed, taken down meanwhile; errors are logged *)
Definition rename_link (w : W) (link : K) (presentName devName : string) : W :=
  let up := host_LinkIsUp w link in
  let w := if up then fst (host_LinkSetDown w link) else w in
  let w := fst (host_LinkSetAlias w link "") in
  let w := fst (host_delAltName w presentName devName) in
  let w := fst (host_LinkSetName w link devName) in
  if up then fst (host_LinkSetUp w link) else w.

Definition getHostIPConfig (w : W) (index : nat) (devName deviceID : string) : W * option IPConfig :=
  match getLinkNameFromPciAddress w deviceID with
  | inr _ => (w, None)
  | inl presentName =>
      match host_LinkByName w presentName with
      | inr _ => (w, None)
      | inl devLink =>
          match host_AddrList w devLink with
          | inl (addr :: _) =>
              let ipConf := mkIPConfig (Some (Z.of_nat index)) addr None in
              (if negb (bool_decide (devName = "")) && negb (bool_decide (presentName = devName))
               then rename_link w devLink presentName devName else w, Some ipConf)
          | _ => (w, None)
          end
      end
  end.

Definition hostdev_step (bytes ifName : string) (n : NetConf) (ipConfigs : list IPConfig)
    (plugin : option HostDeviceNetConf) (index : nat) (deviceID : string) (w : W) : W * go load_step :=
  if bool_decide (deviceID = "") then (w, Ret Skip)
  else match copyHostDeviceConfig plugin with
  | inr e => (w, Ret (LoadError e))
  | inl c =>
      let '(mkHostDev nc v h d k p _) := c in
      let confBytes :=
        print (hostdev_json (mkHostDev (single_netconf n ifName index nc) v h d k p deviceID)) in
      if bool_decide (ipam_type n = HostDeviceIPAMType) then
        match mc_Masters n !! index with
        | None => (w, Panic)
        | Some master =>
            let '(w, ipConfig) := getHostIPConfig w index master deviceID in
            let confBytes :=
              match ipConfig with None => replaceEmptyIPAM confBytes | Some _ => confBytes end in
            (w, to_conf (replaceMultiNicIPAM confBytes bytes ipConfig))
        end
      else (w, inject_ipam n confBytes bytes ipConfigs index)
  end.

Definition loadHostDeviceConf (w : W) (bytes ifName : string) (n : NetConf) (ipConfigs : list IPConfig)
    : W * go loaded :=
  match plugin_section (dec_ptr zero_hostdev dec_hostdev) None bytes with
  | (_, false) => (w, Ret ([], ∅, Some (json_err bytes)))
  | (plugin, true) => load_loop (hostdev_step bytes ifName n ipConfigs plugin) 0 (mc_DeviceIDs n) [] ∅ w
  end.

(** ** By device type *)

Definition load_device (w : W) (deviceType bytes ifName : string) (n : NetConf) (ipConfigs : list IPConfig)
    : W * go loaded :=
  if bool_decide (deviceType = "ipvlan") then loadIPVANConf w bytes ifName n ipConfigs
  else if bool_decide (deviceType = "macvlan") then loadMACVLANConf w bytes ifName n ipConfigs
  else if bool_decide (deviceType = "sriov") then loadSRIOVConf w bytes ifName n ipConfigs
  else if bool_decide (deviceType = "aws-ipvlan") then loadAWSCNIConf w bytes ifName n ipConfigs
  else if bool_decide (deviceType = "host-device") then loadHostDeviceConf w bytes ifName n ipConfigs
  else (w, Ret ([], ∅, Some ("unsupported device type: " +:+ deviceType))).
End load.
