(* ===== verification/MultiNic.v ===== *)
(** * cni/plugins/main/multi-nic: the commands of the main plugin

    ADD loads the configuration, gets addresses from the IPAM plugin, and executes the
    plugin of the device type once per interface; DEL returns the addresses and
    executes the plugins again; CHECK only executes them.  What the plugin executes
    and does inside the container's network namespace is the class [CniRuntime]. *)

From S2P Require Import Prelude GoLib GoText Json JsonSpec Types Selector Messages Cni MultiNicConf MultiNicLoad.
Import Json.

(** [invoke] and [ipam]: executing a plugin by its type or path; [ns] and netlink
    inside a namespace *)
Class CniRuntime `{CniLib} (W : Type) := {
  ns_GetNS : W → string → option string;                          (* the error of opening it *)
  ns_Do : W → string → option string;                             (* the error of entering it *)
  ns_LinkMac : W → string → string → string + string;             (* InterfaceByName, inside *)
  ns_RouteAddEcmp : W → string → Net.IPNet → list (option (list Z)) → W * option string;
  ns_RouteDel : W → string → Net.IPNet → list (option (list Z)) → W * option string;
  ipam_ExecAdd : W → string → string → W * (CPrev + string);
  ipam_ExecDel : W → string → string → W * option string;
  ipam_ExecDelWithResult : W → string → string → W * (option CPrev + string);
  exec_FindInPath : W → string → string + string;
  exec_WithResult : W → string → string → string → CmdArgs → string → W * (CPrev + string);
  exec_WithoutResult : W → string → string → string → CmdArgs → string → W * option string
}.

Section commands.
Context `{CniLib} {ord : MapRange} `{RouteJson}.
Context {W K : Type} `{Http W} `{HostLinks W K} `{!CniRuntime W}.
Context (json_err : string → string) (Hostname : string + string).

(** ** route.go *)

Fixpoint add_multi_path (w : W) (netns : string) (l : list (string * list (option (list Z)))) : W * option string :=
  match l with
  | [] => (w, None)
  | (dst, nexthops) :: rest =>
      match Net.ParseCIDR dst with
      | None => add_multi_path w netns rest
      | Some (_, destIPNet) =>
          match ns_RouteAddEcmp w netns destIPNet nexthops with
          | (w, Some err) =>
              (w, Some ("failed to add multipath route to " +:+ Net.ip_string (Net.IP destIPNet) +:+ ": " +:+ err))
          | (w, None) => add_multi_path w netns rest
          end
      end
  end.

Definition addMultiPathRoutes (w : W) (netns : string) (multiPathRoutes : multi_path) : W * option string :=
  add_multi_path w netns (range_map multiPathRoutes).

Definition delMultiPathRoutes (w : W) (netns : string) (multiPathRoutes : multi_path) : W :=
  foldl (λ w e, match Net.ParseCIDR e.1 with
                | None => w
                | Some (_, destIPNet) => fst (ns_RouteDel w netns destIPNet e.2)
                end) w (range_map multiPathRoutes).

(** ** exec.go *)

(** [None]: no result was asked for *)
Definition execPlugin (w : W) (plugin command confBytes : string) (args : CmdArgs) (ifName : string)
    (withResult : bool) : W * (option cni_result + string) :=
  match exec_FindInPath w plugin with
  | inr err => (w, inr err)
  | inl pluginPath =>
      if withResult then
        match exec_WithResult w pluginPath command confBytes args ifName with
        | (w, inr err) => (w, inr err)
        | (w, inl r) =>
            (w, match NewResultFromResult (Some r) with inl res => inl (Some res) | inr err => inr err end)
        end
      else
        match exec_WithoutResult w pluginPath command confBytes args ifName with
        | (w, Some err) => (w, inr err)
        | (w, None) => (w, inl None)
        end
  end.

(** ** cmdAdd *)

Definition with_args (a : CmdArgs) (s : string) : CmdArgs :=
  mkCmdArgs (ca_ContainerID a) (ca_Netns a) (ca_IfName a) s (ca_StdinData a).

Definition with_IPs (r : cni_result) (ips : list IPConfig) : cni_result :=
  mkResult (re_CNIVersion r) (re_Interfaces r) ips (re_Routes r) (re_DNS r).

(** the previous result of the chain *)
Definition previous_result (n : NetConf) : cni_result + string :=
  match nc_RawPrevResult (mc_NetConf n) with
  | None => inl empty_result
  | Some _ =>
      match ParsePrevResult (mc_NetConf n) with
      | inr e => inr ("could not parse prevResult: " +:+ e)
      | inl conf =>
          match NewResultFromResult (nc_PrevResult conf) with
          | inr e => inr ("could not convert result to current version: " +:+ e)
          | inl result => inl result
          end
      end
  end.

(** the addresses given in the arguments; an error at the first that does not parse *)
Fixpoint static_ips (index : Z) (ips : list string) : list IPConfig + string :=
  match ips with
  | [] => inl []
  | ipnet :: rest =>
      match Net.ParseCIDR ipnet with
      | None => inr ("invalid CIDR address: " +:+ ipnet)
      | Some (ipVal, reservedIP) =>
          match static_ips (index + 1) rest with
          | inr e => inr e
          | inl l => inl (mkIPConfig (Some index) (Net.mkIPNet ipVal (Net.Mask reservedIP)) None :: l)
          end
      end
  end.

(** the masters of a multi-config IPAM section, in the order the map is ranged over *)
Definition multi_masters (bytes : string) : list string :=
  let '(ipam, ok) := getMultiIPAMConfig bytes in
  if (ok : bool) then fst <$> range_map (default ∅ (mi_Args ipam)) else [].

(** what the addresses step leaves: configuration, arguments, result *)
Definition add_state : Type := NetConf * CmdArgs * cni_result.

(** The addresses: from the multi-nic IPAM, from the arguments of a multi-config IPAM,
    or none yet.  The error of the conversion is the only one after which the
    deferred call returns the addresses: it looks at the variable of this scope. *)
Definition add_addresses (w : W) (args : CmdArgs) (n : NetConf) (result : cni_result)
    : W * go (add_state + string) :=
  if negb (bool_decide (re_IPs result = [])) then (w, Ret (inl (n, args, result)))
  else if mc_IsMultiNICIPAM n then
    match injectMaster (ca_StdinData args) (mc_MasterNetAddrs n) (mc_Masters n) (mc_DeviceIDs n) with
    | Panic => (w, Panic)
    | Ret injectedStdIn =>
        match ipam_ExecAdd w (ipam_type n) injectedStdIn with
        | (w, inr err) => (w, Ret (inr ("IPAM ExecAdd: " +:+ err +:+ ", " +:+ injectedStdIn)))
        | (w, inl r) =>
            match NewResultFromResult (Some r) with
            | inr err => (fst (ipam_ExecDel w (ipam_type n) (ca_StdinData args)), Ret (inr err))
            | inl result =>
                if bool_decide (re_IPs result = [])
                then (w, Ret (inr ("IPAM plugin returned missing IP config " +:+ injectedStdIn)))
                else (w, Ret (inl (n, args, result)))
            end
        end
    end
  else if bool_decide (ipam_type n = MultiConfigIPAMType) then
    let '(ips, newArgs) := getStaticIPs (ca_Args args) in
    match static_ips 0 ips with
    | inr err => (w, Ret (inr err))
    | inl l =>
        let n := if bool_decide (mc_Masters n = [])
                 then with_masters n (multi_masters (ca_StdinData args)) else n in
        (w, Ret (inl (n, with_args args newArgs, with_IPs result (re_IPs result ++ l))))
    end
  else (w, Ret (inl (n, args, result))).

Definition if_name (args : CmdArgs) (index : nat) : string := conf_name (ca_IfName args) index.

(** one execution per configuration: the interfaces and the first address of each *)
Fixpoint add_devices (w : W) (deviceType : string) (args : CmdArgs) (index : nat) (confs : list string)
    : W * go (list Interface * list IPConfig + string) :=
  match confs with
  | [] => (w, Ret (inl ([], [])))
  | confBytes :: rest =>
      let ifName := if_name args index in
      match execPlugin w deviceType "ADD" confBytes args ifName true with
      | (w, inr err) => (w, Ret (inr err))
      | (w, inl None) => (w, Panic)
      | (w, inl (Some executeResult)) =>
          let netns := ca_Netns args in
          let item :=
            match ns_Do w netns, ns_LinkMac w netns ifName with
            | None, inl mac => mkInterface ifName mac netns
            | _, _ => mkInterface ifName "" ""
            end in
          let ip :=
            match re_IPs executeResult with
            | c :: _ => [mkIPConfig (Some (Z.of_nat index)) (ic_Address c) (ic_Gateway c)]
            | [] => []
            end in
          match add_devices w deviceType args (S index) rest with
          | (w, Ret (inl (items, ips))) => (w, Ret (inl (item :: items, ip ++ ips)))
          | r => r
          end
      end
  end.

(** the devices, their addresses and routes *)
Definition add_interfaces (w : W) (deviceType : string) (st : add_state) : W * go cmd_out :=
  let '(n, args, result) := st in
  match load_device json_err w deviceType (ca_StdinData args) (ca_IfName args) n (re_IPs result) with
  | (w, Panic) => (w, Panic)
  | (w, Ret (_, _, Some err)) => (w, Ret (CmdErr err))
  | (w, Ret (confBytesArray, multiPathRoutes, None)) =>
      if bool_decide (confBytesArray = []) then (w, Ret (CmdErr "zero config"))
      else match add_devices w deviceType args 0 confBytesArray with
      | (w, Panic) => (w, Panic)
      | (w, Ret (inr err)) => (w, Ret (CmdErr err))
      | (w, Ret (inl (items, ips))) =>
          let w := match ns_Do w (ca_Netns args) with
                   | Some _ => w
                   | None => fst (addMultiPathRoutes w (ca_Netns args) multiPathRoutes)
                   end in
          (w, Ret (Printed (mkResult (re_CNIVersion result) (re_Interfaces result ++ items) ips
                              (re_Routes result) (re_DNS result))
                     (nc_CNIVersion (mc_NetConf n))))
      end
  end.

Definition cmdAdd (w : W) (args : CmdArgs) : W * go cmd_out :=
  match loadConf json_err Hostname w args with
  | (w, Panic) => (w, Panic)
  | (w, Ret (_, _, Some err)) => (w, Ret (CmdErr ("failed to load netconf: " +:+ err)))
  | (w, Ret (None, _, None)) => (w, Panic)
  | (w, Ret (Some n, deviceType, None)) =>
      match ns_GetNS w (ca_Netns args) with
      | Some err => (w, Ret (CmdErr ("failed to open netns " +:+ quoted (ca_Netns args) +:+ ": " +:+ err)))
      | None =>
          match previous_result n with
          | inr e => (w, Ret (CmdErr e))
          | inl result =>
              match add_addresses w args n result with
              | (w, Panic) => (w, Panic)
              | (w, Ret (inr err)) => (w, Ret (CmdErr err))
              | (w, Ret (inl st)) => add_interfaces w deviceType st
              end
          end
      end
  end.

(** ** cmdDel *)

(** the addresses that the IPAM plugin returned; errors are logged *)
Definition del_addresses (w : W) (args : CmdArgs) (n : NetConf) : W * go (list IPConfig) :=
  if bool_decide (ipam_type n = "") then (w, Ret [])
  else match injectMaster (ca_StdinData args) (mc_MasterNetAddrs n) (mc_Masters n) (mc_DeviceIDs n) with
  | Panic => (w, Panic)
  | Ret injectedStdIn =>
      if negb (bool_decide (ipam_type n = "multi-nic-ipam")) then
        (if bool_decide (ipam_type n = HostDeviceIPAMType) then w
         else fst (ipam_ExecDel w (ipam_type n) injectedStdIn), Ret [])
      else match ipam_ExecDelWithResult w (ipam_type n) injectedStdIn with
      | (w, inr _) => (w, Ret [])
      | (w, inl None) => (w, Ret [])
      | (w, inl (Some r)) =>
          (w, match NewResultFromResult (Some r) with inl res => Ret (re_IPs res) | inr _ => Panic end)
      end
  end.

Fixpoint exec_all (w : W) (deviceType command : string) (args : CmdArgs) (index : nat) (confs : list string) : W :=
  match confs with
  | [] => w
  | confBytes :: rest =>
      let '(w, _) := execPlugin w deviceType command confBytes args (if_name args index) false in
      exec_all w deviceType command args (S index) rest
  end.

(** a namespace that cannot be opened is nil, and is entered all the same *)
Definition del_interfaces (w : W) (deviceType : string) (args : CmdArgs) (r : loaded) : W * go cmd_out :=
  let '(confBytesArray, multiPathRoutes, err) := r in
  match ns_GetNS w (ca_Netns args) with
  | Some _ => (w, Panic)
  | None =>
      let w :=
        match ns_Do w (ca_Netns args), err with
        | None, None => delMultiPathRoutes w (ca_Netns args) multiPathRoutes
        | _, _ => w
        end in
      (exec_all w deviceType "DEL" args 0 confBytesArray, Ret CmdNil)
  end.

Definition cmdDel (w : W) (args : CmdArgs) : W * go cmd_out :=
  if bool_decide (ca_Netns args = "") then (w, Ret CmdNil)
  else match loadConf json_err Hostname w args with
  | (w, Panic) => (w, Panic)
  | (w, Ret (None, _, _)) => (w, Ret CmdNil)
  | (w, Ret (Some n, deviceType, _)) =>
      match del_addresses w args n with
      | (w, Panic) => (w, Panic)
      | (w, Ret ips) =>
          match load_device json_err w deviceType (ca_StdinData args) (ca_IfName args) n ips with
          | (w, Panic) => (w, Panic)
          | (w, Ret r) => del_interfaces w deviceType args r
          end
      end
  end.

(** ** cmdCheck *)

(** the previous result, empty when there is none or it cannot be read *)
Definition check_result (n : NetConf) : cni_result :=
  match nc_RawPrevResult (mc_NetConf n) with
  | None => empty_result
  | Some _ =>
      match ParsePrevResult (mc_NetConf n) with
      | inr _ => empty_result
      | inl conf =>
          match NewResultFromResult (nc_PrevResult conf) with inr _ => empty_result | inl r => r end
      end
  end.

Definition cmdCheck (w : W) (args : CmdArgs) : W * go cmd_out :=
  if bool_decide (ca_Netns args = "") then (w, Ret CmdNil)
  else match loadConf json_err Hostname w args with
  | (w, Panic) => (w, Panic)
  | (w, Ret (None, _, _)) => (w, Ret CmdNil)
  | (w, Ret (Some n, deviceType, _)) =>
      match load_device json_err w deviceType (ca_StdinData args) (ca_IfName args) n
              (re_IPs (check_result n)) with
      | (w, Panic) => (w, Panic)
      | (w, Ret (confBytesArray, _, _)) =>
          (exec_all w deviceType "CHECK" args 0 confBytesArray, Ret CmdNil)
      end
  end.
End commands.
