(* ===== verification/MultiNicProps.v ===== *)
(** * What the main plugin does with addresses and routes

    Routes with several next hops are grouped by destination
    ([separateMultiPathRoutes_partition]); the configuration of the i-th interface has
    the i-th master and address ([loadIPVANConf_static]), which is that master's own
    address when the daemon answered for every master ([master_ips_aligned]); and what
    goes wrong: a failure after the IPAM plugin leaves the addresses allocated, and
    DEL panics when the pod's network namespace is gone. *)

From S2P Require Import Prelude GoLib GoText Json JsonSpec JsonText Types Selector Messages Cni MultiNicConf.
From S2P Require Import MultiNicLoad MultiNic.
From S2P Require Ipam.
Import Json.

(** ** Routes by destination *)

Definition dst_of (r : PRoute) : string := IPNet_String (pr_Dst r).

Definition to_dst (d : string) (rs : list PRoute) : list PRoute := filter (λ r, dst_of r = d) rs.

Lemma dst_map_lookup rs d :
  dst_map rs !! d = if bool_decide (to_dst d rs = []) then None else Some (to_dst d rs).
Proof.
  unfold dst_map, to_dst. induction rs as [|r rs IH] using rev_ind; [done|].
  rewrite foldl_app, filter_app. cbn [foldl]. set (m := foldl _ ∅ rs) in *. fold (dst_of r).
  rewrite filter_cons, filter_nil. destruct (decide (dst_of r = d)) as [<-|Hne].
  - destruct (m !! dst_of r) as [l|] eqn:E; rewrite lookup_insert_eq.
    + rewrite bool_decide_false by (by destruct (filter _ rs)).
      case_bool_decide; [done|]. by injection IH as <-.
    + case_bool_decide as Hf; [|done]. by rewrite Hf.
  - rewrite app_nil_r. destruct (m !! dst_of r); by rewrite lookup_insert_ne.
Qed.

Lemma separate_fold l acc :
  NoDup l.*1 →
  let r := foldl separate_step acc l in
  (∀ d, r.1 !! d = match (list_to_map l : gmap string (list PRoute)) !! d with
                   | Some [_] | None => acc.1 !! d
                   | Some rs => Some (pr_GW <$> rs)
                   end) ∧
  (∀ x, x ∈ r.2 ↔ x ∈ acc.2 ∨ ∃ d, (d, [x]) ∈ l).
Proof.
  revert acc. induction l as [|[k rs] l IH]; intros [mp non]; cbn [fmap list_fmap foldl].
  { intros _. cbn. split; [done|]. intros x. split; [by left|]. intros [?|(d & ?%elem_of_nil)]; done. }
  intros [Hk Hnd]%NoDup_cons. cbv zeta in IH |- *. destruct (IH (separate_step (mp, non) (k, rs)) Hnd) as [H1 H2].
  split.
  - intros d. rewrite H1, list_to_map_cons. destruct (decide (k = d)) as [<-|Hne].
    + rewrite (not_elem_of_list_to_map_1 (M := gmap string) l k) by done. rewrite lookup_insert_eq.
      destruct rs as [|r1 [|r2 rs]]; cbn [separate_step fst snd]; by rewrite ?lookup_insert_eq.
    + rewrite (lookup_insert_ne _ k d) by done. destruct ((list_to_map l : gmap string (list PRoute)) !! d) as [[|? [|? ?]]|];
        destruct rs as [|r1 [|r2 rs]]; cbn [separate_step fst snd]; by rewrite ?lookup_insert_ne.
  - intros x. rewrite H2. clear IH H1 H2. setoid_rewrite elem_of_cons.
    assert (E : (∃ d, (d, [x]) = (k, rs) ∨ (d, [x]) ∈ l) ↔ [x] = rs ∨ ∃ d, (d, [x]) ∈ l).
    { split; [intros (d & [[= -> <-]|?])|intros [<-|(d & ?)]]; eauto. }
    rewrite E. destruct rs as [|r1 [|r2 rs]]; cbn [separate_step snd];
      rewrite ?elem_of_app, ?list_elem_of_singleton; intuition congruence.
Qed.

(** grouping the routes of an IPAM section loses none: for every destination with
    one route that route stays a route of its own, and for every destination with
    several the multi-path route has exactly their gateways, in the order given. *)
Theorem separateMultiPathRoutes_partition {ord : MapRange} ipamRoutes mp non :
  separateMultiPathRoutes ipamRoutes = (mp, non) →
  (∀ d, mp !! d = let l := to_dst d ipamRoutes in
                  if (2 <=? length l)%nat then Some (pr_GW <$> l) else None) ∧
  (∀ r, r ∈ non ↔ to_dst (dst_of r) ipamRoutes = [r]).
Proof.
  unfold separateMultiPathRoutes. intros Heq.
  destruct (separate_fold (range_map (dst_map ipamRoutes)) (∅, []) (range_map_keys_nodup _)) as [H1 H2].
  cbv zeta in H1, H2. rewrite Heq in H1, H2. cbn [fst snd] in H1, H2.
  assert (Hl : (list_to_map (range_map (dst_map ipamRoutes)) : gmap string (list PRoute)) = dst_map ipamRoutes).
  { rewrite (list_to_map_proper _ (map_to_list (dst_map ipamRoutes))).
    - apply list_to_map_to_list.
    - apply range_map_keys_nodup.
    - apply range_map_perm. }
  rewrite Hl in H1. split.
  - intros d. rewrite H1, dst_map_lookup. cbv zeta.
    by destruct (to_dst d ipamRoutes) as [|r1 [|r2 l]]; case_bool_decide.
  - intros r. rewrite H2. setoid_rewrite elem_of_range_map. setoid_rewrite dst_map_lookup. split.
    + intros [?%elem_of_nil|(d & Hd)]; [done|]. case_bool_decide; [done|]. injection Hd as Hd.
      assert (Hr : dst_of r = d); [|by rewrite Hr].
      assert (Hin : r ∈ to_dst d ipamRoutes) by (rewrite Hd; left).
      by apply list_elem_of_filter in Hin as [? _].
    + intros Hr. right. exists (dst_of r). by rewrite Hr, bool_decide_false.
Qed.

(** ** Addresses by position *)

(** a configuration with the address of a response *)
Definition answers (c : IPConfig) (master : string) (resps : list IPResponse) : Prop :=
  ∃ r ip net, r ∈ resps ∧ rs_InterfaceName r = master ∧
    Net.ParseCIDR (rs_IPAddress r +:+ "/" +:+ rs_VLANBlockSize r) = Some (ip, net) ∧
    ic_Address c = Net.mkIPNet ip (Net.Mask net).

Lemma master_ip_some index master resps c :
  Ipam.master_ip index master resps = Ret (Some c) →
  ic_Interface c = Some index ∧ answers c master resps.
Proof.
  induction resps as [|r resps IH]; cbn; [done|]. case_bool_decide as Hr.
  - destruct (Net.ParseCIDR _) as [[ip net]|] eqn:E; [|done]. intros [= <-]. split; [done|].
    exists r, ip, net. split_and!; [left|done..].
  - intros Hc. destruct (IH Hc) as [? (r' & ip & net & Hin & ?)]. split; [done|].
    exists r', ip, net. split; [by right|done].
Qed.

Lemma master_ip_none index master resps :
  Ipam.master_ip index master resps = Ret None ↔ ∀ r, r ∈ resps → rs_InterfaceName r ≠ master.
Proof.
  induction resps as [|r resps IH]; cbn; [split; [by intros _ r ?%elem_of_nil|done]|].
  case_bool_decide as Hr.
  - split; [by destruct (Net.ParseCIDR _) as [[]|]|]. intros H. by destruct (H r); [left|].
  - rewrite IH. split; intros H x; [intros [->|Hx]%elem_of_cons; [done|by apply H]|].
    intros Hx. apply H. by right.
Qed.

Lemma master_ips_interface index masters resps ips c :
  Ipam.master_ips index masters resps = Ret ips → c ∈ ips → ∃ j, ic_Interface c = Some j ∧ index ≤ j.
Proof.
  revert index ips. induction masters as [|m masters IH]; intros index ips; cbn.
  { intros [= <-] ?%elem_of_nil. done. }
  destruct (Ipam.master_ip index m resps) as [o|] eqn:Hm; [|done]. cbn.
  destruct (Ipam.master_ips (index + 1) masters resps) as [l|] eqn:Hl; [|done]. cbn. intros [= <-] Hc.
  assert (Hrest : c ∈ l → ∃ j, ic_Interface c = Some j ∧ index ≤ j).
  { intros Hin. destruct (IH _ _ Hl Hin) as (j & ? & ?). exists j. split; [done|lia]. }
  destruct o as [x|]; [|by apply Hrest]. apply elem_of_cons in Hc as [->|Hc]; [|by apply Hrest].
  apply master_ip_some in Hm as [? _]. exists index. split; [done|lia].
Qed.

(** when the daemon answered for every master, the addresses of the IPAM result
    are in the order of the masters: the i-th configuration has interface i and the
    address of a response for the i-th master. *)
Theorem master_ips_aligned index masters resps ips :
  Ipam.master_ips index masters resps = Ret ips →
  (∀ m, m ∈ masters → ∃ r, r ∈ resps ∧ rs_InterfaceName r = m) →
  length ips = length masters ∧
  ∀ i m, masters !! i = Some m → ∃ c, ips !! i = Some c ∧
    ic_Interface c = Some (index + Z.of_nat i) ∧ answers c m resps.
Proof.
  revert index ips. induction masters as [|m masters IH]; intros index ips; cbn.
  { intros [= <-] _. split; [done|]. by intros [|i]. }
  destruct (Ipam.master_ip index m resps) as [o|] eqn:Hm; [|done]. cbn.
  destruct (Ipam.master_ips (index + 1) masters resps) as [l|] eqn:Hl; [|done]. cbn. intros [= <-] Hall.
  destruct (IH _ _ Hl) as [Hlen Hat]. { intros x Hx. apply Hall. by right. }
  destruct o as [c|].
  - split; [cbn; by rewrite Hlen|]. intros [|i] x Hx; cbn in *.
    + injection Hx as Hx. subst x. apply master_ip_some in Hm as [Hi Ha]. exists c. split_and!; [done| |done].
      rewrite Hi. f_equal. lia.
    + destruct (Hat i x Hx) as (c' & Hc' & Hi' & Ha'). exists c'. split_and!; [done| |done].
      rewrite Hi'. f_equal. lia.
  - exfalso. rewrite master_ip_none in Hm. destruct (Hall m) as (r & Hr & Hn); [by left|].
    by apply (Hm r).
Qed.

(** When the daemon did not answer for the first master but for a later one, the
    first interface is given an address that was allocated for another master: the
    addresses are taken by position, not by the interface they are recorded with. *)
Theorem unanswered_master_shifts {ord : MapRange} `{RouteJson} m masters resps ips conf bytes :
  Ipam.master_ips 0 (m :: masters) resps = Ret ips →
  (∀ r, r ∈ resps → rs_InterfaceName r ≠ m) → ips ≠ [] →
  ∃ c j, injectMultiNicIPAM conf bytes ips 0 = replaceMultiNicIPAM conf bytes (Some c) ∧
    ic_Interface c = Some j ∧ 0 < j.
Proof.
  cbn [Ipam.master_ips]. intros Hips Hno Hne. apply (master_ip_none 0) in Hno. rewrite Hno in Hips.
  destruct (Ipam.master_ips (0 + 1) masters resps) as [l|] eqn:Hl; [|done]. injection Hips as <-.
  destruct l as [|c l]; [done|]. destruct (master_ips_interface _ _ _ _ c Hl) as (j & Hj & ?); [left|].
  exists c, j. split_and!; [done|done|lia].
Qed.

(** ** The configuration of an interface *)

Lemma load_loop_all {W} (step : nat → string → W → W * go load_step) f mp w l :
  ∀ index confs mp0,
  (∀ i x, l !! i = Some x → step (index + i)%nat x w = (w, Ret (Conf (f (index + i)%nat x) mp))) →
  ∃ mp', load_loop step index l confs mp0 w
         = (w, Ret (confs ++ imap (λ i x, f (index + i)%nat x) l, mp', None)).
Proof.
  induction l as [|x l IH]; intros index confs mp0 Hs; cbn.
  { exists mp0. by rewrite app_nil_r. }
  pose proof (Hs 0%nat x eq_refl) as H0. rewrite Nat.add_0_r in H0. rewrite H0.
  destruct (IH (S index) (confs ++ [f index x]) mp) as (mp' & ->).
  { intros i y Hy. replace (S index + i)%nat with (index + S i)%nat by lia. by apply Hs. }
  exists mp'. do 4 f_equal. rewrite <- app_assoc. cbn. rewrite Nat.add_0_r. do 2 f_equal.
  apply imap_ext. intros i y _. cbn. f_equal. lia.
Qed.

Section single.
Context `{CniLib} {ord : MapRange} `{RouteJson}.
Context {W K : Type} `{HostLinks W K} (json_err : string → string).

(** the configuration before its IPAM section is written *)
Definition single_of (n : NetConf) (ifName : string) (c : IPVLANTypeNetConf) (i : nat) (m : string) : json :=
  ipvlan_json (mkIPVLAN (single_netconf n ifName i (iv_NetConf c)) m (iv_Mode c) (iv_MTU c)).

Lemma ipvlan_member v0 nm ty m mode mtu k :
  netconf_text →
  member k (ipvlan_json (mkIPVLAN (plain_netconf v0 nm ty) m mode mtu))
  = match member k (JObj (netconf_json (plain_netconf v0 nm ty))) with
    | Some x => Some x
    | None => member k (JObj [("master", JStr m); ("mode", JStr mode); ("mtu", JInt mtu)])
    end.
Proof. intros _. unfold ipvlan_json, member. by rewrite find_member_app. Qed.

Lemma ipvlan_inert v0 nm ty m mode mtu k x :
  netconf_text → k ≠ "ipam" →
  member k (ipvlan_json (mkIPVLAN (plain_netconf v0 nm ty) m mode mtu)) = Some x →
  inert "ipam" (JObj []) x.
Proof.
  intros Hlib Hk. rewrite ipvlan_member by done. destruct (member k _) as [y|] eqn:E.
  - intros [= <-]. by destruct (nt_inert Hlib _ _ _ _ _ Hk E).
  - cbn. repeat case_bool_decide; try done; by intros [= <-].
Qed.

Lemma conf_name_ne ifName i : conf_name ifName i ≠ "".
Proof. unfold conf_name. by destruct ifName. Qed.

(** C31: with addresses at hand the ipvlan loader returns one configuration per
    master, in their order: it reads as a JSON object whose master is that master,
    whose name is the interface name with the position, and whose IPAM section is
    static with the address at that position and the routes of the network. *)
Theorem loadIPVANConf_static (w : W) bytes ifName n ipConfigs plugin c v0 nm ty ipam routes mp :
  netconf_text →
  plugin_section dec_ipvlan zero_ipvlan bytes = (plugin, true) →
  copyIPVLANConfig json_err plugin = inl c → iv_NetConf c = plain_netconf v0 nm ty →
  ipam_extract bytes = (ipam, true) → getRoutesFromIPAM ipam = Ret (routes, mp) →
  ipConfigs ≠ [] → Forall (λ m, m ≠ "") (mc_Masters n) →
  (∀ i m, mc_Masters n !! i = Some m →
     json_plain (single_of n ifName c i m) = true ∧
     json_plain (JMap (static_ipam (ipConfigs !! i) routes)) = true) →
  ∃ confs mp', loadIPVANConf json_err w bytes ifName n ipConfigs = (w, Ret (confs, mp', None)) ∧
    length confs = length (mc_Masters n) ∧
    ∀ i m, mc_Masters n !! i = Some m → ∃ text v, confs !! i = Some text ∧ parse text = Some v ∧
      member "master" v = Some (JStr m) ∧ member "name" v = Some (JStr (conf_name ifName i)) ∧
      member "ipam" v = Some (JMap (static_ipam (ipConfigs !! i) routes)).
Proof.
  intros Hlib Hsec Hcopy Hc Hex Hr Hne Hms Hplain. unfold loadIPVANConf. rewrite Hsec. cbv zeta.
  set (f := λ i m, replace_ipam (print (single_of n ifName c i m))
                     (print (JMap (static_ipam (ipConfigs !! i) routes)))).
  destruct (load_loop_all (ipvlan_step json_err bytes ifName n ipConfigs
    (if bool_decide (ipam_type n = MultiConfigIPAMType) then
       let '(m, ok) := getMultiIPAMConfigBytes bytes in if ok : bool then Some m else None
     else None) plugin) f mp w (mc_Masters n) 0 [] ∅) as (mp' & Hload).
  { intros i m Hm. cbn [Nat.add]. unfold ipvlan_step.
    rewrite bool_decide_false by (by eapply (Forall_lookup_1 _ _ _ _ Hms)).
    unfold ipvlan_single. rewrite Hcopy, bool_decide_false by done. cbn [negb].
    unfold injectMultiNicIPAM, replaceMultiNicIPAM. rewrite Hex, Hr. done. }
  exists (imap f (mc_Masters n)), mp'. rewrite Hload. split; [done|]. split; [by rewrite length_imap|].
  intros i m Hm. destruct (Hplain i m Hm) as [Hp1 Hp2].
  exists (f i m), (set_member "ipam" (JObj []) (JMap (static_ipam (ipConfigs !! i) routes))
                     (single_of n ifName c i m)).
  split; [by rewrite list_lookup_imap, Hm|]. unfold f, replace_ipam.
  change (quoted "ipam" +:+ ":" +:+ print ?x) with (member_text "ipam" x).
  change empty_ipam with (member_text "ipam" (JObj [])).
  rewrite ReplaceText_member; [|done|done|by right; left|done].
  split; [apply parse_print, json_plain_ok; by apply set_member_plain|].
  unfold single_of. rewrite Hc. unfold single_netconf. cbn [nc_CNIVersion nc_Name nc_Type nc_IPAM_Type nc_DNS
    nc_RawPrevResult nc_PrevResult plain_netconf].
  set (v := if bool_decide (v0 = "") then _ else _).
  change (mkNetConf v (conf_name ifName i) ty "" zero_DNS None None)
    with (plain_netconf v (conf_name ifName i) ty).
  assert (Hi : ∀ k x, k ≠ "ipam" →
    member k (ipvlan_json (mkIPVLAN (plain_netconf v (conf_name ifName i) ty) m (iv_Mode c) (iv_MTU c))) = Some x →
    inert "ipam" (JObj []) x ∧ (k = "ipam" → x ≠ JObj [])).
  { intros k x Hk Hx. split; [by eapply ipvlan_inert|done]. }
  split_and!.
  - rewrite member_set_miss by (intros; by apply Hi). rewrite (ipvlan_member _ _ _ _ _ _ _ Hlib).
    rewrite netconf_other; [done|done|]. apply (bool_decide_eq_true_1 _). vm_refl.
  - rewrite member_set_miss by (intros; by apply Hi). rewrite (ipvlan_member _ _ _ _ _ _ _ Hlib).
    rewrite (nt_name Hlib); [done|apply conf_name_ne].
  - apply member_set_hit. rewrite (ipvlan_member _ _ _ _ _ _ _ Hlib). by rewrite (nt_ipam Hlib).
Qed.
End single.

(** ** The commands *)

Lemma load_loop_world {W} (step : nat → string → W → W * go load_step) l :
  (∀ i x w, fst (step i x w) = w) →
  ∀ index confs mp w, fst (load_loop step index l confs mp w) = w.
Proof.
  intros Hs. induction l as [|x l IH]; intros index confs mp w; cbn; [done|].
  specialize (Hs index x w). destruct (step index x w) as [w' [[]|]]; cbn in Hs; subst w'; [apply IH|apply IH|done..].
Qed.

Section commands.
Context `{CniLib} {ord : MapRange} `{RouteJson}.
Context {W K : Type} `{Http W} `{HostLinks W K} `{!CniRuntime W}.
Context (json_err : string → string) (Hostname : string + string).

(** only the host-device loader changes the host *)
Lemma load_device_world (w : W) deviceType bytes ifName n ips :
  deviceType ≠ "host-device" → fst (load_device json_err w deviceType bytes ifName n ips) = w.
Proof.
  intros Hd. unfold load_device. rewrite (bool_decide_false (deviceType = "host-device")) by done.
  repeat case_bool_decide; try done;
    [unfold loadIPVANConf|unfold loadMACVLANConf|unfold loadSRIOVConf|unfold loadAWSCNIConf];
    destruct (plugin_section _ _ _) as [p []]; try done; apply load_loop_world; intros; done.
Qed.

(** C39: ADD does not return the addresses when the devices fail. When the
    configuration is loaded, the network namespace is open, there is no previous
    address, the plugin does its own IPAM and the IPAM plugin allocated addresses, and
    the configuration of the devices then fails, ADD ends with that error in exactly
    the state that the device loader left, with no call of the IPAM plugin in between:
    the addresses stay allocated, although the deferred call is there to return them
    (it looks at another variable [err]). For every device type but host-device the
    loader changes nothing, so this is the state that the IPAM plugin left; the loader
    for host-device may have changed links of the host before it failed. *)
Theorem cmdAdd_failure_keeps_addresses (w : W) args w1 n deviceType result stdin w2 r res w3 confs mp e :
  loadConf json_err Hostname w args = (w1, Ret (Some n, deviceType, None)) →
  ns_GetNS w1 (ca_Netns args) = None → previous_result n = inl result → re_IPs result = [] →
  mc_IsMultiNICIPAM n = true →
  injectMaster (ca_StdinData args) (mc_MasterNetAddrs n) (mc_Masters n) (mc_DeviceIDs n) = Ret stdin →
  ipam_ExecAdd w1 (ipam_type n) stdin = (w2, inl r) → NewResultFromResult (Some r) = inl res →
  re_IPs res ≠ [] →
  load_device json_err w2 deviceType (ca_StdinData args) (ca_IfName args) n (re_IPs res)
    = (w3, Ret (confs, mp, Some e)) →
  cmdAdd json_err Hostname w args = (w3, Ret (CmdErr e)) ∧
  (deviceType ≠ "host-device" → w3 = w2).
Proof.
  intros Hl Hns Hp Hips Hm Hinj Hadd Hres Hne Hdev. split.
  - unfold cmdAdd. rewrite Hl, Hns, Hp.
    unfold add_addresses. rewrite Hips, bool_decide_true by done. cbn [negb].
    rewrite Hm, Hinj, Hadd, Hres, bool_decide_false by done. unfold add_interfaces. by rewrite Hdev.
  - intros Hd. pose proof (load_device_world w2 deviceType (ca_StdinData args) (ca_IfName args) n
      (re_IPs res) Hd) as Hw. by rewrite Hdev in Hw.
Qed.

(** DEL of a pod whose network namespace is gone panics: the namespace that could
    not be opened is nil and is entered all the same, before any of the device
    plugins is executed. *)
Theorem cmdDel_gone_netns_panics (w : W) args w1 n deviceType e w2 ips w3 r err :
  ca_Netns args ≠ "" →
  loadConf json_err Hostname w args = (w1, Ret (Some n, deviceType, e)) →
  del_addresses w1 args n = (w2, Ret ips) →
  load_device json_err w2 deviceType (ca_StdinData args) (ca_IfName args) n ips = (w3, Ret r) →
  ns_GetNS w3 (ca_Netns args) = Some err →
  cmdDel json_err Hostname w args = (w3, Panic).
Proof.
  intros Hne Hl Hd Hdev Hns. unfold cmdDel. rewrite bool_decide_false by done. rewrite Hl, Hd, Hdev.
  unfold del_interfaces. destruct r as [[confs mp] er]. by rewrite Hns.
Qed.

Lemma add_devices_ok (w : W) deviceType args index confs w' items ips :
  add_devices w deviceType args index confs = (w', Ret (inl (items, ips))) →
  if_Name <$> items = imap (λ i _, if_name args (index + i)) confs ∧
  ∀ c, c ∈ ips → ∃ i, ic_Interface c = Some (Z.of_nat i) ∧ (index ≤ i < index + length confs)%nat.
Proof.
  revert w index items ips. induction confs as [|conf confs IH]; intros w index items ips; cbn.
  { intros [= _ <- <-]. split; [done|]. by intros c ?%elem_of_nil. }
  destruct (execPlugin w _ _ _ _ _ _) as [w1 [[res|]|]]; [|done..].
  destruct (add_devices w1 _ _ (S index) confs) as [w2 [[[items' ips']|]|]] eqn:E; [|done..].
  intros [= <- <- <-]. destruct (IH _ _ _ _ E) as [Hn Hc]. split.
  - rewrite fmap_cons, Hn, Nat.add_0_r.
    f_equal; [by repeat case_match|]. apply imap_ext. intros i y _. cbn. f_equal. lia.
  - intros c [Hin|Hin]%elem_of_app.
    + destruct (re_IPs res) as [|x l]; [by apply elem_of_nil in Hin|].
      apply list_elem_of_singleton in Hin as ->. exists index. cbn. split; [done|lia].
    + destruct (Hc c Hin) as (i & ? & ?). exists i. split; [done|lia].
Qed.

(** the result of a successful ADD names one interface per configuration, the
    given name with the position, and every address of the result belongs to one of
    these interfaces. *)
Theorem add_interfaces_result (w : W) deviceType n args result w' r version :
  add_interfaces json_err w deviceType (n, args, result) = (w', Ret (Printed r version)) →
  ∃ w1 confs mp,
    load_device json_err w deviceType (ca_StdinData args) (ca_IfName args) n (re_IPs result)
      = (w1, Ret (confs, mp, None)) ∧ confs ≠ [] ∧
    if_Name <$> re_Interfaces r
      = (if_Name <$> re_Interfaces result) ++ imap (λ i _, if_name args i) confs ∧
    ∀ c, c ∈ re_IPs r → ∃ i, ic_Interface c = Some (Z.of_nat i) ∧ (i < length confs)%nat.
Proof.
  unfold add_interfaces. destruct (load_device _ _ _ _ _ _ _) as [w1 [[[confs mp] [e|]]|]]; [done| |done].
  case_bool_decide as Hne; [done|].
  destruct (add_devices w1 _ _ 0 confs) as [w2 [[[items ips]|]|]] eqn:E; [|done..].
  intros [= _ <- _]. exists w1, confs, mp. split; [done|]. split; [done|].
  destruct (add_devices_ok _ _ _ _ _ _ _ _ E) as [Hn Hc]. cbn. split.
  - by rewrite fmap_app, Hn.
  - intros c Hin. destruct (Hc c Hin) as (i & ? & ?). exists i. split; [done|lia].
Qed.
End commands.

(** ** A pod with two interfaces *)

#[local] Existing Instance cni_plain.
#[local] Existing Instance map_to_list_range.

Definition xq (s : string) : string := Strings.ReplaceAll s "'" dq.

(** the host: the calls that were made on it *)
Definition x_host : Type := list string.

#[local] Instance x_route_json : RouteJson := λ r,
  JObj [("dst", JStr (IPNet_String (pr_Dst r))); ("gw", JStr (ip_text (pr_GW r)))].

#[local] Instance x_http : Http x_host := λ w address body,
  (w ++ ["post " +:+ address],
   Response 200 "200 OK" (inl (xq "{'deviceIDs':['',''],'masters':['eth1','eth2']}"))).

#[local] Instance x_links : HostLinks x_host string := {|
  host_Lstat _ _ := false; host_Glob _ _ := inl []; host_ReadDir _ _ := inl [];
  host_LinkByName _ _ := inr "no link"; host_AddrList _ _ := inl []; host_LinkIsUp _ _ := false;
  host_LinkSetDown w _ := (w, None); host_LinkSetUp w _ := (w, None); host_LinkSetAlias w _ _ := (w, None);
  host_LinkSetName w _ _ := (w, None); host_delAltName w _ _ := (w, None)
|}.

Definition x_ip (i : Z) (b : Z) : IPConfig :=
  mkIPConfig (Some i) (Net.mkIPNet [192; 168; b; 1] [255; 255; 192; 0]) None.

Definition x_result : cni_result := mkResult "1.0.0" [] [x_ip 0 0; x_ip 1 64] [] JNull.

(** [gone]: the network namespace cannot be opened *)
Definition x_runtime (gone : bool) : CniRuntime x_host := {|
  ns_GetNS _ _ := if gone then Some "no such file" else None;
  ns_Do _ _ := None;
  ns_LinkMac _ _ _ := inl "02:00:00:00:00:01";
  ns_RouteAddEcmp w _ _ _ := (w ++ ["route add"], None);
  ns_RouteDel w _ _ _ := (w ++ ["route del"], None);
  ipam_ExecAdd w type _ := (w ++ ["ipam add " +:+ type], inl x_result);
  ipam_ExecDel w type _ := (w ++ ["ipam del " +:+ type], None);
  ipam_ExecDelWithResult w type _ := (w ++ ["ipam del " +:+ type], inl (Some x_result));
  exec_FindInPath _ p := inl p;
  exec_WithResult w p command _ _ ifName := (w ++ [p +:+ " " +:+ command +:+ " " +:+ ifName], inl x_result);
  exec_WithoutResult w p command _ _ ifName := (w ++ [p +:+ " " +:+ command +:+ " " +:+ ifName], None)
|}.

Definition x_conf (device : string) : string :=
  xq "{'cniVersion':'0.3.0','name':'net1','type':'multi-nic','ipam':{'type':'multi-nic-ipam','routes':[{'dst':'10.1.0.0/16','gw':'192.168.0.1'},{'dst':'10.1.0.0/16','gw':'192.168.64.1'},{'dst':'10.2.0.0/16','gw':'192.168.0.1'}]},'dns':{},'plugin':{'cniVersion':'0.3.0','mode':'l3','type':'"
  +:+ device +:+ xq "'},'subnet':'192.168.0.0/16','masterNets':['10.0.0.0/16'],'multiNICIPAM':true,'daemonIP':'','daemonPort':11000}".

Definition x_args (device : string) : CmdArgs :=
  mkCmdArgs "c1" "/run/netns/c1" "net1" "K8S_POD_NAMESPACE=ns;K8S_POD_NAME=p" (x_conf device).

(** one ADD and one DEL: what is executed *)
Example x_add : fst (cmdAdd (CniRuntime0 := x_runtime false) xq (inl "host1") [] (x_args "ipvlan")) =
  ["post http://localhost:11000/select"; "ipam add multi-nic-ipam"; "ipvlan ADD net1-0"; "ipvlan ADD net1-1";
   "route add"].
Proof. vm_refl. Qed.

Example x_del : fst (cmdDel (CniRuntime0 := x_runtime false) xq (inl "host1") [] (x_args "ipvlan")) =
  ["post http://localhost:11000/select"; "ipam del multi-nic-ipam"; "route del"; "ipvlan DEL net1-0";
   "ipvlan DEL net1-1"].
Proof. vm_refl. Qed.

(** *** Witnesses *)

Definition x_world (device : string) : x_host := fst (loadConf xq (inl "host1") ([] : x_host) (x_args device)).

Definition x_netconf (device : string) : NetConf :=
  match snd (loadConf xq (inl "host1") ([] : x_host) (x_args device)) with
  | Ret (Some n, _, _) => n
  | _ => zero_conf
  end.

Definition x_stdin (device : string) : string :=
  match injectMaster (x_conf device) ["10.0.0.0/16"] ["eth1"; "eth2"] [""; ""] with Ret s => s | Panic => "" end.

Lemma cmdAdd_failure_keeps_addresses_witness :
  cmdAdd (CniRuntime0 := x_runtime false) xq (inl "host1") [] (x_args "bridge")
  = (["post http://localhost:11000/select"; "ipam add multi-nic-ipam"],
     Ret (CmdErr "unsupported device type: bridge")) ∧
  ("bridge" ≠ "host-device" →
   ["post http://localhost:11000/select"; "ipam add multi-nic-ipam"]
   = ["post http://localhost:11000/select"; "ipam add multi-nic-ipam"]).
Proof.
  apply (cmdAdd_failure_keeps_addresses (CniRuntime0 := x_runtime false) xq (inl "host1") [] (x_args "bridge")
    (x_world "bridge") (x_netconf "bridge") "bridge" empty_result (x_stdin "bridge")
    ["post http://localhost:11000/select"; "ipam add multi-nic-ipam"] x_result x_result
    ["post http://localhost:11000/select"; "ipam add multi-nic-ipam"] [] ∅); try vm_refl; done.
Defined.

Definition x_del_world : x_host := x_world "ipvlan" ++ ["ipam del multi-nic-ipam"].

Definition x_loaded : loaded :=
  match snd (load_device xq x_del_world "ipvlan" (x_conf "ipvlan") "net1" (x_netconf "ipvlan")
               [x_ip 0 0; x_ip 1 64]) with
  | Ret r => r
  | Panic => ([], ∅, None)
  end.

Lemma cmdDel_gone_netns_panics_witness :
  cmdDel (CniRuntime0 := x_runtime true) xq (inl "host1") [] (x_args "ipvlan") = (x_del_world, Panic).
Proof.
  apply (cmdDel_gone_netns_panics (CniRuntime0 := x_runtime true) xq (inl "host1") [] (x_args "ipvlan")
    (x_world "ipvlan") (x_netconf "ipvlan") "ipvlan" None x_del_world [x_ip 0 0; x_ip 1 64] x_del_world x_loaded
    "no such file"); try vm_refl; done.
Defined.

Definition x_printed : cni_result :=
  match snd (add_interfaces (CniRuntime0 := x_runtime false) xq ([] : x_host) "ipvlan"
               (x_netconf "ipvlan", x_args "ipvlan", x_result)) with
  | Ret (Printed r _) => r
  | _ => empty_result
  end.

Lemma add_interfaces_result_witness :
  ∃ (w1 : x_host) confs mp,
    load_device xq [] "ipvlan" (x_conf "ipvlan") "net1" (x_netconf "ipvlan") (re_IPs x_result)
      = (w1, Ret (confs, mp, None)) ∧ confs ≠ [] ∧
    if_Name <$> re_Interfaces x_printed
      = (if_Name <$> re_Interfaces x_result) ++ imap (λ i _, if_name (x_args "ipvlan") i) confs ∧
    ∀ c, c ∈ re_IPs x_printed → ∃ i, ic_Interface c = Some (Z.of_nat i) ∧ (i < length confs)%nat.
Proof.
  apply (add_interfaces_result (CniRuntime0 := x_runtime false) xq ([] : x_host) "ipvlan" (x_netconf "ipvlan")
    (x_args "ipvlan") x_result ["ipvlan ADD net1-0"; "ipvlan ADD net1-1"; "route add"] x_printed "0.3.0").
  vm_refl.
Defined.

Definition x_routes : list PRoute :=
  match ipam_routes (match fst (ipam_extract (x_conf "ipvlan")) !! "routes" with
                     | Some (JArr l) => l | _ => [] end) with Ret l => l | Panic => [] end.

Lemma separateMultiPathRoutes_partition_witness :
  let '(mp, non) := separateMultiPathRoutes x_routes in
  length non = 1%nat ∧
  (∀ d, mp !! d = let l := to_dst d x_routes in
                  if (2 <=? length l)%nat then Some (pr_GW <$> l) else None).
Proof.
  destruct (separateMultiPathRoutes x_routes) as [mp non] eqn:E.
  destruct (separateMultiPathRoutes_partition x_routes mp non E) as [H _].
  split; [|exact H]. assert (non = snd (separateMultiPathRoutes x_routes)) as -> by (by rewrite E). vm_refl.
Defined.

Definition x_resps : list IPResponse :=
  [mkIPResponse "eth2" "192.168.64.1" "18"; mkIPResponse "eth1" "192.168.0.1" "18"].

Lemma master_ips_aligned_witness :
  length [x_ip 0 0; x_ip 1 64] = length ["eth1"; "eth2"] ∧
  ∀ i m, ["eth1"; "eth2"] !! i = Some m → ∃ c, [x_ip 0 0; x_ip 1 64] !! i = Some c ∧
    ic_Interface c = Some (0 + Z.of_nat i) ∧ answers c m x_resps.
Proof.
  apply (master_ips_aligned 0 ["eth1"; "eth2"] x_resps [x_ip 0 0; x_ip 1 64]); [vm_refl|].
  intros m [->|[->|[]%elem_of_nil]%elem_of_cons]%elem_of_cons.
  - exists (mkIPResponse "eth1" "192.168.0.1" "18"). split; [right; left|done].
  - exists (mkIPResponse "eth2" "192.168.64.1" "18"). split; [left|done].
Defined.

Lemma unanswered_master_shifts_witness :
  ∃ c j, injectMultiNicIPAM "" "" [x_ip 1 64] 0 = replaceMultiNicIPAM "" "" (Some c) ∧
    ic_Interface c = Some j ∧ 0 < j.
Proof.
  apply (unanswered_master_shifts "eth1" ["eth2"] [mkIPResponse "eth2" "192.168.64.1" "18"] [x_ip 1 64]); [vm_refl| |done].
  by intros r [->|[]%elem_of_nil]%elem_of_cons.
Defined.

Definition x_plugin : IPVLANTypeNetConf := fst (plugin_section dec_ipvlan zero_ipvlan (x_conf "ipvlan")).

Definition x_copy : IPVLANTypeNetConf :=
  match copyIPVLANConfig xq x_plugin with inl c => c | inr _ => zero_ipvlan end.

Definition x_single_routes : list PRoute := snd (separateMultiPathRoutes x_routes).

Lemma loadIPVANConf_static_witness :
  ∃ confs mp', loadIPVANConf xq ([] : x_host) (x_conf "ipvlan") "net1" (x_netconf "ipvlan") [x_ip 0 0; x_ip 1 64]
                 = ([], Ret (confs, mp', None)) ∧
    length confs = length (mc_Masters (x_netconf "ipvlan")) ∧
    ∀ i m, mc_Masters (x_netconf "ipvlan") !! i = Some m → ∃ text v,
      confs !! i = Some text ∧ parse text = Some v ∧
      member "master" v = Some (JStr m) ∧ member "name" v = Some (JStr (conf_name "net1" i)) ∧
      member "ipam" v = Some (JMap (static_ipam ([x_ip 0 0; x_ip 1 64] !! i) (Some x_single_routes))).
Proof.
  apply (loadIPVANConf_static xq ([] : x_host) (x_conf "ipvlan") "net1" (x_netconf "ipvlan") [x_ip 0 0; x_ip 1 64]
    x_plugin x_copy "0.3.0" "" "ipvlan" (fst (ipam_extract (x_conf "ipvlan"))) (Some x_single_routes)
    (fst (separateMultiPathRoutes x_routes))); try vm_refl.
  - exact cni_plain_text.
  - done.
  - assert (mc_Masters (x_netconf "ipvlan") = ["eth1"; "eth2"]) as -> by vm_refl. by repeat constructor.
  - assert (mc_Masters (x_netconf "ipvlan") = ["eth1"; "eth2"]) as -> by vm_refl.
    intros [|[|i]] m; cbn; [intros [= <-]; split; vm_refl..|done].
Defined.
