(* ===== verification/AwsIpvlan.v ===== *)
(** * cni/plugins/main/aws-ipvlan: the plugin for AWS hosts

    On AWS an address must be assigned to the network interface (ENI) of the host before
    a pod can use it.  ADD assigns the pod's address to the ENI that has the primary
    address and executes the ipvlan plugin; when that fails the address is taken back.
    DEL takes it back first.  The EC2 service is the class [EC2]; executing a plugin is
    [CniRuntime]. *)

From S2P Require Import Prelude GoLib GoText Json JsonSpec Types Selector Messages Cni Pci.
From S2P Require Import MultiNicConf MultiNicLoad MultiNic.
Import Json.

(** ** aws_util.go *)

(** the region of the host, interfaces by address (their IDs may be nil), and the
    assignment of addresses; errors are texts *)
Class EC2 (W : Type) := {
  ec2_Region : W → option string;                                 (* the error of finding it *)
  ec2_Describe : W → string → list (option string) + string;
  ec2_Assign : W → string → string → W * option string;
  ec2_Unassign : W → string → string → W * option string
}.

Section aws.
Context {W : Type} `{EC2 W}.

Definition getENIId (w : W) (primaryAddress : string) : option string + string :=
  match ec2_Describe w primaryAddress with
  | inr err => inr ("Failed to DescribeNetworkInterfaces: " +:+ err)
  | inl [] => inr "Cannot getENIId: no interface found"
  | inl (eniID :: _) => inl eniID
  end.

(** the ENI of the primary address; the client needs the region *)
Definition with_eni (call : W → string → W * option string) (primaryAddress : string) (w : W)
    : W * go (option string) :=
  match ec2_Region w with
  | Some err => (w, Ret (Some ("Failed to get region: " +:+ err)))
  | None =>
      match getENIId w primaryAddress with
      | inr err => (w, Ret (Some err))
      | inl None => (w, Panic)
      | inl (Some eniId) => let '(w, err) := call w eniId in (w, Ret err)
      end
  end.

Definition AssignIP (w : W) (primaryAddress podIP : string) : W * go (option string) :=
  with_eni (λ w eniId, ec2_Assign w eniId podIP) primaryAddress w.

Definition UnassignIP (w : W) (primaryAddress podIP : string) : W * go (option string) :=
  with_eni (λ w eniId, ec2_Unassign w eniId podIP) primaryAddress w.
End aws.

(** ** aws-ipvlan.go: the configuration of the ipvlan plugin *)

(** [net.IP] as text, IPv4 *)
Definition dec_ip : decoder (option (list Z)) := λ v old,
  match v with
  | JNull => (old, false)
  | JStr s =>
      if bool_decide (s = "") then (None, false)
      else match Net.ParseIP s with Some ip => (Some ip, false) | None => (old, true) end
  | _ => (old, true)
  end.

Definition ip_json (ip : option (list Z)) : json :=
  JStr (match ip with Some ip => Net.ip_string ip | None => "" end).

(** [net.IPNet]: the address, and the mask as base64 text *)
Record IPNetJson := mkIPNetJson { ij_IP : option (list Z); ij_Mask : string }.

Record Address := mkAddress {
  ad_AddressStr : string;
  ad_Gateway : option (list Z);
  ad_Address : IPNetJson;
  ad_Version : string
}.

Definition ipnet_fields : fields IPNetJson := [
  field "IP" dec_ip ij_IP (λ x '(mkIPNetJson _ m), mkIPNetJson x m);
  field "Mask" dec_bytes ij_Mask (λ x '(mkIPNetJson i _), mkIPNetJson i x)].

Definition address_fields : fields Address := [
  field "address" dec_string ad_AddressStr (λ x '(mkAddress _ g a v), mkAddress x g a v);
  field "gateway" dec_ip ad_Gateway (λ x '(mkAddress s _ a v), mkAddress s x a v);
  field "Address" (dec_struct ipnet_fields) ad_Address (λ x '(mkAddress s g _ v), mkAddress s g x v);
  field "Version" dec_string ad_Version (λ x '(mkAddress s g a _), mkAddress s g a x)].

Definition zero_address : Address := mkAddress "" None (mkIPNetJson None "") "".

Definition address_json (a : Address) : json :=
  JObj ([("address", JStr (ad_AddressStr a))] ++
    omit_empty "gateway" (bool_decide (ad_Gateway a = None)) (ip_json (ad_Gateway a)) ++
    [("Address", JObj [("IP", ip_json (ij_IP (ad_Address a)));
        ("Mask", if bool_decide (ij_Mask (ad_Address a) = "") then JNull else JStr (ij_Mask (ad_Address a)))]);
     ("Version", JStr (ad_Version a))]).

Record StaticIPAM := mkStaticIPAM { si_Name : string; si_Type : string; si_Addresses : list Address }.

Definition static_fields : fields StaticIPAM := [
  field "Name" dec_string si_Name (λ x '(mkStaticIPAM _ t a), mkStaticIPAM x t a);
  field "type" dec_string si_Type (λ x '(mkStaticIPAM n _ a), mkStaticIPAM n x a);
  field "addresses" (dec_slice zero_address (dec_struct address_fields)) si_Addresses
    (λ x '(mkStaticIPAM n t _), mkStaticIPAM n t x)].

Definition static_json (i : StaticIPAM) : json :=
  JObj ([("Name", JStr (si_Name i)); ("type", JStr (si_Type i))] ++
    omit_empty "addresses" (bool_decide (si_Addresses i = [])) (JArr (address_json <$> si_Addresses i))).

Section plugin.
Context `{CniLib} `{RouteJson} {W : Type} `{EC2 W} `{!CniRuntime W}.
Context (json_err : string → string).

Record IPVLANTypeNetConf := mkIPVLANType {
  iv_NetConf : net_conf;
  iv_IPAM : StaticIPAM;
  iv_Master : string;
  iv_Mode : string;
  iv_MTU : Z
}.

Definition ipvlan_type_fields : fields IPVLANTypeNetConf := [
  field "ipam" (dec_struct static_fields) iv_IPAM (λ x '(mkIPVLANType c _ m o t), mkIPVLANType c x m o t);
  field "master" dec_string iv_Master (λ x '(mkIPVLANType c i _ o t), mkIPVLANType c i x o t);
  field "mode" dec_string iv_Mode (λ x '(mkIPVLANType c i m _ t), mkIPVLANType c i m x t);
  field "mtu" dec_int iv_MTU (λ x '(mkIPVLANType c i m o _), mkIPVLANType c i m o x)]
  ++ embed iv_NetConf (λ x '(mkIPVLANType _ i m o t), mkIPVLANType x i m o t) netconf_fields.

Definition zero_ipvlan_type : IPVLANTypeNetConf := mkIPVLANType empty_netconf (mkStaticIPAM "" "" []) "" "" 0.

(** the embedded struct's own [ipam] is shadowed *)
Definition ipvlan_type_json (c : IPVLANTypeNetConf) : json :=
  JObj (filter (λ kv, kv.1 ≠ "ipam") (netconf_json (iv_NetConf c)) ++
    [("ipam", static_json (iv_IPAM c)); ("master", JStr (iv_Master c)); ("mode", JStr (iv_Mode c));
     ("mtu", JInt (iv_MTU c))]).

(** the plugin's own configuration has the fields of [AWSIPVLANNetConf] *)
Definition loadConf (bytes : string) : (AWSIPVLANNetConf * IPVLANTypeNetConf) + string :=
  match Unmarshal dec_aws bytes zero_aws with
  | (_, false) => inr (json_err bytes)
  | (n, true) =>
      match Unmarshal (dec_struct ipvlan_type_fields) bytes zero_ipvlan_type with
      | (_, false) => inr (json_err bytes)
      | (c, true) => inl (n, c)
      end
  end.

(** the body is that of [execPlugin] for the ipvlan plugin *)
Definition execIPVLAN (w : W) (command : string) (ipvlanConfig : IPVLANTypeNetConf) (args : CmdArgs)
    (ifName : string) (isAdd : bool) : W * (option cni_result + string) :=
  execPlugin w "ipvlan" command (print (ipvlan_type_json ipvlanConfig)) args ifName isAdd.

(** the deferred call: its error is only logged, a panic is one of the command *)
Definition aws_rollback (w : W) (n : AWSIPVLANNetConf) (out : cmd_out) : W * go cmd_out :=
  match UnassignIP w (aw_PrimaryIP n) (aw_PodIP n) with
  | (w, Ret _) => (w, Ret out)
  | (w, Panic) => (w, Panic)
  end.

Definition aws_cmdAdd (w : W) (args : CmdArgs) : W * go cmd_out :=
  match loadConf (ca_StdinData args) with
  | inr err => (w, Ret (CmdErr ("failed to load netconf: " +:+ err)))
  | inl (n, ipvlanConfig) =>
      match AssignIP w (aw_PrimaryIP n) (aw_PodIP n) with
      | (w, Panic) => (w, Panic)
      | (w, Ret (Some err)) => (w, Ret (CmdErr ("Failed to AssignIP: " +:+ err)))
      | (w, Ret None) =>
          match execIPVLAN w "ADD" ipvlanConfig args (ca_IfName args) true with
          | (w, inr err) => aws_rollback w n (CmdErr err)
          | (w, inl None) => (w, Panic)
          | (w, inl (Some r)) => (w, Ret (Printed r (nc_CNIVersion (aw_NetConf n))))
          end
      end
  end.

Definition aws_cmdDel (w : W) (args : CmdArgs) : W * go cmd_out :=
  if bool_decide (ca_Netns args = "") then (w, Ret CmdNil)
  else match loadConf (ca_StdinData args) with
  | inr err => (w, Ret (CmdErr ("fail to load conf: " +:+ err)))
  | inl (n, ipvlanConfig) =>
      match UnassignIP w (aw_PrimaryIP n) (aw_PodIP n) with
      | (w, Panic) => (w, Panic)
      | (w, Ret (Some err)) => (w, Ret (CmdErr ("Failed to UnassignIP: " +:+ err)))
      | (w, Ret None) =>
          match execIPVLAN w "DEL" ipvlanConfig args (ca_IfName args) false with
          | (w, inr err) => (w, Ret (CmdErr err))
          | (w, inl _) => (w, Ret CmdNil)
          end
      end
  end.

Definition aws_cmdCheck (w : W) (args : CmdArgs) : W * go cmd_out :=
  if bool_decide (ca_Netns args = "") then (w, Ret CmdNil)
  else match loadConf (ca_StdinData args) with
  | inr err => (w, Ret (CmdErr ("fail to load conf: " +:+ err)))
  | inl (_, ipvlanConfig) =>
      match execIPVLAN w "CHECK" ipvlanConfig args (ca_IfName args) false with
      | (w, inr err) => (w, Ret (CmdErr err))
      | (w, inl _) => (w, Ret CmdNil)
      end
  end.

(** ** Properties *)

(** a failed ADD asks EC2 to take the address back, from the ENI that has the primary
    address by then *)
Lemma aws_add_failure_unassigns w args n c w1 w2 err eni rest :
  loadConf (ca_StdinData args) = inl (n, c) →
  AssignIP w (aw_PrimaryIP n) (aw_PodIP n) = (w1, Ret None) →
  execIPVLAN w1 "ADD" c args (ca_IfName args) true = (w2, inr err) →
  ec2_Region w2 = None → ec2_Describe w2 (aw_PrimaryIP n) = inl (Some eni :: rest) →
  aws_cmdAdd w args = ((ec2_Unassign w2 eni (aw_PodIP n)).1, Ret (CmdErr err)).
Proof.
  intros Hl Ha He Hr Hd. unfold aws_cmdAdd. rewrite Hl, Ha, He.
  unfold aws_rollback, UnassignIP, with_eni, getENIId. rewrite Hr, Hd.
  by destruct (ec2_Unassign w2 eni (aw_PodIP n)).
Qed.

(** an ADD that printed a result has assigned the address and left it assigned: EC2 is
    called once, before the ipvlan plugin *)
Lemma aws_add_success w args w' r v :
  aws_cmdAdd w args = (w', Ret (Printed r v)) →
  ∃ n c eni w1, loadConf (ca_StdinData args) = inl (n, c) ∧
    ec2_Assign w eni (aw_PodIP n) = (w1, None) ∧
    execIPVLAN w1 "ADD" c args (ca_IfName args) true = (w', inl (Some r)).
Proof.
  unfold aws_cmdAdd. destruct (loadConf _) as [[n c]|]; [|done].
  unfold AssignIP, with_eni. destruct (ec2_Region w); [done|].
  destruct (getENIId w (aw_PrimaryIP n)) as [[eni|]|]; [|done..].
  destruct (ec2_Assign w eni (aw_PodIP n)) as [w1 [err|]] eqn:Ea; [done|].
  destruct (execIPVLAN w1 _ c args _ true) as [w2 [[res|]|err]] eqn:Ee; [|done|].
  - intros [= <- <- <-]. exists n, c, eni, w1. done.
  - unfold aws_rollback. by destruct (UnassignIP w2 _ _) as [? []].
Qed.
End plugin.

(** the operator's configuration gives primaryIP as an object, which the plugin cannot read *)
Example primaryIP_object :
  (Unmarshal (dec_aws (H := cni_plain))
     (print (JObj [("primaryIP", JObj [("eth1", JStr "10.0.0.1")])])) (zero_aws (H := cni_plain))).2 = false.
Proof. vm_compute. reflexivity. Qed.
