(* ===== verification/DaemonStart.v ===== *)
(** * The start of the daemon, and its generic object handler

    daemon/src/main.go: the process reads its settings, fills the cache of device
    names from its HostInterface, cleans the allocations of its host and serves.
    backend/handler.go: the operations on untyped objects that the typed handlers
    share.  The helpers of iface.go, none.go, selector.go and monitor.go that no
    other function calls are here too. *)

From S2P Require Import Prelude GoLib GoText Json JsonSpec JsonText Types Allocator K8s Iface Pci Selector.
From S2P Require Import Messages Backend Daemon.
Import Json.

(** ** backend/handler.go *)

Definition API_VERSION : string := "multinic.fms.io/v1".

Record DynamicHandler := mkHandler { dh_ResourceName : string; dh_Kind : string }.

Definition NewIPPoolHandler : DynamicHandler := mkHandler IPPOOL_RESOURCE "IPPool".
Definition NewHostInterfaceHandler : DynamicHandler := mkHandler HOSTINTERFACE_RESOURCE "hostinterfaces".
Definition NewMultiNicNetworkHandler : DynamicHandler := mkHandler MULTINICNET_RESOURCE "MultiNicNetwork".
Definition NewDeviceClassHandler : DynamicHandler := mkHandler DEVICECLASS_RESOURCE "DeviceClass".
Definition NewNetAttachDefHandler : DynamicHandler :=
  mkHandler NET_ATTACH_DEF_RESOURCE "NetworkAttachmentDefinition".

(** the remaining calls of the dynamic client *)
Class DynWrite (W : Type) := {
  dyn_Create : W → string → string → json → W * (json + string);     (* resource, namespace *)
  dyn_Update : W → string → string → json → W * (json + string);
  dyn_Delete : W → string → string → string → W * option string      (* resource, name, namespace *)
}.

Section handler.
Context {W : Type} `{DynAPI W} `{DynWrite W} (h : DynamicHandler).

Definition BasicObject (name : string) : json :=
  JObj [("apiVersion", JStr API_VERSION); ("kind", JStr (dh_Kind h)); ("metadata", JObj [("name", JStr name)])].

(** a map from the JSON of a struct *)
Definition Untidy {A} `{Wire A} (structObj : A) : gmap string json :=
  default ∅ (fst (Unmarshal (dec_map JNull dec_any) (print (w_json structObj)) (Some ∅))).

(** the log line asserts that the metadata are an object *)
Definition Create (w : W) (mapObj : json) (namespace : string) : W * go (json + string) :=
  match member_object "metadata" mapObj with
  | Panic => (w, Panic)
  | Ret _ => let '(w, r) := dyn_Create w (dh_ResourceName h) namespace mapObj in (w, Ret r)
  end.

Definition Update (w : W) (mapObj : json) (namespace : string) : W * go (json + string) :=
  match member_object "metadata" mapObj with
  | Panic => (w, Panic)
  | Ret _ => let '(w, r) := dyn_Update w (dh_ResourceName h) namespace mapObj in (w, Ret r)
  end.

Definition List_ (w : W) (namespace selector : string) : list json + string :=
  dyn_List w (dh_ResourceName h) namespace selector.

Definition Get (w : W) (name namespace : string) : json + string :=
  dyn_Get w (dh_ResourceName h) name namespace.

Definition Delete (w : W) (name namespace : string) : W * option string :=
  dyn_Delete w (dh_ResourceName h) name namespace.

Definition Patch (w : W) (name namespace data : string) : W * option string :=
  dyn_JSONPatch w (dh_ResourceName h) name namespace data.
End handler.

(** an object of the handler carries its name *)
Lemma BasicObject_name h name : GetName (BasicObject h name) = Ret name.
Proof. reflexivity. Qed.

(** ** ippool.go *)

Definition getIPPoolName (netAttachDef podCIDR : string) : string :=
  netAttachDef +:+ "-" +:+ Strings.ReplaceAll podCIDR "/" "-".

(** ** selector.go: the cache of device names *)

Section start.
Context {W : Type} `{DynAPI W}.

(** the loop over the interfaces of the HostInterface *)
Definition cache_infos (cache : SafeCache string) (infos : list InterfaceInfoType) : SafeCache string :=
  foldl (λ c info,
    if negb (bool_decide (i_PciAddress info = ""))
    then SetDeviceMapCache c (i_PciAddress info) (i_InterfaceName info) else c) cache infos.

Definition InitCache (w : W) (hostName : string) (cache : SafeCache string) : go (SafeCache string) :=
  r ← GetHostInterfaces w hostName;
  match r with
  | (_, Some _) => Ret cache
  | (infos, None) => Ret (cache_infos cache infos)
  end.

(** ** main.go *)

(** which client configuration: that of the cluster, or the one of a file *)
Inductive client_config := InCluster | FromFile (path : string).

Definition InitClient (env : string → option string) : client_config :=
  let '(presentKube, ok) := match env "KUBECONFIG_FILE" with Some s => (s, true) | None => ("", false) end in
  if negb ok && negb (bool_decide (presentKube = "")) then InCluster else FromFile presentKube.

(** the environment never selects the configuration of the cluster: a variable that
    is not set has no text *)
Lemma InitClient_never_in_cluster env : InitClient env ≠ InCluster.
Proof. unfold InitClient. by destruct (env "KUBECONFIG_FILE"). Qed.

Context {pools : IPPoolAPI W} {ord : MapRange}.

(** the process when it starts to serve *)
Record process := mkProcess {
  pr_config : client_config;
  pr_hostName : string;
  pr_rt_table : string;
  pr_devices : SafeCache string;
  pr_allocator : daemon W;
  pr_address : string
}.

Definition main (env : string → option string) (hostname : string + string)
    (getPod : string → string → bool) (w : W) : go process :=
  let hostName := initHostName env hostname in
  let cfg := InitClient env in
  let port := daemon_port env in
  let rt := SetRTTablePath env in
  devices ← InitCache w hostName ∅;
  Ret (mkProcess cfg hostName rt devices (start_allocator getPod hostName w)
         ("0.0.0.0:" +:+ Strconv.Itoa port)).

(** what the cache of devices knows after the start: every interface of the
    HostInterface with a PCI address, unless a later one has the same *)
Lemma cache_infos_names infos : ∀ cache info,
  NoDup (i_PciAddress <$> filter (λ i, i_PciAddress i ≠ "") infos) →
  info ∈ infos → i_PciAddress info ≠ "" →
  cache_infos cache infos !! i_PciAddress info = Some (i_InterfaceName info).
Proof.
  induction infos as [|i infos IH] using rev_ind; intros cache info Hnd Hin Hne; [by apply elem_of_nil in Hin|].
  rewrite filter_app, fmap_app in Hnd. apply NoDup_app in Hnd as (Hnd & Hdis & _).
  unfold cache_infos. rewrite foldl_snoc. fold (cache_infos cache infos).
  unfold SetDeviceMapCache, SetCache.
  apply elem_of_app in Hin as [Hin| ->%list_elem_of_singleton].
  - case_bool_decide as Hi; simpl; [by apply IH|]. rewrite lookup_insert_ne; [by apply IH|].
    intros Heq. apply (Hdis (i_PciAddress info)).
    + apply list_elem_of_fmap_2, list_elem_of_filter. done.
    + rewrite <- Heq. apply list_elem_of_fmap_2, list_elem_of_filter. split; [done|]. apply list_elem_of_here.
  - rewrite bool_decide_eq_false_2 by done. simpl. by rewrite lookup_insert_eq.
Qed.

(** a device in the cache is named without looking at the host *)
Lemma started_device_name env hostname getPod w pr fs infos info :
  main env hostname getPod w = Ret pr →
  GetHostInterfaces w (initHostName env hostname) = Ret (infos, None) →
  NoDup (i_PciAddress <$> filter (λ i, i_PciAddress i ≠ "") infos) →
  info ∈ infos → i_PciAddress info ≠ "" →
  GetDeviceName fs (pr_devices pr) (i_PciAddress info) = (pr_devices pr, i_InterfaceName info).
Proof.
  unfold main, InitCache. intros Hm Hg Hnd Hin Hne. rewrite Hg in Hm. simpl in Hm. injection Hm as <-. simpl.
  unfold GetDeviceName, GetCache. by rewrite (cache_infos_names infos).
Qed.
End start.

(** ** Helpers that nothing calls *)

Section unused.
Context {ord : MapRange}.

(** none.go; a network without interface gives an empty name *)
Definition getMasterNames (ifaceNameMap : gmap string string) (req : NICSelectRequest) : list string :=
  if bool_decide (nq_MasterNetAddrs req = []) then (range_map ifaceNameMap).*2
  else (λ netAddress, default "" (ifaceNameMap !! netAddress)) <$> nq_MasterNetAddrs req.

(** a network without device panics; a device is its PCI address, or none *)
Definition getDeviceIDs (deviceMap : gmap string (option string)) (req : NICSelectRequest) : go (list string) :=
  let ids (nics : list (option (option string))) : go (list string) :=
    match mapM (λ nic, mjoin nic) nics with Some l => Ret l | None => Panic end in
  if bool_decide (nq_MasterNetAddrs req = []) then ids (Some <$> (range_map deviceMap).*2)
  else ids ((λ netAddress, deviceMap !! netAddress) <$> nq_MasterNetAddrs req).

(** selector.go *)
Definition isEmptyDeviceIDs (selectedDeviceIDs : list string) : bool :=
  forallb (λ deviceID, bool_decide (deviceID = "")) selectedDeviceIDs.

(** monitor.go: every interface with empty metrics *)
Definition GetInterfaceStat (interfaceNameMap : gmap string string) : gset string :=
  list_to_set (range_map interfaceNameMap).*2.

(** iface.go: the address, or no address and the error, if any *)
Definition getNetAddressFromDevice (h : HostNet) (devName : string) : string * option string :=
  match hn_link h devName with
  | inr err => ("", Some err)
  | inl devLink =>
      match ls_addrs devLink with
      | inr err => ("", Some err)
      | inl [] => ("", None)
      | inl (None :: _) => ("", None)
      | inl (Some addr :: _) => if negb (ls_up devLink) then ("", None) else (getNetAddress addr, None)
      end
  end.
End unused.
