(* ===== verification/CniNs.v ===== *)
(** * Network namespaces: cni/pkg/ns/ns_linux.go

    A network namespace belongs to an OS thread, and Go moves goroutines between
    threads.  [Do] runs a closure in another namespace on a thread of its own and
    gives the thread back only when it is in its old namespace again.  The kernel is
    the class [Kernel]: threads with their namespaces, namespace files, descriptors
    and setns; [KernelLaws] says what these calls do.  A thread that ends its
    goroutine while it is locked dies (the documentation of runtime.LockOSThread). *)

From S2P Require Import Prelude GoLib.

(** ** The kernel *)

Inductive stat_answer := StatType (t : Z) | StatNotExist (e : string) | StatError (e : string).

Class Kernel (K : Type) := {
  k_pid : Z;
  k_statfs : K → string → stat_answer;
  k_open : K → string → K * (Z + string);              (* a descriptor *)
  k_close : K → Z → K * option string;
  k_setns : K → nat → Z → K * option string;           (* of the calling thread *)
  k_exit : K → nat → K;                                (* the thread dies *)
  (** the namespace of a live thread, and the one an open descriptor stands for *)
  k_thread : K → nat → option nat;
  k_fd : K → Z → option nat
}.

Definition task_path (pid : Z) (tid : nat) : string :=
  "/proc/" +:+ Strconv.Itoa pid +:+ "/task/" +:+ Strconv.Itoa (Z.of_nat tid) +:+ "/ns/net".

Class KernelLaws (K : Type) `{Kernel K} := {
  open_threads : ∀ k path k' r, k_open k path = (k', r) → k_thread k' = k_thread k;
  open_fds : ∀ k path k' r fd n, k_open k path = (k', r) → k_fd k fd = Some n → k_fd k' fd = Some n;
  open_task : ∀ k tid k' fd n, k_open k (task_path k_pid tid) = (k', inl fd) →
    k_thread k tid = Some n → k_fd k' fd = Some n;
  close_threads : ∀ k fd k' r, k_close k fd = (k', r) → k_thread k' = k_thread k;
  setns_ok : ∀ k tid fd k', k_setns k tid fd = (k', None) → k_thread k' tid = k_fd k fd;
  setns_err : ∀ k tid fd k' e, k_setns k tid fd = (k', Some e) → k_thread k' tid = k_thread k tid;
  setns_other : ∀ k tid fd k' r tid', k_setns k tid fd = (k', r) → tid' ≠ tid →
    k_thread k' tid' = k_thread k tid';
  setns_fds : ∀ k tid fd k' r, k_setns k tid fd = (k', r) → k_fd k' = k_fd k;
  exit_thread : ∀ k tid, k_thread (k_exit k tid) tid = None;
  exit_other : ∀ k tid tid', tid' ≠ tid → k_thread (k_exit k tid) tid' = k_thread k tid'
}.

(** ** ns_linux.go *)

Definition NSFS_MAGIC : Z := 0x6e736673.
Definition PROCFS_MAGIC : Z := 0x9fa0.

Inductive ns_error :=
| NSPathNotExistErr (path e : string)
| StatfsErr (path e : string)
| NSPathNotNSErr (path : string) (magic : Z)
| OpenErr (e : string)
| AlreadyClosed (path : string)
| CloseErr (path e : string)
| SetErr (path e : string)                    (* Error switching to ns *)
| OpenCurrent (threadNS : bool) (e : ns_error)    (* failed to open the current netns *)
| SwitchErr (path : string) (e : ns_error)
| RunErr (e : string).                        (* of the closure *)

#[export] Instance ns_error_eq_dec : EqDecision ns_error.
Proof. solve_decision. Defined.

Record netNS := mkNetNS { ns_name : string; ns_file : Z; ns_closed : bool }.

Section ns.
Context {K : Type} `{Kernel K}.

Definition IsNSorErr (k : K) (nspath : string) : option ns_error :=
  match k_statfs k nspath with
  | StatNotExist e => Some (NSPathNotExistErr nspath e)
  | StatError e => Some (StatfsErr nspath e)
  | StatType t =>
      if (t =? PROCFS_MAGIC) || (t =? NSFS_MAGIC) then None else Some (NSPathNotNSErr nspath t)
  end.

Definition GetNS (k : K) (nspath : string) : K * (netNS + ns_error) :=
  match IsNSorErr k nspath with
  | Some err => (k, inr err)
  | None =>
      match k_open k nspath with
      | (k, inr err) => (k, inr (OpenErr err))
      | (k, inl fd) => (k, inl (mkNetNS nspath fd false))
      end
  end.

(** called on the thread [tid] *)
Definition getCurrentThreadNetNSPath (tid : nat) : string := task_path k_pid tid.

Definition GetCurrentNS (k : K) (tid : nat) : K * (netNS + ns_error) :=
  GetNS k (getCurrentThreadNetNSPath tid).

Definition Path (ns : netNS) : string := ns_name ns.

Definition Fd (ns : netNS) : Z := ns_file ns.

Definition errorIfClosed (ns : netNS) : option ns_error :=
  if ns_closed ns then Some (AlreadyClosed (ns_name ns)) else None.

(** with the object it leaves *)
Definition Close (k : K) (ns : netNS) : K * (netNS * option ns_error) :=
  match errorIfClosed ns with
  | Some err => (k, (ns, Some err))
  | None =>
      match k_close k (ns_file ns) with
      | (k, Some e) => (k, (ns, Some (CloseErr (ns_name ns) e)))
      | (k, None) => (k, (mkNetNS (ns_name ns) (ns_file ns) true, None))
      end
  end.

Definition Set_ (k : K) (tid : nat) (ns : netNS) : K * option ns_error :=
  match errorIfClosed ns with
  | Some err => (k, Some err)
  | None =>
      match k_setns k tid (Fd ns) with
      | (k, Some e) => (k, Some (SetErr (ns_name ns) e))
      | (k, None) => (k, None)
      end
  end.

(** a closure, run on a thread with the namespace of the caller *)
Definition closure : Type := K → nat → netNS → K * option string.

(** on the thread [tid], which is locked; also whether it is locked at the end *)
Definition containedCall (k : K) (tid : nat) (ns hostNS : netNS) (toRun : closure)
    : K * (bool * option ns_error) :=
  match GetCurrentNS k tid with
  | (k, inr err) => (k, (true, Some (OpenCurrent true err)))
  | (k, inl threadNS) =>
      let '(k, (locked, err)) :=
        match Set_ k tid ns with
        | (k, Some err) => (k, (true, Some (SwitchErr (ns_name ns) err)))
        | (k, None) =>
            let '(k, err) := toRun k tid hostNS in
            let '(k, back) := Set_ k tid threadNS in
            (k, (match back with None => false | Some _ => true end, RunErr <$> err))
        end in
      let '(k, _) := Close k threadNS in
      (k, (locked, err))
  end.

(** called on the thread [caller]; the scheduler runs the new goroutine on [tid] *)
Definition Do (k : K) (caller tid : nat) (ns : netNS) (toRun : closure) : K * option ns_error :=
  match errorIfClosed ns with
  | Some err => (k, Some err)
  | None =>
      match GetCurrentNS k caller with
      | (k, inr err) => (k, Some (OpenCurrent false err))
      | (k, inl hostNS) =>
          let '(k, (locked, innerError)) := containedCall k tid ns hostNS toRun in
          let k := if locked then k_exit k tid else k in
          let '(k, _) := Close k hostNS in
          (k, innerError)
      end
  end.

Definition WithNetNSPath (k : K) (caller tid : nat) (nspath : string) (toRun : closure)
    : K * option ns_error :=
  match GetNS k nspath with
  | (k, inr err) => (k, Some err)
  | (k, inl ns) =>
      let '(k, err) := Do k caller tid ns toRun in
      let '(k, _) := Close k ns in
      (k, err)
  end.
End ns.
Arguments closure K : clear implicits.

(** ** Threads keep their namespaces *)

Section threads.
Context {K : Type} `{Kernel K} `{!KernelLaws K}.

(** a closure may change the namespace of its own thread only, and closes no
    descriptor it did not open *)
Definition tame (toRun : closure K) : Prop :=
  ∀ k tid hostNS k' err, toRun k tid hostNS = (k', err) →
    (∀ tid', tid' ≠ tid → k_thread k' tid' = k_thread k tid') ∧
    (∀ fd n, k_fd k fd = Some n → k_fd k' fd = Some n).

(** every thread is in its old namespace, or it is [tid] and dead *)
Definition kept (tid : nat) (k k' : K) : Prop :=
  ∀ tid', k_thread k' tid' = k_thread k tid' ∨ (tid' = tid ∧ k_thread k' tid' = None).

Lemma GetNS_opens k path k' r :
  GetNS k path = (k', r) →
  k_thread k' = k_thread k ∧ (∀ fd n, k_fd k fd = Some n → k_fd k' fd = Some n) ∧
  ∀ ns, r = inl ns → k_open k path = (k', inl (ns_file ns)) ∧ ns_closed ns = false.
Proof.
  unfold GetNS. destruct (IsNSorErr k path); [by intros [= <- <-]|].
  destruct (k_open k path) as [k1 [fd|e]] eqn:E; intros [= <- <-];
    (split; [by eapply open_threads|]; split; [by intros; eapply open_fds|]); [|done].
  by intros ns [= <-].
Qed.

Lemma Close_threads k ns : k_thread (fst (Close k ns)) = k_thread k.
Proof.
  unfold Close. destruct (errorIfClosed ns); [done|].
  destruct (k_close k (ns_file ns)) as [k1 [e|]] eqn:E; by apply close_threads in E.
Qed.

Lemma Set_frame k tid ns k' r :
  Set_ k tid ns = (k', r) →
  (∀ tid', tid' ≠ tid → k_thread k' tid' = k_thread k tid') ∧ k_fd k' = k_fd k ∧
  match r with
  | None => k_thread k' tid = k_fd k (ns_file ns)
  | Some _ => k_thread k' tid = k_thread k tid
  end.
Proof.
  unfold Set_, Fd. destruct (errorIfClosed ns); [by intros [= <- <-]|].
  destruct (k_setns k tid (ns_file ns)) as [k1 [e|]] eqn:E; intros [= <- <-];
    (split; [intros; by eapply setns_other|]; split; [by eapply setns_fds|]).
  - by eapply setns_err.
  - by eapply setns_ok.
Qed.

(** the locked call: a thread that is unlocked at the end is where it was *)
Lemma containedCall_threads k tid ns hostNS toRun k' locked err n :
  tame toRun → k_thread k tid = Some n →
  containedCall k tid ns hostNS toRun = (k', (locked, err)) →
  (∀ tid', tid' ≠ tid → k_thread k' tid' = k_thread k tid') ∧
  (locked = false → k_thread k' tid = k_thread k tid).
Proof.
  intros Ht Hn. unfold containedCall, GetCurrentNS, getCurrentThreadNetNSPath.
  destruct (GetNS k _) as [k1 [threadNS|e]] eqn:E1;
    destruct (GetNS_opens _ _ _ _ E1) as (Hth1 & _ & Ho).
  2: { intros [= <- <- <-]. rewrite Hth1. split; [done|discriminate]. }
  destruct (Ho _ eq_refl) as [Hopen Hopened]. pose proof (open_task _ _ _ _ _ Hopen Hn) as Hfd.
  destruct (Set_ k1 tid ns) as [k2 [e|]] eqn:E2; destruct (Set_frame _ _ _ _ _ E2) as (Hoth & Hfds & _).
  - destruct (Close k2 threadNS) as [k3 ?] eqn:E3. intros [= <- <- <-].
    pose proof (Close_threads k2 threadNS) as Hc. rewrite E3 in Hc. simpl in Hc. rewrite Hc.
    split; [|discriminate]. intros t Hne. rewrite Hoth by done. by rewrite Hth1.
  - destruct (toRun k2 tid hostNS) as [k3 rerr] eqn:E3. destruct (Ht _ _ _ _ _ E3) as [Hoth3 Hfd3].
    destruct (Set_ k3 tid threadNS) as [k4 back] eqn:E4.
    destruct (Set_frame _ _ _ _ _ E4) as (Hoth4 & _ & Hback).
    destruct (Close k4 threadNS) as [k5 ?] eqn:E5. intros [= <- <- <-].
    pose proof (Close_threads k4 threadNS) as Hc. rewrite E5 in Hc. simpl in Hc. rewrite Hc. split.
    + intros t Hne. rewrite Hoth4, Hoth3, Hoth by done. by rewrite Hth1.
    + destruct back; [discriminate|]. intros _. rewrite Hback, Hn. apply Hfd3. by rewrite Hfds.
Qed.

Lemma Do_threads k caller tid ns toRun n :
  tame toRun → k_thread k tid = Some n → kept tid k (fst (Do k caller tid ns toRun)).
Proof.
  intros Ht Hn. unfold Do, kept. destruct (errorIfClosed ns); [by left|].
  unfold GetCurrentNS. destruct (GetNS k _) as [k1 [hostNS|e]] eqn:E1;
    destruct (GetNS_opens _ _ _ _ E1) as (Hth & _ & _); [|left; simpl; by rewrite Hth].
  destruct (containedCall k1 tid ns hostNS toRun) as [k2 [locked err]] eqn:E2.
  destruct (containedCall_threads _ _ _ _ _ _ _ _ n Ht ltac:(by rewrite Hth) E2) as [Hoth Hself].
  destruct (Close (if locked then k_exit k2 tid else k2) hostNS) as [k3 ?] eqn:E3.
  pose proof (Close_threads (if locked then k_exit k2 tid else k2) hostNS) as Hc.
  rewrite E3 in Hc. simpl in Hc |- *. rewrite Hc. intros t.
  destruct (decide (t = tid)) as [->|Hne].
  - destruct locked; [right; split; [done|apply exit_thread]|left]. by rewrite Hself, Hth.
  - left. destruct locked; [rewrite exit_other by done|]; by rewrite Hoth, Hth.
Qed.

(** a call that ends like its closure has run it *)
Lemma containedCall_runs k tid ns hostNS toRun k' locked r m c :
  k_fd k (ns_file ns) = Some m → k_fd k (ns_file hostNS) = Some c →
  containedCall k tid ns hostNS toRun = (k', (locked, RunErr <$> r)) →
  ∃ k1, k_thread k1 tid = Some m ∧ k_fd k1 (ns_file hostNS) = Some c ∧ snd (toRun k1 tid hostNS) = r.
Proof.
  intros Hm Hc. unfold containedCall, GetCurrentNS.
  destruct (GetNS k _) as [k1 [threadNS|e]] eqn:E1; [|by destruct r].
  destruct (GetNS_opens _ _ _ _ E1) as (_ & Hfd1 & _).
  destruct (Set_ k1 tid ns) as [k2 [e|]] eqn:E2.
  { destruct (Close k2 threadNS). by destruct r. }
  destruct (Set_frame _ _ _ _ _ E2) as (_ & Hfds & Hset).
  destruct (toRun k2 tid hostNS) as [k3 err] eqn:E3. destruct (Set_ k3 tid threadNS).
  destruct (Close _ threadNS). intros [= _ _ Hr]. exists k2. rewrite E3, Hset, Hfds. split_and!.
  - by apply Hfd1.
  - by apply Hfd1.
  - destruct err, r; naive_solver.
Qed.
End threads.

(** C25: running code in another namespace leaves no thread behind in it. For a
    closure that changes no other thread, and whatever fails on the way (opening a
    namespace, switching there, the closure, switching back): after Do every
    thread is in the namespace it was in, or it is the one that ran the closure
    and it is dead, so no other goroutine can land in the wrong namespace. And
    when Do ends with the result of the closure, the closure ran in the wanted
    namespace, with a handle of the caller's. *)
Theorem netns_Do_safe {K} `{Kernel K} k caller tid ns toRun n m c :
  KernelLaws K → tame toRun →
  k_thread k tid = Some n → k_thread k caller = Some c → k_fd k (ns_file ns) = Some m →
  kept tid k (fst (Do k caller tid ns toRun)) ∧
  ∀ r, snd (Do k caller tid ns toRun) = RunErr <$> r →
    ∃ k1 hostNS, k_thread k1 tid = Some m ∧ k_fd k1 (ns_file hostNS) = Some c ∧
      snd (toRun k1 tid hostNS) = r.
Proof.
  intros Hlaws Ht Hn Hcaller Hm. split; [by eapply Do_threads|]. intros r. unfold Do.
  destruct (errorIfClosed ns) as [e|] eqn:Ee.
  { unfold errorIfClosed in Ee. destruct (ns_closed ns); [|done]. injection Ee as <-. by destruct r. }
  unfold GetCurrentNS. destruct (GetNS k _) as [k1 [hostNS|e]] eqn:E1; [|by destruct r].
  destruct (GetNS_opens _ _ _ _ E1) as (Hth & Hfd & Ho). destruct (Ho _ eq_refl) as [Hopen _].
  destruct (containedCall k1 tid ns hostNS toRun) as [k2 [locked err]] eqn:E2.
  destruct (Close _ hostNS). simpl. intros ->.
  destruct (containedCall_runs _ _ _ _ _ _ _ _ m c (Hfd _ _ Hm) (open_task _ _ _ _ _ Hopen Hcaller) E2)
    as (k3 & ? & ? & ?). by exists k3, hostNS.
Qed.

(** ** A kernel for the examples *)

(** threads and descriptors; with [sk_stuck] no thread can be
    switched back to namespace 0 *)
Record small_kernel := mkSmall {
  sk_threads : gmap nat nat;
  sk_fds : gmap Z nat;
  sk_stuck : bool
}.

Definition small_open (k : small_kernel) (path : string) : small_kernel * (Z + string) :=
  match list_find (λ tn, path = task_path 7 tn.1) (map_to_list (sk_threads k)) with
  | Some (_, (_, n)) =>
      let fd := fresh (dom (sk_fds k)) in
      (mkSmall (sk_threads k) (<[fd := n]> (sk_fds k)) (sk_stuck k), inl fd)
  | None => (k, inr "no such file")
  end.

#[export] Instance small : Kernel small_kernel := {|
  k_pid := 7;
  k_statfs _ _ := StatType PROCFS_MAGIC;
  k_open := small_open;
  k_close k fd := (mkSmall (sk_threads k) (delete fd (sk_fds k)) (sk_stuck k), None);
  k_setns k tid fd :=
    match sk_fds k !! fd with
    | Some n =>
        if sk_stuck k && bool_decide (n = 0%nat) then (k, Some "not permitted")
        else (mkSmall (<[tid := n]> (sk_threads k)) (sk_fds k) (sk_stuck k), None)
    | None => (k, Some "bad descriptor")
    end;
  k_exit k tid := mkSmall (delete tid (sk_threads k)) (sk_fds k) (sk_stuck k);
  k_thread k tid := sk_threads k !! tid;
  k_fd k fd := sk_fds k !! fd
|}.

Lemma task_path_inj pid a b : task_path pid a = task_path pid b → a = b.
Proof.
  unfold task_path. intros Heq.
  do 3 apply (inj (String.app _)) in Heq.
  apply (f_equal (λ s, Strings.Split s "/")) in Heq.
  cbv beta in Heq. rewrite !(split_app_sep _ "ns/net") in Heq. apply app_inv_tail, split_inj in Heq.
  unfold Strconv.Itoa in Heq. apply (inj pretty) in Heq. lia.
Qed.

#[export] Instance small_laws : KernelLaws small_kernel.
Proof.
  split; simpl; unfold small_open; intros; repeat case_match; simplify_eq/=; try done.
  - rewrite lookup_insert_ne; [done|]. intros <-. eapply (is_fresh (dom (sk_fds k))).
    apply elem_of_dom. eauto.
  - match goal with Hf : list_find _ _ = Some _ |- _ => apply list_find_Some in Hf as (Hl & Hp & _) end.
    simpl in Hp. apply task_path_inj in Hp as ->.
    apply list_elem_of_lookup_2, elem_of_map_to_list in Hl. rewrite lookup_insert_eq. congruence.
  - by rewrite lookup_insert_eq.
  - by rewrite lookup_insert_ne.
  - apply lookup_delete_eq.
  - by apply lookup_delete_ne.
Qed.

(** thread 1 is the caller's, thread 2 runs the closure; descriptor 5 is another
    namespace *)
Definition ex_kernel (stuck : bool) : small_kernel := mkSmall {[1%nat := 0%nat; 2%nat := 0%nat]} {[5 := 3%nat]} stuck.

Definition ex_ns : netNS := mkNetNS "/var/run/netns/pod" 5 false.

Lemma netns_Do_safe_witness :
  let toRun : closure small_kernel := λ k _ _, (k, Some "no such link") in
  kept 2 (ex_kernel true) (fst (Do (ex_kernel true) 1 2 ex_ns toRun)) ∧
  ∀ r, snd (Do (ex_kernel true) 1 2 ex_ns toRun) = RunErr <$> r →
    ∃ k1 hostNS, k_thread k1 2%nat = Some 3%nat ∧ k_fd k1 (ns_file hostNS) = Some 0%nat ∧
      snd (toRun k1 2%nat hostNS) = r.
Proof.
  intros toRun. apply (netns_Do_safe (ex_kernel true) 1 2 ex_ns toRun 0%nat 3%nat 0%nat).
  - apply small_laws.
  - by intros k tid hostNS k' err [= <- <-].
  - reflexivity.
  - reflexivity.
  - reflexivity.
Defined.

(** the switch back fails: the thread of the closure dies, the caller's stays *)
Example netns_Do_stuck :
  let '(k, err) := Do (ex_kernel true) 1 2 ex_ns (λ k _ _, (k, Some "no such link")) in
  (k_thread k 1%nat, k_thread k 2%nat, err) = (Some 0%nat, None, Some (RunErr "no such link")).
Proof. vm_compute. reflexivity. Qed.

Example netns_Do_back :
  let '(k, err) := Do (ex_kernel false) 1 2 ex_ns (λ k _ _, (k, None)) in
  (k_thread k 1%nat, k_thread k 2%nat, err) = (Some 0%nat, Some 0%nat, None).
Proof. vm_compute. reflexivity. Qed.
