(* ===== verification/CniIp.v ===== *)
(** * Addresses and links of the CNI packages: cni/pkg/ip

    cidr.go counts addresses as integers, link_linux.go makes and removes virtual
    links, addr_linux.go waits for addresses, route_linux.go adds routes,
    utils_linux.go compares a link with a result and ipforward_linux.go writes two
    kernel settings.  A net.IP is a list of bytes, of four or sixteen.  Netlink,
    the random source and the file system are classes over the state [W]. *)

From S2P Require Import Prelude GoLib Json Cni.
Import Json.

(** ** net.IP *)

Definition v4InV6Prefix : list Z := replicate 10 0 ++ [255; 255].

Definition To4 (ip : list Z) : option (list Z) :=
  if (length ip =? 4)%nat then Some ip
  else if (length ip =? 16)%nat && bool_decide (take 12 ip = v4InV6Prefix) then Some (drop 12 ip)
  else None.

Definition To16 (ip : list Z) : option (list Z) :=
  if (length ip =? 4)%nat then Some (v4InV6Prefix ++ ip)
  else if (length ip =? 16)%nat then Some ip
  else None.

(** big.Int.Bytes: the digits to base 256 of the absolute value, greatest first *)
Fixpoint digits256 (fuel : nat) (n : Z) (acc : list Z) : list Z :=
  match fuel with
  | O => acc
  | S fuel => if n =? 0 then acc else digits256 fuel (n / 256) (n mod 256 :: acc)
  end.

Definition Bytes (i : Z) : list Z := digits256 (S (Z.to_nat (Z.log2 (Z.abs i)))) (Z.abs i) [].

(** ** cidr.go *)

(** SetBytes of no bytes is 0 *)
Definition ipToInt (ip : list Z) : Z :=
  match To4 ip with Some v => be v | None => be (default [] (To16 ip)) end.

Definition intToIP (i : Z) : list Z := Bytes i.

Definition NextIP (ip : list Z) : list Z := intToIP (ipToInt ip + 1).

Definition PrevIP (ip : list Z) : list Z := intToIP (ipToInt ip - 1).

Definition Cmp (a b : list Z) : Z :=
  match ipToInt a ?= ipToInt b with Lt => -1 | Eq => 0 | Gt => 1 end.

(** IP.Mask of four bytes with a mask of four, or of equal lengths; else nil *)
Definition Mask (ip mask : list Z) : option (list Z) :=
  if (length mask =? 4)%nat && (length ip =? 16)%nat && bool_decide (take 12 ip = v4InV6Prefix)
  then Some (Net.ip_mask (drop 12 ip) mask)
  else if (length mask =? 16)%nat && (length ip =? 4)%nat && bool_decide (take 12 mask = replicate 12 255)
  then Some (Net.ip_mask ip (drop 12 mask))
  else if (length ip =? length mask)%nat then Some (Net.ip_mask ip mask)
  else None.

Definition Network (ipn : Net.IPNet) : option (list Z) * list Z :=
  (Mask (Net.IP ipn) (Net.Mask ipn), Net.Mask ipn).

(** *** The digits *)

Lemma digits256_spec fuel : ∀ n acc,
  0 ≤ n < 2 ^ Z.of_nat fuel → bytes_ok acc →
  let l := digits256 fuel n acc in
  bytes_ok l ∧ be l = n * 2 ^ (8 * Z.of_nat (length acc)) + be acc ∧
  (0 < n → 2 ^ (8 * (Z.of_nat (length l) - 1)) ≤ be l).
Proof.
  induction fuel as [|fuel IH]; intros n acc Hn Hacc; simpl.
  { replace n with 0 by (simpl in Hn; lia). split_and!; [done|lia|lia]. }
  destruct (Z.eqb_spec n 0) as [->|Hne]; [split_and!; [done|lia|lia]|].
  assert (0 ≤ n mod 256 < 256) as Hmod by (apply Z.mod_pos_bound; lia).
  assert (0 ≤ n / 256) by (apply Z.div_pos; lia).
  assert (n = 256 * (n / 256) + n mod 256) as Hdiv by (apply Z.div_mod; lia).
  rewrite Nat2Z.inj_succ, Z.pow_succ_r in Hn by lia.
  destruct (IH (n / 256) (n mod 256 :: acc)) as (Hb & Hbe & Hlow); [lia|by constructor|].
  split; [done|]. rewrite be_cons in Hbe. cbn [length] in Hbe.
  replace (8 * Z.of_nat (S (length acc))) with (8 + 8 * Z.of_nat (length acc)) in Hbe by lia.
  rewrite pow2_split in Hbe by lia. split; [rewrite Hbe; nia|]. intros _.
  destruct (Z.eq_dec (n / 256) 0) as [Hz|]; [|apply Hlow; lia].
  assert (digits256 fuel (n / 256) (n mod 256 :: acc) = n mod 256 :: acc) as ->.
  { rewrite Hz. by destruct fuel. }
  rewrite be_cons. cbn [length].
  replace (Z.of_nat (S (length acc)) - 1) with (Z.of_nat (length acc)) by lia.
  pose proof (be_bound acc Hacc). pose proof (pow2_pos (8 * Z.of_nat (length acc)) ltac:(lia)). nia.
Qed.

Lemma Bytes_be i : 0 ≤ i → bytes_ok (Bytes i) ∧ be (Bytes i) = i.
Proof.
  intros Hi. unfold Bytes. rewrite Z.abs_eq by done.
  destruct (digits256_spec (S (Z.to_nat (Z.log2 i))) i []) as (? & Hbe & _); [|constructor|].
  - rewrite Nat2Z.inj_succ, Z2Nat.id by apply Z.log2_nonneg.
    destruct (Z.eq_dec i 0) as [->|]; [simpl; lia|]. split; [done|]. apply Z.log2_spec. lia.
  - split; [done|]. rewrite Hbe. simpl. lia.
Qed.

(** the number of bytes of a number *)
Lemma Bytes_length i n :
  0 ≤ n → 2 ^ (8 * n) ≤ i < 2 ^ (8 * (n + 1)) → Z.of_nat (length (Bytes i)) = n + 1.
Proof.
  intros Hn Hi. pose proof (pow2_pos (8 * n) ltac:(lia)).
  destruct (Bytes_be i) as [Hb Hbe]; [lia|]. pose proof (be_bound _ Hb) as Hu. rewrite Hbe in Hu.
  assert (2 ^ (8 * (Z.of_nat (length (Bytes i)) - 1)) ≤ i) as Hl.
  { unfold Bytes in *. rewrite Z.abs_eq in * by lia.
    destruct (digits256_spec (S (Z.to_nat (Z.log2 i))) i []) as (_ & Hbe' & Hlow); [|constructor|].
    - rewrite Nat2Z.inj_succ, Z2Nat.id by apply Z.log2_nonneg. split; [lia|]. apply Z.log2_spec. lia.
    - rewrite Hbe in Hlow. apply Hlow. lia. }
  assert (8 * n < 8 * Z.of_nat (length (Bytes i))) by (apply (Z.pow_lt_mono_r_iff 2); lia).
  assert (8 * (Z.of_nat (length (Bytes i)) - 1) < 8 * (n + 1)); [|lia].
  destruct (Z.lt_ge_cases (8 * (Z.of_nat (length (Bytes i)) - 1)) 0); [lia|].
  apply (Z.pow_lt_mono_r_iff 2); lia.
Qed.

Lemma ipToInt_v4 ip : ip_ok ip → ipToInt ip = be ip.
Proof. intros [Hl _]. unfold ipToInt, To4. by rewrite Hl. Qed.

(** within the addresses whose first byte is not 0 the result has four bytes *)
Lemma intToIP_v4 i : 2 ^ 24 ≤ i < 2 ^ 32 → ip_ok (intToIP i) ∧ be (intToIP i) = i.
Proof.
  intros Hi. destruct (Bytes_be i) as [Hb Hbe]; [lia|]. split; [|done]. split; [|done].
  pose proof (Bytes_length i 3 ltac:(lia) Hi). unfold intToIP. lia.
Qed.

(** NextIP is the successor and PrevIP takes it back, from 1.0.0.0 up to
    255.255.255.254 *)
Lemma NextIP_PrevIP ip :
  ip_ok ip → 2 ^ 24 ≤ be ip → be ip + 1 < 2 ^ 32 →
  ip_ok (NextIP ip) ∧ be (NextIP ip) = be ip + 1 ∧ PrevIP (NextIP ip) = ip.
Proof.
  intros Hip Hlow Hhigh. unfold NextIP, PrevIP. rewrite (ipToInt_v4 ip Hip).
  destruct (intToIP_v4 (be ip + 1)) as [Hok Hbe]; [lia|]. split_and!; [done..|].
  rewrite (ipToInt_v4 _ Hok), Hbe. replace (be ip + 1 - 1) with (be ip) by lia.
  destruct (intToIP_v4 (be ip)) as [Hok' Hbe']; [lia|]. by apply ip_eq.
Qed.

(** below, leading zero bytes are lost; above, a fifth byte appears; an address and
    an IPv6 address with the same number compare as equal *)
Example NextIP_edges :
  NextIP [0; 0; 0; 1] = [2] ∧ NextIP [255; 255; 255; 255] = [1; 0; 0; 0; 0] ∧
  PrevIP [0; 0; 0; 0] = [1] ∧ Cmp [1; 2; 3; 4] (replicate 12 0 ++ [1; 2; 3; 4]) = 0.
Proof. vm_compute. done. Qed.

(** ** net.ParseMAC *)

(** the value of two hexadecimal digits *)
Definition hex2 (s : string) : option Z :=
  match s with
  | String a (String b EmptyString) =>
      x ← Strconv.digit 16 a; y ← Strconv.digit 16 b; Some (16 * x + y)
  | _ => None
  end.

Definition hex4 (s : string) : option (list Z) :=
  match s with
  | String a (String b s') =>
      x ← hex2 (String a (String b EmptyString)); y ← hex2 s'; Some [x; y]
  | _ => None
  end.

Definition mac_length (l : list Z) : option (list Z) :=
  if bool_decide (length l ∈ [6; 8; 20]%nat) then Some l else None.

Definition ParseMAC (s : string) : option (list Z) :=
  if (String.length s <? 14)%nat then None
  else
    match String.get 2 s, String.get 4 s with
    | Some ":"%char, _ => l ← mapM hex2 (Strings.Split s ":"); mac_length l
    | Some "-"%char, _ => l ← mapM hex2 (Strings.Split s "-"); mac_length l
    | _, Some "."%char => l ← mapM hex4 (Strings.Split s "."); mac_length (concat l)
    | _, _ => None
    end.

(** ** link_linux.go *)

Record LinkAttrs := mkAttrs {
  la_Index : Z;
  la_MTU : Z;
  la_Name : string;
  la_HardwareAddr : list Z;
  la_Flags : Z;
  la_ParentIndex : Z;
  la_Veth : bool                 (* a *netlink.Veth *)
}.

(** net.Interface *)
Record NetInterface := mkNetInterface {
  ni_Index : Z; ni_MTU : Z; ni_Name : string; ni_HardwareAddr : list Z; ni_Flags : Z
}.

Record Veth := mkVeth {
  ve_Name : string; ve_MTU : Z; ve_HardwareAddr : option (list Z);
  ve_PeerName : string           (* in the namespace of the host *)
}.

Record Addr := mkAddr { ad_IPNet : Net.IPNet; ad_Flags : Z }.

Inductive find_error := LinkNotFoundError | FindError (e : string).

Inductive add_answer := AddOk | AddExist | AddError (e : string).

(** the two namespaces of a pod's setup *)
Inductive side := Container | Host.

Class Links (W : Type) := {
  nl_LinkByName : W → side → string → LinkAttrs + find_error;
  nl_LinkAdd : W → Veth → W * add_answer;                 (* called in the container *)
  nl_LinkDel : W → side → string → W * option string;
  nl_LinkSetUp : W → side → LinkAttrs → W * option string;
  nl_LinkSetName : W → side → LinkAttrs → string → W * option string;
  nl_AddrList : W → side → LinkAttrs → list Addr + string;
  host_Do : W → option string;                            (* the error of entering the host's namespace *)
  sysctl_set : W → side → string → string → W;
  ethtool_Stats : W → string → gmap string Z + string
}.

Inductive link_error :=
| ErrLinkNotFound
| LinkErr (e : string).

#[export] Instance link_error_eq_dec : EqDecision link_error.
Proof. solve_decision. Defined.

(** %x of bytes *)
Definition hex_bytes (l : list Z) : string :=
  foldr (λ b s, hex_digit (b / 16) +:+ hex_digit (b mod 16) +:+ s) "" l.

(** four bytes of the random source *)
Definition RandomVethName (entropy : list Z + string) : string + string :=
  match entropy with
  | inr err => inr ("failed to generate random veth name: " +:+ err)
  | inl entropy => inl ("veth" +:+ hex_bytes entropy)
  end.

Definition ifaceFromNetlinkLink (a : LinkAttrs) : NetInterface :=
  mkNetInterface (la_Index a) (la_MTU a) (la_Name a) (la_HardwareAddr a) (la_Flags a).

(** [addr.IP.IsGlobalUnicast()] of an IPv4 or IPv6 address *)
Definition IsGlobalUnicast (ip : list Z) : bool :=
  let v4 := default ip (To4 ip) in
  match v4, length v4 with
  | b0 :: b1 :: _, 4%nat =>
      negb (bool_decide (v4 = [255; 255; 255; 255])) && negb (bool_decide (v4 = [0; 0; 0; 0]))
      && negb (b0 =? 127) && negb (Z.land b0 240 =? 224) && negb ((b0 =? 169) && (b1 =? 254))
  | b0 :: b1 :: _, 16%nat =>
      negb (bool_decide (v4 = replicate 16 0)) && negb (bool_decide (v4 = replicate 15 0 ++ [1]))
      && negb (b0 =? 255) && negb ((b0 =? 254) && (Z.land b1 192 =? 128))
  | _, _ => false
  end.

Section links.
Context {W : Type} `{Links W}.

(** the answer of adding the pair, or the link *)
Inductive pair_answer := PairOk (l : LinkAttrs) | PairExist | PairErr (e : string).

Definition find_text (name : string) (e : find_error) : string :=
  match e with LinkNotFoundError => "Link not found" | FindError e => e end.

Definition makeVethPair (w : W) (name peer : string) (mtu : Z) (mac : string) : W * pair_answer :=
  match (if bool_decide (mac = "") then Some None else Some <$> ParseMAC mac) with
  | None => (w, PairErr ("address " +:+ mac +:+ ": invalid MAC address"))
  | Some m =>
      match nl_LinkAdd w (mkVeth name mtu m peer) with
      | (w, AddExist) => (w, PairExist)
      | (w, AddError e) => (w, PairErr e)
      | (w, AddOk) =>
          match nl_LinkByName w Container name with
          | inl veth2 => (w, PairOk veth2)
          | inr e => (fst (nl_LinkDel w Container name), PairErr (find_text name e))
          end
      end
  end.

Definition peerExists (w : W) (name : string) : bool :=
  match nl_LinkByName w Container name with inl _ => true | inr _ => false end.

(** [entropy i]: what the random source gives at the attempt [i] *)
Fixpoint makeVeth_loop (n : nat) (i : nat) (w : W) (name vethPeerName : string) (mtu : Z) (mac : string)
    (entropy : nat → list Z + string) : W * (string * LinkAttrs + string) :=
  match n with
  | O => (w, inr "failed to find a unique veth name")
  | S n =>
      match (if negb (bool_decide (vethPeerName = "")) then inl vethPeerName
             else RandomVethName (entropy i)) with
      | inr err => (w, inr err)
      | inl peerName =>
          match makeVethPair w name peerName mtu mac with
          | (w, PairOk veth) => (w, inl (peerName, veth))
          | (w, PairExist) =>
              if peerExists w peerName && bool_decide (vethPeerName = "")
              then makeVeth_loop n (S i) w name vethPeerName mtu mac entropy
              else (w, inr ("container veth name provided (" +:+ name +:+ ") already exists"))
          | (w, PairErr e) => (w, inr ("failed to make veth pair: " +:+ e))
          end
      end
  end.

Definition makeVeth := makeVeth_loop 10 0.

Definition RenameLink (w : W) (s : side) (curName newName : string) : W * option string :=
  match nl_LinkByName w s curName with
  | inr e => (w, Some (find_text curName e))
  | inl link => nl_LinkSetName w s link newName
  end.

(** [hostPath]: the path of the host's namespace *)
Definition SetupVethWithName (w : W) (contVethName hostVethName : string) (mtu : Z)
    (contVethMac hostPath : string) (entropy : nat → list Z + string) : W * (NetInterface * NetInterface + string) :=
  match makeVeth w contVethName hostVethName mtu contVethMac entropy with
  | (w, inr err) => (w, inr err)
  | (w, inl (hostVethName, contVeth)) =>
      match nl_LinkSetUp w Container contVeth with
      | (w, Some err) => (w, inr ("failed to set " +:+ quoted contVethName +:+ " up: " +:+ err))
      | (w, None) =>
          match host_Do w with
          | Some err => (w, inr err)
          | None =>
              match nl_LinkByName w Host hostVethName with
              | inr e => (w, inr ("failed to lookup " +:+ quoted hostVethName +:+ " in " +:+ quoted hostPath
                            +:+ ": " +:+ find_text hostVethName e))
              | inl hostVeth =>
                  match nl_LinkSetUp w Host hostVeth with
                  | (w, Some err) => (w, inr ("failed to set " +:+ quoted hostVethName +:+ " up: " +:+ err))
                  | (w, None) =>
                      let w := sysctl_set w Host ("net/ipv6/conf/" +:+ hostVethName +:+ "/accept_ra") "0" in
                      (w, inl (ifaceFromNetlinkLink hostVeth, ifaceFromNetlinkLink contVeth))
                  end
              end
          end
      end
  end.

Definition SetupVeth (w : W) (contVethName : string) (mtu : Z)
    (contVethMac hostPath : string) (entropy : nat → list Z + string) : W * (NetInterface * NetInterface + string) :=
  SetupVethWithName w contVethName "" mtu contVethMac hostPath entropy.

Definition DelLinkByName (w : W) (s : side) (ifName : string) : W * option link_error :=
  match nl_LinkByName w s ifName with
  | inr LinkNotFoundError => (w, Some ErrLinkNotFound)
  | inr (FindError e) => (w, Some (LinkErr ("failed to lookup " +:+ quoted ifName +:+ ": " +:+ e)))
  | inl iface =>
      match nl_LinkDel w s ifName with
      | (w, Some e) => (w, Some (LinkErr ("failed to delete " +:+ quoted ifName +:+ ": " +:+ e)))
      | (w, None) => (w, None)
      end
  end.

Definition DelLinkByNameAddr (w : W) (s : side) (ifName : string) : W * (list Net.IPNet + link_error) :=
  match nl_LinkByName w s ifName with
  | inr LinkNotFoundError => (w, inr ErrLinkNotFound)
  | inr (FindError e) => (w, inr (LinkErr ("failed to lookup " +:+ quoted ifName +:+ ": " +:+ e)))
  | inl iface =>
      match nl_AddrList w s iface with
      | inr e => (w, inr (LinkErr ("failed to get IP addresses for " +:+ quoted ifName +:+ ": " +:+ e)))
      | inl addrs =>
          match nl_LinkDel w s ifName with
          | (w, Some e) => (w, inr (LinkErr ("failed to delete " +:+ quoted ifName +:+ ": " +:+ e)))
          | (w, None) =>
              (w, inl (ad_IPNet <$> filter (λ a, IsGlobalUnicast (Net.IP (ad_IPNet a)) = true) addrs))
          end
      end
  end.

(** [ethtool_Stats] also stands for initialising ethtool *)
Definition GetVethPeerIfindex (w : W) (s : side) (ifName : string) : LinkAttrs * Z + string :=
  match nl_LinkByName w s ifName with
  | inr e => inr ("could not look up " +:+ quoted ifName +:+ ": " +:+ find_text ifName e)
  | inl link =>
      if negb (la_Veth link) then inr ("interface " +:+ quoted ifName +:+ " was not a veth interface")
      else if 0 <? la_ParentIndex link then inl (link, la_ParentIndex link)
      else
        match ethtool_Stats w (la_Name link) with
        | inr e => inr ("failed to request ethtool stats: " +:+ e)
        | inl stats =>
            match stats !! "peer_ifindex" with
            | None => inr "failed to find 'peer_ifindex' in ethtool stats"
            | Some n =>
                if (32767 <? n) || (n =? 0) then inr ("invalid 'peer_ifindex' " +:+ Strconv.Itoa n)
                else inl (link, n)
            end
        end
  end.

(** a pair that is made is in the container under the wanted name *)
Lemma makeVeth_ok n : ∀ i w name peer mtu mac entropy w' peer' veth,
  makeVeth_loop n i w name peer mtu mac entropy = (w', inl (peer', veth)) →
  nl_LinkByName w' Container name = inl veth ∧ (peer ≠ "" → peer' = peer).
Proof.
  induction n as [|n IH]; intros i w name peer mtu mac entropy w' peer' veth; [done|]. simpl.
  assert (∀ w0 p0 w1 l, makeVethPair w0 name p0 mtu mac = (w1, PairOk l) →
    nl_LinkByName w1 Container name = inl l) as Hpair.
  { intros w0 p0 w1 l. unfold makeVethPair. case_match; [|done].
    destruct (nl_LinkAdd _ _) as [w2 []]; [|done..].
    destruct (nl_LinkByName w2 Container name) eqn:E; [|done]. by intros [= <- <-]. }
  destruct (if negb (bool_decide (peer = "")) then inl peer else RandomVethName (entropy i))
    as [p|] eqn:Ep; [|done].
  destruct (makeVethPair w name p mtu mac) as [w1 []] eqn:E.
  - intros [= <- <- <-]. split; [by eapply Hpair|]. intros Hne.
    rewrite bool_decide_eq_false_2 in Ep by done. by injection Ep as <-.
  - destruct (_ && _); [|done]. apply IH.
  - done.
Qed.

(** the peer is made in the namespace of the host, but whether it exists is looked
    up in the container: a random name that the host already has is not tried
    again *)
Lemma makeVeth_collision w name mtu mac entropy bytes w1 :
  entropy 0%nat = inl bytes →
  makeVethPair w name ("veth" +:+ hex_bytes bytes) mtu mac = (w1, PairExist) →
  nl_LinkByName w1 Container ("veth" +:+ hex_bytes bytes) = inr LinkNotFoundError →
  makeVeth w name "" mtu mac entropy
  = (w1, inr ("container veth name provided (" +:+ name +:+ ") already exists")).
Proof.
  intros He Hp Hn. unfold makeVeth. simpl. rewrite He. simpl. rewrite Hp.
  unfold peerExists. by rewrite Hn.
Qed.
End links.

(** ** ip.go: an address with or without a prefix length

    The type IP embeds a net.IPNet; without a prefix length its mask is empty. *)

Definition newIP (ip mask : list Z) : Net.IPNet := Net.mkIPNet ip mask.

Definition ParseIP (s : string) : option Net.IPNet :=
  if Strings.Contains s "/" then
    match Net.ParseCIDR s with
    | None => None
    | Some (ip, ipNet) => Some (newIP ip (Net.Mask ipNet))
    end
  else (λ ip, newIP ip []) <$> Net.ParseIP s.

Definition ToIP (i : Net.IPNet) : option (list Z) :=
  match To4 (Net.IP i) with Some ip => Some ip | None => To16 (Net.IP i) end.

Definition IP_String (i : Net.IPNet) : string :=
  if bool_decide (Net.Mask i = []) then Net.ip_string (Net.IP i) else IPNet_String i.

(** no error is possible *)
Definition MarshalText (i : Net.IPNet) : string :=
  if bool_decide (Net.IP i = []) then "" else IP_String i.

Definition UnmarshalText (b : string) : Net.IPNet + string :=
  if bool_decide (b = "") then inl (Net.mkIPNet [] [])
  else match ParseIP b with
       | Some ip => inl ip
       | None => inr ("invalid IP address " +:+ b)
       end.

(** the addresses the type is for: none, an address, an address with a prefix length *)
Inductive text_ip : Net.IPNet → Prop :=
| text_none : text_ip (Net.mkIPNet [] [])
| text_plain ip : ip_ok ip → text_ip (Net.mkIPNet ip [])
| text_prefix ip p : ip_ok ip → 0 ≤ p ≤ 32 → text_ip (Net.mkIPNet ip (Net.CIDRMask p)).

Lemma CIDRMask_ones p : 0 ≤ p ≤ 32 → mask_ones (Net.CIDRMask p) = Some p.
Proof.
  intros Hp. assert (Forall (λ p, mask_ones (Net.CIDRMask p) = Some p) (seqZ 0 33)) as Hall
    by (vm_compute; repeat constructor).
  rewrite Forall_forall in Hall. apply Hall, elem_of_seqZ. lia.
Qed.

Lemma ip_string_nonempty ip : ip_ok ip → ip ≠ [] ∧ ∀ rest, Net.ip_string ip +:+ rest ≠ "".
Proof.
  intros [Hl _]. destruct ip as [|a [|b l]]; simpl in Hl; [lia|lia|]. split; [done|]. intros rest.
  cbn [Net.ip_string fmap list_fmap Strings.Join]. destruct (Strconv.Itoa a); by rewrite ?str_app_cons.
Qed.

(** what is printed is read back *)
Lemma text_ip_roundtrip i : text_ip i → UnmarshalText (MarshalText i) = inl i.
Proof.
  intros [|ip Hip|ip p Hip Hp]; [done|..]; destruct (ip_string_nonempty _ Hip) as [Hne Htext];
    unfold UnmarshalText, MarshalText, IP_String, IPNet_String; cbn [Net.IP Net.Mask];
    rewrite (bool_decide_false (ip = [])) by done.
  - specialize (Htext ""). rewrite str_app_nil_r in Htext. rewrite (bool_decide_true ([] = [])), bool_decide_false by done.
    unfold ParseIP. rewrite no_char_Contains by apply (ip_string_split _ Hip). by rewrite ParseIP_string.
  - assert (Net.CIDRMask p ≠ []) as Hm by (cbn; by destruct (8 <=? p)).
    rewrite (bool_decide_false (Net.CIDRMask p = [])), CIDRMask_ones, bool_decide_false by done.
    fold (cidr_str ip p). unfold ParseIP.
    rewrite (Contains_app_char "/"%char (Net.ip_string ip) (Strconv.Itoa p) : Strings.Contains (cidr_str ip p) "/" = true).
    by rewrite (ParseCIDR_text _ ip p) by auto with multinic.
Qed.
