(* ===== verification/CniIpam.v ===== *)
(** * Applying a result to a link: cni/pkg/ipam, cni/pkg/utils/sysctl and the rest of
    cni/pkg/ip

    ConfigureIface sets a link up and gives it the addresses and routes of an IPAM
    result; SettleAddresses waits until the addresses of a link are no longer
    tentative; the Validate functions compare a link with a result; Sysctl reads and
    writes kernel settings.  Files and netlink are the class [HostNet] over [W]; error
    texts leave out the structs that Go prints into them. *)

From S2P Require Import Prelude GoLib Json Cni CniIp.
Import Json.

(** ** The host *)

Record NRoute := mkNRoute {
  nr_Dst : option Net.IPNet; nr_LinkIndex : Z; nr_Gw : option (list Z); nr_Scope : Z
}.

(** types.Route *)
Record Route := mkRoute { ro_Dst : Net.IPNet; ro_GW : option (list Z) }.

Definition SCOPE_UNIVERSE : Z := 0.
Definition SCOPE_HOST : Z := 254.

Class HostNet (W : Type) := {
  hn_LinkByName : W → string → LinkAttrs + string;
  hn_LinkSetUp : W → LinkAttrs → W * option string;
  hn_AddrList : W → LinkAttrs → list Addr + string;
  hn_AddrAdd : W → LinkAttrs → Net.IPNet → W * option string;
  hn_RouteAdd : W → NRoute → W * option string;
  hn_RouteAddEcmp : W → NRoute → W * option string;
  (** routes of a family by destination, or by destination and gateway; nil: none *)
  hn_RouteList : W → bool → option Net.IPNet → option (option (list Z)) → list NRoute + string;
  hn_ReadFile : W → string → string + string;
  hn_WriteFile : W → string → string → W * option string
}.

(** ** sysctl_linux.go *)

(** filepath.Clean of a rooted path *)
Definition clean_rooted (s : string) : string :=
  "/" +:+ Strings.Join
    (foldl (λ st c, if bool_decide (c = "" ∨ c = ".") then st
                    else if bool_decide (c = "..") then take (pred (length st)) st else st ++ [c])
       [] (Strings.Split s "/")) "/".

(** whether the first separator is a dot *)
Fixpoint interchange (name : string) : bool :=
  match name with
  | EmptyString => false
  | String "." _ => true
  | String "/" _ => false
  | String _ name => interchange name
  end.

Fixpoint swap_separators (name : string) : string :=
  match name with
  | EmptyString => EmptyString
  | String c name =>
      String (if Ascii.eqb c "." then "/"%char else if Ascii.eqb c "/" then "."%char else c)
        (swap_separators name)
  end.

Definition toNormalName (name : string) : string :=
  if interchange name then swap_separators name else name.

(** a normal name is left alone *)
Lemma toNormalName_idempotent name : toNormalName (toNormalName name) = toNormalName name.
Proof.
  unfold toNormalName. destruct (interchange name) eqn:E; [|by rewrite E].
  assert (interchange (swap_separators name) = false) as ->; [|done].
  induction name as [|c name IH]; [done|]. simpl.
  destruct (Ascii.eqb_spec c "."%char) as [->|Hd]; [done|].
  destruct (Ascii.eqb_spec c "/"%char) as [->|Hs]; [done|].
  revert E. simpl. destruct c as [[] [] [] [] [] [] [] []]; try exact IH; done.
Qed.

(** ** utils_linux.go, addr_linux.go *)

(** IFA_F_TENTATIVE | IFA_F_DADFAILED *)
Definition unsettled : Z := Z.lor 0x40 0x08.

Definition SETTLE_INTERVAL : Z := 50.

Section host.
Context {W : Type} `{HostNet W}.

Definition sysctl_file (name : string) : string := clean_rooted ("/proc/sys/" +:+ toNormalName name).

(** an empty file panics: the last byte is cut off *)
Definition getSysctl (w : W) (name : string) : go (string + string) :=
  match hn_ReadFile w (sysctl_file name) with
  | inr err => Ret (inr err)
  | inl EmptyString => Panic
  | inl data => Ret (inl (String.substring 0 (String.length data - 1) data))
  end.

Definition setSysctl (w : W) (name value : string) : W * go (string + string) :=
  match hn_WriteFile w (sysctl_file name) value with
  | (w, Some err) => (w, Ret (inr err))
  | (w, None) => (w, getSysctl w name)
  end.

Definition Sysctl (w : W) (name : string) (params : list string) : W * go (string + string) :=
  match params with
  | [] => (w, getSysctl w name)
  | [p] => setSysctl w name p
  | _ => (w, Ret (inr "unexcepted additional parameters"))
  end.

(** *** ipforward_linux.go *)

(** bytes.TrimSpace(content) is 1 *)
Definition is_space (c : Ascii.ascii) : bool :=
  bool_decide (c ∈ ["009"; "010"; "011"; "012"; "013"; " "]%char).

Fixpoint trim_left (s : string) : string :=
  match s with
  | String c s' => if is_space c then trim_left s' else s
  | EmptyString => EmptyString
  end.

Definition trimmed_one (s : string) : bool :=
  match trim_left s with
  | String "1" s' => bool_decide (trim_left s' = "")
  | _ => false
  end.

Definition echo1 (w : W) (f : string) : W * option string :=
  match hn_ReadFile w f with
  | inl content => if trimmed_one content then (w, None) else hn_WriteFile w f "1"
  | inr _ => hn_WriteFile w f "1"
  end.

Definition EnableIP4Forward (w : W) : W * option string := echo1 w "/proc/sys/net/ipv4/ip_forward".

Definition EnableIP6Forward (w : W) : W * option string :=
  echo1 w "/proc/sys/net/ipv6/conf/all/forwarding".

Fixpoint EnableForward_loop (w : W) (ips : list IPConfig) (v4 v6 : bool) : W * option string :=
  match ips with
  | [] => (w, None)
  | ip :: rest =>
      let isV4 := bool_decide (is_Some (To4 (Net.IP (ic_Address ip)))) in
      if isV4 && negb v4 then
        match EnableIP4Forward w with
        | (w, Some err) => (w, Some err)
        | (w, None) => EnableForward_loop w rest true v6
        end
      else if negb isV4 && negb v6 then
        match EnableIP6Forward w with
        | (w, Some err) => (w, Some err)
        | (w, None) => EnableForward_loop w rest v4 true
        end
      else EnableForward_loop w rest v4 v6
  end.

Definition EnableForward (w : W) (ips : list IPConfig) : W * option string :=
  EnableForward_loop w ips false false.

(** *** route_linux.go *)

Definition AddRoute (w : W) (ipn : option Net.IPNet) (gw : option (list Z)) (dev : LinkAttrs) : W * option string :=
  hn_RouteAdd w (mkNRoute ipn (la_Index dev) gw SCOPE_UNIVERSE).

Definition AddHostRoute (w : W) (ipn : option Net.IPNet) (gw : option (list Z)) (dev : LinkAttrs)
    : W * option string :=
  hn_RouteAdd w (mkNRoute ipn (la_Index dev) gw SCOPE_HOST).

Definition AddDefaultRoute (w : W) (gw : option (list Z)) (dev : LinkAttrs) : W * option string :=
  AddRoute w (snd <$> Net.ParseCIDR "0.0.0.0/0") gw dev.

(** *** addr_linux.go

    [sleep]: what happens while the loop sleeps; [now i]: the time in milliseconds
    at the check of the iteration [i] *)

Fixpoint settle_loop (fuel : nat) (i : nat) (w : W) (sleep : W → W) (now : nat → Z) (deadline : Z)
    (link : LinkAttrs) (ifName : string) (timeout : Z) : run (option string) :=
  match fuel with
  | O => OutOfFuel
  | S fuel =>
      match hn_AddrList w link with
      | inr err => Fin (Some ("could not list addresses: " +:+ err))
      | inl [] => Fin None
      | inl addrs =>
          if forallb (λ a, negb (0 <? Z.land (ad_Flags a) unsettled)) addrs then Fin None
          else if deadline <? now i then
            Fin (Some ("link " +:+ ifName +:+ " still has tentative addresses after "
                       +:+ Strconv.Itoa timeout +:+ " seconds"))
          else settle_loop fuel (S i) (sleep w) sleep now deadline link ifName timeout
      end
  end.

Definition SettleAddresses (fuel : nat) (w : W) (sleep : W → W) (start : Z) (now : nat → Z)
    (ifName : string) (timeout : Z) : run (option string) :=
  match hn_LinkByName w ifName with
  | inr err => Fin (Some ("failed to retrieve link: " +:+ err))
  | inl link => settle_loop fuel 0 w sleep now (start + timeout * 1000) link ifName timeout
  end.

(** the loop sleeps between the checks, so it ends shortly after the deadline *)
Lemma settle_loop_ends sleep (now : nat → Z) deadline link ifName timeout fuel : ∀ i w,
  (∀ j, now j + SETTLE_INTERVAL ≤ now (S j)) →
  (0 < fuel)%nat → deadline < now i + SETTLE_INTERVAL * (Z.of_nat fuel - 1) →
  settle_loop fuel i w sleep now deadline link ifName timeout ≠ OutOfFuel.
Proof.
  unfold SETTLE_INTERVAL.
  induction fuel as [|fuel IH]; intros i w Hnow Hf Hd; [lia|]. simpl.
  destruct (hn_AddrList w link) as [[|a l]|]; [done| |done]. destruct (forallb _ _); [done|].
  destruct (Z.ltb_spec deadline (now i)); [done|]. specialize (Hnow i) as Hi.
  apply IH; [done|lia|lia].
Qed.

Lemma SettleAddresses_ends w sleep start (now : nat → Z) ifName timeout :
  0 ≤ timeout → start ≤ now 0%nat → (∀ j, now j + SETTLE_INTERVAL ≤ now (S j)) →
  SettleAddresses (Z.to_nat (20 * timeout + 2)) w sleep start now ifName timeout ≠ OutOfFuel.
Proof.
  intros Ht Hs Hnow. unfold SettleAddresses. destruct (hn_LinkByName w ifName); [|done].
  apply settle_loop_ends; [done|unfold SETTLE_INTERVAL; lia..].
Qed.

(** *** utils_linux.go *)

(** netlink's comparison of two addresses *)
Context (addr_equal : Net.IPNet → Net.IPNet → bool).

(** the network of an address in CIDR notation; none for a mask that has none *)
Definition our_prefix (n : Net.IPNet) : option Net.IPNet :=
  match mask_ones (Net.Mask n) with
  | Some _ => (λ ip, Net.mkIPNet ip (Net.Mask n)) <$> Mask (Net.IP n) (Net.Mask n)
  | None => None
  end.

Definition is_v4 (ip : list Z) : bool := bool_decide (is_Some (To4 ip)).

Fixpoint ValidateExpectedInterfaceIPs (w : W) (ifName : string) (resultIPs : list IPConfig) : option string :=
  match resultIPs with
  | [] => None
  | ips :: rest =>
      match hn_LinkByName w ifName with
      | inr _ => Some ("Cannot find container link " +:+ ifName)
      | inl link =>
          match hn_AddrList w link with
          | inr _ => Some "Cannot obtain List of IP Addresses"
          | inl addrList =>
              if negb (existsb (λ a, addr_equal (ad_IPNet a) (ic_Address ips)) addrList)
              then Some ("Failed to match addr on interface " +:+ ifName)
              else
                match hn_RouteList w (is_v4 (Net.IP (ic_Address ips))) (our_prefix (ic_Address ips)) None with
                | inr _ => Some ("Error trying to find Gateway for interface " +:+ ifName)
                | inl [] => Some ("Failed to find Gateway for interface " +:+ ifName)
                | inl _ => ValidateExpectedInterfaceIPs w ifName rest
                end
          end
      end
  end.

(** the texts 0.0.0.0/0 and ::/0 *)
Definition is_default (n : Net.IPNet) : bool :=
  bool_decide (mask_ones (Net.Mask n) = Some 0) &&
  match To4 (Net.IP n) with
  | Some v4 => bool_decide (v4 = [0; 0; 0; 0])
  | None => bool_decide (Net.IP n = replicate 16 0)
  end.

Fixpoint ValidateExpectedRoute (w : W) (resultRoutes : list Route) : option string :=
  match resultRoutes with
  | [] => None
  | route :: rest =>
      let dst := ro_Dst route in
      if is_v4 (Net.IP dst) || (length (Net.IP dst) =? 16)%nat then
        let '(find, gw) := if is_default dst then (None, None) else (Some dst, Some (ro_GW route)) in
        match hn_RouteList w (is_v4 (Net.IP dst)) find gw with
        | inr _ => Some "Expected Route not route table lookup error"
        | inl [] => Some "Expected Route not found in routing table"
        | inl _ => ValidateExpectedRoute w rest
        end
      else Some "Invalid static route found"
  end.

(** ** ipam_linux.go *)

Definition DisableIPv6Sysctl (iface : string) : string := "net/ipv6/conf/" +:+ iface +:+ "/disable_ipv6".

(** the loop over the loopback and the interface *)
Fixpoint enable_ipv6 (w : W) (ifaces : list string) : W * go (option string) :=
  match ifaces with
  | [] => (w, Ret None)
  | iface :: rest =>
      let name := DisableIPv6Sysctl iface in
      match Sysctl w name [] with
      | (w, Panic) => (w, Panic)
      | (w, Ret (inr _)) => enable_ipv6 w rest
      | (w, Ret (inl value)) =>
          if bool_decide (value = "0") then enable_ipv6 w rest
          else
            match Sysctl w name ["0"] with
            | (w, Panic) => (w, Panic)
            | (w, Ret (inr err)) =>
                (w, Ret (Some ("failed to enable IPv6 for interface " +:+ quoted iface +:+ " (" +:+ name
                               +:+ "=" +:+ value +:+ "): " +:+ err)))
            | (w, Ret (inl _)) => enable_ipv6 w rest
            end
      end
  end.

Definition enable_if (w : W) (need : bool) (ifName : string) : W * go (option string) :=
  if need then enable_ipv6 w ["lo"; ifName] else (w, Ret None).

(** the gateways found so far and whether IPv6 has been enabled *)
Record gateways := mkGws { v4gw : option (list Z); v6gw : option (list Z); has_enabled_ipv6 : bool }.

Definition add_gateway (g : gateways) (gw : option (list Z)) : gateways :=
  let gwIsV4 := match gw with Some ip => is_v4 ip | None => false end in
  if gwIsV4 && bool_decide (v4gw g = None) then mkGws gw (v6gw g) (has_enabled_ipv6 g)
  else if negb gwIsV4 && bool_decide (v6gw g = None) then mkGws (v4gw g) gw (has_enabled_ipv6 g)
  else g.

(** the loop over the addresses of the result *)
Fixpoint add_addresses (w : W) (ifName : string) (link : LinkAttrs) (interfaces : list Interface)
    (ips : list IPConfig) (g : gateways) : W * go (gateways + string) :=
  match ips with
  | [] => (w, Ret (inl g))
  | ipc :: rest =>
      match ic_Interface ipc with
      | None => add_addresses w ifName link interfaces rest g
      | Some intIdx =>
          match go_index interfaces intIdx with
          | Panic => (w, Panic)       (* the error message reads the interface again *)
          | Ret iface =>
              if negb (bool_decide (if_Name iface = ifName))
              then (w, Ret (inr ("failed to add IP addr to " +:+ quoted ifName +:+ ": invalid interface index "
                                 +:+ Strconv.Itoa intIdx +:+ " name: " +:+ if_Name iface)))
              else
                let need_v6 := negb (has_enabled_ipv6 g) && negb (is_v4 (Net.IP (ic_Address ipc))) in
                match enable_if w need_v6 ifName with
                | (w, Panic) => (w, Panic)
                | (w, Ret (Some err)) => (w, Ret (inr err))
                | (w, Ret None) =>
                    let g := mkGws (v4gw g) (v6gw g) (has_enabled_ipv6 g || need_v6) in
                    match hn_AddrAdd w link (ic_Address ipc) with
                    | (w, Some err) => (w, Ret (inr ("failed to add IP addr to " +:+ quoted ifName +:+ ": " +:+ err)))
                    | (w, None) =>
                        add_addresses w ifName link interfaces rest (add_gateway g (ic_Gateway ipc))
                    end
                end
          end
      end
  end.

(** the gateway of a route: its own, or that of the addresses of its family *)
Definition route_gw (g : gateways) (r : Route) : option (list Z) :=
  match ro_GW r with
  | Some gw => Some gw
  | None => if is_v4 (Net.IP (ro_Dst r)) then v4gw g else v6gw g
  end.

Fixpoint add_routes (w : W) (ifName : string) (link : LinkAttrs) (g : gateways) (routes : list Route)
    : W * option string :=
  match routes with
  | [] => (w, None)
  | r :: rest =>
      match hn_RouteAddEcmp w (mkNRoute (Some (ro_Dst r)) (la_Index link) (route_gw g r) SCOPE_UNIVERSE) with
      | (w, Some err) => (w, Some ("failed to add route dev " +:+ ifName +:+ ": " +:+ err))
      | (w, None) => add_routes w ifName link g rest
      end
  end.

(** [settle]: the wait for the addresses, whose result is not used *)
Definition ConfigureIface {D : Type} (settle : W → W) (w : W) (ifName : string) (res : Result Route D)
    : W * go (option string) :=
  if bool_decide (re_Interfaces res = []) then (w, Ret (Some "no interfaces to configure"))
  else
    match hn_LinkByName w ifName with
    | inr err => (w, Ret (Some ("failed to lookup " +:+ quoted ifName +:+ ": " +:+ err)))
    | inl link =>
        match hn_LinkSetUp w link with
        | (w, Some err) => (w, Ret (Some ("failed to set " +:+ quoted ifName +:+ " UP: " +:+ err)))
        | (w, None) =>
            match add_addresses w ifName link (re_Interfaces res) (re_IPs res) (mkGws None None false) with
            | (w, Panic) => (w, Panic)
            | (w, Ret (inr err)) => (w, Ret (Some err))
            | (w, Ret (inl g)) =>
                let w := if bool_decide (is_Some (v6gw g)) then settle w else w in
                let '(w, err) := add_routes w ifName link g (re_Routes res) in (w, Ret err)
            end
        end
    end.
End host.

(** ** What a successful configuration leaves *)

(** the addresses of links and the routes of the host, and what the calls do to them *)
Class HostNetLaws (W : Type) `{HostNet W} (addrs : W → list (Z * Net.IPNet)) (routes : W → list NRoute) := {
  setup_keeps : ∀ w l w' r, hn_LinkSetUp w l = (w', r) → addrs w' = addrs w ∧ routes w' = routes w;
  write_keeps : ∀ w f s w' r, hn_WriteFile w f s = (w', r) → addrs w' = addrs w ∧ routes w' = routes w;
  addr_added : ∀ w l n w', hn_AddrAdd w l n = (w', None) →
    addrs w' = addrs w ++ [(la_Index l, n)] ∧ routes w' = routes w;
  route_added : ∀ w r w', hn_RouteAddEcmp w r = (w', None) →
    addrs w' = addrs w ∧ routes w' = routes w ++ [r]
}.

(** the addresses of a result that belong to an interface *)
Definition placed (ips : list IPConfig) : list IPConfig := filter (λ ip, is_Some (ic_Interface ip)) ips.

(** the first IPv4 gateway among them *)
Definition first_v4gw (ips : list IPConfig) : option (list Z) :=
  head (filter (λ gw, is_v4 gw = true) (omap ic_Gateway ips)).

Section applies.
Context {W : Type} `{HostNet W} (addrs : W → list (Z * Net.IPNet)) (routes : W → list NRoute)
  `{!HostNetLaws W addrs routes}.

Lemma enable_ipv6_keeps ifaces : ∀ w w' r,
  enable_ipv6 w ifaces = (w', r) → addrs w' = addrs w ∧ routes w' = routes w.
Proof.
  induction ifaces as [|i ifaces IH]; intros w w' r; simpl; [by intros [= <- <-]|].
  destruct (getSysctl w _) as [[v|e]|]; [|by apply IH|by intros [= <- <-]].
  case_bool_decide; [by apply IH|]. unfold setSysctl.
  destruct (hn_WriteFile w _ "0") as [w1 [e|]] eqn:Ew; destruct (write_keeps _ _ _ _ _ Ew) as [Ha Hr].
  { by intros [= <- <-]. }
  destruct (getSysctl w1 _) as [[v1|e1]|]; [|by intros [= <- <-]..].
  intros E%IH. by rewrite <- Ha, <- Hr.
Qed.

Lemma enable_if_keeps w need ifName w' r :
  enable_if w need ifName = (w', r) → addrs w' = addrs w ∧ routes w' = routes w.
Proof. unfold enable_if. destruct need; [apply enable_ipv6_keeps|by intros [= <- <-]]. Qed.

Lemma add_gateway_v4 g gw :
  v4gw (add_gateway g gw) =
  match v4gw g, gw with Some x, _ => Some x | None, Some ip => if is_v4 ip then Some ip else None | None, None => None end.
Proof.
  unfold add_gateway. destruct (v4gw g) eqn:Eg, gw as [ip|]; simpl;
    rewrite ?Eg; try destruct (is_v4 ip); simpl; repeat case_bool_decide; simpl; congruence.
Qed.

Lemma add_addresses_ok ifName link interfaces ips : ∀ w g w' g',
  add_addresses w ifName link interfaces ips g = (w', Ret (inl g')) →
  addrs w' = addrs w ++ ((λ ip, (la_Index link, ic_Address ip)) <$> placed ips) ∧
  routes w' = routes w ∧
  v4gw g' = match v4gw g with Some x => Some x | None => first_v4gw (placed ips) end ∧
  Forall (λ ip, ∃ k i, ic_Interface ip = Some k ∧ go_index interfaces k = Ret i ∧ if_Name i = ifName) (placed ips).
Proof.
  induction ips as [|ipc ips IH]; intros w g w' g'; simpl.
  { intros [= <- <-]. rewrite app_nil_r. destruct (v4gw g) eqn:E; done. }
  unfold placed. destruct (ic_Interface ipc) as [k|] eqn:Ek.
  2: { rewrite filter_cons_False by (rewrite Ek; by intros [? ?]). apply IH. }
  rewrite filter_cons_True by (rewrite Ek; eauto). fold (placed ips).
  destruct (go_index interfaces k) as [iface|] eqn:Ei; [|done].
  case_bool_decide as Hname; [|done]. cbn [negb].
  destruct (enable_if w _ ifName) as [w1 [[e|]|]] eqn:E6; [done| |done].
  destruct (enable_if_keeps _ _ _ _ _ E6) as [Ha1 Hr1].
  destruct (hn_AddrAdd w1 link _) as [w2 [e|]] eqn:Ea; [done|].
  destruct (addr_added _ _ _ _ Ea) as [Ha2 Hr2]. intros (Ha & Hr & Hg & Hall)%IH.
  rewrite Ha, Hr, Hg, Ha2, Hr2, Ha1, Hr1, add_gateway_v4. simpl. rewrite <- app_assoc.
  split_and!; [done..| |constructor; [by eauto|done]].
  unfold first_v4gw. simpl. destruct (v4gw g); [done|].
  destruct (ic_Gateway ipc) as [ip|]; [|done]. simpl. rewrite filter_cons. by destruct (is_v4 ip).
Qed.

Lemma add_routes_ok ifName link g rs : ∀ w w',
  add_routes w ifName link g rs = (w', None) →
  addrs w' = addrs w ∧
  routes w' = routes w ++
    ((λ r, mkNRoute (Some (ro_Dst r)) (la_Index link) (route_gw g r) SCOPE_UNIVERSE) <$> rs).
Proof.
  induction rs as [|r rs IH]; intros w w'; simpl; [intros [= <-]; by rewrite app_nil_r|].
  destruct (hn_RouteAddEcmp w _) as [w1 [e|]] eqn:E; [done|].
  destruct (route_added _ _ _ E) as [Ha Hr]. intros [Ha' Hr']%IH.
  rewrite Ha', Hr', Ha, Hr. by rewrite <- app_assoc.
Qed.

(** a successful configuration adds to the link exactly the addresses of the
    result that name an interface, in order, each of which names this link, and to
    the routes exactly those of the result, where an IPv4 route without a gateway
    goes through the first IPv4 gateway of these addresses *)
Lemma ConfigureIface_applies {D} settle w ifName (res : Result Route D) w' :
  (∀ w0, addrs (settle w0) = addrs w0 ∧ routes (settle w0) = routes w0) →
  ConfigureIface settle w ifName res = (w', Ret None) →
  ∃ link g, hn_LinkByName w ifName = inl link ∧ v4gw g = first_v4gw (placed (re_IPs res)) ∧
    addrs w' = addrs w ++ ((λ ip, (la_Index link, ic_Address ip)) <$> placed (re_IPs res)) ∧
    routes w' = routes w ++
      ((λ r, mkNRoute (Some (ro_Dst r)) (la_Index link) (route_gw g r) SCOPE_UNIVERSE) <$> re_Routes res).
Proof.
  intros Hs. unfold ConfigureIface. case_bool_decide; [done|].
  destruct (hn_LinkByName w ifName) as [link|]; [|done].
  destruct (hn_LinkSetUp w link) as [w1 [e|]] eqn:E1; [done|].
  destruct (setup_keeps _ _ _ _ E1) as [Ha1 Hr1].
  destruct (add_addresses w1 _ _ _ _ _) as [w2 [[g|e]|]] eqn:E2; [|done..].
  destruct (add_addresses_ok _ _ _ _ _ _ _ _ E2) as (Ha2 & Hr2 & Hg & _).
  destruct (add_routes _ _ _ _ _) as [w3 err] eqn:E3. intros [= <- ->].
  destruct (add_routes_ok _ _ _ _ _ _ E3) as [Ha3 Hr3]. exists link, g.
  split_and!; [done|done|..]; rewrite ?Ha3, ?Hr3.
  - case_bool_decide; rewrite ?(proj1 (Hs _)), Ha2, Ha1; done.
  - case_bool_decide; rewrite ?(proj2 (Hs _)), Hr2, Hr1; done.
Qed.

(** an address whose interface index lies outside the result panics: the message
    of the error reads the interface that is not there *)
Lemma ConfigureIface_bad_index_panics {D} settle w ifName (res : Result Route D) link w1 ipc rest k :
  hn_LinkByName w ifName = inl link → hn_LinkSetUp w link = (w1, None) →
  re_Interfaces res ≠ [] → re_IPs res = ipc :: rest →
  ic_Interface ipc = Some k → ¬ (0 ≤ k < Z.of_nat (length (re_Interfaces res))) →
  ConfigureIface settle w ifName res = (w1, Panic).
Proof.
  intros Hl Hup Hi Hips Hk Hout. unfold ConfigureIface. rewrite bool_decide_eq_false_2 by done.
  rewrite Hl, Hup, Hips. simpl. rewrite Hk.
  assert (go_index (re_Interfaces res) k = Panic) as ->; [|done].
  unfold go_index. destruct (Z.ltb_spec k 0); [done|].
  rewrite lookup_ge_None_2; [done|lia].
Qed.
End applies.
