(* ===== verification/Iptables.v ===== *)
(** * Packet filter rules of the CNI packages: cni/pkg/utils/iptables.go, utils.go,
    conntrack.go and cni/pkg/ip/ipmasq_linux.go

    The iptables package is the class [IPTables] over the state [W]: chains of
    rules per protocol and table, and [IPTablesLaws] what its calls do to them.
    The digest of names is a parameter. *)

From S2P Require Import Prelude GoLib Json JsonSpec Cni CniIp.
Import Json.

Abbreviation rule := (list string).

(** *iptables.Error with its exit status and IsNotExist, or another error *)
Inductive ipt_error :=
| ExitError (status : Z) (notExist : bool)
| OtherError (e : string).

#[export] Instance ipt_error_eq_dec : EqDecision ipt_error.
Proof. solve_decision. Defined.

Class IPTables (W : Type) := {
  ipt_New : W → bool → option string;                       (* NewWithProtocol, for IPv6 or not *)
  ipt_ListChains : W → bool → string → list string + ipt_error;
  ipt_NewChain : W → bool → string → string → W * option ipt_error;
  ipt_AppendUnique : W → bool → string → string → rule → W * option ipt_error;
  ipt_Delete : W → bool → string → string → rule → W * option ipt_error;
  ipt_ClearChain : W → bool → string → string → W * option ipt_error;
  ipt_DeleteChain : W → bool → string → string → W * option ipt_error
}.

(** ** utils.go *)

Definition maxChainLength : nat := 28.
Definition chainPrefix : string := "CNI-".
Definition MaxHashLen : nat := 128.

Section names.
(** the 128 hexadecimal digits of the SHA-512 digest *)
Context (sha512_hex : string → string).

Definition MustFormatHashWithPrefix (length : nat) (prefix toHash : string) : go string :=
  if (length <=? String.length prefix)%nat || (MaxHashLen <? length)%nat then Panic
  else Ret (String.substring 0 length (prefix +:+ sha512_hex toHash)).

Definition MustFormatChainNameWithPrefix (name id prefix : string) : go string :=
  MustFormatHashWithPrefix maxChainLength (chainPrefix +:+ prefix) (name +:+ id).

Definition FormatChainName (name id : string) : go string := MustFormatChainNameWithPrefix name id "".

(** %q of a text without special characters *)
Definition FormatComment (name id : string) : string :=
  "name: " +:+ quoted name +:+ " id: " +:+ quoted id.

Lemma prefix_substring p s n :
  (String.length p ≤ n)%nat → String.prefix p (String.substring 0 n (p +:+ s)) = true.
Proof.
  revert n. induction p as [|c p IH]; intros n Hn; [by destruct (String.substring _ _ _)|].
  rewrite str_app_cons. destruct n as [|n]; simpl in *; [lia|]. destruct (Ascii.ascii_dec c c); [|done].
  apply IH. lia.
Qed.

(** a chain name has exactly 28 characters and starts with its prefix; a prefix of
    24 or more characters panics *)
Lemma chain_name_length name id prefix :
  (∀ s, String.length (sha512_hex s) = MaxHashLen) →
  if (24 <=? String.length prefix)%nat then MustFormatChainNameWithPrefix name id prefix = Panic
  else ∃ s, MustFormatChainNameWithPrefix name id prefix = Ret s ∧ String.length s = maxChainLength ∧
         Strings.HasPrefix s (chainPrefix +:+ prefix) = true.
Proof.
  intros Hlen. unfold MustFormatChainNameWithPrefix, MustFormatHashWithPrefix.
  rewrite str_length_app. change (String.length chainPrefix) with 4%nat.
  change (MaxHashLen <? maxChainLength)%nat with false. rewrite orb_false_r. unfold maxChainLength.
  destruct (Nat.leb_spec 24 (String.length prefix)), (Nat.leb_spec 28 (4 + String.length prefix));
    try lia; [done|]. eexists. split; [done|]. split.
  - apply length_substring. rewrite str_length_app, Hlen. unfold MaxHashLen. lia.
  - apply prefix_substring. rewrite str_length_app. change (String.length chainPrefix) with 4%nat. lia.
Qed.
End names.

(** ** iptables.go *)

Definition statusChainExists : Z := 1.

Definition isNotExist (err : ipt_error) : bool :=
  match err with ExitError _ n => n | OtherError _ => false end.

(** an error text, or the error of the package as it is *)
Inductive util_error := NilTables | Wrapped (what : string) (e : ipt_error) | Plain (e : ipt_error).

Section iptables.
Context {W : Type} `{IPTables W}.

(** [None] for [ipt]: a nil pointer; else its protocol *)
Definition ChainExists (w : W) (ipt : option bool) (table chain : string) : bool + util_error :=
  match ipt with
  | None => inr NilTables
  | Some v6 =>
      match ipt_ListChains w v6 table with
      | inr err => inr (Plain err)
      | inl chains => inl (bool_decide (chain ∈ chains))
      end
  end.

Definition EnsureChain (w : W) (ipt : option bool) (table chain : string) : W * option util_error :=
  match ipt with
  | None => (w, Some NilTables)
  | Some v6 =>
      match ChainExists w ipt table chain with
      | inr (Plain e) => (w, Some (Wrapped "failed to list iptables chains" e))
      | inr e => (w, Some e)
      | inl true => (w, None)
      | inl false =>
          match ipt_NewChain w v6 table chain with
          | (w, Some (ExitError status n)) =>
              if negb (status =? statusChainExists) then (w, Some (Plain (ExitError status n))) else (w, None)
          | (w, _) => (w, None)
          end
      end
  end.

Definition DeleteRule (w : W) (ipt : option bool) (table chain : string) (rulespec : rule)
    : W * option util_error :=
  match ipt with
  | None => (w, Some NilTables)
  | Some v6 =>
      match ipt_Delete w v6 table chain rulespec with
      | (w, None) => (w, None)
      | (w, Some (ExitError status n)) =>
          if n then (w, None)
          else if status =? 2 then (w, None)
          else (w, Some (Wrapped "Failed to delete referring rule" (ExitError status n)))
      | (w, Some err) => (w, Some (Wrapped "Failed to delete referring rule" err))
      end
  end.

Definition DeleteChain (w : W) (ipt : option bool) (table chain : string) : W * option util_error :=
  match ipt with
  | None => (w, Some NilTables)
  | Some v6 =>
      match ipt_DeleteChain w v6 table chain with
      | (w, None) => (w, None)
      | (w, Some err) => if isNotExist err then (w, None) else (w, Some (Plain err))
      end
  end.

Definition ClearChain (w : W) (ipt : option bool) (table chain : string) : W * option util_error :=
  match ipt with
  | None => (w, Some NilTables)
  | Some v6 =>
      match ipt_ClearChain w v6 table chain with
      | (w, None) => (w, None)
      | (w, Some err) => if isNotExist err then EnsureChain w ipt table chain else (w, Some (Plain err))
      end
  end.

(** ** ipmasq_linux.go *)

Inductive masq_error := NoIptables (e : string) | ListErr (e : ipt_error) | IptErr (e : ipt_error).

(** %s of a network and of its address: IPv6 texts are a parameter *)
Context (net_string : Net.IPNet → string) (ip_text : list Z → string).

Definition comment_args (comment : string) : rule := ["-m"; "comment"; "--comment"; comment].

Definition accept_rule (ipn : Net.IPNet) (comment : string) : rule :=
  ["-d"; net_string ipn; "-j"; "ACCEPT"] ++ comment_args comment.

Definition masq_rule (isV6 : bool) (comment : string) : rule :=
  ["!"; "-d"; if isV6 then "ff00::/8" else "224.0.0.0/4"; "-j"; "MASQUERADE"] ++ comment_args comment.

Definition jump_rule (source chain comment : string) : rule :=
  ["-s"; source; "-j"; chain] ++ comment_args comment.

(** one call that ends the function on an error *)
Definition ipt_do (r : W * option ipt_error) (k : W → W * option masq_error) : W * option masq_error :=
  match r with (w, Some err) => (w, Some (IptErr err)) | (w, None) => k w end.

Definition SetupIPMasq (w : W) (ipn : Net.IPNet) (chain comment : string) : W * option masq_error :=
  let isV6 := bool_decide (To4 (Net.IP ipn) = None) in
  match ipt_New w isV6 with
  | Some err => (w, Some (NoIptables err))
  | None =>
      match ipt_ListChains w isV6 "nat" with
      | inr err => (w, Some (ListErr err))
      | inl chains =>
          let exists_ := bool_decide (chain ∈ chains) in
          ipt_do (if exists_ then (w, None) else ipt_NewChain w isV6 "nat" chain) (λ w,
          ipt_do (ipt_AppendUnique w isV6 "nat" chain (accept_rule ipn comment)) (λ w,
          ipt_do (ipt_AppendUnique w isV6 "nat" chain (masq_rule isV6 comment)) (λ w,
          ipt_do (ipt_AppendUnique w isV6 "nat" "POSTROUTING" (jump_rule (ip_text (Net.IP ipn)) chain comment))
            (λ w, (w, None)))))
      end
  end.

(** one call whose missing target is no error *)
Definition ipt_try (r : W * option ipt_error) (k : W → W * option masq_error) : W * option masq_error :=
  match r with
  | (w, Some err) => if isNotExist err then k w else (w, Some (IptErr err))
  | (w, None) => k w
  end.

Definition TeardownIPMasq (w : W) (ipn : Net.IPNet) (chain comment : string) : W * option masq_error :=
  let isV6 := bool_decide (To4 (Net.IP ipn) = None) in
  match ipt_New w isV6 with
  | Some err => (w, Some (NoIptables err))
  | None =>
      ipt_try (ipt_Delete w isV6 "nat" "POSTROUTING" (jump_rule (ip_text (Net.IP ipn)) chain comment)) (λ w,
      ipt_try (ipt_Delete w isV6 "nat" "POSTROUTING" (jump_rule (net_string ipn) chain comment)) (λ w,
      ipt_try (ipt_ClearChain w isV6 "nat" chain) (λ w,
      ipt_try (ipt_DeleteChain w isV6 "nat" chain) (λ w, (w, None)))))
  end.
End iptables.

(** ** What the calls do *)

(** the first occurrence goes *)
Fixpoint remove_rule (r : rule) (l : list rule) : list rule :=
  match l with [] => [] | x :: l => if bool_decide (x = r) then l else x :: remove_rule r l end.

Definition append_unique (r : rule) (l : list rule) : list rule :=
  if bool_decide (r ∈ l) then l else l ++ [r].

(** [chains w v6 table]: the chains with their rules *)
Class IPTablesLaws (W : Type) `{IPTables W} (chains : W → bool → string → gmap string (list rule)) := {
  list_chains : ∀ w v t l, ipt_ListChains w v t = inl l → ∀ c, c ∈ l ↔ is_Some (chains w v t !! c);
  new_chain : ∀ w v t c w', ipt_NewChain w v t c = (w', None) → chains w' v t = <[c := []]> (chains w v t);
  append_ok : ∀ w v t c r w', ipt_AppendUnique w v t c r = (w', None) →
    ∃ l, chains w v t !! c = Some l ∧ chains w' v t = <[c := append_unique r l]> (chains w v t);
  delete_rule_ok : ∀ w v t c r w', ipt_Delete w v t c r = (w', None) →
    ∃ l, chains w v t !! c = Some l ∧ r ∈ l ∧ chains w' v t = <[c := remove_rule r l]> (chains w v t);
  delete_rule_err : ∀ w v t c r w' e, ipt_Delete w v t c r = (w', Some e) → chains w' v t = chains w v t;
  delete_rule_missing : ∀ w v t c r w' e l, ipt_Delete w v t c r = (w', Some e) → isNotExist e = true →
    chains w v t !! c = Some l → r ∉ l;
  clear_ok : ∀ w v t c w', ipt_ClearChain w v t c = (w', None) → chains w' v t = <[c := []]> (chains w v t);
  clear_err : ∀ w v t c w' e, ipt_ClearChain w v t c = (w', Some e) → chains w' v t = chains w v t;
  clear_missing : ∀ w v t c w' e, ipt_ClearChain w v t c = (w', Some e) → isNotExist e = true →
    chains w v t !! c = None;
  delete_chain_ok : ∀ w v t c w', ipt_DeleteChain w v t c = (w', None) → chains w' v t = delete c (chains w v t);
  delete_chain_err : ∀ w v t c w' e, ipt_DeleteChain w v t c = (w', Some e) → chains w' v t = chains w v t;
  delete_chain_missing : ∀ w v t c w' e, ipt_DeleteChain w v t c = (w', Some e) → isNotExist e = true →
    chains w v t !! c = None
}.

Lemma append_unique_in r l : r ∈ l → append_unique r l = l.
Proof. intros. unfold append_unique. by rewrite bool_decide_eq_true_2. Qed.

Lemma append_unique_new r l : r ∈ append_unique r l.
Proof. unfold append_unique. case_bool_decide; [done|]. apply elem_of_app. right. apply list_elem_of_here. Qed.

Lemma append_unique_old r x l : x ∈ l → x ∈ append_unique r l.
Proof. intros. unfold append_unique. case_bool_decide; [done|]. apply elem_of_app. by left. Qed.

Section masq.
Context {W : Type} `{IPTables W} (chains : W → bool → string → gmap string (list rule))
  `{!IPTablesLaws W chains}.
Context (net_string : Net.IPNet → string) (ip_text : list Z → string).

Lemma remove_rule_snoc r l : r ∉ l → remove_rule r (l ++ [r]) = l.
Proof.
  induction l as [|x l IH]; intros Hn; simpl; [by rewrite bool_decide_eq_true_2|].
  apply not_elem_of_cons in Hn as [Hne Hn].
  rewrite bool_decide_eq_false_2 by congruence. by rewrite IH.
Qed.

(** what a successful setup leaves in the nat table *)
Definition masq_installed (ipn : Net.IPNet) (chain comment : string) (m : gmap string (list rule))
    : gmap string (list rule) :=
  let isV6 := bool_decide (To4 (Net.IP ipn) = None) in
  <["POSTROUTING" := append_unique (jump_rule (ip_text (Net.IP ipn)) chain comment)
                       (default [] (m !! "POSTROUTING"))]>
  (<[chain := append_unique (masq_rule isV6 comment)
     (append_unique (accept_rule net_string ipn comment) (default [] (m !! chain)))]> m).

Lemma SetupIPMasq_installs w ipn chain comment w' :
  chain ≠ "POSTROUTING" →
  SetupIPMasq net_string ip_text w ipn chain comment = (w', None) →
  let v := bool_decide (To4 (Net.IP ipn) = None) in
  chains w' v "nat" = masq_installed ipn chain comment (chains w v "nat") ∧
  is_Some (chains w v "nat" !! "POSTROUTING").
Proof.
  intros Hne. unfold SetupIPMasq, masq_installed. set (v := bool_decide _).
  destruct (ipt_New w v); [done|]. destruct (ipt_ListChains w v "nat") as [l|] eqn:El; [|done].
  pose proof (list_chains _ _ _ _ El chain) as Hl.
  destruct (if bool_decide (chain ∈ l) then _ else _) as [w1 [e|]] eqn:E1; [done|]. simpl.
  assert (chains w1 v "nat" = <[chain := default [] (chains w v "nat" !! chain)]> (chains w v "nat")) as H1.
  { case_bool_decide as Hc.
    - injection E1 as <-. apply Hl in Hc as [x Hx]. rewrite Hx. simpl. by rewrite insert_id.
    - apply new_chain in E1. rewrite E1. destruct (chains w v "nat" !! chain) eqn:Hx; [|done].
      destruct Hc. apply Hl. eauto. }
  destruct (ipt_AppendUnique w1 v _ _ _) as [w2 [e|]] eqn:E2; [done|]. simpl.
  destruct (append_ok _ _ _ _ _ _ E2) as (l2 & Hl2 & H2).
  destruct (ipt_AppendUnique w2 v _ _ _) as [w3 [e|]] eqn:E3; [done|]. simpl.
  destruct (append_ok _ _ _ _ _ _ E3) as (l3 & Hl3 & H3).
  destruct (ipt_AppendUnique w3 v _ _ _) as [w4 [e|]] eqn:E4; [done|]. intros [= <-].
  destruct (append_ok _ _ _ _ _ _ E4) as (l4 & Hl4 & H4).
  rewrite H4, H3, H2, H1 in *. rewrite lookup_insert_eq in Hl2, Hl3.
  rewrite !lookup_insert_ne in Hl4 by done. simplify_eq. rewrite Hl4. simpl.
  rewrite !insert_insert_eq. eauto.
Qed.
Lemma remove_rule_absent r l : r ∉ l → remove_rule r l = l.
Proof.
  induction l as [|x l IH]; intros Hn; simpl; [done|]. apply not_elem_of_cons in Hn as [Hne Hn].
  rewrite bool_decide_eq_false_2 by congruence. by rewrite IH.
Qed.

(** a deletion that the teardown passes *)
Lemma Delete_passed w v t c r w' e l :
  ipt_Delete w v t c r = (w', e) → (∀ e', e = Some e' → isNotExist e' = true) →
  chains w v t !! c = Some l → chains w' v t = <[c := remove_rule r l]> (chains w v t).
Proof.
  intros Hd He Hl. destruct e as [e|].
  - rewrite (delete_rule_err _ _ _ _ _ _ _ Hd), remove_rule_absent, insert_id; [done..|].
    by apply (delete_rule_missing _ _ _ _ _ _ _ _ Hd); [apply He|].
  - destruct (delete_rule_ok _ _ _ _ _ _ Hd) as (l' & Hl' & _ & ->). by simplify_eq.
Qed.

Lemma TeardownIPMasq_removes w ipn chain comment w' l :
  chain ≠ "POSTROUTING" →
  let v := bool_decide (To4 (Net.IP ipn) = None) in
  chains w v "nat" !! "POSTROUTING" = Some l →
  TeardownIPMasq net_string ip_text w ipn chain comment = (w', None) →
  chains w' v "nat" = delete chain
    (<["POSTROUTING" := remove_rule (jump_rule (net_string ipn) chain comment)
        (remove_rule (jump_rule (ip_text (Net.IP ipn)) chain comment) l)]> (chains w v "nat")).
Proof.
  intros Hne v Hl. unfold TeardownIPMasq, ipt_try. fold v.
  destruct (ipt_New w v); [done|].
  destruct (ipt_Delete w v _ _ _) as [w1 e1] eqn:E1.
  destruct (ipt_Delete w1 v _ _ _) as [w2 e2] eqn:E2.
  destruct (ipt_ClearChain w2 v _ _) as [w3 e3] eqn:E3.
  destruct (ipt_DeleteChain w3 v _ _) as [w4 e4] eqn:E4. intros Hrun.
  assert ((∀ e, e1 = Some e → isNotExist e = true) ∧ (∀ e, e2 = Some e → isNotExist e = true) ∧
    (∀ e, e3 = Some e → isNotExist e = true) ∧ (∀ e, e4 = Some e → isNotExist e = true) ∧ w4 = w')
    as (H1 & H2 & H3 & H4 & <-).
  { split_and!; repeat case_match; naive_solver. }
  pose proof (Delete_passed _ _ _ _ _ _ _ _ E1 H1 Hl) as C1.
  assert (chains w1 v "nat" !! "POSTROUTING" = Some (remove_rule (jump_rule (ip_text (Net.IP ipn)) chain comment) l))
    as Hl1 by (by rewrite C1, lookup_insert_eq).
  pose proof (Delete_passed _ _ _ _ _ _ _ _ E2 H2 Hl1) as C2. rewrite C1, insert_insert_eq in C2.
  assert (delete chain (chains w3 v "nat") = delete chain (chains w2 v "nat")) as C3.
  { destruct e3 as [e|]; [by rewrite (clear_err _ _ _ _ _ _ E3)|].
    by rewrite (clear_ok _ _ _ _ _ E3), delete_insert_eq. }
  rewrite <- C2, <- C3. destruct e4 as [e|].
  - rewrite (delete_chain_err _ _ _ _ _ _ E4), delete_id; [done|].
    by apply (delete_chain_missing _ _ _ _ _ _ E4), H4.
  - by apply delete_chain_ok.
Qed.
End masq.

(** C28: taking the masquerading of an address down undoes setting it up: where
    the chain did not exist and POSTROUTING had no jump to it, a setup and a
    teardown that both succeed leave the whole nat table as it was; and a second
    setup changes nothing. *)
Theorem masq_roundtrip {W} `{IPTables W} chains net_string ip_text w ipn chain comment w1 w2 :
  IPTablesLaws W chains → chain ≠ "POSTROUTING" →
  let v := bool_decide (To4 (Net.IP ipn) = None) in
  chains w v "nat" !! chain = None →
  (∀ l source, chains w v "nat" !! "POSTROUTING" = Some l → jump_rule source chain comment ∉ l) →
  SetupIPMasq net_string ip_text w ipn chain comment = (w1, None) →
  (TeardownIPMasq net_string ip_text w1 ipn chain comment = (w2, None) →
     chains w2 v "nat" = chains w v "nat") ∧
  (SetupIPMasq net_string ip_text w1 ipn chain comment = (w2, None) →
     chains w2 v "nat" = chains w1 v "nat").
Proof.
  intros Hlaws Hne v Hnone Hno Hset.
  destruct (SetupIPMasq_installs chains _ _ _ _ _ _ _ Hne Hset) as [Hc [l Hl]]. fold v in Hc, Hl.
  unfold masq_installed in Hc. rewrite Hl, Hnone in Hc. simpl in Hc. fold v in Hc.
  unfold append_unique at 1 in Hc. rewrite bool_decide_eq_false_2 in Hc by (by apply Hno).
  assert (chains w1 v "nat" !! "POSTROUTING" = Some (l ++ [jump_rule (ip_text (Net.IP ipn)) chain comment]))
    as Hp by (by rewrite Hc, lookup_insert_eq).
  split; intros Hrun.
  - pose proof (TeardownIPMasq_removes chains _ _ _ _ _ _ _ _ Hne Hp Hrun) as Ht. fold v in Ht.
    rewrite Ht.
    rewrite remove_rule_snoc, remove_rule_absent by (by apply Hno).
    rewrite Hc, insert_insert_eq, insert_insert_ne, delete_insert_eq by done.
    rewrite delete_insert_ne, delete_id by done. by rewrite insert_id.
  - destruct (SetupIPMasq_installs chains _ _ _ _ _ _ _ Hne Hrun) as [Hc2 _]. fold v in Hc2.
    rewrite Hc2. unfold masq_installed. rewrite Hp. fold v.
    replace (chains w1 v "nat" !! chain) with
      (Some (append_unique (masq_rule v comment) (append_unique (accept_rule net_string ipn comment) [])))
      by (rewrite Hc, lookup_insert_ne, lookup_insert_eq by done; done).
    simpl. rewrite append_unique_in by (apply elem_of_app; right; apply list_elem_of_here).
    rewrite (append_unique_in (accept_rule _ _ _)) by auto using append_unique_new, append_unique_old.
    rewrite (append_unique_in (masq_rule _ _)) by apply append_unique_new.
    rewrite Hc. rewrite insert_id; [rewrite insert_id; [done|]|];
      by rewrite lookup_insert_ne, lookup_insert_eq.
Qed.

(** a chain that cannot be created for another reason than the exit status of
    iptables is reported as created *)
Lemma EnsureChain_swallows {W} `{IPTables W} w v table chain l w' e :
  ipt_ListChains w v table = inl l → chain ∉ l → ipt_NewChain w v table chain = (w', Some (OtherError e)) →
  EnsureChain w (Some v) table chain = (w', None).
Proof. intros Hl Hc Hn. simpl. rewrite Hl, bool_decide_eq_false_2, Hn by done. done. Qed.

(** ** conntrack.go *)

Definition PROTOCOL_TCP : Z := 6.
Definition PROTOCOL_UDP : Z := 17.
Definition PROTOCOL_SCTP : Z := 132.

Definition AF_INET : Z := 2.
Definition AF_INET6 : Z := 10.

Definition getNetlinkFamily (isIPv6 : bool) : Z := if isIPv6 then AF_INET6 else AF_INET.

(** the conditions of a filter: destination address, destination port, protocol *)
Record ConntrackFilter := mkFilter { cf_DstIP : option (list Z); cf_DstPort : option Z; cf_Protocol : option Z }.

Section conntrack.
Context {W : Type} (ConntrackDeleteFilter : W → Z → ConntrackFilter → W * option string)
  (ParseIP : string → option (list Z)).

Definition DeleteConntrackEntriesForDstIP (w : W) (dstIP : string) (protocol : Z) : W * option string :=
  match ParseIP dstIP with
  | None => (w, Some "error deleting connection tracking state, bad IP <nil>")
  | Some ip =>
      let family := getNetlinkFamily (bool_decide (To4 ip = None)) in
      match ConntrackDeleteFilter w family (mkFilter (Some ip) None (Some protocol)) with
      | (w, Some err) =>
          (w, Some ("error deleting connection tracking state for protocol: " +:+ Strconv.Itoa protocol
                    +:+ " IP: " +:+ dstIP +:+ ", error: " +:+ err))
      | (w, None) => (w, None)
      end
  end.

Definition DeleteConntrackEntriesForDstPort (w : W) (port protocol family : Z) : W * option string :=
  match ConntrackDeleteFilter w family (mkFilter None (Some port) (Some protocol)) with
  | (w, Some err) =>
      (w, Some ("error deleting connection tracking state for protocol: " +:+ Strconv.Itoa protocol
                +:+ " Port: " +:+ Strconv.Itoa port +:+ ", error: " +:+ err))
  | (w, None) => (w, None)
  end.
End conntrack.

(** ** Tables for the examples *)

Abbreviation tables := (gmap (bool * string) (gmap string (list rule))).

Definition table_chains (w : tables) (v : bool) (t : string) : gmap string (list rule) := default ∅ (w !! (v, t)).

Definition put_chains (w : tables) (v : bool) (t : string) (m : gmap string (list rule)) : tables := <[(v, t) := m]> w.

#[export] Instance mem_tables : IPTables tables := {|
  ipt_New _ _ := None;
  ipt_ListChains w v t := inl (map_to_list (table_chains w v t)).*1;
  ipt_NewChain w v t c :=
    match table_chains w v t !! c with
    | Some _ => (w, Some (ExitError 1 false))
    | None => (put_chains w v t (<[c := []]> (table_chains w v t)), None)
    end;
  ipt_AppendUnique w v t c r :=
    match table_chains w v t !! c with
    | Some l => (put_chains w v t (<[c := append_unique r l]> (table_chains w v t)), None)
    | None => (w, Some (ExitError 1 true))
    end;
  ipt_Delete w v t c r :=
    match table_chains w v t !! c with
    | Some l =>
        if bool_decide (r ∈ l) then (put_chains w v t (<[c := remove_rule r l]> (table_chains w v t)), None)
        else (w, Some (ExitError 1 true))
    | None => (w, Some (ExitError 1 true))
    end;
  ipt_ClearChain w v t c := (put_chains w v t (<[c := []]> (table_chains w v t)), None);
  ipt_DeleteChain w v t c :=
    match table_chains w v t !! c with
    | Some [] => (put_chains w v t (delete c (table_chains w v t)), None)
    | Some _ => (w, Some (ExitError 1 false))
    | None => (w, Some (ExitError 1 true))
    end
|}.

Lemma put_chains_eq w v t m : table_chains (put_chains w v t m) v t = m.
Proof. unfold table_chains, put_chains. by rewrite lookup_insert_eq. Qed.

#[export] Instance mem_tables_laws : IPTablesLaws tables table_chains.
Proof.
  split; simpl; intros; repeat (case_match || case_bool_decide); simplify_eq/=;
    rewrite ?put_chains_eq; eauto.
  split.
  - intros ([c' l] & -> & Hin%elem_of_map_to_list)%list_elem_of_fmap. eauto.
  - intros [l Hl]. apply list_elem_of_fmap. exists (c, l). by rewrite elem_of_map_to_list.
Qed.

Definition ex_tables : tables := {[(false, "nat") := {["POSTROUTING" := []]}]}.

Definition ex_ipn : Net.IPNet := Net.mkIPNet [10; 244; 0; 5] [255; 255; 255; 0].

Definition ex_masq : tables * option masq_error :=
  SetupIPMasq IPNet_String Net.ip_string ex_tables ex_ipn "CNI-x" "pod".

Example ex_masq_rules :
  map_to_list (table_chains (fst ex_masq) false "nat") =
  [("CNI-x", [["-d"; "10.244.0.5/24"; "-j"; "ACCEPT"; "-m"; "comment"; "--comment"; "pod"];
              ["!"; "-d"; "224.0.0.0/4"; "-j"; "MASQUERADE"; "-m"; "comment"; "--comment"; "pod"]]);
   ("POSTROUTING", [["-s"; "10.244.0.5"; "-j"; "CNI-x"; "-m"; "comment"; "--comment"; "pod"]])].
Proof. vm_compute. reflexivity. Qed.

Lemma masq_roundtrip_witness :
  let w2 := fst (TeardownIPMasq IPNet_String Net.ip_string (fst ex_masq) ex_ipn "CNI-x" "pod") in
  table_chains w2 false "nat" = table_chains ex_tables false "nat".
Proof.
  intros w2.
  apply (proj1 (masq_roundtrip table_chains IPNet_String Net.ip_string ex_tables ex_ipn "CNI-x" "pod"
    (fst ex_masq) w2 mem_tables_laws ltac:(done) ltac:(reflexivity)
    ltac:(intros l source [= <-]; apply not_elem_of_nil) ltac:(vm_compute; reflexivity))).
  vm_compute. reflexivity.
Defined.
