(* ===== verification/Logr.v ===== *)
(** * internal/logr: loggers that are connected later

    The loggers of the program are made at start-up, before the log sink is known.  A
    [DelegatingLogSink] stands for the sink; a logger derived from it by a name or by
    values is another one, entered as a promise under the promise of the first.  When
    the sink is known, [Fulfill] walks the tree of promises and gives every logger the
    sink with its names and values.  deleg.go and null.go are the sinks, log.go the
    logger of the package, [SetLog] is the use of it in internal/vars.

    Delegating sinks and promises are shared and changed in place: they are indexes in
    a [Heap].  Other sinks are the class [Sink].  The methods of a delegating sink hold
    its lock, and [Fulfill] takes it for each sink it sets, so that deriving a logger
    and setting a sink are the steps that are interleaved. *)

From S2P Require Import Prelude.

(** the sinks of other packages; a tag is a key or a value *)
Class Sink (F V : Type) := {
  sink_Enabled : F → Z → bool;
  sink_WithName : F → string → F;
  sink_WithValues : F → list V → F
}.

(** [WithValues] adds the values to a copy: no value, no change *)
Class SinkLaws (F V : Type) `{Sink F V} := {
  sink_no_values : ∀ f : F, sink_WithValues f [] = f
}.

Section logr.
Context {F V : Type} `{Sink F V}.

Inductive LogSink :=
| NullLogSink
| Foreign (f : F)
| Delegating (l : nat).

Record loggerPromise := mkPromise {
  pr_logger : nat;
  pr_childPromises : list nat;
  pr_name : option string;
  pr_tags : list V
}.

(** [RuntimeInfo] is a call depth *)
Record DelegatingLogSink := mkDelegating {
  dl_logger : LogSink;
  dl_promise : option nat;
  dl_info : option Z
}.

Record Heap := mkHeap {
  hp_sinks : list DelegatingLogSink;
  hp_promises : list loggerPromise
}.

Definition set_sink (h : Heap) (l : nat) (f : DelegatingLogSink → DelegatingLogSink) : Heap :=
  mkHeap (alter f l (hp_sinks h)) (hp_promises h).

(** ** Writing *)

(** an entry of the log, with an info level or an error *)
Inductive entry :=
| EInfo (level : Z) (msg : string) (keysAndValues : list V)
| EError (err : string) (msg : string) (keysAndValues : list V).

(** the entries that arrive at sinks of other packages; sinks that delegate to one
    another run out of any fuel *)
Fixpoint Log (fuel : nat) (h : Heap) (s : LogSink) (e : entry) : run (list (F * entry)) :=
  match s with
  | NullLogSink => Fin []
  | Foreign f => Fin [(f, e)]
  | Delegating l =>
      match fuel with
      | O => OutOfFuel
      | S fuel =>
          match hp_sinks h !! l with
          | None => Crash
          | Some d => Log fuel h (dl_logger d) e
          end
      end
  end.

Definition Info fuel h s (level : Z) msg keysAndValues := Log fuel h s (EInfo level msg keysAndValues).
Definition Error fuel h s (err : string) msg keysAndValues := Log fuel h s (EError err msg keysAndValues).

Fixpoint Enabled (fuel : nat) (h : Heap) (s : LogSink) (level : Z) : run bool :=
  match s with
  | NullLogSink => Fin false
  | Foreign f => Fin (sink_Enabled f level)
  | Delegating l =>
      match fuel with
      | O => OutOfFuel
      | S fuel =>
          match hp_sinks h !! l with
          | None => Crash
          | Some d => Enabled fuel h (dl_logger d) level
          end
      end
  end.

Definition Init (h : Heap) (s : LogSink) (info : Z) : Heap :=
  match s with
  | Delegating l => set_sink h l (λ d, mkDelegating (dl_logger d) (dl_promise d) (Some info))
  | _ => h
  end.

(** ** Deriving loggers *)

(** a new promise, entered under promise [p] *)
Definition new_child (h : Heap) (p : nat) (res : loggerPromise) : Heap * nat :=
  let child := length (hp_promises h) in
  (mkHeap (hp_sinks h)
     (alter (λ pr, mkPromise (pr_logger pr) (pr_childPromises pr ++ [child]) (pr_name pr) (pr_tags pr)) p
        (hp_promises h) ++ [res]), child).

Definition promise_WithName (h : Heap) (p l : nat) (name : string) : Heap * nat :=
  new_child h p (mkPromise l [] (Some name) []).

Definition promise_WithValues (h : Heap) (p l : nat) (tags : list V) : Heap * nat :=
  new_child h p (mkPromise l [] None tags).

(** a delegating sink with the same target and a promise of its own *)
Definition derived (h : Heap) (d : DelegatingLogSink) (promise : Heap → nat → Heap * nat)
    : Heap * LogSink :=
  let res := length (hp_sinks h) in
  let '(h, q) := promise (mkHeap (hp_sinks h ++ [mkDelegating (dl_logger d) None None]) (hp_promises h)) res in
  (set_sink h res (λ d, mkDelegating (dl_logger d) (Some q) (dl_info d)), Delegating res).

Fixpoint WithName (fuel : nat) (h : Heap) (s : LogSink) (name : string) : run (Heap * LogSink) :=
  match s with
  | NullLogSink => Fin (h, NullLogSink)
  | Foreign f => Fin (h, Foreign (sink_WithName f name))
  | Delegating l =>
      match fuel with
      | O => OutOfFuel
      | S fuel =>
          match hp_sinks h !! l with
          | None => Crash
          | Some d =>
              match dl_promise d with
              | None => WithName fuel h (dl_logger d) name
              | Some p => Fin (derived h d (λ h res, promise_WithName h p res name))
              end
          end
      end
  end.

Fixpoint WithValues (fuel : nat) (h : Heap) (s : LogSink) (tags : list V) : run (Heap * LogSink) :=
  match s with
  | NullLogSink => Fin (h, NullLogSink)
  | Foreign f => Fin (h, Foreign (sink_WithValues f tags))
  | Delegating l =>
      match fuel with
      | O => OutOfFuel
      | S fuel =>
          match hp_sinks h !! l with
          | None => Crash
          | Some d =>
              match dl_promise d with
              | None => WithValues fuel h (dl_logger d) tags
              | Some p => Fin (derived h d (λ h res, promise_WithValues h p res tags))
              end
          end
      end
  end.

(** ** Fulfilling promises *)

(** the sink of one promise; what is below it follows with the new sink *)
Definition fulfill_one (fuel : nat) (h : Heap) (p : nat) (parentLogSink : LogSink)
    : run (Heap * LogSink * list nat) :=
  match hp_promises h !! p with
  | None => Crash
  | Some pr =>
      '(h, sink) ← match pr_name pr with
                   | Some name => WithName fuel h parentLogSink name
                   | None => Fin (h, parentLogSink)
                   end;
      '(h, sink) ← match pr_tags pr with
                   | [] => Fin (h, sink)
                   | tags => WithValues fuel h sink tags
                   end;
      let h := set_sink h (pr_logger pr) (λ d, mkDelegating sink None (dl_info d)) in
      Fin (h, sink, default [] (pr_childPromises <$> hp_promises h !! p))
  end.

(** the loop over the children *)
Fixpoint each_child (fulfil : Heap → nat → run Heap) (h : Heap) (cs : list nat) : run Heap :=
  match cs with
  | [] => Fin h
  | c :: cs => h ← fulfil h c; each_child fulfil h cs
  end.

Fixpoint promise_Fulfill (fuel : nat) (h : Heap) (p : nat) (parentLogSink : LogSink) : run Heap :=
  match fuel with
  | O => OutOfFuel
  | S fuel =>
      '(h, sink, childPromises) ← fulfill_one fuel h p parentLogSink;
      each_child (λ h c, promise_Fulfill fuel h c sink) h childPromises
  end.

Definition Fulfill (fuel : nat) (h : Heap) (l : nat) (actual : LogSink) : run Heap :=
  match hp_sinks h !! l with
  | None => Crash
  | Some d =>
      match dl_promise d with
      | Some p => promise_Fulfill fuel h p actual
      | None => Fin h
      end
  end.

Definition NewDelegatingLogSink (h : Heap) (initial : LogSink) : Heap * nat :=
  let l := length (hp_sinks h) in
  (mkHeap (hp_sinks h ++ [mkDelegating initial (Some (length (hp_promises h))) None])
     (hp_promises h ++ [mkPromise l [] None []]), l).

(** ** log.go *)

(** the package variables *)
Record package := mkPackage {
  pk_heap : Heap;
  pk_dlog : nat;
  pk_loggerWasSet : bool
}.

Definition init_package : package :=
  let '(h, dlog) := NewDelegatingLogSink (mkHeap [] []) NullLogSink in
  mkPackage (Init h (Delegating dlog) 1) dlog false.

(** a logger with a sink *)
Definition SetLogger (fuel : nat) (pk : package) (l : LogSink) : run package :=
  h ← Fulfill fuel (pk_heap pk) (pk_dlog pk) l; Fin (mkPackage h (pk_dlog pk) true).

(** after 30 seconds *)
Definition timeout (fuel : nat) (pk : package) : run package :=
  if pk_loggerWasSet pk then Fin pk
  else h ← Fulfill fuel (pk_heap pk) (pk_dlog pk) NullLogSink;
       Fin (mkPackage h (pk_dlog pk) (pk_loggerWasSet pk)).

(** the logger of the context, if it has one *)
Definition FromContext (fuel : nat) (pk : package) (ctx : option LogSink) (keysAndValues : list V)
    : run (Heap * LogSink) :=
  WithValues fuel (pk_heap pk) (default (Delegating (pk_dlog pk)) ctx) keysAndValues.

Definition OrNop (l : option LogSink) : LogSink := default NullLogSink l.

(** ** vars.go *)

Definition controllers : list string :=
  ["Daemon"; "NetAttachDef"; "CIDR"; "HostInterface"; "IPPool"; "MultiNicNetwork"; "Config"; "Synchronizer"].

(** [ctrl.Log.WithName("controllers").WithName(...)] *)
Fixpoint controller_logs (fuel : nat) (h : Heap) (log : LogSink) (names : list string)
    : run (Heap * list LogSink) :=
  match names with
  | [] => Fin (h, [])
  | name :: names =>
      '(h, c) ← WithName fuel h log "controllers";
      '(h, s) ← WithName fuel h c name;
      '(h, l) ← controller_logs fuel h log names;
      Fin (h, s :: l)
  end.

(** [SetupLog] and the logs of the controllers; [ctrl.SetLogger] fulfils the promises of
    the controller library's own logger and not of this one *)
Definition SetLog (fuel : nat) (h : Heap) (zapp : LogSink) : run (Heap * list LogSink) :=
  let '(h, dlog) := NewDelegatingLogSink h zapp in
  let h := Init h (Delegating dlog) 1 in
  '(h, setup) ← WithName fuel h (Delegating dlog) "setup";
  '(h, l) ← controller_logs fuel h (Delegating dlog) controllers;
  Fin (h, setup :: l).
End logr.

Arguments LogSink F : clear implicits.
Arguments Heap F V : clear implicits.
Arguments loggerPromise V : clear implicits.
Arguments DelegatingLogSink F : clear implicits.
Arguments entry V : clear implicits.
Arguments package F V : clear implicits.

(** ** Loggers and the sink they stand for *)

Section delegation.
Context {F V : Type} `{Sink F V} {laws : SinkLaws F V}.
Implicit Types (h : Heap F V) (s : LogSink F).

Inductive op := OName (name : string) | OValues (tags : list V).

Definition derive (fuel : nat) h s (o : op) : run (Heap F V * LogSink F) :=
  match o with
  | OName name => WithName fuel h s name
  | OValues tags => WithValues fuel h s tags
  end.

(** what a chain of names and values makes of a sink *)
Definition apply_op s (o : op) : LogSink F :=
  match s with
  | Foreign f => Foreign (match o with OName n => sink_WithName f n | OValues t => sink_WithValues f t end)
  | _ => s
  end.

Definition apply s (ops : list op) : LogSink F := foldl apply_op s ops.

Definition settled s : Prop := match s with Delegating _ => False | _ => True end.

Lemma apply_op_settled s o : settled s → settled (apply_op s o).
Proof. by destruct s. Qed.

Lemma apply_settled ops : ∀ s, settled s → settled (apply s ops).
Proof. induction ops as [|o ops IH]; intros s Hs; [done|]. by apply IH, apply_op_settled. Qed.

Lemma apply_snoc s ops o : apply s (ops ++ [o]) = apply_op (apply s ops) o.
Proof. unfold apply. by rewrite foldl_app. Qed.

Lemma derive_settled fuel h s o : settled s → derive fuel h s o = Fin (h, apply_op s o).
Proof. destruct s; [..|done]; intros _; by destruct o, fuel. Qed.

(** *** Steps

    The loggers the program holds, each with the names and values it was derived by; the
    sink that was given, once it was; and the promises [Fulfill] has still to visit. *)

Record sys := mkSys {
  sy_heap : Heap F V;
  sy_actual : option (LogSink F);
  sy_work : list (nat * LogSink F);
  sy_held : list (LogSink F * list op)
}.

Definition start (initial : LogSink F) : sys :=
  mkSys (fst (NewDelegatingLogSink (mkHeap [] []) initial)) None [] [(Delegating 0, [])].

Inductive step : sys → sys → Prop :=
| step_derive h a work held s ops o fuel h' s' :
    (s, ops) ∈ held → derive (S fuel) h s o = Fin (h', s') →
    step (mkSys h a work held) (mkSys h' a work ((s', ops ++ [o]) :: held))
| step_begin h a held d p actual :
    settled actual → hp_sinks h !! 0%nat = Some d → dl_promise d = Some p →
    step (mkSys h a [] held) (mkSys h (Some actual) [(p, actual)] held)
| step_fulfill h a p parent rest held fuel h' sink cs :
    fulfill_one fuel h p parent = Fin (h', sink, cs) →
    step (mkSys h a ((p, parent) :: rest) held) (mkSys h' a (((λ c, (c, sink)) <$> cs) ++ rest) held).

(** the promise of a logger derived by an operation *)
Definition promise_of (l : nat) (o : op) : loggerPromise V :=
  match o with
  | OName n => mkPromise l [] (Some n) []
  | OValues t => mkPromise l [] None t
  end.

Definition is_op (pr : loggerPromise V) (o : op) : Prop :=
  pr_name pr = pr_name (promise_of 0 o) ∧ pr_tags pr = pr_tags (promise_of 0 o).

Definition decorate (pr : loggerPromise V) s : LogSink F :=
  let s := match pr_name pr with Some n => apply_op s (OName n) | None => s end in
  match pr_tags pr with [] => s | tags => apply_op s (OValues tags) end.

Lemma decorate_op pr o s : is_op pr o → decorate pr s = apply_op s o.
Proof.
  intros [Hn Ht]. unfold decorate. rewrite Hn, Ht. destruct o as [n|[|t tags]]; simpl; [done| |done].
  destruct s; simpl; [done| |done]. by rewrite sink_no_values.
Qed.

Lemma fulfill_one_settled fuel h p parent pr :
  hp_promises h !! p = Some pr → settled parent →
  fulfill_one fuel h p parent
  = Fin (set_sink h (pr_logger pr) (λ d, mkDelegating (decorate pr parent) None (dl_info d)),
         decorate pr parent, pr_childPromises pr).
Proof.
  intros Hp Hs. unfold fulfill_one, decorate. rewrite Hp. destruct (pr_name pr) as [n|].
  - rewrite (derive_settled fuel h parent (OName n) Hs : WithName fuel h parent n = _). simpl.
    destruct (pr_tags pr) as [|t tags]; simpl; [by rewrite Hp|].
    pose proof (derive_settled fuel h _ (OValues (t :: tags)) (apply_op_settled parent (OName n) Hs)) as E.
    simpl in E. rewrite E. simpl. by rewrite Hp.
  - simpl. destruct (pr_tags pr) as [|t tags]; simpl; [by rewrite Hp|].
    pose proof (derive_settled fuel h _ (OValues (t :: tags)) Hs) as E. simpl in E. rewrite E. simpl. by rewrite Hp.
Qed.

(** *** The invariant

    [paths] are the names and values of each delegating sink.  Sink and promise of a
    logger have the same index. *)

Context (initial : LogSink F).

Definition pending (i : nat) (d : DelegatingLogSink F) : Prop :=
  dl_promise d = Some i ∧ dl_logger d = initial.

Definition done_with (a : option (LogSink F)) (ops : list op) (d : DelegatingLogSink F) : Prop :=
  dl_promise d = None ∧ ∃ s, a = Some s ∧ dl_logger d = apply s ops.

Record inv (st : sys) (paths : list (list op)) : Prop := {
  inv_sinks : length (hp_sinks (sy_heap st)) = length paths;
  inv_promises : length (hp_promises (sy_heap st)) = length paths;
  inv_actual : ∀ a, sy_actual st = Some a → settled a;
  inv_sink : ∀ i d ops, hp_sinks (sy_heap st) !! i = Some d → paths !! i = Some ops →
    pending i d ∨ done_with (sy_actual st) ops d;
  inv_owner : ∀ i pr, hp_promises (sy_heap st) !! i = Some pr → pr_logger pr = i;
  inv_root : paths !! 0%nat = Some [] ∧
    ∃ pr, hp_promises (sy_heap st) !! 0%nat = Some pr ∧ pr_name pr = None ∧ pr_tags pr = [];
  inv_child : ∀ i pr c, hp_promises (sy_heap st) !! i = Some pr → c ∈ pr_childPromises pr →
    (i < c)%nat ∧ ∃ prc ops o, hp_promises (sy_heap st) !! c = Some prc ∧ is_op prc o ∧
      paths !! i = Some ops ∧ paths !! c = Some (ops ++ [o]);
  inv_parent : ∀ c, (0 < c < length paths)%nat →
    ∃ i pr, hp_promises (sy_heap st) !! i = Some pr ∧ c ∈ pr_childPromises pr;
  inv_work : ∀ c s, (c, s) ∈ sy_work st →
    settled s ∧ ∃ a pr ops, sy_actual st = Some a ∧ hp_promises (sy_heap st) !! c = Some pr ∧
      paths !! c = Some ops ∧ decorate pr s = apply a ops;
  inv_front : ∀ i pr c d dc, hp_promises (sy_heap st) !! i = Some pr → c ∈ pr_childPromises pr →
    hp_sinks (sy_heap st) !! i = Some d → dl_promise d = None →
    hp_sinks (sy_heap st) !! c = Some dc → dl_promise dc = None ∨ c ∈ (sy_work st).*1;
  inv_begun : ∀ d, hp_sinks (sy_heap st) !! 0%nat = Some d →
    dl_promise d = None ∨ 0%nat ∈ (sy_work st).*1 ∨ sy_actual st = None;
  inv_held : ∀ s ops, (s, ops) ∈ sy_held st →
    match s with
    | Delegating l => paths !! l = Some ops
    | _ => ∃ a, sy_actual st = Some a ∧ s = apply a ops
    end
}.

Lemma inv_start : inv (start initial) [[]].
Proof.
  split; simpl; try done.
  - intros i d ops [<- <-]%list_lookup_singleton_Some [_ <-]%list_lookup_singleton_Some. by left.
  - by intros i pr [<- <-]%list_lookup_singleton_Some.
  - split; [done|]. by eexists.
  - intros i pr c [<- <-]%list_lookup_singleton_Some. by intros ?%elem_of_nil.
  - intros c ?. lia.
  - by intros c s ?%elem_of_nil.
  - intros i pr c d dc [<- <-]%list_lookup_singleton_Some. by intros ?%elem_of_nil.
  - auto.
  - by intros s ops [[= -> ->]|?%elem_of_nil]%elem_of_cons.
Qed.

(** a sink is there for every path *)
Lemma inv_sink_at st paths i ops :
  inv st paths → paths !! i = Some ops →
  ∃ d, hp_sinks (sy_heap st) !! i = Some d ∧ (pending i d ∨ done_with (sy_actual st) ops d).
Proof.
  intros I Hi. destruct (lookup_lt_is_Some_2 (hp_sinks (sy_heap st)) i) as [d Hd].
  { rewrite (inv_sinks _ _ I). by eapply lookup_lt_Some. }
  exists d. split; [done|]. by eapply (inv_sink _ _ I).
Qed.

(** *** Each step keeps it *)

Lemma inv_begin h a held paths d p actual :
  inv (mkSys h a [] held) paths → settled actual → hp_sinks h !! 0%nat = Some d → dl_promise d = Some p →
  inv (mkSys h (Some actual) [(p, actual)] held) paths.
Proof.
  intros I Hs Hd Hp. destruct (inv_root _ _ I) as (H0 & pr & Hpr & Hname & Htags).
  assert (p = 0%nat ∧ a = None) as [-> ->].
  { destruct (inv_sink _ _ I _ _ _ Hd H0) as [[E _]|[E _]]; simpl in E; [|congruence].
    destruct (inv_begun _ _ I _ Hd) as [?|[?%elem_of_nil|?]]; simpl in *; [congruence|done|split; congruence]. }
  destruct I; simpl in *. split; simpl; try done.
  - by intros a [= <-].
  - intros i di ops Hi Ho. destruct (inv_sink0 _ _ _ Hi Ho) as [?|(? & ? & ? & _)]; [by left|done].
  - intros c s [[= -> ->]|?%elem_of_nil]%elem_of_cons; [|done]. split; [done|].
    exists actual, pr, []. split_and!; try done. unfold decorate. by rewrite Hname, Htags.
  - intros i pri c di dc Hi Hc Hdi Hn Hdc. destruct (inv_front0 _ _ _ _ _ Hi Hc Hdi Hn Hdc) as [?|?%elem_of_nil];
      [by left|done].
  - intros d' _. right. left. by left.
  - intros s ops Hin. specialize (inv_held0 _ _ Hin). destruct s; [..|done]; by destruct inv_held0 as (? & ? & _).
Qed.

Lemma inv_fulfill h a p parent rest held paths h' sink cs fuel :
  inv (mkSys h a ((p, parent) :: rest) held) paths → fulfill_one fuel h p parent = Fin (h', sink, cs) →
  inv (mkSys h' a (((λ c, (c, sink)) <$> cs) ++ rest) held) paths.
Proof.
  intros I Hf. destruct (inv_work _ _ I p parent) as (Hs & a' & pr & ops & Ha & Hpr & Hops & Hdec); [by left|].
  simpl in Ha, Hpr. subst a. rewrite (fulfill_one_settled _ _ _ _ _ Hpr Hs), Hdec in Hf.
  injection Hf as <- <- <-. rewrite (inv_owner _ _ I _ _ Hpr).
  pose proof (inv_actual _ _ I _ eq_refl) as Hsa.
  assert (∀ i d, alter (λ d, mkDelegating (apply a' ops) None (dl_info d)) p (hp_sinks h) !! i = Some d →
    (i = p ∧ dl_promise d = None ∧ dl_logger d = apply a' ops) ∨ (i ≠ p ∧ hp_sinks h !! i = Some d)) as Hlook.
  { intros i d. rewrite list_lookup_alter. case_decide as E; [subst|by right].
    intros (x & _ & ->)%fmap_Some. by left. }
  destruct I; simpl in *. split; simpl; try done.
  - by rewrite length_alter.
  - intros i d ops' [(-> & ? & Hl)|[_ Hi]]%Hlook Ho; [right|by eapply inv_sink0].
    split; [done|]. exists a'. split; [done|]. by simplify_eq.
  - intros c s [(c' & [= -> ->] & Hc)%list_elem_of_fmap|Hin]%elem_of_app; [|apply inv_work0; by right].
    split; [by apply apply_settled|]. destruct (inv_child0 _ _ _ Hpr Hc) as (_ & prc & ops' & o & ? & Hop & ? & ?).
    exists a', prc, (ops ++ [o]). simplify_eq. split_and!; try done.
    by rewrite (decorate_op _ _ _ Hop), apply_snoc.
  - intros i pri c d dc Hi Hc Hd Hn [(-> & ? & _)|[Hne Hdc]]%Hlook; [by left|].
    rewrite fmap_app, elem_of_app. apply Hlook in Hd as [(-> & _)|[_ Hd]].
    + simplify_eq. right. left. rewrite <- list_fmap_compose. by rewrite list_elem_of_fmap; eauto.
    + destruct (inv_front0 _ _ _ _ _ Hi Hc Hd Hn Hdc) as [?|[->|?]%elem_of_cons]; [by left|done|]. right. by right.
  - intros d [(-> & ? & _)|[Hne Hd]]%Hlook; [by left|].
    destruct (inv_begun0 _ Hd) as [?|[[E|?]%elem_of_cons|?]]; [by left|by rewrite E in Hne| |done].
    right. left. rewrite fmap_app, elem_of_app. by right.
Qed.

(** a new logger below a pending one *)
Definition grown h (l n : nat) (o : op) : Heap F V :=
  mkHeap (hp_sinks h ++ [mkDelegating initial (Some n) None])
    (alter (λ pr, mkPromise (pr_logger pr) (pr_childPromises pr ++ [n]) (pr_name pr) (pr_tags pr)) l
       (hp_promises h) ++ [promise_of n o]).

Lemma derived_grown h d l n o :
  length (hp_sinks h) = n → length (hp_promises h) = n → dl_logger d = initial →
  derived h d (λ h res, new_child h l (promise_of res o)) = (grown h l n o, Delegating n).
Proof.
  intros Hs Hp Hd. unfold derived, new_child, set_sink, grown. simpl. rewrite Hs, Hp, Hd.
  repeat f_equal. rewrite alter_app_r_alt by lia. by rewrite Hs, Nat.sub_diag.
Qed.

(** deriving from a logger that is held: directly, or by a promise *)
Lemma derive_held st paths s ops o fuel :
  inv st paths → (s, ops) ∈ sy_held st →
  (∃ a, sy_actual st = Some a ∧
     derive (S fuel) (sy_heap st) s o = Fin (sy_heap st, apply a (ops ++ [o]))) ∨
  (∃ l d, s = Delegating l ∧ hp_sinks (sy_heap st) !! l = Some d ∧ pending l d ∧
     derive (S fuel) (sy_heap st) s o
     = Fin (grown (sy_heap st) l (length paths) o, Delegating (length paths))).
Proof.
  intros I Hin. pose proof (inv_held _ _ I _ _ Hin) as Hh. destruct s as [|f|l].
  1-2: destruct Hh as (a & Ha & E); left; exists a; split; [done|];
    by rewrite derive_settled, apply_snoc, <- E.
  destruct (inv_sink_at _ _ _ _ I Hh) as (d & Hd & [[Hp Hl]|(Hp & a & Ha & Hl)]).
  - right. exists l, d. split_and!; try done. rewrite <- (derived_grown _ d) by (try done; apply I).
    by destruct o; simpl; rewrite Hd, Hp.
  - left. exists a. split; [done|]. rewrite apply_snoc, <- Hl.
    rewrite <- (derive_settled fuel) by (rewrite Hl; eapply apply_settled, inv_actual; done).
    by destruct o; simpl; rewrite Hd, Hp.
Qed.

(** *** A logger is added *)

Lemma grown_sinks h l n o i d :
  length (hp_sinks h) = n → hp_sinks (grown h l n o) !! i = Some d →
  hp_sinks h !! i = Some d ∨ (i = n ∧ d = mkDelegating initial (Some n) None).
Proof.
  intros Hn [Hi|[Hge [E <-]%list_lookup_singleton_Some]]%lookup_app_Some; [by left|right].
  split; [lia|done].
Qed.

Definition same_promise (pr pr' : loggerPromise V) : Prop :=
  pr_logger pr' = pr_logger pr ∧ pr_name pr' = pr_name pr ∧ pr_tags pr' = pr_tags pr.

Lemma grown_promises h l n o i pr' :
  length (hp_promises h) = n → hp_promises (grown h l n o) !! i = Some pr' →
  (∃ pr, hp_promises h !! i = Some pr ∧ same_promise pr pr' ∧
     (pr_childPromises pr' = pr_childPromises pr ∨
      (i = l ∧ pr_childPromises pr' = pr_childPromises pr ++ [n]))) ∨
  (i = n ∧ pr' = promise_of n o).
Proof.
  intros Hn [Hi|[Hge [E <-]%list_lookup_singleton_Some]]%lookup_app_Some.
  - left. revert Hi. rewrite list_lookup_alter. case_decide as E.
    + intros (pr & Hpr & ->)%fmap_Some. exists pr. subst. split_and!; try done. by right.
    + intros Hi. exists pr'. split_and!; try done. by left.
  - rewrite length_alter in Hge, E. right. split; [lia|done].
Qed.

Lemma grown_promise h l n o i pr :
  hp_promises h !! i = Some pr →
  ∃ pr', hp_promises (grown h l n o) !! i = Some pr' ∧ same_promise pr pr' ∧
    (∀ c, c ∈ pr_childPromises pr ∨ (i = l ∧ c = n) → c ∈ pr_childPromises pr').
Proof.
  intros Hi. unfold grown. simpl.
  rewrite lookup_app_l by (rewrite length_alter; by eapply lookup_lt_Some). rewrite list_lookup_alter.
  case_decide as E; subst; rewrite Hi.
  - eexists. split; [done|]. split; [done|]. intros c Hc. simpl. rewrite elem_of_app, list_elem_of_singleton.
    destruct Hc as [?|[_ ->]]; auto.
  - exists pr. split; [done|]. split; [done|]. intros c [?|[-> _]]; done.
Qed.

(** the children in the grown tree *)
Lemma grown_child st paths l ops o i pr c :
  inv st paths → paths !! l = Some ops →
  hp_promises (grown (sy_heap st) l (length paths) o) !! i = Some pr → c ∈ pr_childPromises pr →
  (i < c)%nat ∧ ∃ prc ops' o', hp_promises (grown (sy_heap st) l (length paths) o) !! c = Some prc ∧
    is_op prc o' ∧ (paths ++ [ops ++ [o]]) !! i = Some ops' ∧
    (paths ++ [ops ++ [o]]) !! c = Some (ops' ++ [o']).
Proof.
  intros I Hl Hi Hc. pose proof (inv_promises _ _ I) as Hnp.
  assert (∀ j x, paths !! j = Some x → (paths ++ [ops ++ [o]]) !! j = Some x) as Hold
    by (intros; by apply lookup_app_l_Some).
  apply grown_promises in Hi as [(pr0 & Hi & _ & Hch)|[_ ->]]; [|by destruct o; apply elem_of_nil in Hc|done].
  assert (c ∈ pr_childPromises pr0 ∨ (i = l ∧ c = length paths)) as [Hc'|[-> ->]].
  { destruct Hch as [E|[-> E]]; rewrite E in Hc; [by left|].
    apply elem_of_app in Hc as [?|?%list_elem_of_singleton]; auto. }
  - destruct (inv_child _ _ I _ _ _ Hi Hc') as (? & prc & ops' & o' & Hprc & Hop & ? & ?). split; [done|].
    destruct (grown_promise (sy_heap st) l (length paths) o _ _ Hprc) as (prc' & ? & (_ & Hn' & Ht') & _).
    exists prc', ops', o'. split_and!; auto. destruct Hop. split; congruence.
  - split; [by eapply lookup_lt_Some|]. exists (promise_of (length paths) o), ops, o.
    split_and!; [|by destruct o|by apply Hold|by apply list_lookup_middle].
    apply list_lookup_middle. by rewrite length_alter.
Qed.

Lemma inv_grow h a work held paths s ops l o d :
  inv (mkSys h a work held) paths → (s, ops) ∈ held → s = Delegating l →
  hp_sinks h !! l = Some d → pending l d →
  inv (mkSys (grown h l (length paths) o) a work ((Delegating (length paths), ops ++ [o]) :: held))
    (paths ++ [ops ++ [o]]).
Proof.
  intros I Hin -> Hd Hpend. set (n := length paths). pose proof (inv_held _ _ I _ _ Hin) as Hl.
  pose proof (inv_sinks _ _ I) as Hns. pose proof (inv_promises _ _ I) as Hnp. simpl in Hl, Hns, Hnp.
  assert (l < n)%nat as Hln by (by eapply lookup_lt_Some).
  assert (∀ i x, paths !! i = Some x → (paths ++ [ops ++ [o]]) !! i = Some x) as Hold
    by (intros; by apply lookup_app_l_Some).
  assert ((paths ++ [ops ++ [o]]) !! n = Some (ops ++ [o])) as Hnew by (apply list_lookup_middle; done).
  assert (∀ i x y, paths !! i = Some x → (paths ++ [ops ++ [o]]) !! i = Some y → x = y) as Hinj
    by (intros i x y Hx Hy; rewrite (Hold _ _ Hx) in Hy; congruence).
  pose proof (λ i d, grown_sinks h l n o i d Hns) as Gs. pose proof (λ i pr, grown_promises h l n o i pr Hnp) as Gp.
  pose proof I as I0. destruct I; simpl in *. split; simpl; try done.
  - rewrite !length_app. simpl. lia.
  - rewrite !length_app, length_alter. simpl. lia.
  - intros i di ops' [Hi|[-> ->]]%Gs Ho; [|by left].
    assert (i < length paths)%nat as Hlt by (rewrite <- Hns; by eapply lookup_lt_Some).
    rewrite lookup_app_l in Ho by done. by eapply inv_sink0.
  - intros i pr [(pr0 & Hi & (-> & _) & _)|[-> ->]]%Gp; [by eapply inv_owner0|by destruct o].
  - destruct inv_root0 as (H0 & pr & Hpr & Hnt). split; [by apply Hold|].
    destruct (grown_promise h l n o _ _ Hpr) as (pr' & Hpr' & (_ & Hn' & Ht') & _).
    exists pr'. by rewrite Hn', Ht'.
  - intros i pr c Hi Hc. by eapply (grown_child (mkSys h a work held)).
  - intros c Hc. rewrite length_app in Hc. simpl in Hc. destruct (decide (c = n)) as [->|Hne].
    + destruct (lookup_lt_is_Some_2 (hp_promises h) l) as [pr Hpr]; [lia|].
      destruct (grown_promise h l n o _ _ Hpr) as (pr' & ? & _ & Hch). exists l, pr'. split; [done|]. apply Hch. by right.
    + destruct (inv_parent0 c) as (i & pr & Hpr & Hc'); [lia|].
      destruct (grown_promise h l n o _ _ Hpr) as (pr' & ? & _ & Hch). exists i, pr'. split; [done|]. apply Hch. by left.
  - intros c s' Hw. destruct (inv_work0 _ _ Hw) as (? & a' & pr & ops' & ? & Hpr & ? & Hdec). split; [done|].
    destruct (grown_promise h l n o _ _ Hpr) as (pr' & ? & (_ & Hn' & Ht') & _). exists a', pr', ops'.
    split_and!; auto. unfold decorate in *. by rewrite Hn', Ht'.
  - intros i pr c di dc [(pr0 & Hi & _ & Hch)|[-> ->]]%Gp Hc Hdi Hn Hdc; [|by destruct o; apply elem_of_nil in Hc].
    apply Gs in Hdi as [Hdi|[-> ->]]; [|done].
    destruct Hch as [Ech|[-> Ech]]; [|destruct Hpend; simplify_eq].
    rewrite Ech in Hc. apply Gs in Hdc as [Hdc|[-> ->]]; [by eapply inv_front0|].
    destruct (inv_child0 _ _ _ Hi Hc) as (_ & prc & _ & _ & Hprc & _). apply lookup_lt_Some in Hprc. lia.
  - intros d0 [H0|[E _]]%Gs; [by apply inv_begun0|lia].
  - intros s' ops' [[= -> ->]|Hin']%elem_of_cons; [done|]. specialize (inv_held0 _ _ Hin').
    destruct s'; auto.
Qed.

Lemma inv_step st st' paths : inv st paths → step st st' → ∃ paths', inv st' paths'.
Proof.
  intros I Hst. destruct Hst as [h a work held s ops o fuel h' s' Hin Hder| |].
  - destruct (derive_held _ _ _ _ o fuel I Hin) as [(x & Ha & E)|(l & d & -> & Hd & Hp & E)];
      simpl in *; rewrite E in Hder; injection Hder as <- <-.
    + exists paths. destruct I; split; try done. simpl in *.
      intros s' ops' [[= -> ->]|Hin']%elem_of_cons; [|by apply inv_held0].
      pose proof (apply_settled (ops ++ [o]) x (inv_actual0 _ Ha)) as Hs. destruct (apply x (ops ++ [o])) eqn:E'; eauto; done.
    + eexists. by eapply inv_grow.
  - exists paths. by eapply inv_begin.
  - exists paths. by eapply inv_fulfill.
Qed.

Lemma inv_reachable st : rtc step (start initial) st → ∃ paths, inv st paths.
Proof.
  assert (∀ st0 st, rtc step st0 st → (∃ paths, inv st0 paths) → ∃ paths, inv st paths) as Hgen.
  { intros st0 st1 Hr. induction Hr as [|x y z Hxy _ IH]; [done|]. intros [paths I].
    apply IH. by eapply inv_step. }
  intros Hr. eapply Hgen; [done|]. exists [[]]. apply inv_start.
Qed.

(** *** What the loggers write *)

(** without work left, a sink that was given has reached every logger *)
Lemma all_done st paths a :
  inv st paths → sy_work st = [] → sy_actual st = Some a →
  ∀ i ops, paths !! i = Some ops →
    ∃ d, hp_sinks (sy_heap st) !! i = Some d ∧ dl_promise d = None ∧ dl_logger d = apply a ops.
Proof.
  intros I Hw Ha i. induction (lt_wf i) as [i _ IH]. intros ops Hi.
  destruct (inv_sink_at _ _ _ _ I Hi) as (d & Hd & [Hp|(Hp & a' & Ha' & Hl)]);
    [|exists d; simplify_eq; split_and!; congruence].
  exfalso. destruct Hp as [Hp _]. destruct i as [|i].
  - destruct (inv_begun _ _ I _ Hd) as [?|[Hin|?]]; [congruence| |congruence].
    rewrite Hw in Hin. by apply elem_of_nil in Hin.
  - destruct (inv_parent _ _ I (S i)) as (j & pr & Hpr & Hc); [split; [lia|by eapply lookup_lt_Some]|].
    destruct (inv_child _ _ I _ _ _ Hpr Hc) as (Hlt & _ & ops' & _ & _ & _ & Hj & _).
    destruct (IH _ Hlt _ Hj) as (dj & Hdj & Hpj & _).
    destruct (inv_front _ _ I _ _ _ _ _ Hpr Hc Hdj Hpj Hd) as [?|Hin]; [congruence|].
    rewrite Hw in Hin. by apply elem_of_nil in Hin.
Qed.

(** the entry a sink that delegates to no other receives *)
Definition received s (e : entry V) : list (F * entry V) :=
  match s with Foreign f => [(f, e)] | _ => [] end.

Lemma Log_settled fuel h s e : settled s → Log fuel h s e = Fin (received s e).
Proof. by destruct s, fuel. Qed.

Lemma Log_held st paths s ops e fuel :
  inv st paths → settled initial → sy_work st = [] → (s, ops) ∈ sy_held st →
  Log (S fuel) (sy_heap st) s e
  = Fin (received (match sy_actual st with Some a => apply a ops | None => initial end) e).
Proof.
  intros I Hi Hw Hin. pose proof (inv_held _ _ I _ _ Hin) as Hh. destruct s as [|f|l].
  1-2: destruct Hh as (a & -> & E); by rewrite Log_settled, <- E.
  destruct (sy_actual st) as [a|] eqn:Ha; simpl.
  - destruct (all_done _ _ _ I Hw Ha _ _ Hh) as (d & -> & _ & ->).
    apply Log_settled, apply_settled. by eapply inv_actual.
  - destruct (inv_sink_at _ _ _ _ I Hh) as (d & -> & [[_ ->]|(_ & ? & Ha' & _)]); [by apply Log_settled|congruence].
Qed.

(** *** The walk over the promises *)

Lemma promise_Fulfill_runs fuel : ∀ h a p s rest held paths,
  inv (mkSys h a ((p, s) :: rest) held) paths → (length paths < fuel + p)%nat →
  ∃ h', promise_Fulfill fuel h p s = Fin h' ∧ inv (mkSys h' a rest held) paths ∧
    rtc step (mkSys h a ((p, s) :: rest) held) (mkSys h' a rest held).
Proof.
  induction fuel as [|fuel IH]; intros h a p s rest held paths I Hf.
  { destruct (inv_work _ _ I p s) as (_ & _ & _ & ops & _ & _ & Hp & _); [by left|].
    apply lookup_lt_Some in Hp. lia. }
  destruct (inv_work _ _ I p s) as (Hs & a' & pr & ops & Ha & Hpr & Hops & Hdec); [by left|].
  simpl in Ha, Hpr. pose proof (fulfill_one_settled fuel _ _ _ _ Hpr Hs) as E. simpl. rewrite E. simpl.
  pose proof (inv_fulfill _ _ _ _ _ _ _ _ _ _ _ I E) as I1.
  assert (∀ c, c ∈ pr_childPromises pr → (p < c)%nat) as Hcs
    by (intros c Hc; apply (inv_child _ _ I _ _ _ Hpr Hc)).
  assert (∀ cs h1, (∀ c, c ∈ cs → (p < c)%nat) →
    inv (mkSys h1 a (((λ c, (c, decorate pr s)) <$> cs) ++ rest) held) paths →
    ∃ h', each_child (λ h c, promise_Fulfill fuel h c (decorate pr s)) h1 cs = Fin h' ∧
      inv (mkSys h' a rest held) paths ∧
      rtc step (mkSys h1 a (((λ c, (c, decorate pr s)) <$> cs) ++ rest) held) (mkSys h' a rest held))
    as Hloop.
  { induction cs as [|c cs IHcs]; intros h1 Hlt I2; simpl; [exists h1; by split_and!|].
    assert (p < c)%nat by (apply Hlt; by left).
    destruct (IH _ _ _ _ _ _ _ I2) as (h2 & -> & I3 & Hr1); [lia|]. simpl.
    destruct (IHcs h2) as (h3 & -> & I4 & Hr2); [intros c' ?; apply Hlt; by right|done|].
    exists h3. split_and!; [done..|]. by etrans. }
  destruct (Hloop _ _ Hcs I1) as (h' & -> & I2 & Hr). exists h'. split_and!; [done..|].
  eapply rtc_l; [by eapply step_fulfill|done].
Qed.

(** C27: a logger made before the sink is known writes where one made after it would.
    From a new delegating sink, loggers are derived by names and values from any logger
    that is held, before, between and after the steps of [Fulfill].  Whenever no promise
    waits to be visited, an entry written to a logger arrives at the sink that was given,
    with exactly the logger's names and values in their order, or at the initial sink
    when none was given; and while none was given, [Fulfill] ends, in such a state with
    the sink it gives. *)
Theorem loggers_reach_sink st :
  settled initial → rtc step (start initial) st → sy_work st = [] →
  (∀ s ops e fuel, (s, ops) ∈ sy_held st →
     Log (S fuel) (sy_heap st) s e
     = Fin (received (match sy_actual st with Some a => apply a ops | None => initial end) e)) ∧
  (sy_actual st = None → ∀ actual, settled actual →
     ∃ h', Fulfill (S (length (hp_promises (sy_heap st)))) (sy_heap st) 0 actual = Fin h' ∧
       rtc step st (mkSys h' (Some actual) [] (sy_held st))).
Proof.
  intros Hi Hr Hw. destruct (inv_reachable _ Hr) as [paths I]. split; [by intros; eapply Log_held|].
  intros Ha actual Hs. destruct st as [h a work held]. simpl in *. subst.
  destruct (inv_root _ _ I) as [H0 _].
  destruct (inv_sink_at _ _ _ _ I H0) as (d & Hd & [[Hp _]|(_ & ? & ? & _)]); [|done].
  simpl in Hd. unfold Fulfill. rewrite Hd, Hp.
  destruct (promise_Fulfill_runs (S (length (hp_promises h))) h (Some actual) 0 actual [] held paths)
    as (h' & -> & _ & Hrun); [by eapply inv_begin|rewrite (inv_promises _ _ I : length (hp_promises h) = _); lia|].
  exists h'. split; [done|]. eapply rtc_l; [by eapply step_begin|done].
Qed.

(** ** A sink that is set too late *)

(** after the time-out the logger of the package is silent for good *)
Lemma SetLogger_late fuel pk d s :
  hp_sinks (pk_heap pk) !! pk_dlog pk = Some d → dl_promise d = None →
  SetLogger fuel pk s = Fin (mkPackage (pk_heap pk) (pk_dlog pk) true).
Proof. intros Hd Hp. unfold SetLogger, Fulfill. by rewrite Hd, Hp. Qed.

(** ** The loggers of the operator

    [SetLog] gives the zap sink as the initial one, and nothing fulfils the promises. *)

Lemma SetLog_names_lost (f : F) e :
  match SetLog 1 (mkHeap [] []) (Foreign f) with
  | Fin (h, ls) => length ls = 9%nat ∧ Forall (λ s, Log 1 h s e = Fin [(f, e)]) ls
  | _ => False
  end.
Proof. vm_compute. split; [reflexivity|]. repeat constructor. Qed.

(** a reconciliation: [_ = Log.WithValues(...)] *)
Fixpoint reconciliations (n : nat) h s (tags : list V) : run (Heap F V) :=
  match n with
  | O => Fin h
  | S n => '(h, _) ← WithValues 1 h s tags; reconciliations n h s tags
  end.

(** each reconciliation leaves a promise behind *)
Lemma reconciliations_leak n : ∀ h l d p tags,
  hp_sinks h !! l = Some d → dl_promise d = Some p →
  ∃ h', reconciliations n h (Delegating l) tags = Fin h' ∧
    length (hp_promises h') = (length (hp_promises h) + n)%nat.
Proof.
  induction n as [|n IH]; intros h l d p tags Hd Hp; simpl; [exists h; split; [done|lia]|].
  rewrite Hd. simpl. rewrite Hp. simpl.
  edestruct (IH (set_sink (fst (promise_WithValues (mkHeap (hp_sinks h ++ [mkDelegating (dl_logger d) None None])
      (hp_promises h)) p (length (hp_sinks h)) tags)) (length (hp_sinks h))
      (λ x, mkDelegating (dl_logger x) (Some (length (hp_promises h))) (dl_info x))) l d p tags)
    as (h' & Hr & Hlen); [|done|].
  - simpl. rewrite list_lookup_alter_ne by (apply lookup_lt_Some in Hd; lia). by apply lookup_app_l_Some.
  - exists h'. split; [exact Hr|]. rewrite Hlen. simpl. rewrite length_app, length_alter. simpl. lia.
Qed.
End delegation.

(** ** Example *)

(** a sink that records the names; the law of [WithValues] *)
#[local] Instance name_sink : Sink (list string) string :=
  {| sink_Enabled _ _ := true; sink_WithName f n := f ++ [n]; sink_WithValues f t := f ++ t |}.

#[local] Instance name_sink_laws : SinkLaws (list string) string.
Proof. split. intros f. apply app_nil_r. Qed.

Definition ex_heap : Heap (list string) string :=
  match WithName 1 (fst (NewDelegatingLogSink (mkHeap [] []) NullLogSink)) (Delegating 0) "controllers" with
  | Fin (h, s) => match WithValues 1 h s ["node"; "n1"] with Fin (h, _) => h | _ => h end
  | _ => mkHeap [] []
  end.

Definition ex_held : list (LogSink (list string) * list (op (V := string))) :=
  [(Delegating 2, [OName "controllers"; OValues ["node"; "n1"]]); (Delegating 1, [OName "controllers"]);
   (Delegating 0, [])].

Lemma ex_reachable : rtc step (start NullLogSink) (mkSys ex_heap None [] ex_held).
Proof.
  eapply rtc_l; [eapply (step_derive _ _ _ _ (Delegating 0) [] (OName "controllers") 0); [left|reflexivity]|].
  eapply rtc_l; [|apply rtc_refl].
  eapply (step_derive _ _ _ _ (Delegating 1) [OName "controllers"] (OValues ["node"; "n1"]) 0); [left|reflexivity].
Qed.

Lemma loggers_reach_sink_witness :
  (∀ s ops e fuel, (s, ops) ∈ ex_held → Log (S fuel) ex_heap s e = Fin (received NullLogSink e)) ∧
  ∃ h', Fulfill (S (length (hp_promises ex_heap))) ex_heap 0 (Foreign ["zap"]) = Fin h' ∧
    rtc step (mkSys ex_heap None [] ex_held) (mkSys h' (Some (Foreign ["zap"])) [] ex_held).
Proof.
  destruct (loggers_reach_sink NullLogSink (mkSys ex_heap None [] ex_held) I ex_reachable eq_refl) as [Hlog Hful].
  split; [exact Hlog|]. exact (Hful eq_refl (Foreign ["zap"]) I).
Defined.

Example ex_fulfilled :
  match Fulfill 4 ex_heap 0 (Foreign ["zap"]) with
  | Fin h => Info 1 h (Delegating 2) 0 "started" []
  | _ => Crash
  end = Fin [(["zap"; "controllers"; "node"; "n1"], EInfo 0 "started" [])].
Proof. reflexivity. Qed.
