(* ===== verification/HnsPolicy.v ===== *)
(** * cni/pkg/hns/netconf_windows.go: endpoint policies

    The configuration of the Windows plugins and the policies added to it.  A policy is
    kept as the JSON text of its value; the package jsonparser, which looks into such
    texts, is the class [JsonParser] with its laws, and the text of an IP address and
    the support of direct server return are parameters. *)

From S2P Require Import Prelude GoLib GoText Json JsonSpec JsonText CniIp.
Import Json.

(** [types.DNS] *)
Record DNS := mkDNS {
  dns_Nameservers : list string;
  dns_Domain : string;
  dns_Search : list string;
  dns_Options : list string
}.

Record RuntimeDNS := mkRuntimeDNS { rd_Nameservers : list string; rd_Search : list string }.

Record PortMapEntry := mkPortMap {
  pm_HostPort : Z;
  pm_ContainerPort : Z;
  pm_Protocol : string;
  pm_HostIP : string
}.

Record RuntimeConfig := mkRuntime { rc_DNS : RuntimeDNS; rc_PortMaps : list PortMapEntry }.

Record Policy := mkPolicy { po_Name : string; po_Value : string }.

(** [NetConf]: of the embedded struct the DNS settings *)
Record NetConf := mkHnsConf {
  hn_DNS : DNS;
  hn_ApiVersion : Z;
  hn_Policies : list Policy;
  hn_RuntimeConfig : RuntimeConfig;
  hn_LoopbackDSR : bool
}.

Definition set_Policies (n : NetConf) (l : list Policy) : NetConf :=
  mkHnsConf (hn_DNS n) (hn_ApiVersion n) l (hn_RuntimeConfig n) (hn_LoopbackDSR n).

(** [strings.EqualFold] on ASCII *)
Definition EqualFold (a b : string) : bool := bool_decide (fold_case a = fold_case b).

(** ** Protocols *)

(** [strconv.ParseUint(s, 0, 10)]: the base by the prefix, underscores between digits,
    values below 1024; [None] is an error *)
Definition lower_code (c : Ascii.ascii) : Z := Z.lor (code c) 32.

Definition digit_value (c : Ascii.ascii) : option Z :=
  if between 48 57 (code c) then Some (code c - 48)
  else if between 97 122 (lower_code c) then Some (lower_code c - 97 + 10)
  else None.

Definition base_of (s : string) : Z * string :=
  match s with
  | String "0" (String c (String _ _ as rest)) =>
      if lower_code c =? 98 then (2, rest)
      else if lower_code c =? 111 then (8, rest)
      else if lower_code c =? 120 then (16, rest)
      else (8, String c rest)
  | String "0" rest => (8, rest)
  | _ => (10, s)
  end.

Fixpoint uint_loop (base : Z) (s : string) (n : Z) : option Z :=
  match s with
  | EmptyString => Some n
  | String c rest =>
      if Ascii.eqb c "_" then uint_loop base rest n
      else match digit_value c with
           | None => None
           | Some d =>
               if base <=? d then None
               else if 1023 <? n * base + d then None
               else uint_loop base rest (n * base + d)
           end
  end.

(** the last character: the beginning, a digit or prefix, an underscore, another *)
Inductive saw := SawStart | SawDigit | SawUnderscore | SawOther.

Fixpoint underscores (hex : bool) (s : string) (last : saw) : bool :=
  match s with
  | EmptyString => match last with SawUnderscore => false | _ => true end
  | String c rest =>
      if between 48 57 (code c) || (hex && between 97 102 (lower_code c)) then underscores hex rest SawDigit
      else if Ascii.eqb c "_" then
        match last with SawDigit => underscores hex rest SawUnderscore | _ => false end
      else match last with SawUnderscore => false | _ => underscores hex rest SawOther end
  end.

Definition underscoreOK (s : string) : bool :=
  let s := match s with String "-" r | String "+" r => r | _ => s end in
  match s with
  | String "0" (String c rest) =>
      if (lower_code c =? 98) || (lower_code c =? 111) || (lower_code c =? 120)
      then underscores (lower_code c =? 120) rest SawDigit
      else underscores false s SawStart
  | _ => underscores false s SawStart
  end.

Definition ParseUint10 (s : string) : option Z :=
  if bool_decide (s = "") then None
  else let '(base, digits) := base_of s in
       match uint_loop base digits 0 with
       | Some n => if negb (Strings.no_char "_" digits) && negb (underscoreOK s) then None else Some n
       | None => None
       end.

Definition protocolEnums : gmap string Z :=
  {["icmpv4" := 1; "igmp" := 2; "tcp" := 6; "udp" := 17; "icmpv6" := 58]}.

Definition GetProtocolEnum (p : PortMapEntry) : Z + string :=
  match ParseUint10 (pm_Protocol p) with
  | Some u => inl u
  | None =>
      match protocolEnums !! fold_case (pm_Protocol p) with
      | Some pe => inl pe
      | None => inr "invalid protocol supplied to port mapping policy"
      end
  end.

Example protocols :
  (λ s, GetProtocolEnum (mkPortMap 0 0 s "")) <$> ["TCP"; "6"; "0x11"; "0b110"; "1_7"; "1024"; "sctp"; "1__7"]
  = [inl 6; inl 6; inl 17; inl 6; inl 17; inr "invalid protocol supplied to port mapping policy";
     inr "invalid protocol supplied to port mapping policy";
     inr "invalid protocol supplied to port mapping policy"].
Proof. vm_compute. reflexivity. Qed.

(** ** jsonparser *)

(** a value inside a text: an array by its text, a string as it is written *)
Inductive jp_value := NotExist | JpArray (text : string) | JpString (raw : string) | JpOther.

Class JsonParser := {
  jp_string : string → list string → string;     (* GetUnsafeString, empty on an error *)
  jp_get : string → list string → jp_value;      (* Get *)
  jp_elements : string → list jp_value           (* the calls of ArrayEach *)
}.

(** the value at a path *)
Fixpoint at_path (path : list string) (v : json) : option json :=
  match path with
  | [] => Some v
  | k :: path => member k v ≫= at_path path
  end.

Class JsonParserLaws `{JsonParser} := {
  jp_string_plain : ∀ text v path s,
    parse text = Some v → at_path path v = Some (JStr s) → plain s = true → jp_string text path = s;
  jp_get_string : ∀ text v path s,
    parse text = Some v → at_path path v = Some (JStr s) → plain s = true →
    jp_get text path = JpString s;
  jp_get_array : ∀ text v path l,
    parse text = Some v → at_path path v = Some (JArr l) →
    ∃ t, jp_get text path = JpArray t ∧
      ∀ s, plain s = true → JStr s ∈ l → JpString s ∈ jp_elements t
}.

Section policies.
Context `{JsonParser} (ip_text : list Z → string) (DSRSupported : bool).

(** ** Reading policies *)

Definition is_endpoint_policy (p : Policy) : bool := EqualFold (po_Name p) "EndpointPolicy".

Definition GetHNSEndpointPolicies (n : NetConf) : list string :=
  po_Value <$> filter (λ p, is_endpoint_policy p = true) (hn_Policies n).

(** [hcn.EndpointPolicy] and how it is decoded are the library's *)
Definition GetHostComputeEndpointPolicies {E} (dec : string → option E) (n : NetConf) : list E :=
  omap (λ p, if is_endpoint_policy p then dec (po_Value p) else None) (hn_Policies n).

Definition GetDNS (n : NetConf) : DNS :=
  let rd := rc_DNS (hn_RuntimeConfig n) in
  mkDNS (if bool_decide (rd_Nameservers rd = []) then dns_Nameservers (hn_DNS n) else rd_Nameservers rd)
    (dns_Domain (hn_DNS n))
    (if bool_decide (rd_Search rd = []) then dns_Search (hn_DNS n) else rd_Search rd)
    (dns_Options (hn_DNS n)).

(** ** Adding policies *)

(** an array of the policy has the string *)
Definition array_has (v : jp_value) (s : string) : bool :=
  match v with
  | JpArray t =>
      existsb (λ x, match x with
                    | JpString raw => negb (bool_decide (raw = "")) && bool_decide (raw = s)
                    | _ => false
                    end) (jp_elements t)
  | _ => false
  end.

(** an outbound NAT policy that names the string in its array *)
Definition nat_names (path : list string) (s : string) (p : Policy) : bool :=
  is_endpoint_policy p && bool_decide (jp_string (po_Value p) ["Type"] = "OutBoundNAT")
  && array_has (jp_get (po_Value p) path) s.

Definition add_policy (n : NetConf) (value : string) : NetConf :=
  set_Policies n (hn_Policies n ++ [mkPolicy "EndpointPolicy" value]).

(** a member with a space behind the colon *)
Definition mem (k v : string) : string := quoted k +:+ ": " +:+ v.

(** {"Type": "OutBoundNAT", "Settings": {"<v2>": ["..."]}} or
    {"Type": "OutBoundNAT", "<v1>": ["..."]} *)
Definition nat_value (n : NetConf) (v2 v1 s : string) : string :=
  if hn_ApiVersion n =? 2
  then "{" +:+ mem "Type" (quoted "OutBoundNAT") +:+ ", " +:+
       mem "Settings" ("{" +:+ mem v2 ("[" +:+ quoted s +:+ "]") +:+ "}") +:+ "}"
  else "{" +:+ mem "Type" (quoted "OutBoundNAT") +:+ ", " +:+ mem v1 ("[" +:+ quoted s +:+ "]") +:+ "}".

Definition nat_path (n : NetConf) (v2 v1 : string) : list string :=
  if hn_ApiVersion n =? 2 then ["Settings"; v2] else [v1].

Definition ApplyLoopbackDSRPolicy (n : NetConf) (ip : option (list Z)) : NetConf :=
  match ip with
  | None => n
  | Some ip =>
      if negb DSRSupported then n
      else if existsb (nat_names (nat_path n "Destinations" "Destinations") (ip_text ip)) (hn_Policies n)
      then n
      else add_policy n (nat_value n "Destinations" "Destinations" (ip_text ip))
  end.

Definition ApplyOutboundNatPolicy (n : NetConf) (exceptionCIDR : string) : NetConf :=
  if bool_decide (exceptionCIDR = "") then n
  else if existsb (nat_names (nat_path n "Exceptions" "ExceptionList") exceptionCIDR) (hn_Policies n) then n
  else add_policy n (nat_value n "Exceptions" "ExceptionList" exceptionCIDR).

Definition pa_names (path : list string) (address : string) (p : Policy) : bool :=
  is_endpoint_policy p
  && (bool_decide (jp_string (po_Value p) ["Type"] = "PA")
      || bool_decide (jp_string (po_Value p) ["Type"] = "ProviderAddress"))
  && match jp_get (po_Value p) path with JpString raw => bool_decide (raw = address) | _ => false end.

Definition pa_value (n : NetConf) (addr : string) : string :=
  if hn_ApiVersion n =? 2
  then "{" +:+ mem "Type" (quoted "ProviderAddress") +:+ ", " +:+
       mem "Settings" ("{" +:+ mem "ProviderAddress" (quoted addr) +:+ "}") +:+ "}"
  else "{" +:+ mem "Type" (quoted "PA") +:+ ", " +:+ mem "PA" (quoted addr) +:+ "}".

Definition ApplyDefaultPAPolicy (n : NetConf) (address : string) : NetConf :=
  let path := if hn_ApiVersion n =? 2 then ["Settings"; "ProviderAddress"] else ["PA"] in
  if bool_decide (address = "") then n
  else if existsb (pa_names path address) (hn_Policies n) then n
  else add_policy n (pa_value n address).

Definition port_value (n : NetConf) (p : PortMapEntry) : string :=
  if hn_ApiVersion n =? 2
  then let protocolEnum := match GetProtocolEnum p with inl e => e | inr _ => 0 end in
       "{" +:+ mem "Type" (quoted "PortMapping") +:+ ", " +:+
       mem "Settings" ("{" +:+ mem "InternalPort" (Strconv.Itoa (pm_ContainerPort p)) +:+ ", " +:+
         mem "ExternalPort" (Strconv.Itoa (pm_HostPort p)) +:+ ", " +:+
         mem "Protocol" (Strconv.Itoa protocolEnum) +:+ ", " +:+
         mem "VIP" (quoted (pm_HostIP p)) +:+ "}") +:+ "}"
  else "{" +:+ mem "Type" (quoted "NAT") +:+ ", " +:+
       mem "InternalPort" (Strconv.Itoa (pm_ContainerPort p)) +:+ ", " +:+
       mem "ExternalPort" (Strconv.Itoa (pm_HostPort p)) +:+ ", " +:+
       mem "Protocol" (quoted (pm_Protocol p)) +:+ "}".

(** mappings with an invalid protocol are skipped *)
Definition ApplyPortMappingPolicy (n : NetConf) (portMappings : list PortMapEntry) : NetConf :=
  foldl (λ n p, match GetProtocolEnum p with
                | inr _ => n
                | inl _ => add_policy n (port_value n p)
                end) n portMappings.
End policies.

(** ** Texts of policies *)

Definition policy_laid (type k : string) (v : json) (text : string) : list laid :=
  [mkLaid "" "Type" (JStr type) (" " +:+ quoted type) ""; mkLaid " " k v (" " +:+ text) ""].

Lemma quoted_layout s : plain s = true → layout (JStr s) (quoted s).
Proof.
  intros Hs. rewrite <- plain_print_string by done. apply (layout_print (JStr s)). by apply plain_ascii.
Qed.

Lemma array_layout s : plain s = true → layout (JArr [JStr s]) ("[" +:+ quoted s +:+ "]").
Proof.
  intros Hs. rewrite <- plain_print_string by done. apply (layout_print (JArr [JStr s])).
  cbn. by rewrite plain_ascii.
Qed.

(** a policy: its type, and a member with a laid out value *)
Lemma policy_parse type k v text :
  plain type = true → plain k = true → layout v text →
  parse ("{" +:+ mem "Type" (quoted type) +:+ ", " +:+ mem k text +:+ "}")
  = Some (JObj [("Type", JStr type); (k, v)]).
Proof.
  intros Ht Hk Hv. rewrite <- (str_app_nil_r ("{" +:+ _)). apply parse_layout; [|done].
  replace ("{" +:+ mem "Type" (quoted type) +:+ ", " +:+ mem k text +:+ "}")
    with ("{" +:+ laid_text (policy_laid type k v text) +:+ "}").
  - apply (layout_laid (policy_laid type k v text)); [done|].
    repeat apply Forall_cons_2; [..|apply Forall_nil_2]; split_and!; try done; cbn [ld_text ld_value ld_key].
    + apply layout_space; [done|]. by apply quoted_layout.
    + by apply plain_ascii.
    + by apply layout_space.
  - cbn [policy_laid laid_text ld_before ld_key ld_text ld_after]. unfold mem.
    rewrite (plain_print_string k), !str_app_assoc, ?str_app_nil by done. reflexivity.
Qed.

(** {"k": value} *)
Lemma settings_layout k v text :
  plain k = true → layout v text → layout (JObj [(k, v)]) ("{" +:+ mem k text +:+ "}").
Proof.
  intros Hk Hv.
  replace ("{" +:+ mem k text +:+ "}") with ("{" +:+ laid_text [mkLaid "" k v (" " +:+ text) ""] +:+ "}").
  - apply (layout_laid [mkLaid "" k v (" " +:+ text) ""]); [done|].
    apply Forall_singleton. split_and!; [done|by apply plain_ascii|by apply layout_space|done].
  - cbn [laid_text ld_before ld_key ld_text ld_after]. unfold mem.
    rewrite (plain_print_string k), !str_app_assoc, ?str_app_nil by done. reflexivity.
Qed.

Section laws.
Context `{JsonParserLaws}.

Lemma nat_value_read n v2 v1 s :
  plain v1 = true → plain v2 = true → v1 ≠ "Type" → plain s = true →
  ∃ v, parse (nat_value n v2 v1 s) = Some v ∧ at_path ["Type"] v = Some (JStr "OutBoundNAT") ∧
    at_path (nat_path n v2 v1) v = Some (JArr [JStr s]).
Proof.
  intros H1 H2 Hne Hs. unfold nat_value, nat_path. destruct (hn_ApiVersion n =? 2).
  - eexists. split; [apply policy_parse; [done..|]|].
    + apply settings_layout; [done|]. by apply array_layout.
    + split; [done|]. transitivity (find_member v2 [(v2, JArr [JStr s])] ≫= λ v, Some v); [done|].
      cbn -[bool_decide]. by rewrite (bool_decide_true (v2 = v2)).
  - eexists. split; [apply policy_parse; [done..|]|].
    + by apply array_layout.
    + split; [done|]. cbn -[bool_decide].
      by rewrite (bool_decide_false ("Type" = v1)), (bool_decide_true (v1 = v1)) by congruence.
Qed.
(** an added policy is found again *)
Lemma nat_names_added n v2 v1 s :
  plain v1 = true → plain v2 = true → v1 ≠ "Type" → plain s = true → s ≠ "" →
  nat_names (nat_path n v2 v1) s (mkPolicy "EndpointPolicy" (nat_value n v2 v1 s)) = true.
Proof.
  intros H1 H2 Hne Hs Hs0. destruct (nat_value_read n v2 v1 s) as (v & Hp & Ht & Ha); [done..|].
  unfold nat_names. cbn [po_Value]. rewrite (jp_string_plain _ v ["Type"] "OutBoundNAT") by done.
  destruct (jp_get_array _ v (nat_path n v2 v1) [JStr s] Hp Ha) as (t & -> & Hel).
  rewrite bool_decide_true by done. cbn [array_has].
  change (is_endpoint_policy (mkPolicy "EndpointPolicy" _)) with true. cbn [andb].
  apply existsb_exists. exists (JpString s). split.
  - apply list_elem_of_In, Hel; [done|]. apply list_elem_of_here.
  - by rewrite bool_decide_false, bool_decide_true.
Qed.

Lemma ApplyOutboundNatPolicy_again n s :
  plain s = true → ApplyOutboundNatPolicy (ApplyOutboundNatPolicy n s) s = ApplyOutboundNatPolicy n s.
Proof.
  intros Hs. unfold ApplyOutboundNatPolicy at 2 3. case_bool_decide as Hempty.
  { unfold ApplyOutboundNatPolicy. by rewrite bool_decide_true. }
  destruct (existsb _ (hn_Policies n)) eqn:E; unfold ApplyOutboundNatPolicy;
    rewrite bool_decide_false by done; [by rewrite E|].
  cbn [hn_Policies add_policy set_Policies]. rewrite existsb_app. cbn [existsb].
  change (nat_path (add_policy n _)) with (nat_path n).
  rewrite nat_names_added by done. by rewrite orb_true_r.
Qed.

Lemma ApplyLoopbackDSRPolicy_again ip_text supported n ip :
  (∀ ip, plain (ip_text ip) = true ∧ ip_text ip ≠ "") →
  let apply := ApplyLoopbackDSRPolicy ip_text supported in
  apply (apply n ip) ip = apply n ip.
Proof.
  intros Htext apply. subst apply. destruct ip as [ip|]; [|done]. destruct (Htext ip) as [Hp Hempty].
  unfold ApplyLoopbackDSRPolicy. destruct supported; [|done]. cbn [negb].
  destruct (existsb _ (hn_Policies n)) eqn:E; [by rewrite E|].
  change (nat_path (add_policy n _)) with (nat_path n).
  cbn [hn_Policies add_policy set_Policies]. rewrite existsb_app. cbn [existsb].
  rewrite nat_names_added by done. by rewrite orb_true_r.
Qed.

(** the providers' address *)
Lemma pa_names_added n a :
  plain a = true →
  pa_names (if hn_ApiVersion n =? 2 then ["Settings"; "ProviderAddress"] else ["PA"]) a
    (mkPolicy "EndpointPolicy" (pa_value n a)) = true.
Proof.
  intros Ha. unfold pa_names, pa_value. cbn [po_Value].
  change (is_endpoint_policy (mkPolicy "EndpointPolicy" _)) with true.
  destruct (hn_ApiVersion n =? 2).
  - pose proof (policy_parse "ProviderAddress" "Settings" _ _ eq_refl eq_refl
      (settings_layout "ProviderAddress" _ _ eq_refl (quoted_layout a Ha))) as Hp.
    rewrite (jp_string_plain _ _ ["Type"] "ProviderAddress" Hp),
      (jp_get_string _ _ ["Settings"; "ProviderAddress"] a Hp) by done. by rewrite (bool_decide_true (a = a)).
  - pose proof (policy_parse "PA" "PA" _ _ eq_refl eq_refl (quoted_layout a Ha)) as Hp.
    rewrite (jp_string_plain _ _ ["Type"] "PA" Hp), (jp_get_string _ _ ["PA"] a Hp) by done.
    by rewrite (bool_decide_true (a = a)).
Qed.

Lemma ApplyDefaultPAPolicy_again n a :
  plain a = true → ApplyDefaultPAPolicy (ApplyDefaultPAPolicy n a) a = ApplyDefaultPAPolicy n a.
Proof.
  intros Ha. unfold ApplyDefaultPAPolicy at 2 3. case_bool_decide as Hempty.
  { unfold ApplyDefaultPAPolicy. by rewrite bool_decide_true. }
  destruct (existsb _ (hn_Policies n)) eqn:E; unfold ApplyDefaultPAPolicy;
    rewrite bool_decide_false by done; [by rewrite E|].
  cbn [hn_Policies hn_ApiVersion add_policy set_Policies]. rewrite existsb_app. cbn [existsb].
  rewrite pa_names_added by done. by rewrite orb_true_r.
Qed.
End laws.
