(* ===== verification/HnsEndpoint.v ===== *)
(** * cni/pkg/hns/endpoint_windows.go: endpoints of containers

    An endpoint is created in the host network service and attached to a container
    (HNS, the first API) or to a namespace (HCN, the second).  The services of hcsshim
    are the classes [Hns] and [Hcn] over the state [W]; [HcnLaws] is what the calls of the
    second do to the endpoints, by name.  The schema version of a new endpoint is the
    constant 2.0 and is left out. *)

From S2P Require Import Prelude GoLib Json Cni CniIp HnsPolicy.
Import Json.

Definition pauseContainerNetNS : string := "none".

Record EndpointInfo := mkEndpointInfo {
  ei_EndpointName : string;
  ei_DNS : DNS;
  ei_NetworkName : string;
  ei_NetworkId : string;
  ei_Gateway : list Z;
  ei_IpAddress : list Z
}.

(** the text after the first colon *)
Fixpoint after_colon (s : string) : option string :=
  match s with
  | EmptyString => None
  | String c rest => if Ascii.eqb c ":" then Some rest else after_colon rest
  end.

Definition GetSandboxContainerID (containerID netNs : string) : string :=
  if negb (bool_decide (netNs = "")) && negb (bool_decide (netNs = pauseContainerNetNS))
  then default containerID (after_colon netNs)
  else containerID.

Definition ConstructEndpointName (containerID netNs networkName : string) : string :=
  GetSandboxContainerID containerID netNs +:+ "_" +:+ networkName.

Definition GetDefaultDestinationPrefix (ip : list Z) : string :=
  match To4 ip with Some _ => "0.0.0.0/0" | None => "::/0" end.

(** pkg/errors: [Annotatef] of an error *)
Definition Annotate (message err : string) : string := message +:+ ": " +:+ err.

(** ** hcsshim *)

Record HNSEndpoint := mkHNS {
  he_Id : string;
  he_Name : string;
  he_VirtualNetwork : string;
  he_DNSServerList : string;
  he_DNSSuffix : string;
  he_GatewayAddress : string;
  he_IPAddress : list Z;
  he_MacAddress : string;
  he_Policies : list string
}.

(** an error of a lookup, and of attaching *)
Inductive find_error := ENotExist (e : string) | EFind (e : string).
Inductive attach_error := ESystemDoesNotExist (e : string) | EAttach (e : string).

Definition find_text (e : find_error) : string := match e with ENotExist e | EFind e => e end.
Definition attach_text (e : attach_error) : string := match e with ESystemDoesNotExist e | EAttach e => e end.

Class Hns (W : Type) := {
  hns_Get : W → string → HNSEndpoint + find_error;
  hns_Delete : W → HNSEndpoint → W * option string;
  hns_Create : W → HNSEndpoint → W * (HNSEndpoint + string);
  hns_ContainerDetach : W → HNSEndpoint → string → W;
  hns_HotDetach : W → string → string → W;
  hns_HotAttach : W → string → string → W * option attach_error
}.

Record HcnEndpoint (E : Type) := mkHcn {
  hc_Id : string;
  hc_Name : string;
  hc_Network : string;                      (* HostComputeNetwork *)
  hc_Dns : DNS;
  hc_Routes : list (string * string);       (* NextHop, DestinationPrefix *)
  hc_IpConfigurations : list string;
  hc_MacAddress : string;
  hc_Policies : list E
}.
Arguments mkHcn {E} _ _ _ _ _ _ _ _.
Arguments hc_Id {E} _.
Arguments hc_Name {E} _.
Arguments hc_Network {E} _.
Arguments hc_Dns {E} _.
Arguments hc_Routes {E} _.
Arguments hc_IpConfigurations {E} _.
Arguments hc_MacAddress {E} _.

Class Hcn (E W : Type) := {
  hcn_Get : W → string → HcnEndpoint E + find_error;
  hcn_Delete : W → HcnEndpoint E → W * option string;
  hcn_Create : W → HcnEndpoint E → W * (HcnEndpoint E + string);
  hcn_AddNamespaceEndpoint : W → string → string → W * option string
}.

Section endpoints.
Context {W E : Type} `{JsonParser} `{Hns W} `{Hcn E W}.
Context (ip_text : list Z → string) (DSRSupported : bool) (dec_policy : string → option E)
  (spec_version : string).

Definition GetIpString (ip : list Z) : string := if bool_decide (ip = []) then "" else ip_text ip.

(** [n.ApplyLoopbackDSRPolicy(&epInfo.IpAddress)] when asked for *)
Definition loopback (n : NetConf) (epInfo : EndpointInfo) : NetConf :=
  if hn_LoopbackDSR n then ApplyLoopbackDSRPolicy ip_text DSRSupported n (Some (ei_IpAddress epInfo)) else n.

(** ** HNS *)

(** the configuration is changed in place; the endpoint is not created yet *)
Definition GenerateHnsEndpoint (w : W) (epInfo : EndpointInfo) (n : NetConf)
    : W * (NetConf * (HNSEndpoint + string)) :=
  let generate w :=
    let n := loopback n epInfo in
    (w, (n, inl (mkHNS "" (ei_EndpointName epInfo) (ei_NetworkId epInfo)
                   (Strings.Join (dns_Nameservers (ei_DNS epInfo)) ",")
                   (Strings.Join (dns_Search (ei_DNS epInfo)) ",")
                   (GetIpString (ei_Gateway epInfo)) (ei_IpAddress epInfo) ""
                   (GetHNSEndpointPolicies n)))) in
  match hns_Get w (ei_EndpointName epInfo) with
  | inr (EFind e) => (w, (n, inr (Annotate ("failed to get HNSEndpoint " +:+ ei_EndpointName epInfo) e)))
  | inr (ENotExist _) => generate w
  | inl hnsEndpoint =>
      if EqualFold (he_VirtualNetwork hnsEndpoint) (ei_NetworkId epInfo)
      then (w, (n, inr ("HNSEndpoint " +:+ ei_EndpointName epInfo +:+ " is already existed")))
      else let '(w, err) := hns_Delete w hnsEndpoint in
           match err with
           | Some e =>
               (w, (n, inr (Annotate ("failed to delete corrupted HNSEndpoint " +:+ ei_EndpointName epInfo) e)))
           | None => generate w
           end
  end.

Definition RemoveHnsEndpoint (w : W) (epName netns containerID : string) : W * option string :=
  if bool_decide (netns = "") then (w, None)
  else match hns_Get w epName with
  | inr (ENotExist _) => (w, None)
  | inr (EFind e) => (w, Some (Annotate ("failed to find HNSEndpoint " +:+ epName) e))
  | inl hnsEndpoint =>
      if negb (bool_decide (netns = pauseContainerNetNS))
      then (hns_ContainerDetach w hnsEndpoint containerID, None)
      else let w := hns_HotDetach w containerID (he_Id hnsEndpoint) in
           let '(w, _) := hns_Delete w hnsEndpoint in (w, None)
  end.

(** the found endpoint, unless it belongs to another network *)
Definition keep_hns (w : W) (found : option HNSEndpoint) (expectedNetworkId : string)
    : W * (option HNSEndpoint + string) :=
  match found with
  | Some ep =>
      if EqualFold (he_VirtualNetwork ep) expectedNetworkId then (w, inl (Some ep))
      else let '(w, err) := hns_Delete w ep in
           (w, match err with Some e => inr e | None => inl None end)
  | None => (w, inl None)
  end.

Definition AddHnsEndpoint (w : W) (epName expectedNetworkId containerID netns : string)
    (makeEndpoint : W → W * (HNSEndpoint + string)) : W * (HNSEndpoint + string) :=
  let not_found e := Annotate ("failed to find HNSEndpoint " +:+ epName) e in
  let attach w ep (isNewEndpoint : bool) :=
    let '(w, err) := hns_HotAttach w containerID (he_Id ep) in
    match err with
    | None => (w, inl ep)
    | Some e =>
        let failed := Annotate ("failed to attach container " +:+ containerID +:+ " to HNSEndpoint "
                                +:+ he_Id ep) (attach_text e) in
        if isNewEndpoint then
          let '(w, err) := RemoveHnsEndpoint w epName netns containerID in
          (w, inr (match err with
                   | Some e => Annotate ("failed to remove the new HNSEndpoint " +:+ he_Id ep
                                 +:+ " after attaching container " +:+ containerID +:+ " failure") e
                   | None => failed
                   end))
        else match e with
             | ESystemDoesNotExist _ => (w, inl ep)
             | EAttach _ => (w, inr failed)
             end
    end in
  let rest w found :=
    match keep_hns w found expectedNetworkId with
    | (w, inr e) => (w, inr (Annotate ("failed to delete corrupted HNSEndpoint " +:+ epName) e))
    | (w, inl (Some ep)) => attach w ep false
    | (w, inl None) =>
        match makeEndpoint w with
        | (w, inr e) => (w, inr (Annotate "failed to make a new HNSEndpoint" e))
        | (w, inl ep) =>
            match hns_Create w ep with
            | (w, inr e) => (w, inr (Annotate "failed to create the new HNSEndpoint" e))
            | (w, inl ep) => attach w ep true
            end
        end
    end in
  match hns_Get w epName with
  | inr (EFind e) => (w, inr (not_found e))
  | inr (ENotExist e) =>
      if negb (bool_decide (netns = pauseContainerNetNS)) then (w, inr (not_found e)) else rest w None
  | inl ep => rest w (Some ep)
  end.

(** the subnets of the network *)
Definition ConstructHnsResult (subnets : list string) (ep : HNSEndpoint)
    : go (Result Empty_set DNS + string) :=
  match subnets with
  | [] => Panic
  | prefix :: _ =>
      Ret match Net.ParseCIDR prefix with
          | None => inr (Annotate ("failed to parse CIDR from " +:+ prefix) ("invalid CIDR address: " +:+ prefix))
          | Some (_, ipSubnet) =>
              inl (mkResult spec_version [mkInterface (he_Name ep) (he_MacAddress ep) ""]
                     [mkIPConfig None (Net.mkIPNet (he_IPAddress ep) (Net.Mask ipSubnet))
                        (Net.ParseIP (he_GatewayAddress ep))] []
                     (mkDNS (Strings.Split (he_DNSServerList ep) ","%char) ""
                        (Strings.Split (he_DNSSuffix ep) ","%char) []))
          end
  end.

(** ** HCN *)

Definition GenerateHcnEndpoint (w : W) (epInfo : EndpointInfo) (n : NetConf)
    : W * (NetConf * (HcnEndpoint E + string)) :=
  let generate w :=
    let n := loopback n epInfo in
    (w, (n, inl (mkHcn "" (ei_EndpointName epInfo) (ei_NetworkId epInfo) (ei_DNS epInfo)
                   [(GetIpString (ei_Gateway epInfo), GetDefaultDestinationPrefix (ei_Gateway epInfo))]
                   [GetIpString (ei_IpAddress epInfo)] ""
                   (GetHostComputeEndpointPolicies dec_policy n)))) in
  match hcn_Get w (ei_EndpointName epInfo) with
  | inr (EFind e) =>
      (w, (n, inr (Annotate ("failed to get HostComputeEndpoint " +:+ ei_EndpointName epInfo) e)))
  | inr (ENotExist _) => generate w
  | inl ep =>
      if EqualFold (hc_Network ep) (ei_NetworkId epInfo)
      then (w, (n, inr ("HostComputeNetwork " +:+ ei_EndpointName epInfo +:+ " is already existed")))
      else let '(w, err) := hcn_Delete w ep in
           match err with
           | Some e => (w, (n, inr (Annotate ("failed to delete corrupted HostComputeEndpoint "
                                              +:+ ei_EndpointName epInfo) e)))
           | None => generate w
           end
  end.

Definition RemoveHcnEndpoint (w : W) (epName : string) : W * option string :=
  match hcn_Get w epName with
  | inr (ENotExist _) => (w, None)
  | inr (EFind e) => (w, Some (Annotate ("failed to find HostComputeEndpoint " +:+ epName) e))
  | inl ep =>
      let '(w, err) := hcn_Delete w ep in
      (w, Annotate ("failed to remove HostComputeEndpoint " +:+ epName) <$> err)
  end.

Definition keep_hcn (w : W) (found : option (HcnEndpoint E)) (expectedNetworkId : string)
    : W * (option (HcnEndpoint E) + string) :=
  match found with
  | Some ep =>
      if EqualFold (hc_Network ep) expectedNetworkId then (w, inl (Some ep))
      else let '(w, err) := hcn_Delete w ep in
           (w, match err with Some e => inr e | None => inl None end)
  | None => (w, inl None)
  end.

Definition attach_hcn (w : W) (epName namespace : string) (ep : HcnEndpoint E) (isNewEndpoint : bool)
    : W * (HcnEndpoint E + string) :=
  let '(w, err) := hcn_AddNamespaceEndpoint w namespace (hc_Id ep) in
  match err with
  | None => (w, inl ep)
  | Some e =>
      let failed := Annotate ("failed to add HostComputeEndpoint " +:+ epName +:+
                      " to HostComputeNamespace " +:+ namespace) e in
      if isNewEndpoint then
        let '(w, err) := RemoveHcnEndpoint w epName in
        (w, inr (match err with
                 | Some e => Annotate ("failed to remove the new HostComputeEndpoint " +:+ epName
                               +:+ " after adding HostComputeNamespace " +:+ namespace +:+ " failure") e
                 | None => failed
                 end))
      else (w, inr failed)
  end.

(** the found endpoint or a new one, attached *)
Definition ensure_hcn (w : W) (epName expectedNetworkId namespace : string)
    (makeEndpoint : W → W * (HcnEndpoint E + string)) (found : option (HcnEndpoint E))
    : W * (HcnEndpoint E + string) :=
  match keep_hcn w found expectedNetworkId with
  | (w, inr e) => (w, inr (Annotate ("failed to delete corrupted HostComputeEndpoint " +:+ epName) e))
  | (w, inl (Some ep)) => attach_hcn w epName namespace ep false
  | (w, inl None) =>
      match makeEndpoint w with
      | (w, inr e) => (w, inr (Annotate "failed to make a new HostComputeEndpoint" e))
      | (w, inl ep) =>
          match hcn_Create w ep with
          | (w, inr e) => (w, inr (Annotate "failed to create the new HostComputeEndpoint" e))
          | (w, inl ep) => attach_hcn w epName namespace ep true
          end
      end
  end.

Definition AddHcnEndpoint (w : W) (epName expectedNetworkId namespace : string)
    (makeEndpoint : W → W * (HcnEndpoint E + string)) : W * (HcnEndpoint E + string) :=
  match hcn_Get w epName with
  | inr (EFind e) => (w, inr (Annotate ("failed to find HostComputeEndpoint " +:+ epName) e))
  | inr (ENotExist _) => ensure_hcn w epName expectedNetworkId namespace makeEndpoint None
  | inl ep => ensure_hcn w epName expectedNetworkId namespace makeEndpoint (Some ep)
  end.

(** the subnets of the network's first IPAM; none or no address panics *)
Definition ConstructHcnResult (ipams : list (list string)) (ep : HcnEndpoint E)
    : go (Result Empty_set DNS + string) :=
  match ipams with
  | (prefix :: _) :: _ =>
      match Net.ParseCIDR prefix with
      | None => Ret (inr ("invalid CIDR address: " +:+ prefix))
      | Some (_, ipSubnet) =>
          match hc_IpConfigurations ep, hc_Routes ep with
          | address :: _, (nextHop, _) :: _ =>
              Ret (inl (mkResult spec_version [mkInterface (hc_Name ep) (hc_MacAddress ep) ""]
                     [mkIPConfig None (Net.mkIPNet (default [] (Net.ParseIP address)) (Net.Mask ipSubnet))
                        (Net.ParseIP nextHop)] [] (hc_Dns ep)))
          | _, _ => Panic
          end
      end
  | _ => Panic
  end.
End endpoints.

(** ** What adding an endpoint leaves *)

(** the endpoints by name, and which are in a namespace *)
Class HcnLaws (E W : Type) `{Hcn E W} (eps : W → gmap string (HcnEndpoint E))
    (joined : W → string → string → Prop) := {
  hl_found : ∀ w name e, hcn_Get w name = inl e → eps w !! name = Some e ∧ hc_Name e = name;
  hl_missing : ∀ w name x, hcn_Get w name = inr (ENotExist x) → eps w !! name = None;
  hl_delete : ∀ w e w' r, hcn_Delete w e = (w', r) →
    eps w' = match r with None => delete (hc_Name e) (eps w) | Some _ => eps w end;
  hl_create : ∀ w e w' r, hcn_Create w e = (w', r) →
    match r with
    | inl e' => hc_Name e' = hc_Name e ∧ hc_Network e' = hc_Network e ∧
                eps w' = <[hc_Name e := e']> (eps w)
    | inr _ => eps w' = eps w
    end;
  hl_join : ∀ w ns id w' r, hcn_AddNamespaceEndpoint w ns id = (w', r) →
    eps w' = eps w ∧ (r = None → joined w' ns id)
}.

Section hcn.
Context {W E : Type} `{JsonParser} `{Hcn E W}.
Context (ip_text : list Z → string) (DSRSupported : bool) (dec_policy : string → option E).
Context (eps : W → gmap string (HcnEndpoint E)) (joined : W → string → string → Prop).
Context {laws : HcnLaws E W eps joined}.
Context (epInfo : EndpointInfo) (n : NetConf).

(** the function that makes the endpoint of a pod *)
Definition make_hcn (w : W) : W * (HcnEndpoint E + string) :=
  let '(w, (_, r)) := GenerateHcnEndpoint ip_text DSRSupported dec_policy w epInfo n in (w, r).

Abbreviation name := (ei_EndpointName epInfo).
Abbreviation network := (ei_NetworkId epInfo).

(** the other endpoints stay *)
Definition others (w w' : W) : Prop := ∀ k, k ≠ name → eps w' !! k = eps w !! k.

Lemma others_trans w1 w2 w3 : others w1 w2 → others w2 w3 → others w1 w3.
Proof. intros H12 H23 k Hk. by rewrite H23, H12. Qed.

Lemma fold_case_refl s : EqualFold s s = true.
Proof. unfold EqualFold. by apply bool_decide_true. Qed.

Lemma delete_others w e w' r :
  hcn_Delete w e = (w', r) → hc_Name e = name →
  others w w' ∧ match r with None => eps w' !! name = None | Some _ => eps w' = eps w end.
Proof.
  intros Hd Hn. pose proof (hl_delete _ _ _ _ Hd) as He. rewrite Hn in He.
  destruct r; (split; [intros k Hk|]); rewrite He; try done.
  - by rewrite lookup_delete_ne.
  - by rewrite lookup_delete_eq.
Qed.

(** an endpoint is made when there is none of its name, on its network *)
Lemma make_hcn_spec w w' r :
  make_hcn w = (w', r) → eps w !! name = None →
  w' = w ∧ match r with inl e => hc_Name e = name ∧ hc_Network e = network | inr _ => True end.
Proof.
  unfold make_hcn, GenerateHcnEndpoint. intros Hm Hnone.
  destruct (hcn_Get w name) as [e|[x|x]] eqn:Hg.
  - apply hl_found in Hg as [Hg _]. by rewrite Hg in Hnone.
  - by injection Hm as <- <-.
  - by injection Hm as <- <-.
Qed.

Lemma remove_hcn_spec w w' r :
  RemoveHcnEndpoint w name = (w', r) →
  others w w' ∧ (r = None → eps w' !! name = None).
Proof.
  unfold RemoveHcnEndpoint. destruct (hcn_Get w name) as [e|[x|x]] eqn:Hg.
  - destruct (hcn_Delete w e) as [w1 err] eqn:Hd. intros [= <- <-].
    destruct (delete_others _ _ _ _ Hd) as [Ho He]; [by destruct (hl_found _ _ _ Hg)|].
    split; [done|]. by destruct err.
  - intros [= <- <-]. split; [done|]. intros _. by eapply hl_missing.
  - by intros [= <- <-].
Qed.

(** the removal of a new endpoint failed *)
Definition removal_failed (w' : W) : Prop := ∃ w1 e, RemoveHcnEndpoint w1 name = (w', Some e).

Lemma attach_hcn_spec w ns e new w' r :
  attach_hcn w name ns e new = (w', r) → eps w !! name = Some e →
  others w w' ∧
  match r with
  | inl e' => e' = e ∧ eps w' !! name = Some e ∧ joined w' ns (hc_Id e)
  | inr _ => if new then eps w' !! name = None ∨ removal_failed w' else eps w' = eps w
  end.
Proof.
  unfold attach_hcn. intros Ha He.
  destruct (hcn_AddNamespaceEndpoint w ns (hc_Id e)) as [w1 err] eqn:Hj.
  destruct (hl_join _ _ _ _ _ Hj) as [Heq Hjoin]. assert (others w w1) as Ho by (intros k _; by rewrite Heq).
  destruct err as [x|]; [|injection Ha as <- <-; split; [done|]; rewrite Heq; auto].
  destruct new; [|by injection Ha as <- <-].
  destruct (RemoveHcnEndpoint w1 name) as [w2 err] eqn:Hr. injection Ha as <- <-.
  destruct (remove_hcn_spec _ _ _ Hr) as [Ho' Hn]. split; [by eapply others_trans|].
  destruct err as [x'|]; [right; by exists w1, x'|left; auto].
Qed.

(** an existing endpoint is kept on its network and deleted otherwise *)
Lemma keep_hcn_spec w found w' r :
  keep_hcn w found network = (w', r) → eps w !! name = found →
  (∀ e, found = Some e → hc_Name e = name) →
  others w w' ∧
  match r with
  | inl (Some e) => w' = w ∧ found = Some e ∧ EqualFold (hc_Network e) network = true
  | inl None => eps w' !! name = None
  | inr _ => eps w' = eps w
  end.
Proof.
  unfold keep_hcn. intros Hk Hf Hn. destruct found as [e|]; [|by injection Hk as <- <-].
  destruct (EqualFold (hc_Network e) network) eqn:Ee; [by injection Hk as <- <-|].
  destruct (hcn_Delete w e) as [w1 err] eqn:Hd. injection Hk as <- <-.
  destruct (delete_others _ _ _ _ Hd (Hn e eq_refl)) as [Ho He]. split; [done|]. by destruct err.
Qed.

(** the endpoint of the name afterwards *)
Definition settled (w w' : W) (ns : string) (r : HcnEndpoint E + string) : Prop :=
  match r with
  | inl e => eps w' !! name = Some e ∧ EqualFold (hc_Network e) network = true ∧ joined w' ns (hc_Id e)
  | inr _ => eps w' !! name = eps w !! name ∨ eps w' !! name = None ∨ removal_failed w'
  end.

(** a new endpoint *)
Lemma new_hcn_spec w w1 ns e w' r :
  make_hcn w = (w1, inl e) → eps w !! name = None →
  match hcn_Create w1 e with
  | (w2, inr x) => (w2, inr (Annotate "failed to create the new HostComputeEndpoint" x))
  | (w2, inl ep) => attach_hcn w2 name ns ep true
  end = (w', r) →
  others w w' ∧ settled w w' ns r.
Proof.
  intros Hm Hnone Hc. destruct (make_hcn_spec _ _ _ Hm Hnone) as (-> & Hn & Hnet).
  destruct (hcn_Create w e) as [w2 [e2|x]] eqn:Hcr; pose proof (hl_create _ _ _ _ Hcr) as Hl; cbn in Hl.
  - destruct Hl as (Hn2 & Hnet2 & He2). rewrite Hn in He2.
    destruct (attach_hcn_spec _ _ _ _ _ _ Hc) as [Ho H2]; [by rewrite He2, lookup_insert_eq|].
    split.
    + apply (others_trans w w2); [|done]. intros k Hk. by rewrite He2, lookup_insert_ne.
    + destruct r as [e3|x]; cbn; [|by right]. destruct H2 as (-> & ? & ?).
      split_and!; [done| |done]. rewrite Hnet2, Hnet. apply fold_case_refl.
  - injection Hc as <- <-. split; [intros k _|left]; by rewrite Hl.
Qed.

Lemma ensure_hcn_spec w ns found w' r :
  ensure_hcn w name network ns make_hcn found = (w', r) → eps w !! name = found →
  (∀ e, found = Some e → hc_Name e = name) → others w w' ∧ settled w w' ns r.
Proof.
  unfold ensure_hcn. intros Hr Hf Hn. destruct (keep_hcn w found network) as [w1 kept] eqn:Hk.
  destruct (keep_hcn_spec _ _ _ _ Hk Hf Hn) as [Ho1 H1]. destruct kept as [[e|]|x].
  - destruct H1 as (-> & Hfe & He). rewrite Hfe in Hf.
    destruct (attach_hcn_spec _ _ _ _ _ _ Hr Hf) as [Ho2 H2]. split; [done|].
    destruct r as [e'|x]; cbn; [by destruct H2 as (-> & ? & ?)|left; by rewrite H2].
  - destruct (make_hcn w1) as [w2 [e|x]] eqn:Hm.
    + destruct (new_hcn_spec _ _ _ _ _ _ Hm H1 Hr) as [Ho2 H2]. split; [by eapply others_trans|].
      destruct r as [e'|x]; cbn in *; [done|]. destruct H2 as [H2|H2]; [right; left; by rewrite H2|auto].
    + destruct (make_hcn_spec _ _ _ Hm H1) as [-> _]. injection Hr as <- <-. split; [done|].
      right. by left.
  - injection Hr as <- <-. split; [done|]. left. by rewrite H1.
Qed.

(** C26: adding an endpoint is all or nothing. [AddHcnEndpoint] with the endpoint that
    [GenerateHcnEndpoint] makes touches no endpoint of another name.  When it succeeds,
    the endpoint of the name is the returned one, is on the expected network and in the
    namespace.  When it fails, the endpoint is as it was before, or there is none of the
    name, unless the removal of the new one failed too. *)
Theorem AddHcnEndpoint_all_or_nothing w ns w' r :
  AddHcnEndpoint w name network ns make_hcn = (w', r) → others w w' ∧ settled w w' ns r.
Proof.
  unfold AddHcnEndpoint. destruct (hcn_Get w name) as [e|[x|x]] eqn:Hg; intros Ha.
  - destruct (hl_found _ _ _ Hg) as [Hf Hn]. eapply ensure_hcn_spec; [done|done|]. by intros e' [= <-].
  - eapply ensure_hcn_spec; [done|by eapply hl_missing|done].
  - injection Ha as <- <-. split; [done|]. by left.
Qed.
End hcn.

(** ** A service in memory *)

(** the endpoints, what is in the namespaces, and the namespaces that exist *)
Record MemHcn := mkMem {
  mem_eps : gmap string (HcnEndpoint string);
  mem_joined : list (string * string);
  mem_namespaces : list string
}.

Definition mem_create (w : MemHcn) (e : HcnEndpoint string) : MemHcn * (HcnEndpoint string + string) :=
  let e' := mkHcn ("id-" +:+ hc_Name e) (hc_Name e) (hc_Network e) (hc_Dns e) (hc_Routes e)
              (hc_IpConfigurations e) "00-15-5D-00-00-01" [] in
  (mkMem (<[hc_Name e := e']> (mem_eps w)) (mem_joined w) (mem_namespaces w), inl e').

#[local] Instance mem_hcn : Hcn string MemHcn := {
  hcn_Get w name :=
    match mem_eps w !! name with
    | Some e => if bool_decide (hc_Name e = name) then inl e else inr (EFind "corrupted")
    | None => inr (ENotExist "endpoint not found")
    end;
  hcn_Delete w e := (mkMem (delete (hc_Name e) (mem_eps w)) (mem_joined w) (mem_namespaces w), None);
  hcn_Create := mem_create;
  hcn_AddNamespaceEndpoint w ns id :=
    if bool_decide (ns ∈ mem_namespaces w)
    then (mkMem (mem_eps w) ((ns, id) :: mem_joined w) (mem_namespaces w), None)
    else (w, Some "namespace not found")
}.

#[local] Instance mem_laws : HcnLaws string MemHcn mem_eps (λ w ns id, (ns, id) ∈ mem_joined w).
Proof.
  split; cbn.
  - intros w k e. destruct (mem_eps w !! k); [case_bool_decide|]; naive_solver.
  - intros w k x. destruct (mem_eps w !! k); [case_bool_decide|]; naive_solver.
  - by intros w e w' r [= <- <-].
  - by intros w e w' r [= <- <-].
  - intros w ns id w' r. case_bool_decide; intros [= <- <-]; [|done].
    split; [done|]. intros _. cbn. left.
Qed.

(** a text no policy is found in *)
#[local] Instance no_policies : JsonParser :=
  {| jp_string _ _ := ""; jp_get _ _ := NotExist; jp_elements _ := [] |}.

Definition ex_info : EndpointInfo :=
  mkEndpointInfo "c1_net" (mkDNS [] "" [] []) "net" "A1B2" [10; 0; 0; 1] [10; 0; 0; 7].

Definition ex_conf : NetConf :=
  mkHnsConf (mkDNS [] "" [] []) 2 [] (mkRuntime (mkRuntimeDNS [] []) []) false.

Definition ex_old (k network : string) : HcnEndpoint string :=
  mkHcn ("id-" +:+ k) k network (mkDNS [] "" [] []) [] ["10.0.0.5"] "00-15-5D-00-00-02" [].

(** an endpoint of the name on another network, and one of another container *)
Definition ex_mem (namespaces : list string) : MemHcn :=
  mkMem {[ "c1_net" := ex_old "c1_net" "FFFF"; "c2_net" := ex_old "c2_net" "a1b2" ]} [] namespaces.

Definition ex_add (namespaces : list string) : MemHcn * (HcnEndpoint string + string) :=
  AddHcnEndpoint (ex_mem namespaces) "c1_net" "A1B2" "ns1"
    (make_hcn (λ _, "10.0.0.7") true Some ex_info ex_conf).

(** with the namespace the corrupted endpoint is replaced; without it it is gone *)
Lemma AddHcnEndpoint_all_or_nothing_witness :
  (others mem_eps ex_info (ex_mem ["ns1"]) (ex_add ["ns1"]).1 ∧
   settled mem_eps (λ w ns id, (ns, id) ∈ mem_joined w) ex_info (ex_mem ["ns1"]) (ex_add ["ns1"]).1 "ns1"
     (ex_add ["ns1"]).2) ∧
  (others mem_eps ex_info (ex_mem []) (ex_add []).1 ∧
   settled mem_eps (λ w ns id, (ns, id) ∈ mem_joined w) ex_info (ex_mem []) (ex_add []).1 "ns1"
     (ex_add []).2).
Proof.
  split; eapply (AddHcnEndpoint_all_or_nothing (λ _, "10.0.0.7") true Some mem_eps
                   (λ w ns id, (ns, id) ∈ mem_joined w) ex_info ex_conf); reflexivity.
Defined.

Example ex_add_replaced :
  (hc_Network <$> mem_eps (ex_add ["ns1"]).1 !! "c1_net", mem_joined (ex_add ["ns1"]).1,
   mem_eps (ex_add []).1 !! "c1_net", hc_Network <$> mem_eps (ex_add []).1 !! "c2_net",
   match (ex_add []).2 with inr text => text | inl _ => "" end) =
  (Some "A1B2", [("ns1", "id-c1_net")], None, Some "a1b2",
   "failed to add HostComputeEndpoint c1_net to HostComputeNamespace ns1: namespace not found").
Proof. vm_compute. reflexivity. Qed.

(** ** A shared endpoint that is replaced stays behind

    For a container that shares the endpoint of its pod, an endpoint of another network
    is deleted and a new one is created.  When attaching it fails, the clean-up only
    detaches the container: the new endpoint is not deleted. *)
Lemma AddHnsEndpoint_shared_leak {W} `{Hns W} w name network cid netns make old ep new w1 w2 w3 w4 e :
  netns ≠ pauseContainerNetNS →
  hns_Get w name = inl old → EqualFold (he_VirtualNetwork old) network = false →
  hns_Delete w old = (w1, None) → make w1 = (w2, inl ep) → hns_Create w2 ep = (w3, inl new) →
  hns_HotAttach w3 cid (he_Id new) = (w4, Some e) →
  ∃ w5 text, AddHnsEndpoint w name network cid netns make = (w5, inr text) ∧
    (w5 = w4 ∨ ∃ found, w5 = hns_ContainerDetach w4 found cid).
Proof.
  intros Hns Hg He Hd Hm Hc Ha. unfold AddHnsEndpoint. rewrite Hg. unfold keep_hns. rewrite He, Hd, Hm, Hc, Ha.
  destruct (RemoveHnsEndpoint w4 name netns cid) as [w5 r] eqn:Hr.
  eexists w5, _; split; [reflexivity|].
  revert Hr. unfold RemoveHnsEndpoint. case_bool_decide; [naive_solver|].
  destruct (hns_Get w4 name) as [found|[x|x]]; [|naive_solver..].
  rewrite bool_decide_false by done. naive_solver.
Qed.
