(* ===== verification/MultiNicNet.v ===== *)
(** * cni/plugins/main/multi-nic/net.go: networks of the interfaces of the process

    Helpers over net.Interfaces that the other files of the plugin do not call. *)

From S2P Require Import Prelude GoLib CniIp.

(** an interface: index, name, and its addresses or the error of reading them;
    only addresses that are networks (net.IPNet) count *)
Record NetIface := mkNetIface { ni_index : Z; ni_name : string; ni_addrs : option (list (option Net.IPNet)) }.

Definition getNetAddress (v : Net.IPNet) : string :=
  let blockSize := default "" (Strings.Split (IPNet_String v) "/"%char !! 1%nat) in
  let ip := Net.ip_string (default [] (Mask (Net.IP v) (Net.Mask v))) in
  ip +:+ "/" +:+ blockSize.

(** the networks of the IPv4 addresses of an interface *)
Definition v4_nets (i : NetIface) : list string :=
  match ni_addrs i with
  | None => []
  | Some addrs =>
      omap (λ a, v ← a; if bool_decide (is_Some (To4 (Net.IP v))) then Some (getNetAddress v) else None) addrs
  end.

(** the first interface with an address in the network *)
Fixpoint getInterfaceNameFromNetAddress (ifaces : list NetIface) (targetNet : string) : string :=
  match ifaces with
  | [] => ""
  | i :: rest =>
      if bool_decide (targetNet ∈ v4_nets i) then ni_name i
      else getInterfaceNameFromNetAddress rest targetNet
  end.

(** the state of the loop: the least index so far and its network; the break in the
    loop over the addresses only leaves the switch, so the last address counts *)
Definition min_step (st : Z * string) (i : NetIface) : Z * string :=
  let '(minIndex, ifaceNet) := st in
  if minIndex <? ni_index i then st
  else match last (v4_nets i) with Some n => (ni_index i, n) | None => st end.

Definition getMinimumIndexNetAddress (ifaces : list NetIface) : string :=
  snd (foldl min_step (99, "") ifaces).

(** an interface that has an address is found, by the network of any of its
    addresses *)
Lemma getInterfaceName_found ifaces i targetNet :
  i ∈ ifaces → targetNet ∈ v4_nets i →
  ∃ j, j ∈ ifaces ∧ targetNet ∈ v4_nets j ∧ getInterfaceNameFromNetAddress ifaces targetNet = ni_name j.
Proof.
  induction ifaces as [|j ifaces IH]; intros Hi Hn; [by apply elem_of_nil in Hi|]. simpl.
  case_bool_decide; [exists j; split; [by left|done]|].
  apply elem_of_cons in Hi as [->|Hi]; [done|]. destruct (IH Hi Hn) as (k & ? & ? & ?).
  exists k. split; [by right|done].
Qed.

(** among interfaces of distinct indexes below 99 with an address, the network is
    that of the least index *)
Lemma min_step_least ifaces : ∀ m s,
  let '(m', s') := foldl min_step (m, s) ifaces in
  m' ≤ m ∧ (∀ i, i ∈ ifaces → v4_nets i ≠ [] → m' ≤ ni_index i) ∧
  ((m', s') = (m, s) ∨ ∃ i, i ∈ ifaces ∧ ni_index i = m' ∧ last (v4_nets i) = Some s').
Proof.
  induction ifaces as [|i ifaces IH]; intros m s; cbn [foldl].
  { split; [lia|]. split; [by intros i Hi%elem_of_nil|by left]. }
  destruct (min_step (m, s) i) as [m1 s1] eqn:E. specialize (IH m1 s1).
  destruct (foldl min_step (m1, s1) ifaces) as [m2 s2]. destruct IH as (Hle & Hall & Hcase).
  assert (m1 ≤ m ∧ (v4_nets i ≠ [] → m1 ≤ ni_index i) ∧
    ((m1, s1) = (m, s) ∨ (ni_index i = m1 ∧ last (v4_nets i) = Some s1))) as (H1 & H2 & H3).
  { revert E. unfold min_step. destruct (Z.ltb_spec m (ni_index i)).
    - intros [= <- <-]. split_and!; [lia|lia|by left].
    - destruct (last (v4_nets i)) eqn:El; intros [= <- <-]; split_and!; try lia; auto.
      intros Hne. by rewrite last_None in El. }
  split; [lia|]. split.
  - intros j [->|Hj]%elem_of_cons Hne; [specialize (H2 Hne); lia|auto].
  - destruct Hcase as [[= -> ->]|(j & Hj & ?)].
    + destruct H3 as [?|?]; [by left|right]. exists i. split; [by left|done].
    + right. exists j. split; [by right|done].
Qed.

Example last_address_counts :
  getMinimumIndexNetAddress
    [mkNetIface 2 "eth0" (Some [Some (Net.mkIPNet [10; 0; 0; 5] [255; 255; 255; 0]);
                                Some (Net.mkIPNet [10; 0; 9; 5] [255; 255; 255; 0])])] = "10.0.9.0/24".
Proof. vm_compute. reflexivity. Qed.
