(* ===== verification/DaemonStub.v ===== *)
(** * The daemon of the end-to-end tests: e2e-test/daemon-stub/allocator

    The tests run a stub of the daemon with an allocator of its own.  It picks the
    address of a pool and patches the pool in one loop, where the daemon first
    picks all addresses and then patches; it knows no virtual functions, checks
    network and host of a pool again, and does not unlock the mutex when listing
    fails.  The functions on indexes and exclusions are the daemon's, line by line.

    For requests the two can be compared on, the stub answers what the daemon
    answers and leaves the pools as the daemon leaves them. *)

From S2P Require Import Prelude GoLib Types.
From S2P Require Compute.
From S2P Require Import ComputeSpec Allocator AllocatorSpec AllocatorProps AddressService AllocatorProgress.

(** ** allocator.go *)

(** the position of the pool's interface among the requested ones *)
Fixpoint index_of (poolInterface : string) (interfaceNames : list string) (deleteIndex : nat) : option nat :=
  match interfaceNames with
  | [] => None
  | interfaceName :: rest =>
      if bool_decide (poolInterface = interfaceName) then Some deleteIndex
      else index_of poolInterface rest (S deleteIndex)
  end.

Section stub.
Context {W : Type} {api : IPPoolAPI W} {ord : MapRange}.

Fixpoint AllocateIP_loop (req : IPRequest) (offset : Z) (interfaceNames : list string) (w : W)
    (ippools : list (string * IPPoolSpec)) : W * go (list IPResponse) :=
  match ippools with
  | [] => (w, Ret [])
  | (ippoolName, spec) :: rest =>
      match interfaceNames with
      | [] => (w, Ret [])
      | _ =>
          if bool_decide (p_NetAttachDefName spec = rq_NetAttachDefName req)
             && bool_decide (p_HostName spec = rq_HostName req)
          then
            match index_of (p_InterfaceName spec) interfaceNames 0 with
            | None => AllocateIP_loop req offset interfaceNames w rest
            | Some deleteIndex =>
                let interfaceNames := remove_at interfaceNames deleteIndex in
                match nextAllocation spec offset with
                | Panic => (w, Panic)
                | Ret None => AllocateIP_loop req offset interfaceNames w rest
                | Ret (Some (nextIndex, nextAddress)) =>
                    let newAllocation :=
                      mkAllocation (rq_PodName req) (rq_PodNamespace req) nextIndex nextAddress in
                    let '(w, err_nil) :=
                      PatchIPPool w ippoolName (insertAllocation (p_Allocations spec) newAllocation) in
                    if err_nil : bool then
                      match Compute.after_slash (p_VlanCIDR spec) with
                      | Panic => (w, Panic)
                      | Ret block =>
                          let response := mkIPResponse (p_InterfaceName spec) nextAddress block in
                          let '(w, responses) := AllocateIP_loop req offset interfaceNames w rest in
                          (w, (λ l, response :: l) <$> responses)
                      end
                    else AllocateIP_loop req offset interfaceNames w rest
                end
            end
          else AllocateIP_loop req offset interfaceNames w rest
      end
  end.

(** the error return leaves the mutex locked *)
Definition AllocateIP (clk : string → Z) (req : IPRequest) (d : daemon W) : outcome W (list IPResponse) :=
  let podName := rq_PodName req in
  let history := FlushExpiredHistory clk (d_history d) in
  let '(offset, history) :=
    match history !! podName with
    | Some record =>
        let last := ar_LastOffset record + 1 in
        (last, <[podName := mkRecord (ar_Time record) last]> history)
    | None => (1, history)
    end in
  if d_locked d then Blocked (mkDaemon true history (d_world d)) else
  match ListIPPool (d_world d) (host_def_selector (rq_HostName req) (rq_NetAttachDefName req)) with
  | Err _ => Done (mkDaemon true history (d_world d)) []
  | Ok ippoolSpecMap =>
      match AllocateIP_loop req offset (rq_InterfaceNames req) (d_world d) (range_map ippoolSpecMap) with
      | (w, Ret responses) => Done (mkDaemon false history w) responses
      | (w, Panic) => Crashed (mkDaemon true history w)
      end
  end.

(** only pools of exactly this host *)
Fixpoint Clean_loop (getPod : string → string → bool) (hostName : string) (w : W)
    (ippools : list (string * IPPoolSpec)) : W :=
  match ippools with
  | [] => w
  | (ippoolName, spec) :: rest =>
      let w :=
        if bool_decide (p_HostName spec = hostName) then
          let remains := filter (λ a, getPod (a_Pod a) (a_Namespace a) = true) (p_Allocations spec) in
          fst (PatchIPPool w ippoolName remains)
        else w in
      Clean_loop getPod hostName w rest
  end.

Definition CleanHangingAllocation (getPod : string → string → bool) (hostName : string) (w : W) : W * bool :=
  match ListIPPool w [("hostname", hostName)] with
  | Err _ => (w, false)
  | Ok ippoolSpecMap => (Clean_loop getPod hostName w (range_map ippoolSpecMap), true)
  end.

(** no response names what was released *)
Fixpoint DeallocateIP_loop (req : IPRequest) (w : W) (ippools : list (string * IPPoolSpec)) : W :=
  match ippools with
  | [] => w
  | (ippoolName, spec) :: rest =>
      let w :=
        if bool_decide (p_NetAttachDefName spec = rq_NetAttachDefName req)
           && bool_decide (p_HostName spec = rq_HostName req)
        then
          match find_allocation (rq_PodName req) (rq_PodNamespace req) (p_Allocations spec) 0 with
          | None => w
          | Some (index, _) => fst (PatchIPPool w ippoolName (remove_at (p_Allocations spec) index))
          end
        else w in
      DeallocateIP_loop req w rest
  end.

Definition DeallocateIP (now : Z) (req : IPRequest) (d : daemon W) : outcome W (list IPResponse) :=
  let podName := rq_PodName req in
  let history :=
    match d_history d !! podName with
    | Some _ => d_history d
    | None => <[podName := mkRecord now 1]> (d_history d)
    end in
  if d_locked d then Blocked (mkDaemon true history (d_world d)) else
  match ListIPPool (d_world d) (host_def_selector (rq_HostName req) (rq_NetAttachDefName req)) with
  | Err _ => Done (mkDaemon true history (d_world d)) []
  | Ok ippoolSpecMap =>
      Done (mkDaemon false history (DeallocateIP_loop req (d_world d) (range_map ippoolSpecMap))) []
  end.
End stub.

(** ** The choices both make *)

(** a pool with the allocation picked in it *)
Definition choice : Type := string * IPPoolSpec * Allocation.

(** in the order of the pools; a pool that cannot be read gives none *)
Fixpoint choices (req : IPRequest) (offset : Z) (interfaceNames : list string)
    (ippools : list (string * IPPoolSpec)) : list choice :=
  match ippools with
  | [] => []
  | (ippoolName, spec) :: rest =>
      match interfaceNames with
      | [] => []
      | _ =>
          match index_of (p_InterfaceName spec) interfaceNames 0 with
          | None => choices req offset interfaceNames rest
          | Some deleteIndex =>
              let later := choices req offset (remove_at interfaceNames deleteIndex) rest in
              match nextAllocation spec offset with
              | Ret (Some (i, a)) =>
                  (ippoolName, spec, mkAllocation (rq_PodName req) (rq_PodNamespace req) i a) :: later
              | _ => later
              end
          end
      end
  end.

Lemma choices_pools req offset : ∀ pools ifaces c,
  c ∈ choices req offset ifaces pools → c.1 ∈ pools.
Proof.
  induction pools as [|[n s] pools IH]; intros ifaces c Hc; simpl in Hc; [by apply elem_of_nil in Hc|].
  destruct ifaces as [|i ifaces]; [by apply elem_of_nil in Hc|].
  destruct (index_of _ _ _) as [k|]; [|right; by eapply IH].
  destruct (nextAllocation s offset) as [[[j a]|]|]; try (right; by eapply IH).
  apply elem_of_cons in Hc as [->|Hc]; [by left|right; by eapply IH].
Qed.

Lemma choices_nodup req offset : ∀ pools ifaces,
  NoDup pools.*1 → NoDup ((λ c : choice, c.1.1) <$> choices req offset ifaces pools).
Proof.
  induction pools as [|[n s] pools IH]; intros ifaces Hnd; simpl; [constructor|].
  simpl in Hnd. apply NoDup_cons in Hnd as [Hn Hnd]. destruct ifaces as [|i ifaces]; [constructor|].
  destruct (index_of _ _ _) as [k|]; [|by apply IH].
  destruct (nextAllocation s offset) as [[[j a]|]|]; try by apply IH.
  simpl. apply NoDup_cons. split; [|by apply IH].
  intros ([[n' s'] a'] & -> & Hin)%list_elem_of_fmap. apply choices_pools in Hin.
  apply Hn. simpl in *. by apply (list_elem_of_fmap_2 fst _ (n', s')).
Qed.

(** without virtual functions the daemon looks for the same interface *)
Lemma match_interface_index fs pool ifaces : ∀ k,
  Forall (λ i, isVF fs i = false) ifaces →
  match_interface fs pool ifaces k = (λ j, (j, pool)) <$> index_of pool ifaces k.
Proof.
  induction ifaces as [|i ifaces IH]; intros k Hvf; simpl; [done|].
  apply Forall_cons in Hvf as [Hi Hvf]. case_bool_decide as Hp; [by subst|]. rewrite Hi. simpl. by apply IH.
Qed.

Definition new_of (c : choice) : string * allocation := (c.1.1, mkNew c.2 (p_InterfaceName c.1.2)).

Lemma allocateIP_choices fs req offset : ∀ pools ifaces acc,
  Forall (λ kv, pool_texts kv.2) pools → Forall (λ i, isVF fs i = false) ifaces →
  allocateIP fs (rq_PodName req) (rq_PodNamespace req) ifaces offset pools acc
  = Ret (foldl (λ m kv, <[kv.1 := kv.2]> m) acc (new_of <$> choices req offset ifaces pools)).
Proof.
  induction pools as [|[n s] pools IH]; intros ifaces acc Hall Hvf; simpl; [done|].
  apply Forall_cons in Hall as [Hs Hall]. destruct ifaces as [|i0 ifaces0]; [done|].
  remember (i0 :: ifaces0) as ifaces eqn:Hif.
  rewrite match_interface_index by done.
  destruct (index_of _ ifaces 0) as [k|]; simpl; [|by apply IH].
  destruct (nextAllocation_total s offset Hs) as [next Hn]. rewrite Hn. simpl.
  assert (Forall (λ i, isVF fs i = false) (remove_at ifaces k)) as Hvf'
    by (apply Forall_app; split; [by apply Forall_take|by apply Forall_drop]).
  destruct next as [[j a]|]; by rewrite IH.
Qed.

Section compare.
Context {W : Type} {api : IPPoolAPI W} {ord : MapRange}.
Context (pool_at : W → string → option IPPoolSpec)
  (listed : list (string * string) → string → Prop) (up : W → Prop).
Context {laws : IPPoolLaws W pool_at} {avail : Available W pool_at listed up}.

(** patches one after the other *)
Fixpoint patches (w : W) (l : list (string * list Allocation)) : W :=
  match l with [] => w | (n, a) :: l => patches (fst (PatchIPPool w n a)) l end.

Lemma patches_spec l : ∀ w,
  up w → NoDup l.*1 → Forall (λ na, is_Some (pool_at w na.1)) l →
  up (patches w l) ∧
  (∀ n a s, (n, a) ∈ l → pool_at w n = Some s → pool_at (patches w l) n = Some (set_Allocations s a)) ∧
  (∀ n, n ∉ l.*1 → pool_at (patches w l) n = pool_at w n).
Proof.
  induction l as [|[n a] l IH]; intros w Hup Hnd Hall; simpl.
  { split_and!; [done|by intros ? ? ? ?%elem_of_nil|done]. }
  simpl in Hnd. apply NoDup_cons in Hnd as [Hn Hnd]. apply Forall_cons in Hall as [Hp Hall]. simpl in Hp.
  destruct (up_patch w n a Hup Hp) as (w1 & E & Hup1). rewrite E. cbn [fst].
  destruct (IH w1 Hup1 Hnd) as (Hup2 & Hin & Hout).
  { eapply Forall_impl; [exact Hall|]. intros [n' a'] Hs. by eapply patch_keeps_pools. }
  split_and!; [done|..].
  - intros n' a' s [[= -> ->]|Hin']%elem_of_cons Hs.
    + rewrite Hout by done. by eapply patch_ok.
    + apply Hin; [done|]. rewrite (patch_other _ _ _ _ _ _ E); [done|]. intros ->. apply Hn.
      by apply (list_elem_of_fmap_2 fst _ (n', a')).
  - intros n' [Hne Hn']%not_elem_of_cons. rewrite Hout by done. by apply (patch_other _ _ _ _ _ _ E).
Qed.

(** the patch and the answer of a choice *)
Definition patch_of (c : choice) : string * list Allocation :=
  (c.1.1, insertAllocation (p_Allocations c.1.2) c.2).

Definition answer_of (c : choice) : IPResponse :=
  mkIPResponse (p_InterfaceName c.1.2) (a_Address c.2)
    (match Compute.after_slash (p_VlanCIDR c.1.2) with Ret b => b | Panic => "" end).

Lemma after_slash_vlan s : pool_texts s → ∃ b, Compute.after_slash (p_VlanCIDR s) = Ret b.
Proof. intros [_ (ip & p & Hv)]. destruct (after_slash_text _ _ _ Hv) as (b & ? & _). eauto. Qed.

Lemma apply_choices m : ∀ cs w,
  up w → Forall (λ c, pool_texts c.1.2 ∧ m !! c.1.1 = Some c.1.2 ∧ is_Some (pool_at w c.1.1)) cs →
  applyNewAllocations w m (new_of <$> cs) = (patches w (patch_of <$> cs), Ret (answer_of <$> cs)).
Proof.
  induction cs as [|[[n s] a] cs IH]; intros w Hup Hall; simpl; [done|].
  apply Forall_cons in Hall as [(Ht & Hm & Hp) Hall]. simpl in *. rewrite Hm. simpl.
  destruct (up_patch w n (insertAllocation (p_Allocations s) a) Hup Hp) as (w1 & E & Hup1). rewrite E.
  destruct (after_slash_vlan s Ht) as [b Hb]. rewrite Hb. cbn [fst]. rewrite IH; [| done |].
  { unfold answer_of at 2. simpl. by rewrite Hb. }
  eapply Forall_impl; [exact Hall|]. intros [[n' s'] a'] (? & ? & ?). split_and!; [done..|].
  by eapply patch_keeps_pools.
Qed.

Lemma stub_choices req offset : ∀ pools ifaces w,
  up w →
  Forall (λ kv, pool_texts kv.2 ∧ p_NetAttachDefName kv.2 = rq_NetAttachDefName req ∧
    p_HostName kv.2 = rq_HostName req ∧ is_Some (pool_at w kv.1)) pools →
  let cs := choices req offset ifaces pools in
  AllocateIP_loop req offset ifaces w pools = (patches w (patch_of <$> cs), Ret (answer_of <$> cs)).
Proof.
  induction pools as [|[n s] pools IH]; intros ifaces w Hup Hall; simpl; [done|].
  apply Forall_cons in Hall as [(Ht & Hd & Hh & Hp) Hall]. simpl in *.
  destruct ifaces as [|i0 ifaces0]; [done|]. remember (i0 :: ifaces0) as ifaces eqn:Hif.
  rewrite Hd, Hh, !bool_decide_eq_true_2 by done. simpl.
  destruct (index_of _ ifaces 0) as [k|]; [|by apply IH].
  destruct (nextAllocation_total s offset Ht) as [[[i a]|] ->]; [|by apply IH]. simpl.
  set (new := mkAllocation _ _ _ _).
  destruct (up_patch w n (insertAllocation (p_Allocations s) new) Hup Hp) as (w1 & E & Hup1). rewrite E.
  destruct (after_slash_vlan s Ht) as [b Hb]. rewrite Hb. cbn [fst]. rewrite IH; [|done|].
  { unfold answer_of at 2. simpl. by rewrite Hb. }
  eapply Forall_impl; [exact Hall|]. intros [n' s'] (? & ? & ? & ?). split_and!; [done..|].
  by eapply patch_keeps_pools.
Qed.

(** patches of distinct pools commute *)
Lemma patches_perm l l' w n :
  up w → NoDup l.*1 → Forall (λ na, is_Some (pool_at w na.1)) l → l ≡ₚ l' →
  pool_at (patches w l) n = pool_at (patches w l') n.
Proof.
  intros Hup Hnd Hall Hperm.
  destruct (patches_spec l w Hup Hnd Hall) as (_ & Hin & Hout).
  destruct (patches_spec l' w Hup) as (_ & Hin' & Hout'); [by rewrite <- Hperm|by rewrite <- Hperm|].
  destruct (decide (n ∈ l.*1)) as [([n' a] & -> & Ha)%list_elem_of_fmap|Hn].
  - rewrite Forall_forall in Hall. destruct (Hall _ Ha) as [s Hs].
    simpl. rewrite (Hin _ _ _ Ha Hs), (Hin' n' a s); [done|by rewrite <- Hperm|done].
  - rewrite Hout, Hout'; [done|by rewrite <- Hperm|done].
Qed.

(** the allocations the daemon collects, in the order of its map *)
Lemma news_order (cs : list choice) :
  NoDup ((λ c : choice, c.1.1) <$> cs) →
  ∃ cs', range_map (foldl (λ m kv, <[kv.1 := kv.2]> m) ∅ (new_of <$> cs)) = new_of <$> cs' ∧ cs ≡ₚ cs'.
Proof.
  intros Hnd. assert ((new_of <$> cs).*1 = (λ c : choice, c.1.1) <$> cs) as Hkeys.
  { rewrite <- list_fmap_compose. done. }
  assert (∀ l : list (string * allocation), NoDup l.*1 →
    foldl (λ m kv, <[kv.1 := kv.2]> m) ∅ l = (list_to_map l : gmap string allocation)) as Hfold.
  { induction l as [|[k x] l IH] using rev_ind; intros Hn; [done|]. rewrite foldl_snoc.
    rewrite fmap_app in Hn. apply NoDup_app in Hn as (Hn & Hx & _). rewrite IH by done. simpl.
    rewrite list_to_map_snoc; [done|]. intros Hk. apply (Hx k Hk). apply list_elem_of_here. }
  assert (range_map (foldl (λ m kv, <[kv.1 := kv.2]> m) ∅ (new_of <$> cs)) ≡ₚ new_of <$> cs) as Hp.
  { rewrite range_map_perm, Hfold by (by rewrite Hkeys). apply map_to_list_to_map. by rewrite Hkeys. }
  by apply (Permutation_map_inv new_of) in Hp.
Qed.
End compare.

(** C15: the stub of the end-to-end tests stands in for the daemon. While the
    cluster answers, for a request without virtual functions and well-formed pools
    that are labelled with the network and host they belong to, the stub's
    allocator and the daemon's both answer, with the same responses up to their
    order, and leave the same pools, the same history and a free mutex. *)
Theorem stub_allocates_like_daemon {W} {api : IPPoolAPI W} {ord : MapRange} pool_at listed up fs clk req (d : daemon W) :
  IPPoolLaws W pool_at → Available W pool_at listed up →
  d_locked d = false → up (d_world d) →
  let sel := host_def_selector (rq_HostName req) (rq_NetAttachDefName req) in
  (∀ n s, pool_at (d_world d) n = Some s → listed sel n →
     pool_texts s ∧ p_NetAttachDefName s = rq_NetAttachDefName req ∧ p_HostName s = rq_HostName req) →
  Forall (λ i, isVF fs i = false) (rq_InterfaceNames req) →
  ∃ d1 rs1 d2 rs2,
    AllocateIP clk req d = Done d1 rs1 ∧ Allocator.AllocateIP fs clk req d = Done d2 rs2 ∧
    rs1 ≡ₚ rs2 ∧ (∀ n, pool_at (d_world d1) n = pool_at (d_world d2) n) ∧
    d_history d1 = d_history d2 ∧ d_locked d1 = false ∧ d_locked d2 = false.
Proof.
  intros Hlaws Hav Hl Hup sel Hpools Hvf. unfold AllocateIP, Allocator.AllocateIP. fold sel.
  destruct (match FlushExpiredHistory clk (d_history d) !! rq_PodName req with Some _ => _ | None => _ end)
    as [offset history].
  rewrite Hl. destruct (up_list (d_world d) sel Hup) as (m & -> & Hm).
  set (cs := choices req offset (rq_InterfaceNames req) (range_map m)).
  assert (Forall (λ kv, pool_texts kv.2 ∧ p_NetAttachDefName kv.2 = rq_NetAttachDefName req ∧
    p_HostName kv.2 = rq_HostName req ∧ is_Some (pool_at (d_world d) kv.1)) (range_map m)) as Hall.
  { apply Forall_forall. intros [n s] Hin%elem_of_range_map. apply Hm in Hin as [Hs Hsel].
    destruct (Hpools n s Hs Hsel) as (? & ? & ?). split_and!; eauto. }
  rewrite (stub_choices pool_at listed up req offset _ _ _ Hup Hall). fold cs.
  destruct (decide (m = ∅)) as [->|Hne].
  { assert (range_map (∅ : gmap string IPPoolSpec) = []) as Hnil
      by (apply Permutation_nil_r; by rewrite range_map_perm, map_to_list_empty).
    unfold cs. rewrite Hnil, bool_decide_eq_true_2 by done. eexists _, _, _, _. by split_and!. }
  rewrite bool_decide_eq_false_2 by done.
  rewrite allocateIP_choices; [|eapply Forall_impl; [exact Hall|by intros ? [? _]]|done]. fold cs.
  destruct (news_order cs (choices_nodup _ _ _ _ (range_map_keys_nodup m))) as (cs' & -> & Hperm).
  assert (Forall (λ c : choice, pool_texts c.1.2 ∧ m !! c.1.1 = Some c.1.2 ∧ is_Some (pool_at (d_world d) c.1.1)) cs)
    as Hcs.
  { apply Forall_forall. intros c Hc. apply choices_pools in Hc as Hin.
    destruct (proj1 (Forall_forall _ _) Hall _ Hin) as (? & _ & _ & ?). destruct c as [[n s] a]. simpl in *.
    split_and!; [done| |done]. by apply elem_of_range_map. }
  rewrite (apply_choices pool_at listed up); [|done|by rewrite <- Hperm].
  eexists _, _, _, _. split_and!; [done|done|by rewrite Hperm| |done..]. simpl.
  intros n. apply (patches_perm pool_at listed up); [done|..].
  - rewrite <- list_fmap_compose. apply choices_nodup, range_map_keys_nodup.
  - apply Forall_fmap. eapply Forall_impl; [exact Hcs|]. by intros c (_ & _ & ?).
  - by rewrite Hperm.
Qed.

(** ** The example cluster *)

#[local] Existing Instance map_to_list_range.

Lemma stub_allocates_like_daemon_witness :
  ∃ d1 rs1 d2 rs2,
    AllocateIP (λ _, 0) (ex_req "b") (ex_daemon [al "a" 1] false) = Done d1 rs1 ∧
    Allocator.AllocateIP no_vf (λ _, 0) (ex_req "b") (ex_daemon [al "a" 1] false) = Done d2 rs2 ∧
    rs1 ≡ₚ rs2 ∧ (∀ n, mem_pool_at (d_world d1) n = mem_pool_at (d_world d2) n) ∧
    d_history d1 = d_history d2 ∧ d_locked d1 = false ∧ d_locked d2 = false.
Proof.
  apply (stub_allocates_like_daemon mem_pool_at (mem_listed ex_labels_of) (mem_up ex_labels_of) no_vf
           (λ _, 0) (ex_req "b") (ex_daemon [al "a" 1] false)).
  - apply memstore_laws.
  - apply mem_available.
  - reflexivity.
  - apply ex_up.
  - intros n s [_ ->]%ex_only _. split; [apply ex_pool_texts|done].
  - repeat constructor.
Defined.

(** the stub never unlocks after a failed list: the next request waits for ever *)
Example stub_list_error_locks :
  match AllocateIP (λ _, 0) (ex_req "b") (ex_daemon [al "a" 1] true) with
  | Done d _ => AllocateIP (λ _, 0) (ex_req "c") d = Blocked d
  | _ => False
  end.
Proof. vm_compute. reflexivity. Qed.
