(* ===== verification/StubServer.v ===== *)
(** * e2e-test/daemon-stub/daemon.go: the HTTP server of the daemon stub

    In the end-to-end tests a pod per simulated node runs this server instead of the
    daemon.  It answers on the daemon's paths: interfaces and selections are made up
    from the address of the pod, routes are accepted without a change, and addresses
    come from the allocator of [DaemonStub].  The only state is the allocator's. *)

From S2P Require Import Prelude GoLib GoText Json JsonSpec Types Allocator Iface Selector Route Messages.
From S2P Require Import Daemon DaemonStub.
Import Json.

(** the package variables that [main] sets *)
Record Settings := mkSettings {
  st_hostIP : string;
  st_hostName : string;
  st_daemonPort : Z;
  st_netAddresses : list string
}.

Definition interfaceNames : list string := ["eth0"; "eth1"; "eth2"].
Definition netAddresses : list string := [""; "10.0.0.0/16"; "10.1.0.0/16"].
Definition pciAddresses : list string := ["0000:00:03.0"; "0000:00:04.0"; "0000:00:05.0"].
Definition vendor : string := "1af4".
Definition product : string := "1000".

(** [l[i]] *)
Definition at_index (l : list string) (i : nat) : go string :=
  match l !! i with Some s => Ret s | None => Panic end.

(** ** Start *)

(** [log.Fatal] without HOST_IP; the first network is that of the address *)
Inductive start := Fatal | Listening (s : Settings).

Definition main (env : string → option string) (hostname : string + string) : go start :=
  let hostName := initHostName env hostname in
  match env "HOST_IP" with
  | None => Ret Fatal
  | Some hostIP =>
      let daemonPort := daemon_port env in
      let ipSplits := Strings.Split hostIP "."%char in
      a ← at_index ipSplits 0; b ← at_index ipSplits 1;
      Ret (Listening (mkSettings hostIP hostName daemonPort
                        (<[0%nat := a +:+ "." +:+ b +:+ ".0.0/16"]> netAddresses)))
  end.

(** ** Interfaces *)

Fixpoint secondary_ips (hostIP : string) (nets : list string) : go (list string) :=
  match nets with
  | [] => Ret []
  | netAddress :: rest =>
      let netSplits := Strings.Split netAddress "."%char in
      let ipSplits := Strings.Split hostIP "."%char in
      a ← at_index netSplits 0; b ← at_index netSplits 1;
      c ← at_index ipSplits 2; d ← at_index ipSplits 3;
      ips ← secondary_ips hostIP rest;
      Ret ((a +:+ "." +:+ b +:+ "." +:+ c +:+ "." +:+ d) :: ips)
  end.

Definition getSecondaryHostIPFromMainIP (st : Settings) : go (list string) :=
  secondary_ips (st_hostIP st) (st_netAddresses st).

Fixpoint interfaces_from (st : Settings) (hostIPs : list string) (index : nat) (names : list string)
    : go (list InterfaceInfoType) :=
  match names with
  | [] => Ret []
  | interfaceName :: rest =>
      net ← at_index (st_netAddresses st) index; ip ← at_index hostIPs index;
      pci ← at_index pciAddresses index;
      l ← interfaces_from st hostIPs (S index) rest;
      Ret (mkInterfaceInfo interfaceName net ip vendor product pci :: l)
  end.

Definition getInterfaces (st : Settings) : go (list InterfaceInfoType) :=
  hostIPs ← getSecondaryHostIPFromMainIP st; interfaces_from st hostIPs 0 interfaceNames.

Definition routeResponse : RouteUpdateResponse := mkRouteResp true "".

(** the POST of a greeting, if any *)
Definition Greet (st : Settings) (targetHost myIP : string) : option (string * string) :=
  if bool_decide (targetHost = myIP) then None
  else Some ("http://" +:+ targetHost +:+ ":" +:+ Strconv.Itoa (st_daemonPort st) +:+ "/greet",
             print (JStr myIP)).

(** ** Handlers *)

Section stub.
Context {mux : Mux}.
Context {W : Type} {api : IPPoolAPI W} {ord : MapRange}.
Context (st : Settings) (clk : string → Z) (now : Z).

Definition node_name (host : string) : string :=
  if Strings.Contains (st_hostName st) host then st_hostName st else host.

Definition request_host (r : IPRequest) : IPRequest :=
  mkIPRequest (rq_PodName r) (rq_PodNamespace r) (node_name (rq_HostName r))
    (rq_NetAttachDefName r) (rq_InterfaceNames r).

Definition Join (d : daemon W) (body : string) : daemon W * reply := (d, ok_reply (JStr "")).

Definition GreetAck (d : daemon W) (body : string) : daemon W * reply * list (string * string) :=
  let '(host, _) := Unmarshal dec_string body "" in
  (d, ok_reply (JStr ""), if bool_decide (host = "") then [] else option_list (Greet st host "")).

Definition GetInterface (d : daemon W) : daemon W * reply :=
  (d, match getInterfaces st with Ret l => ok_reply (w_json l) | Panic => NoReply end).

(** the four route handlers *)
Definition AddRoute (d : daemon W) : daemon W * reply := (d, ok_reply (w_json routeResponse)).
Definition ApplyL3Config (d : daemon W) : daemon W * reply := (d, ok_reply (w_json routeResponse)).
Definition DeleteL3Config (d : daemon W) : daemon W * reply := (d, ok_reply (w_json routeResponse)).
Definition DeleteRoute (d : daemon W) : daemon W * reply := (d, ok_reply (w_json routeResponse)).

Definition SelectNic (d : daemon W) : daemon W * reply :=
  (d, ok_reply (w_json (mkNICResponse [] interfaceNames))).

Definition Allocate (d : daemon W) (body : string) : daemon W * reply :=
  let '(req, err_nil) := Unmarshal w_dec body (w_zero (A := IPRequest)) in
  let req := request_host req in
  if (err_nil : bool) then
    match DaemonStub.AllocateIP clk req d with
    | Done d ipResponses => (d, ok_reply (w_json ipResponses))
    | Blocked d | Crashed d => (d, NoReply)
    end
  else (d, ok_reply (w_json (A := list IPResponse) [])).

(** the answer does not name what was released *)
Definition Deallocate (d : daemon W) (body : string) : daemon W * reply :=
  let '(req, err_nil) := Unmarshal w_dec body (w_zero (A := IPRequest)) in
  let req := request_host req in
  if (err_nil : bool) then
    match DaemonStub.DeallocateIP now req d with
    | Done d _ => (d, ok_reply (JStr ""))
    | Blocked d | Crashed d => (d, NoReply)
    end
  else (d, ok_reply (JStr "")).

Definition no_greeting (r : daemon W * reply) : daemon W * reply * list (string * string) := (r, []).

(** the table of routes is the daemon's *)
Definition handleRequests (d : daemon W) (method path body : string)
    : daemon W * reply * list (string * string) :=
  match mux_serve endpoints method path with
  | inl EJoin => no_greeting (Join d body)
  | inl EGreet => GreetAck d body
  | inl EInterface => no_greeting (GetInterface d)
  | inl EAddRoute => no_greeting (AddRoute d)
  | inl EDeleteRoute => no_greeting (DeleteRoute d)
  | inl EAddL3 => no_greeting (ApplyL3Config d)
  | inl EDeleteL3 => no_greeting (DeleteL3Config d)
  | inl ESelect => no_greeting (SelectNic d)
  | inl EAllocate => no_greeting (Allocate d body)
  | inl EDeallocate => no_greeting (Deallocate d body)
  | inr (code, text) => (d, Reply code text, [])
  end.
End stub.
