(* ===== verification/CniStub.v ===== *)
(** * e2e-test/cni-stub: the plugin stub

    In the end-to-end tests this command plays the plugin for a number of pods of a
    host: [cni.go] writes the configuration of a network, reads it back, and for every
    pod selects interfaces and requests addresses from the daemon, each with a bounded
    number of attempts, or gives the addresses back; [exec/selector.go] and
    [exec/ipam.go] have the requests. *)

From S2P Require Import Prelude GoLib GoText Json JsonSpec Types Selector Messages Cni Ipam.
Import Json.

Definition podNamePrefix : string := "pod".
Definition podNamespace : string := "default".
Definition maxTry : nat := 5.
Definition POOL_NETWORK_ADDRESSES : list string := ["10.0.0.0/16"; "10.1.0.0/16"].

(** ** The configuration as text *)

(** a line break and two or three tabulators *)
Definition nl2 : string := String (chr 10) (String (chr 9) (String (chr 9) "")).
Definition nl3 : string := nl2 +:+ String (chr 9) "".

(** "key": *)
Definition key (k : string) : string := quoted k +:+ ": ".

Definition getConfig (daemonIP : string) (daemonPort : Z) : string :=
  let masterNets := print (JStrs POOL_NETWORK_ADDRESSES) in
  let ipamValue :=
    key "ipam" +:+ "{" +:+
      nl2 +:+ key "type" +:+ quoted "multi-nic-ipam" +:+ "," +:+
      nl2 +:+ key "hostBlock" +:+ "8," +:+
      nl2 +:+ key "interfaceBlock" +:+ "2," +:+
      nl2 +:+ key "daemonIP" +:+ quoted daemonIP +:+ "," +:+
      nl2 +:+ key "daemonPort" +:+ Strconv.Itoa daemonPort +:+
      nl2 +:+ "}," +:+
    nl2 +:+ key "multiNICIPAM" +:+ "true," in
  "{ " +:+
    nl2 +:+ key "cniVersion" +:+ quoted "0.3.0" +:+ ", " +:+
    nl2 +:+ key "name" +:+ quoted "multi-nic-sample" +:+ "," +:+
    nl2 +:+ key "type" +:+ quoted "multi-nic" +:+ "," +:+
    nl2 +:+ key "plugin" +:+ "{" +:+
      nl3 +:+ key "cniVersion" +:+ quoted "0.3.0" +:+ "," +:+
      nl3 +:+ key "type" +:+ quoted "ipvlan" +:+ "," +:+
      nl3 +:+ key "mode" +:+ quoted "l3" +:+
    nl2 +:+ "}," +:+
    nl2 +:+ key "vlanMode" +:+ quoted "l3" +:+ "," +:+
    nl2 +:+ ipamValue +:+
    nl2 +:+ key "daemonIP" +:+ quoted daemonIP +:+ "," +:+
    nl2 +:+ key "daemonPort" +:+ Strconv.Itoa daemonPort +:+ "," +:+
    nl2 +:+ key "subnet" +:+ quoted "192.168.0.0/16" +:+ "," +:+
    nl2 +:+ key "masterNets" +:+ masterNets +:+
    nl2 +:+ "}".

Section stub.
Context `{CniLib} {W : Type} `{Http W}.
Context (json_err : string → string).

Record NetConf := mkConf {
  sc_NetConf : net_conf;
  sc_MainPlugin : option (gmap string json);
  sc_Subnet : string;
  sc_MasterNetAddrs : list string;
  sc_DeviceIDs : list string;
  sc_Masters : list string;
  sc_IsMultiNICIPAM : bool;
  sc_DaemonIP : string;
  sc_DaemonPort : Z;
  sc_Args : option (option NicArgs)
}.

Definition zero_conf : NetConf := mkConf empty_netconf None "" [] [] [] false "" 0 None.

Definition conf_fields : fields NetConf := [
  field "plugin" (dec_map JNull dec_any) sc_MainPlugin
    (λ x '(mkConf c _ s a d m i p q g), mkConf c x s a d m i p q g);
  field "subnet" dec_string sc_Subnet
    (λ x '(mkConf c l _ a d m i p q g), mkConf c l x a d m i p q g);
  field "masterNets" (dec_slice "" dec_string) sc_MasterNetAddrs
    (λ x '(mkConf c l s _ d m i p q g), mkConf c l s x d m i p q g);
  field "deviceIDs" (dec_slice "" dec_string) sc_DeviceIDs
    (λ x '(mkConf c l s a _ m i p q g), mkConf c l s a x m i p q g);
  field "masters" (dec_slice "" dec_string) sc_Masters
    (λ x '(mkConf c l s a d _ i p q g), mkConf c l s a d x i p q g);
  field "multiNICIPAM" dec_bool sc_IsMultiNICIPAM
    (λ x '(mkConf c l s a d m _ p q g), mkConf c l s a d m x p q g);
  field "daemonIP" dec_string sc_DaemonIP
    (λ x '(mkConf c l s a d m i _ q g), mkConf c l s a d m i x q g);
  field "daemonPort" dec_int sc_DaemonPort
    (λ x '(mkConf c l s a d m i p _ g), mkConf c l s a d m i p x g);
  field "args"
    (dec_ptr None (dec_struct [field "cni" (dec_ptr w_zero w_dec) id (λ x _, x)]))
    sc_Args (λ x '(mkConf c l s a d m i p q _), mkConf c l s a d m i p q x)]
  ++ embed sc_NetConf (λ x '(mkConf _ l s a d m i p q g), mkConf x l s a d m i p q g) netconf_fields.

Definition dec_conf : decoder NetConf := dec_struct conf_fields.

(** ** exec/selector.go, exec/ipam.go *)

Definition SelectNICs (w : W) (daemonIP : string) (daemonPort : Z)
    (podName podNamespace hostName defName : string) (nicSet : NicArgs) (masterNets : list string)
    : W * (NICSelectResponse * option string) :=
  let daemonPort := if daemonPort =? 0 then 11000 else daemonPort in
  let daemonIP := if bool_decide (daemonIP = "") then "localhost" else daemonIP in
  post_message json_err w (daemon_address daemonIP daemonPort "select")
    (mkNICRequest podName podNamespace hostName defName masterNets nicSet)
    (λ r, bool_decide (np_Masters r = [])).

(** no default address and port *)
Definition RequestIP (w : W) (daemonIP : string) (daemonPort : Z)
    (podName podNamespace hostName defName : string) (masters : list string)
    : W * (list IPResponse * option string) :=
  post_message json_err w (daemon_address daemonIP daemonPort "allocate")
    (mkIPRequest podName podNamespace hostName defName masters) (λ r, bool_decide (r = [])).

(** the answer is not read *)
Definition Deallocate (w : W) (daemonIP : string) (daemonPort : Z)
    (podName podNamespace hostName defName : string) : W * option string :=
  let request := mkIPRequest podName podNamespace hostName defName [] in
  let '(w, res) := post w (daemon_address daemonIP daemonPort "deallocate") (print (w_json request)) in
  (w, match res with
      | PostFail e => Some ("post fail: " +:+ e)
      | Response code status _ => if negb (code =? 200) then Some status else None
      end).

(** ** cni.go *)

Definition pod_name (hostName : string) (i : Z) : string :=
  podNamePrefix +:+ "-" +:+ hostName +:+ "-" +:+ Strconv.Itoa i.

(** [%v] of an error *)
Definition error_text (err : option string) : string := default "<nil>" err.

(** [more] attempts follow the first one: it is [maxTry + 1 - tried] *)
Fixpoint select_loop (more : nat) (w : W) (n : NetConf) (podName hostName : string)
    : W * (NICSelectResponse + string) :=
  let '(w, (response, err)) :=
    SelectNICs w (sc_DaemonIP n) (sc_DaemonPort n) podName podNamespace hostName
      (nc_Name (sc_NetConf n)) (mkNicArgs 0 [] "" "") (sc_MasterNetAddrs n) in
  if bool_decide (np_Masters response = []) || negb (bool_decide (err = None)) then
    match more with
    | O => (w, inr ("Failed to select NIC: " +:+ Strconv.Itoa (Z.of_nat (length (np_Masters response)))
                    +:+ ", " +:+ error_text err))
    | S more => select_loop more w n podName hostName
    end
  else (w, inl response).

Fixpoint request_loop (more : nat) (w : W) (n : NetConf) (podName hostName : string)
    (masters : list string) : W * option string :=
  let '(w, (ipResponses, err)) :=
    RequestIP w (sc_DaemonIP n) (sc_DaemonPort n) podName podNamespace hostName
      (nc_Name (sc_NetConf n)) masters in
  if bool_decide (ipResponses = []) || negb (bool_decide (err = None)) then
    match more with
    | O => (w, Some ("Failed to allocate IP: " +:+ Strconv.Itoa (Z.of_nat (length ipResponses))
                     +:+ ", " +:+ error_text err))
    | S more => request_loop more w n podName hostName masters
    end
  else (w, None).

(** [tried] starts at 1 and the loop gives up when it is above [maxTry] *)
Definition create_pod (w : W) (n : NetConf) (podName hostName : string) : W * option string :=
  let '(w, selected) := select_loop maxTry w n podName hostName in
  match selected with
  | inr e => (w, Some e)
  | inl response => request_loop maxTry w n podName hostName (np_Masters response)
  end.

Fixpoint create_pods (numOfPod : nat) (i : Z) (w : W) (n : NetConf) (hostName : string)
    : W * option string :=
  match numOfPod with
  | O => (w, None)
  | S numOfPod =>
      let '(w, err) := create_pod w n (pod_name hostName i) hostName in
      match err with
      | Some e => (w, Some e)
      | None => create_pods numOfPod (i + 1) w n hostName
      end
  end.

Definition on_pod_create (w : W) (startI numOfPod : Z) (hostName daemonIP : string) (daemonPort : Z)
    : W * option string :=
  let conf := getConfig daemonIP daemonPort in
  match Unmarshal dec_conf conf zero_conf with
  | (_, false) => (w, Some (json_err conf))
  | (n, true) => create_pods (Z.to_nat (i64 (startI + numOfPod) - startI)) startI w n hostName
  end.

(** errors of the requests are dropped *)
Fixpoint delete_pods (numOfPod : nat) (i : Z) (w : W) (n : NetConf) (hostName : string) : W :=
  match numOfPod with
  | O => w
  | S numOfPod =>
      let '(w, _) := Deallocate w (sc_DaemonIP n) (sc_DaemonPort n) (pod_name hostName i) podNamespace
                       hostName (nc_Name (sc_NetConf n)) in
      delete_pods numOfPod (i + 1) w n hostName
  end.

Definition on_pod_delete (w : W) (startI numOfPod : Z) (hostName daemonIP : string) (daemonPort : Z)
    : W * option string :=
  let conf := getConfig daemonIP daemonPort in
  match Unmarshal dec_conf conf zero_conf with
  | (_, false) => (w, Some (json_err conf))
  | (n, true) => (delete_pods (Z.to_nat (i64 (startI + numOfPod) - startI)) startI w n hostName, None)
  end.

(** the flags of the command *)
Record Flags := mkFlags {
  fl_Cmd : string;
  fl_StartI : Z;
  fl_NumOfPod : Z;
  fl_HostName : string;
  fl_DaemonIP : string;
  fl_DaemonPort : Z
}.

(** what is logged as a failure *)
Definition main (f : Flags) (w : W) : W * option string :=
  let run := if bool_decide (fl_Cmd f = "add") then Some on_pod_create
             else if bool_decide (fl_Cmd f = "delete") then Some on_pod_delete else None in
  match run with
  | None => (w, None)
  | Some run => run w (fl_StartI f) (fl_NumOfPod f) (fl_HostName f) (fl_DaemonIP f) (fl_DaemonPort f)
  end.
End stub.

Arguments NetConf {_}.

(** the text is read as meant *)
Example getConfig_ex :
  let '(n, ok) := Unmarshal (dec_conf (H := cni_plain)) (getConfig "172.17.0.2" 11000) zero_conf in
  ok = true ∧ sc_DaemonIP n = "172.17.0.2" ∧ sc_DaemonPort n = 11000 ∧
  nc_Name (sc_NetConf n) = "multi-nic-sample" ∧ sc_MasterNetAddrs n = POOL_NETWORK_ADDRESSES.
Proof. vm_compute. done. Qed.
