(* ===== verification/StubProps.v ===== *)
(** * The end-to-end test of the stubs

    A series of pods on the allocator of the daemon stub: creating pods one after the
    other appends one allocation per pod, with consecutive indexes, to every pool of the
    host and network; releasing them in the same order takes the allocations from the
    front of what was appended.  Then the plugin stub connected to the server of the
    daemon stub: the configuration the plugin stub writes is read as meant, and creating
    and deleting a number of pods of a host runs through the requests, the server and
    the allocator. *)

From S2P Require Import Prelude GoLib GoText Json JsonSpec JsonText Types Allocator AllocatorSpec.
From S2P Require Import AllocatorProps AllocatorProgress K8s Iface Selector Route Messages Daemon Cni Ipam.
From S2P Require Import IpamProps DaemonStub StubServer CniStub.
Import Json.

(** ** A pool with the allocations of a series *)

(** the prefix length of the pool's network *)
Definition pool_prefix (s : IPPoolSpec) : Z :=
  match Strings.Split (p_PodCIDR s) "/"%char with
  | [_; m] => default 0 (Net.prefix_len m)
  | _ => 0
  end.

Lemma pool_prefix_net s ip p : pool_net s ip p → pool_prefix s = p.
Proof. intros [(a & m & Hs & _ & Hm) _]. unfold pool_prefix. by rewrite Hs, Hm. Qed.

(** the limit of the indexes and the greatest one in use *)
Definition limit (s : IPPoolSpec) : Z := 2 ^ (32 - pool_prefix s) - 2.
Definition top (s : IPPoolSpec) : Z := default 0 (last (sort_ints (used s (limit s)))).

Section series.
Context (name : Z → string) (ns : string).

(** the allocation of the [j]-th pod *)
Definition pod_alloc (s : IPPoolSpec) (j : Z) : Allocation :=
  mkAllocation (name j) ns (top s + j + 1) (getAddressByIndex (p_PodCIDR s) (top s + j + 1)).

(** the allocations of the pods [lo], ..., [lo + n - 1] *)
Definition with_pods (s : IPPoolSpec) (lo n : Z) : IPPoolSpec :=
  set_Allocations s (p_Allocations s ++ (pod_alloc s <$> seqZ lo n)).

Lemma with_pods_0 s lo : with_pods s lo 0 = s.
Proof. unfold with_pods. rewrite seqZ_nil, app_nil_r by done. by destruct s. Qed.

Lemma default_last_max l x :
  x ∈ l → (∀ y, y ∈ l → y ≤ x) → default 0 (last (sort_ints l)) = x.
Proof.
  intros Hx Hmax. pose proof (default_last_bound l x Hx) as Hle.
  destruct (last (sort_ints l)) as [y|] eqn:E; cbn in *.
  - apply last_Some_elem_of in E. rewrite elem_of_sort_ints in E. specialize (Hmax y E). lia.
  - apply last_None in E. rewrite <- elem_of_sort_ints, E in Hx. by apply elem_of_nil in Hx.
Qed.

Lemma old_index_bound s a : a ∈ p_Allocations s → a_Index a ≤ top s.
Proof.
  intros Ha. apply default_last_bound. unfold used. apply elem_of_app. left.
  by apply (list_elem_of_fmap_2 a_Index).
Qed.

Lemma with_pods_top s k :
  0 ≤ k → default 0 (last (sort_ints (used (with_pods s 0 k) (limit s)))) = top s + k.
Proof.
  intros Hk. destruct (decide (k = 0)) as [->|]; [rewrite with_pods_0; unfold top; lia|].
  apply default_last_max; unfold used, with_pods; cbn [p_Allocations set_Allocations p_PodCIDR p_Excludes].
  - apply elem_of_app. left. rewrite fmap_app. apply elem_of_app. right.
    apply list_elem_of_fmap. exists (pod_alloc s (k - 1)). split; [cbn; lia|].
    apply (list_elem_of_fmap_2 (pod_alloc s)), elem_of_seqZ. lia.
  - intros y [Hy|Hy]%elem_of_app.
    + rewrite fmap_app in Hy. apply elem_of_app in Hy as [(a & -> & Ha)%list_elem_of_fmap|Hy].
      * pose proof (old_index_bound s a Ha). lia.
      * apply list_elem_of_fmap in Hy as (a & -> & (j & -> & Hj%elem_of_seqZ)%list_elem_of_fmap).
        cbn. lia.
    + assert (y ∈ used s (limit s)) as Hb%default_last_bound by (apply elem_of_app; by right).
      unfold top. lia.
Qed.

(** the next pod gets the next index *)
Lemma with_pods_next s ip p k :
  pool_net s ip p → 0 ≤ k → top s + k + 1 < limit s →
  nextAllocation (with_pods s 0 k) 1 =
  Ret (Some (top s + k + 1, getAddressByIndex (p_PodCIDR s) (top s + k + 1))).
Proof.
  intros Hnet Hk Hroom. rewrite (nextAllocation_eq _ ip p) by done. cbv zeta.
  replace (2 ^ (32 - p) - 2) with (limit s) by (unfold limit; by rewrite (pool_prefix_net _ _ _ Hnet)).
  rewrite with_pods_top by done. cbn [p_PodCIDR with_pods set_Allocations].
  by destruct (Z.ltb_spec (top s + k + 1) (limit s)); [|lia].
Qed.

Lemma with_pods_insert s k :
  0 ≤ k → insertAllocation (p_Allocations (with_pods s 0 k)) (pod_alloc s k)
          = p_Allocations (with_pods s 0 (k + 1)).
Proof.
  intros Hk. cbn [p_Allocations with_pods set_Allocations].
  rewrite insertAllocation_append.
  - rewrite seqZ_app, fmap_app, app_assoc, Z.add_0_l by lia. by rewrite (seqZ_cons k 1), (seqZ_nil _ (Z.pred 1)) by lia.
  - apply Forall_app. split; apply Forall_forall.
    + intros a Ha. pose proof (old_index_bound s a Ha). cbn. lia.
    + intros a (j & -> & Hj%elem_of_seqZ)%list_elem_of_fmap. cbn. lia.
Qed.

(** the first pod of the series is found behind the allocations of others *)
Lemma with_pods_found s lo n :
  0 < n → Forall (λ a, (a_Pod a, a_Namespace a) ≠ (name lo, ns)) (p_Allocations s) →
  find_allocation (name lo) ns (p_Allocations (with_pods s lo n)) 0
  = Some (length (p_Allocations s), pod_alloc s lo).
Proof.
  intros Hn Hall. cbn [p_Allocations with_pods set_Allocations]. rewrite seqZ_cons by lia.
  by rewrite fmap_cons, find_allocation_app.
Qed.

Lemma with_pods_remove s lo n :
  0 < n → remove_at (p_Allocations (with_pods s lo n)) (length (p_Allocations s))
          = p_Allocations (with_pods s (lo + 1) (n - 1)).
Proof.
  intros Hn. cbn [p_Allocations with_pods set_Allocations]. rewrite seqZ_cons by lia.
  cbn [fmap list_fmap]. rewrite remove_at_middle. do 3 f_equal; lia.
Qed.
End series.

(** ** Every requested pool is served *)

Lemma index_of_member x l : x ∈ l → ∀ k, ∃ j, index_of x l k = Some (k + j)%nat ∧ l !! j = Some x.
Proof.
  induction l as [|y l IH]; [by intros ?%elem_of_nil|]. intros Hx k. cbn. case_bool_decide as Hy.
  - subst. exists O. split; [by rewrite Nat.add_0_r|done].
  - apply elem_of_cons in Hx as [?|Hx]; [done|]. destruct (IH Hx (S k)) as (j & -> & ?).
    exists (S j). split; [f_equal; lia|done].
Qed.

Lemma choices_all req offset n s i a : ∀ pools ifaces,
  NoDup ((λ kv, p_InterfaceName kv.2) <$> pools) →
  Forall (λ kv, p_InterfaceName kv.2 ∈ ifaces) pools → (n, s) ∈ pools →
  nextAllocation s offset = Ret (Some (i, a)) →
  (n, s, mkAllocation (rq_PodName req) (rq_PodNamespace req) i a) ∈ choices req offset ifaces pools.
Proof.
  induction pools as [|[n0 s0] pools IH]; intros ifaces Hnd Hall Hin Hnext; [by apply elem_of_nil in Hin|].
  apply NoDup_cons in Hnd as [Hnot Hnd]. apply Forall_cons in Hall as [Hi Hall]. cbn in *.
  destruct ifaces as [|i0 ifaces0]; [by apply elem_of_nil in Hi|].
  destruct (index_of_member _ _ Hi 0) as (j & -> & Hj). cbn.
  assert (Forall (λ kv, p_InterfaceName kv.2 ∈ remove_at (i0 :: ifaces0) j) pools) as Hall'.
  { rewrite Forall_forall in Hall |- *. intros kv Hkv. eapply elem_of_remove_at; [by apply Hall|done|].
    intros E. apply Hnot. rewrite <- E. by apply (list_elem_of_fmap_2 (λ kv, p_InterfaceName kv.2)). }
  apply elem_of_cons in Hin as [[= <- <-]|Hin].
  - rewrite Hnext. by left.
  - specialize (IH _ Hnd Hall' Hin Hnext). repeat case_match; [by right|done..].
Qed.

(** ** Steps of a series *)

(** the texts of an answer are ASCII *)
Definition ascii_answer (r : IPResponse) : Prop :=
  ascii_only (rs_IPAddress r) = true ∧ ascii_only (rs_VLANBlockSize r) = true.

(** a pool the series can use: well formed, of this network and host, for one of the
    interfaces, with room for all pods and nothing of theirs yet *)
Record usable (name : Z → string) (ns host def : string) (ifaces : list string) (total : Z)
    (s : IPPoolSpec) : Prop := {
  us_texts : pool_texts s;
  us_net : ∃ ip p, pool_net s ip p ∧ indexes_ok s p;
  us_def : p_NetAttachDefName s = def;
  us_host : p_HostName s = host;
  us_iface : p_InterfaceName s ∈ ifaces;
  us_room : top s + total < limit s;
  us_new : ∀ j, 0 ≤ j < total → Forall (λ a, (a_Pod a, a_Namespace a) ≠ (name j, ns)) (p_Allocations s)
}.

Section run.
Context {W : Type} {api : IPPoolAPI W} {ord : MapRange}.
Context (pool_at : W → string → option IPPoolSpec)
  (listed : list (string * string) → string → Prop) (up : W → Prop).
Context {laws : IPPoolLaws W pool_at} {avail : Available W pool_at listed up}.
Context (name : Z → string) (ns host def : string) (ifaces : list string) (total : Z) (w0 : W).

Abbreviation sel := (host_def_selector host def).

Hypothesis pools_usable : ∀ n s, pool_at w0 n = Some s → listed sel n →
  usable name ns host def ifaces total s.
Hypothesis pools_distinct : ∀ n s n' s', pool_at w0 n = Some s → pool_at w0 n' = Some s' →
  listed sel n → listed sel n' → p_InterfaceName s = p_InterfaceName s' → n = n'.

(** the pools of the network and host hold the pods [lo], ..., [lo + k - 1] on top of
    what they had; other pools are as they were *)
Definition holds (lo k : Z) (w : W) : Prop :=
  up w ∧
  (∀ n s, pool_at w0 n = Some s → listed sel n → pool_at w n = Some (with_pods name ns s lo k)) ∧
  (∀ n, pool_at w0 n = None ∨ ¬ listed sel n → pool_at w n = pool_at w0 n).

Lemma holds_0 : up w0 → holds 0 0 w0.
Proof. intros Hup. split_and!; [done| |done]. intros n s Hs _. by rewrite with_pods_0. Qed.

(** with no pod left every pool is as it was *)
Lemma holds_none lo w n : up w0 → holds lo 0 w → pool_at w n = pool_at w0 n.
Proof.
  intros Hup (_ & Hin & Hout). destruct (up_list w0 sel Hup) as (m & _ & Hiff).
  destruct (pool_at w0 n) as [s|] eqn:Hs; [|rewrite <- Hs; apply Hout; by left].
  destruct (m !! n) as [s'|] eqn:Hm.
  - apply Hiff in Hm as [_ Hl]. by rewrite (Hin n s Hs Hl), with_pods_0.
  - rewrite <- Hs. apply Hout. right. intros Hl. by rewrite (proj2 (Hiff n s) (conj Hs Hl)) in Hm.
Qed.

Lemma holds_list lo k w :
  holds lo k w → ∃ m, ListIPPool w sel = Ok m ∧
    ∀ n s', m !! n = Some s' ↔ ∃ s, pool_at w0 n = Some s ∧ listed sel n ∧ s' = with_pods name ns s lo k.
Proof.
  intros (Hup & Hin & Hout). destruct (up_list w sel Hup) as (m & Hm & Hiff). exists m. split; [done|].
  intros n s'. rewrite Hiff. split.
  - intros [Hs' Hl]. destruct (pool_at w0 n) as [s|] eqn:Hs.
    + exists s. rewrite (Hin n s Hs Hl) in Hs'. by injection Hs' as <-.
    + rewrite (Hout n (or_introl Hs)), Hs in Hs'. done.
  - intros (s & Hs & Hl & ->). split; [by apply Hin|done].
Qed.

(** patches of exactly the listed pools lead from one state of the series to another *)
Lemma holds_patches lo k lo' k' w l :
  holds lo k w → NoDup l.*1 →
  (∀ n, n ∈ l.*1 ↔ is_Some (pool_at w0 n) ∧ listed sel n) →
  (∀ n a s, (n, a) ∈ l → pool_at w0 n = Some s → a = p_Allocations (with_pods name ns s lo' k')) →
  holds lo' k' (patches w l).
Proof.
  intros (Hup & Hin & Hout) Hnd Hkeys Hl.
  destruct (patches_spec pool_at listed up l w Hup Hnd) as (Hup' & Hin' & Hout').
  { apply Forall_forall. intros [n a] Hna. apply (list_elem_of_fmap_2 fst), Hkeys in Hna as [[s Hs] Hli].
    rewrite (Hin _ s Hs Hli). by eexists. }
  split_and!; [done|..].
  - intros n s Hs Hli. assert (n ∈ l.*1) as ([n' a] & -> & Ha)%list_elem_of_fmap by (apply Hkeys; eauto).
    cbn in *. rewrite (Hin' _ _ _ Ha (Hin _ _ Hs Hli)), (Hl _ _ _ Ha Hs). done.
  - intros n Hn. rewrite Hout'; [by apply Hout|]. rewrite Hkeys. intros [[s Hs] Hli].
    destruct Hn as [Hn|Hn]; [congruence|done].
Qed.

(** the addresses and blocks of the answers *)
Lemma answer_ascii n s k :
  usable name ns host def ifaces total s → 0 ≤ k < total →
  ascii_answer (answer_of (n, with_pods name ns s 0 k, pod_alloc name ns s k)).
Proof.
  intros Hs Hk. destruct (us_net _ _ _ _ _ _ _ Hs) as (ip & p & Hnet & Hix).
  pose proof (us_room _ _ _ _ _ _ _ Hs) as Hroom.
  assert (0 ≤ top s) as Htop.
  { unfold top, limit. rewrite (pool_prefix_net _ _ _ Hnet). apply default_last_nonneg.
    destruct Hix as [_ Hix]. eapply Forall_impl; [exact Hix|]. cbn. lia. }
  unfold limit in Hroom. rewrite (pool_prefix_net _ _ _ Hnet) in Hroom.
  split; cbn [rs_IPAddress rs_VLANBlockSize answer_of snd fst a_Address pod_alloc].
  - destruct Hnet as [Ht Hn].
    destruct (getAddressByIndex_text _ _ _ (top s + k + 1) Ht Hn) as (x & -> & _); [lia|].
    apply ip_string_ascii.
  - destruct (us_texts _ _ _ _ _ _ _ Hs) as [_ (vip & q & a & m & Hsp & _ & Hm)].
    cbn [p_VlanCIDR with_pods set_Allocations]. unfold Compute.after_slash. rewrite Hsp. cbn.
    by eapply prefix_len_ascii.
Qed.
(** the pools of a list of the network and host *)
Lemma range_pools lo k (m : gmap string IPPoolSpec) :
  (∀ n s', m !! n = Some s' ↔
     ∃ s, pool_at w0 n = Some s ∧ listed sel n ∧ s' = with_pods name ns s lo k) →
  NoDup ((λ kv, p_InterfaceName kv.2) <$> range_map m) ∧
  Forall (λ kv, ∃ s, pool_at w0 kv.1 = Some s ∧ listed sel kv.1 ∧ kv.2 = with_pods name ns s lo k)
    (range_map m) ∧
  ∀ n, n ∈ (range_map m).*1 ↔ is_Some (pool_at w0 n) ∧ listed sel n.
Proof.
  intros Hm. assert (Forall (λ kv, ∃ s, pool_at w0 kv.1 = Some s ∧ listed sel kv.1 ∧
    kv.2 = with_pods name ns s lo k) (range_map m)) as Hall.
  { apply Forall_forall. intros [n s'] Hn%elem_of_range_map. by apply Hm. }
  split_and!; [|done|].
  - apply NoDup_fmap_2_strong; [|rewrite range_map_perm; apply NoDup_map_to_list].
    rewrite Forall_forall in Hall. intros [n1 s1] [n2 s2] H1 H2 E.
    destruct (Hall _ H1) as (t1 & Ht1 & Hl1 & E1), (Hall _ H2) as (t2 & Ht2 & Hl2 & E2). cbn in *. subst.
    assert (n1 = n2) as -> by (by eapply (pools_distinct n1 t1 n2 t2)). congruence.
  - intros n. split.
    + intros ([n' s'] & -> & Hn)%list_elem_of_fmap. rewrite Forall_forall in Hall.
      destruct (Hall _ Hn) as (s & Hs & Hl & _). eauto.
    + intros [[s Hs] Hl]. apply (list_elem_of_fmap_2 fst _ (n, with_pods name ns s lo k)).
      apply elem_of_range_map, Hm. eauto.
Qed.

(** no record of the pods: the offset of an allocation is one *)
Definition no_record (h : gmap string allocateRecord) : Prop :=
  ∀ j, 0 ≤ j < total → h !! name j = None.

Lemma no_record_flush clk h : no_record h → no_record (FlushExpiredHistory clk h).
Proof.
  intros Hh j Hj. destruct (FlushExpiredHistory clk h !! name j) as [r|] eqn:E; [|done].
  apply flush_lookup in E as [E _]. by rewrite Hh in E.
Qed.

Abbreviation request k := (mkIPRequest (name k) ns host def ifaces).

(** the choices for the [k]-th pod: one in every pool *)
Lemma series_choices k (m : gmap string IPPoolSpec) :
  0 ≤ k < total →
  (∀ n s', m !! n = Some s' ↔
     ∃ s, pool_at w0 n = Some s ∧ listed sel n ∧ s' = with_pods name ns s 0 k) →
  ∀ c, c ∈ choices (request k) 1 ifaces (range_map m) ↔
    ∃ n s, pool_at w0 n = Some s ∧ listed sel n ∧ c = (n, with_pods name ns s 0 k, pod_alloc name ns s k).
Proof.
  intros Hk Hiff. destruct (range_pools _ _ _ Hiff) as (Hnd & Hall & _).
  assert (∀ n s, pool_at w0 n = Some s → listed sel n → (n, with_pods name ns s 0 k, pod_alloc name ns s k)
    ∈ choices (request k) 1 ifaces (range_map m)) as Hcs.
  { intros n s Hs Hli. destruct (pools_usable n s Hs Hli) as [? (ip & p & Hnet & _) ? ? ? Hroom ?].
    apply (choices_all (request k) 1); [done| |apply elem_of_range_map, Hiff; eauto|
      apply (with_pods_next _ _ s ip p k Hnet); lia].
    eapply Forall_impl; [exact Hall|]. intros [n' s'] (t & Ht & Hlt & E). cbn in *. rewrite E.
    by apply (pools_usable n' t). }
  intros c. split; [|by intros (n & s & Hs & Hli & ->); apply Hcs].
  destruct c as [[n s'] a]. intros Hc. pose proof (choices_pools _ _ _ _ _ Hc) as Hp.
  rewrite Forall_forall in Hall. destruct (Hall _ Hp) as (s & Hs & Hli & E). exists n, s. split_and!; [done..|].
  apply (NoDup_fmap_inj (λ c : choice, c.1.1) (choices (request k) 1 ifaces (range_map m)));
    [apply choices_nodup, range_map_keys_nodup|done|by apply Hcs|done].
Qed.

(** the request of the [k]-th pod appends it to every pool and is answered *)
Lemma allocate_step clk k (d : daemon W) :
  0 ≤ k < total → holds 0 k (d_world d) → d_locked d = false → no_record (d_history d) →
  ∃ d' rs, AllocateIP clk (request k) d = Done d' rs ∧
    holds 0 (k + 1) (d_world d') ∧ d_locked d' = false ∧ no_record (d_history d') ∧
    Forall (λ r, rs_InterfaceName r ∈ ifaces ∧ ascii_answer r) rs ∧
    ((∃ n, is_Some (pool_at w0 n) ∧ listed sel n) → rs ≠ []).
Proof.
  intros Hk Hd Hl Hh. destruct (holds_list _ _ _ Hd) as (m & Hm & Hiff).
  destruct (range_pools _ _ _ Hiff) as (_ & Hall & _). unfold AllocateIP. cbn [rq_PodName].
  rewrite (no_record_flush clk _ Hh k Hk), Hl. cbv iota beta. cbn [rq_HostName rq_NetAttachDefName].
  rewrite Hm, (stub_choices pool_at listed up (request k) 1 _ ifaces (d_world d)); [|by destruct Hd|].
  2: { eapply Forall_impl; [exact Hall|]. intros [n s'] (s & Hs & Hli & E). cbn in *. rewrite E.
    destruct (pools_usable n s Hs Hli) as [? ? ? ? ? ? ?]. split_and!; [done..|].
    destruct Hd as (_ & Hin & _). rewrite (Hin n s Hs Hli). by eexists. }
  pose proof (series_choices k m Hk Hiff) as Hcs.
  pose proof (choices_nodup (request k) 1 _ ifaces (range_map_keys_nodup m)) as Hnd.
  remember (choices (request k) 1 ifaces (range_map m)) as cs eqn:Hc. clear Hc.
  eexists _, _. split; [reflexivity|]. cbn [d_world d_locked d_history]. split_and!.
  - apply (holds_patches 0 k); [done| | |].
    + by rewrite <- list_fmap_compose.
    + intros n. rewrite <- list_fmap_compose, list_elem_of_fmap. split.
      * intros (c & -> & (n' & s & Hs & Hli & ->)%Hcs). cbn. eauto.
      * intros [[s Hs] Hli]. eexists. split; [|apply Hcs; by exists n, s]. done.
    + intros n a s (c & [= -> ->] & (n' & t & Ht & Hli & ->)%Hcs)%list_elem_of_fmap Hs. cbn in *.
      assert (t = s) as -> by congruence. apply (with_pods_insert name ns). lia.
  - done.
  - by apply no_record_flush.
  - apply Forall_forall. intros r (c & -> & (n & s & Hs & Hli & ->)%Hcs)%list_elem_of_fmap.
    pose proof (pools_usable n s Hs Hli) as Hu. split; [by apply Hu|by apply answer_ascii].
  - intros (n & [s Hs] & Hli) Hr%fmap_nil_inv. subst cs.
    assert ((n, with_pods name ns s 0 k, pod_alloc name ns s k) ∈ ([] : list choice)) as []%elem_of_nil.
    apply Hcs. eauto.
Qed.
(** the patch that releases a pod *)
Definition release_of (pod : string) (kv : string * IPPoolSpec) : string * list Allocation :=
  (kv.1, match find_allocation pod ns (p_Allocations kv.2) 0 with
         | Some (i, _) => remove_at (p_Allocations kv.2) i
         | None => p_Allocations kv.2
         end).

Lemma release_loop pod : ∀ pools w,
  Forall (λ kv, p_NetAttachDefName kv.2 = def ∧ p_HostName kv.2 = host ∧
    is_Some (find_allocation pod ns (p_Allocations kv.2) 0)) pools →
  DeallocateIP_loop (mkIPRequest pod ns host def []) w pools = patches w (release_of pod <$> pools).
Proof.
  induction pools as [|[n s] pools IH]; intros w Hall; [done|].
  apply Forall_cons in Hall as [(Hd & Hh & [[i a] Hf]) Hall]. cbn in *.
  rewrite !bool_decide_eq_true_2 by done. cbn. rewrite Hf, IH by done. done.
Qed.

(** the release of the first pod that is left *)
Lemma release_step now k n (d : daemon W) :
  0 ≤ k < total → 0 < n → holds k n (d_world d) → d_locked d = false →
  ∃ d' rs, DeallocateIP now (mkIPRequest (name k) ns host def []) d = Done d' rs ∧
    holds (k + 1) (n - 1) (d_world d') ∧ d_locked d' = false.
Proof.
  intros Hk Hn Hd Hl. destruct (holds_list _ _ _ Hd) as (m & Hm & Hiff).
  destruct (range_pools _ _ _ Hiff) as (_ & Hall & Hkeys). unfold DeallocateIP.
  rewrite Hl. cbn [rq_HostName rq_NetAttachDefName]. rewrite Hm.
  assert (Forall (λ kv, ∃ s, pool_at w0 kv.1 = Some s ∧ kv.2 = with_pods name ns s k n ∧
    p_NetAttachDefName s = def ∧ p_HostName s = host ∧
    find_allocation (name k) ns (p_Allocations kv.2) 0
      = Some (length (p_Allocations s), pod_alloc name ns s k)) (range_map m)) as Hfound.
  { eapply Forall_impl; [exact Hall|]. intros [n' s'] (s & Hs & Hli & E). cbn in *. subst s'.
    pose proof (pools_usable n' s Hs Hli) as Hu. exists s. split_and!; [done..|by apply Hu|by apply Hu|].
    apply with_pods_found; [done|]. by apply Hu. }
  rewrite release_loop.
  2: { eapply Forall_impl; [exact Hfound|]. intros [n' s'] (s & _ & E & ? & ? & Hf). cbn in *. subst s'.
    rewrite Hf. eauto. }
  eexists _, _. split; [reflexivity|]. cbn [d_world d_locked]. split; [|done].
  assert ((release_of (name k) <$> range_map m).*1 = (range_map m).*1) as Hfst
    by (by rewrite <- list_fmap_compose).
  apply (holds_patches k n); [done|rewrite Hfst; apply range_map_keys_nodup|by rewrite Hfst|].
  intros n' a s ([n0 s'] & [= -> ->] & Hin)%list_elem_of_fmap Hs. rewrite Forall_forall in Hfound.
  destruct (Hfound _ Hin) as (t & Ht & E & _ & _ & Hf). cbn in *. rewrite Hf, E.
  assert (t = s) as -> by congruence. by apply with_pods_remove.
Qed.
End run.

(** ** The configuration *)

Definition network_name : string := "multi-nic-sample".

Definition plugin_laid : list laid := [
  mkLaid nl3 "cniVersion" (JStr "0.3.0") (" " +:+ quoted "0.3.0") "";
  mkLaid nl3 "type" (JStr "ipvlan") (" " +:+ quoted "ipvlan") "";
  mkLaid nl3 "mode" (JStr "l3") (" " +:+ quoted "l3") nl2].

Definition ipam_laid (ip : string) (port : Z) : list laid := [
  mkLaid nl2 "type" (JStr "multi-nic-ipam") (" " +:+ quoted "multi-nic-ipam") "";
  mkLaid nl2 "hostBlock" (JInt 8) " 8" "";
  mkLaid nl2 "interfaceBlock" (JInt 2) " 2" "";
  mkLaid nl2 "daemonIP" (JStr ip) (" " +:+ quoted ip) "";
  mkLaid nl2 "daemonPort" (JInt port) (" " +:+ Strconv.Itoa port) nl2].

Definition object_of (l : list laid) : json := JObj ((λ m, (ld_key m, ld_value m)) <$> l).

Definition conf_laid (ip : string) (port : Z) : list laid := [
  mkLaid (" " +:+ nl2) "cniVersion" (JStr "0.3.0") (" " +:+ quoted "0.3.0") "";
  mkLaid (" " +:+ nl2) "name" (JStr network_name) (" " +:+ quoted network_name) "";
  mkLaid nl2 "type" (JStr "multi-nic") (" " +:+ quoted "multi-nic") "";
  mkLaid nl2 "plugin" (object_of plugin_laid) (" " +:+ "{" +:+ laid_text plugin_laid +:+ "}") "";
  mkLaid nl2 "vlanMode" (JStr "l3") (" " +:+ quoted "l3") "";
  mkLaid nl2 "ipam" (object_of (ipam_laid ip port)) (" " +:+ "{" +:+ laid_text (ipam_laid ip port) +:+ "}") "";
  mkLaid nl2 "multiNICIPAM" (JBool true) " true" "";
  mkLaid nl2 "daemonIP" (JStr ip) (" " +:+ quoted ip) "";
  mkLaid nl2 "daemonPort" (JInt port) (" " +:+ Strconv.Itoa port) "";
  mkLaid nl2 "subnet" (JStr "192.168.0.0/16") (" " +:+ quoted "192.168.0.0/16") "";
  mkLaid nl2 "masterNets" (JStrs POOL_NETWORK_ADDRESSES) (" " +:+ print (JStrs POOL_NETWORK_ADDRESSES)) nl2].

Lemma getConfig_text ip port : getConfig ip port = "{" +:+ laid_text (conf_laid ip port) +:+ "}".
Proof.
  unfold getConfig, key, conf_laid, ipam_laid, plugin_laid. cbn [laid_text ld_before ld_key ld_value ld_text ld_after].
  rewrite !str_app_assoc. unfold quoted. repeat (rewrite str_app_cons || rewrite str_app_assoc).
  reflexivity.
Qed.

Lemma layout_string s : plain s = true → layout (JStr s) (" " +:+ quoted s).
Proof.
  intros Hs. apply layout_space; [done|]. rewrite <- plain_print_string by done.
  apply (layout_print (JStr s)). by apply plain_ascii.
Qed.

Lemma layout_int n : layout (JInt n) (" " +:+ Strconv.Itoa n).
Proof. apply layout_space; [done|]. apply (layout_print (JInt n)), valid_number_Itoa. Qed.

(** every member of an object is laid out *)
Ltac lay_out :=
  repeat (apply Forall_cons_2; [split_and!; [done|done| |done]|]);
  [..|apply Forall_nil_2]; cbn [ld_text ld_value];
  first [by apply layout_string | apply layout_int | apply (layout_space " "); [done|]].

Lemma getConfig_layout ip port :
  plain ip = true → layout (object_of (conf_laid ip port)) (getConfig ip port).
Proof.
  intros Hip. rewrite getConfig_text. apply layout_laid; [done|]. lay_out.
  - apply layout_laid; [done|]. lay_out.
  - apply layout_laid; [done|]. lay_out.
  - by apply (layout_print (JBool true)).
  - by apply (layout_print (JStrs _)).
Qed.

(** a member with a field of its name *)
Lemma dec_member_field {R} (fs : fields R) r err k v dec :
  find_field fs k = Some dec →
  dec_member fs (r, err) (k, v) = (let '(r, e) := dec v r in (r, err || e)).
Proof. intros H. unfold dec_member. cbn [fst snd]. by rewrite H. Qed.

(** the members of the configuration one by one *)
Section members.
#[local] Existing Instance cni_plain.
Context (c : net_conf) (l : option (gmap string json)) (s : string) (a d m : list string) (i : bool)
  (p : string) (q : Z) (g : option (option NicArgs)).

Abbreviation read k v := (dec_member conf_fields (mkConf c l s a d m i p q g, false) (k, v)).

Lemma read_plugin v m' : dec_map JNull dec_any v l = (Some m', false) →
  read "plugin" v = (mkConf c (Some m') s a d m i p q g, false).
Proof. intros H. erewrite dec_member_field by reflexivity. cbn [field prod_map id fst snd sc_MainPlugin]. by rewrite H. Qed.

Lemma read_port n : - 2 ^ 63 ≤ n < 2 ^ 63 →
  read "daemonPort" (JInt n) = (mkConf c l s a d m i p n g, false).
Proof.
  intros H. erewrite dec_member_field by reflexivity. cbn [field prod_map id fst snd sc_DaemonPort].
  by rewrite dec_int_JInt.
Qed.

Lemma read_nets v : read "masterNets" (JStrs v) = (mkConf c l s v d m i p q g, false).
Proof.
  erewrite dec_member_field by reflexivity. cbn [field prod_map id fst snd sc_MasterNetAddrs]. by rewrite read_JStrs.
Qed.

Lemma read_ip v : read "daemonIP" (JStr v) = (mkConf c l s a d m i v q g, false).
Proof. reflexivity. Qed.

Lemma read_subnet v : read "subnet" (JStr v) = (mkConf c l v a d m i p q g, false).
Proof. reflexivity. Qed.

Lemma read_multi b : read "multiNICIPAM" (JBool b) = (mkConf c l s a d m b p q g, false).
Proof. reflexivity. Qed.

Lemma read_mode v : read "vlanMode" v = (mkConf c l s a d m i p q g, false).
Proof. reflexivity. Qed.
End members.

(** what the library's struct reads of the configuration *)
Definition head_conf : NetConf (H := cni_plain) :=
  mkConf (H := cni_plain)
    (mkNetConf (D := CDNS (CniLib := cni_plain)) "0.3.0" network_name "multi-nic" "" JNull None None)
    None "" [] [] [] false "" 0 None.

Lemma read_head :
  let fs := conf_fields (H := cni_plain) in
  dec_member fs (dec_member fs (dec_member fs (zero_conf, false) ("cniVersion", JStr "0.3.0"))
    ("name", JStr network_name)) ("type", JStr "multi-nic") = (head_conf, false).
Proof. reflexivity. Qed.

Lemma read_ipam ip port v n t r o e l s a d m i p q g :
  dec_member (conf_fields (H := cni_plain))
    (mkConf (H := cni_plain) (mkNetConf v n t r o e None) l s a d m i p q g, false)
    ("ipam", object_of (ipam_laid ip port)) =
  (mkConf (H := cni_plain) (mkNetConf v n t "multi-nic-ipam" o e None) l s a d m i p q g, false).
Proof. reflexivity. Qed.

(** The plugin stub reads the configuration it writes. For every daemon address
    of plain characters and every 64-bit port, the text of [getConfig] decodes without
    error, to the address, the port, the network's name and the master networks. *)
Theorem getConfig_read ip port :
  plain ip = true → - 2 ^ 63 ≤ port < 2 ^ 63 →
  ∃ n, Unmarshal (dec_conf (H := cni_plain)) (getConfig ip port) zero_conf = (n, true) ∧
    sc_DaemonIP n = ip ∧ sc_DaemonPort n = port ∧ nc_Name (sc_NetConf n) = network_name ∧
    sc_MasterNetAddrs n = POOL_NETWORK_ADDRESSES ∧ sc_IsMultiNICIPAM n = true.
Proof.
  intros Hip Hport. unfold Unmarshal.
  rewrite <- (str_app_nil_r (getConfig ip port)), (parse_layout (object_of (conf_laid ip port)))
    by (done || by apply getConfig_layout).
  assert (∃ m, dec_map JNull dec_any (object_of plugin_laid) None = (Some m, false)) as [m Hm].
  { eexists. vm_compute. reflexivity. }
  unfold dec_conf, conf_laid. unfold object_of at 1. cbn [dec_struct fmap list_fmap ld_key ld_value].
  cbn [foldl]. rewrite read_head. unfold head_conf. rewrite (read_plugin _ _ _ _ _ _ _ _ _ _ _ m), read_mode by done.
  rewrite read_ipam, read_multi, read_ip, read_port, read_subnet, read_nets by done.
  eexists. split; [reflexivity|]. done.
Qed.

(** ** The node of the test *)

Section test.
Context {mux : Mux} {mlaws : MuxLaws mux}.
Context {W : Type} {api : IPPoolAPI W} {ord : MapRange}.
Context (st : Settings) (clk : string → Z) (now : Z) (podIP : string) (json_err : string → string).

(** the server of the stub answers at the address of its pod *)
Definition stub_post : Http (daemon W) := λ d address body,
  match strip ("http://" +:+ podIP +:+ ":" +:+ Strconv.Itoa (st_daemonPort st)) address with
  | None => (d, PostFail "connection refused")
  | Some path =>
      let '(d, r, _) := handleRequests st clk now d "POST" path body in
      (d, match r with
          | Reply code text => Response code "" (inl text)
          | NoReply => PostFail "timeout"
          end)
  end.

Lemma stub_post_path d path body :
  stub_post d (daemon_address podIP (st_daemonPort st) path) body =
  (let '(d, r, _) := handleRequests st clk now d "POST" ("/" +:+ path) body in
   (d, match r with
       | Reply code text => Response code "" (inl text)
       | NoReply => PostFail "timeout"
       end)).
Proof.
  unfold stub_post, daemon_address.
  assert ("http://" +:+ podIP +:+ ":" +:+ Strconv.Itoa (st_daemonPort st) +:+ "/" +:+ path
    = ("http://" +:+ podIP +:+ ":" +:+ Strconv.Itoa (st_daemonPort st)) +:+ "/" +:+ path) as ->.
  { by rewrite !str_app_assoc. }
  by rewrite strip_app.
Qed.

#[local] Existing Instance stub_post.
#[local] Existing Instance cni_plain.

(** a configuration for this stub *)
Definition configured (n : CniStub.NetConf) : Prop :=
  sc_DaemonIP n = podIP ∧ sc_DaemonPort n = st_daemonPort st ∧ nc_Name (sc_NetConf n) = network_name.

Lemma select_answer more d n podName host :
  configured n → podIP ≠ "" → st_daemonPort st ≠ 0 →
  select_loop json_err more d n podName host = (d, inl (mkNICResponse [] interfaceNames)).
Proof.
  intros (Hip & Hport & _) Hne H0. destruct more; cbn [select_loop]; unfold SelectNICs;
    rewrite Hip, Hport, bool_decide_false by done; destruct (Z.eqb_spec (st_daemonPort st) 0); [done| |done|];
    unfold post_message, post; rewrite stub_post_path; unfold handleRequests;
    change ("/" +:+ "select") with (ro_path (mkRoute NIC_SELECT_PATH ["POST"] ESelect));
    rewrite (mux_post 7 _ eq_refl); reflexivity.
Qed.
(** *** The pods of a host *)

Context (pool_at : W → string → option IPPoolSpec)
  (listed : list (string * string) → string → Prop) (up : W → Prop).
Context {laws : IPPoolLaws W pool_at} {avail : Available W pool_at listed up}.
Context (host : string) (startI total : Z) (w0 : W).

(** the [j]-th pod *)
Definition pod (j : Z) : string := pod_name host (startI + j).

Abbreviation sel := (host_def_selector (st_hostName st) network_name).
Abbreviation pods_held := (holds pool_at listed up pod podNamespace (st_hostName st) network_name w0).

Hypothesis pools_usable : ∀ n s, pool_at w0 n = Some s → listed sel n →
  usable pod podNamespace (st_hostName st) network_name interfaceNames total s.
Hypothesis pools_distinct : ∀ n s n' s', pool_at w0 n = Some s → pool_at w0 n' = Some s' →
  listed sel n → listed sel n' → p_InterfaceName s = p_InterfaceName s' → n = n'.
Hypothesis some_pool : ∃ n, is_Some (pool_at w0 n) ∧ listed sel n.
Hypothesis host_ascii : ascii_only host = true.
Hypothesis host_part : Strings.Contains (st_hostName st) host = true.

Lemma request_sendable j masters :
  forallb ascii_only masters = true →
  sendable (mkIPRequest (pod j) podNamespace host network_name masters).
Proof.
  intros Hm. unfold sendable. cbn -[pod_name Strings.Contains]. unfold pod, pod_name.
  rewrite !ascii_only_app, host_ascii, Itoa_ascii. cbn. unfold strs, slice_json.
  case_bool_decide; [done|]. cbn. rewrite andb_true_r. induction masters as [|x l IH]; [done|].
  cbn in *. apply andb_true_iff in Hm as [-> Hl]. destruct l; [done|]. by apply IH.
Qed.

Lemma seen_host j masters :
  request_host st (mkIPRequest (pod j) podNamespace host network_name masters)
  = mkIPRequest (pod j) podNamespace (st_hostName st) network_name masters.
Proof. unfold request_host, node_name. cbn [rq_HostName]. by rewrite host_part. Qed.

Lemma answers_sendable rs :
  Forall (λ r, rs_InterfaceName r ∈ interfaceNames ∧ ascii_answer r) rs → sendable rs.
Proof.
  intros Hrs. unfold sendable. cbn. unfold slice_json. case_bool_decide; [done|]. cbn.
  apply Is_true_true, forallb_True, Forall_fmap. eapply Forall_impl; [exact Hrs|]. intros r (Hi & Ha & Hb). cbn.
  rewrite Ha, Hb, !andb_true_r. unfold interfaceNames in Hi. apply Is_true_true.
  repeat (apply elem_of_cons in Hi as [->|Hi]; [reflexivity|]). by apply elem_of_nil in Hi.
Qed.

Lemma stub_allocate d j masters :
  forallb ascii_only masters = true →
  handleRequests st clk now d "POST" "/allocate"
    (print (w_json (mkIPRequest (pod j) podNamespace host network_name masters)))
  = (match DaemonStub.AllocateIP clk (mkIPRequest (pod j) podNamespace (st_hostName st) network_name masters) d
     with
     | Done d rs => (d, ok_reply (w_json rs))
     | Blocked d | Crashed d => (d, NoReply)
     end, []).
Proof.
  intros Hm. unfold handleRequests.
  rewrite (mux_post 8 (mkRoute ALLOCATE_PATH ["POST"] EAllocate)) by done. unfold no_greeting, Allocate. rewrite receive by (done || by apply request_sendable).
  by rewrite seen_host.
Qed.

Lemma stub_deallocate d j :
  handleRequests st clk now d "POST" "/deallocate"
    (print (w_json (mkIPRequest (pod j) podNamespace host network_name [])))
  = (match DaemonStub.DeallocateIP now (mkIPRequest (pod j) podNamespace (st_hostName st) network_name []) d
     with
     | Done d rs => (d, ok_reply (JStr ""))
     | Blocked d | Crashed d => (d, NoReply)
     end, []).
Proof.
  unfold handleRequests.
  rewrite (mux_post 9 (mkRoute DEALLOCATE_PATH ["POST"] EDeallocate)) by done.
  unfold no_greeting, StubServer.Deallocate. rewrite receive by (done || by apply request_sendable).
  by rewrite seen_host.
Qed.

(** a pod is created at the first attempt *)
Lemma create_step n k d :
  configured n → podIP ≠ "" → st_daemonPort st ≠ 0 →
  0 ≤ k < total → pods_held 0 k (d_world d) → d_locked d = false →
  no_record pod total (d_history d) →
  ∃ d', create_pod json_err d n (pod k) host = (d', None) ∧
    pods_held 0 (k + 1) (d_world d') ∧ d_locked d' = false ∧ no_record pod total (d_history d').
Proof.
  intros Hc Hip Hport Hk Hd Hl Hh. unfold create_pod. rewrite select_answer by done.
  destruct (allocate_step pool_at listed up pod podNamespace (st_hostName st) network_name
    interfaceNames total w0 pools_usable pools_distinct clk k d Hk Hd Hl Hh)
    as (d' & rs & Ha & Hd' & Hl' & Hh' & Hrs & Hne).
  exists d'. split; [|done]. destruct Hc as (Hci & Hcp & Hcn).
  cbn [np_Masters]. unfold maxTry. cbn [request_loop]. unfold RequestIP. rewrite Hci, Hcp, Hcn. unfold post_message, post. rewrite stub_post_path.
  change ("/" +:+ "allocate") with "/allocate". rewrite stub_allocate, Ha by done.
  unfold ok_reply. change (negb (200 =? 200)) with false. cbv iota beta.
  rewrite receive_Encode; [|by apply answers_sendable|by apply Forall_true].
  by rewrite bool_decide_false by auto.
Qed.
(** a pod is deleted *)
Lemma delete_step n k left d :
  configured n → 0 ≤ k < total → 0 < left → pods_held k left (d_world d) → d_locked d = false →
  ∃ d' e, CniStub.Deallocate d (sc_DaemonIP n) (sc_DaemonPort n) (pod k) podNamespace host
      (nc_Name (sc_NetConf n)) = (d', e) ∧
    pods_held (k + 1) (left - 1) (d_world d') ∧ d_locked d' = false.
Proof.
  intros (-> & -> & ->) Hk Hleft Hd Hl.
  destruct (release_step pool_at listed up pod podNamespace (st_hostName st) network_name
    interfaceNames total w0 pools_usable pools_distinct now k left d Hk Hleft Hd Hl) as (d' & rs & Ha & ?).
  exists d', None. split; [|done]. unfold CniStub.Deallocate, post. rewrite stub_post_path.
  change ("/" +:+ "deallocate") with "/deallocate". by rewrite stub_deallocate, Ha.
Qed.

Lemma create_all n num : ∀ k d,
  configured n → podIP ≠ "" → st_daemonPort st ≠ 0 →
  0 ≤ k → k + Z.of_nat num ≤ total → pods_held 0 k (d_world d) → d_locked d = false →
  no_record pod total (d_history d) →
  ∃ d', create_pods json_err num (startI + k) d n host = (d', None) ∧
    pods_held 0 (k + Z.of_nat num) (d_world d') ∧ d_locked d' = false.
Proof.
  induction num as [|num IH]; intros k d Hc Hip Hp Hk Hle Hd Hl Hh; cbn [create_pods].
  { exists d. rewrite Z.add_0_r. done. }
  destruct (create_step n k d) as (d1 & E & Hd1 & Hl1 & Hh1); [done..|lia|done|done|done|].
  unfold pod in E. rewrite E. replace (startI + k + 1) with (startI + (k + 1)) by lia.
  destruct (IH (k + 1) d1) as (d2 & -> & Hd2 & ?); [done..|lia|lia|done|done|done|].
  exists d2. split_and!; [done| |done]. by replace (k + Z.of_nat (S num)) with (k + 1 + Z.of_nat num) by lia.
Qed.

Lemma delete_all n num : ∀ k d,
  configured n → 0 ≤ k → k + Z.of_nat num = total →
  pods_held k (Z.of_nat num) (d_world d) → d_locked d = false →
  ∃ d', delete_pods num (startI + k) d n host = d' ∧
    pods_held (k + Z.of_nat num) 0 (d_world d') ∧ d_locked d' = false.
Proof.
  induction num as [|num IH]; intros k d Hc Hk Hle Hd Hl; cbn [delete_pods].
  { exists d. rewrite Z.add_0_r. done. }
  destruct (delete_step n k (Z.of_nat (S num)) d) as (d1 & e & E & Hd1 & Hl1); [done|lia|lia|done|done|].
  unfold pod in E. rewrite E. replace (startI + k + 1) with (startI + (k + 1)) by lia.
  replace (Z.of_nat (S num) - 1) with (Z.of_nat num) in Hd1 by lia.
  destruct (IH (k + 1) d1) as (d2 & -> & Hd2 & ?); [done|lia|lia|done|done|].
  exists d2. split_and!; [done| |done]. by replace (k + Z.of_nat (S num)) with (k + 1 + Z.of_nat num) by lia.
Qed.

(** C16: the end-to-end test of the stubs works. The plugin stub is given the plain,
    non-empty address and the non-zero port of a daemon stub, and a host name of ASCII
    characters that is contained in the daemon's; the cluster answers; at least one
    pool is listed for the daemon's host and the test network, and every one so listed
    is well formed (allocated and excluded indexes distinct and from 1 to the last
    host address), carries that network and host, is for an interface of the stub of
    its own, and has room behind its greatest index for the pods and nothing of theirs;
    the mutex is free, and the daemon has no record of a release of one of the pods
    (none was deleted in the last 60 seconds: a record would make the offset 2 or
    more). Then creating the pods returns no error, and every such pool has, behind its
    allocations, exactly one of each pod with consecutive indexes from the greatest in
    use; deleting the same pods returns no error and leaves every pool of the cluster
    as it was, and the mutex free. The requests, the configuration and the answers go
    through their texts and any router that behaves as documented. *)
Theorem stub_pods_come_and_go d :
  d_world d = w0 → up w0 → d_locked d = false → no_record pod total (d_history d) →
  plain podIP = true → podIP ≠ "" → st_daemonPort st ≠ 0 → - 2 ^ 63 ≤ st_daemonPort st < 2 ^ 63 →
  0 ≤ total → - 2 ^ 63 ≤ startI → startI + total < 2 ^ 63 →
  let r1 := on_pod_create json_err d startI total host podIP (st_daemonPort st) in
  let r2 := on_pod_delete json_err r1.1 startI total host podIP (st_daemonPort st) in
  r1.2 = None ∧
  (∀ n s, pool_at w0 n = Some s → listed sel n →
     pool_at (d_world r1.1) n = Some (with_pods pod podNamespace s 0 total)) ∧
  r2.2 = None ∧ (∀ n, pool_at (d_world r2.1) n = pool_at w0 n) ∧ d_locked r2.1 = false.
Proof.
  intros Hw Hup Hl Hh Hplain Hne H0 Hport Ht Hs He r1 r2.
  destruct (getConfig_read podIP (st_daemonPort st) Hplain Hport) as (n & Hn & Hip & Hp & Hname & _).
  assert (configured n) as Hc by done.
  assert (Z.to_nat (i64 (startI + total) - startI) = Z.to_nat total) as Hnum
    by (rewrite i64_small by lia; f_equal; lia).
  destruct (create_all n (Z.to_nat total) 0 d) as (d1 & E1 & Hd1 & Hl1);
    [done..|lia|rewrite Hw; by apply holds_0|done|done|].
  rewrite Z.add_0_r in E1. rewrite Z.add_0_l, Z2Nat.id in Hd1 by done.
  assert (r1 = (d1, None)) as Hr1 by (subst r1; unfold on_pod_create; by rewrite Hn, Hnum).
  destruct (delete_all n (Z.to_nat total) 0 d1) as (d2 & E2 & Hd2 & Hl2);
    [done..|lia|by rewrite Z2Nat.id|done|].
  rewrite Z.add_0_r in E2.
  assert (r2 = (d2, None)) as Hr2
    by (subst r2; rewrite Hr1; unfold on_pod_delete; cbn [fst]; by rewrite Hn, Hnum, E2).
  rewrite Hr2, Hr1. split_and!; [done|apply Hd1|done| |done].
  intros m. by eapply holds_none.
Qed.
End test.

(** ** The interfaces the stub reports *)

(** the first interface has the address of the pod, the others its last two bytes *)
Lemma stub_interfaces env hostname a b c d :
  ip_ok [a; b; c; d] → env "HOST_IP" = Some (Net.ip_string [a; b; c; d]) →
  ∃ st, StubServer.main env hostname = Ret (Listening st) ∧
    getInterfaces st = Ret [
      mkInterfaceInfo "eth0" (Strconv.Itoa a +:+ "." +:+ Strconv.Itoa b +:+ ".0.0/16")
        (Net.ip_string [a; b; c; d]) vendor product "0000:00:03.0";
      mkInterfaceInfo "eth1" "10.0.0.0/16" (Net.ip_string [10; 0; c; d]) vendor product "0000:00:04.0";
      mkInterfaceInfo "eth2" "10.1.0.0/16" (Net.ip_string [10; 1; c; d]) vendor product "0000:00:05.0"].
Proof.
  intros Hip Henv. destruct (ip_string_split _ Hip) as [Hs _]. unfold StubServer.main. rewrite Henv, Hs.
  eexists. split; [reflexivity|].
  assert (Strings.Split (Strconv.Itoa a +:+ "." +:+ Strconv.Itoa b +:+ ".0.0/16") "."%char
    = [Strconv.Itoa a; Strconv.Itoa b; "0"; "0/16"]) as Hn.
  { destruct Hip as [_ Hb]. apply Forall_cons in Hb as [Ha [Hb _]%Forall_cons].
    apply octet_ok_inv in Ha as (Ha & _), Hb as (Hb & _).
    rewrite (str_app_cons "."%char), str_app_nil, split_app by done.
    change (".0.0/16") with (String "." "0.0/16"). by rewrite split_app. }
  unfold getInterfaces, getSecondaryHostIPFromMainIP.
  cbn [st_hostIP st_netAddresses insert list_insert netAddresses]. cbn [secondary_ips].
  rewrite Hs. cbn [at_index lookup list_lookup fmap list_fmap mbind go_bind]. rewrite Hn. reflexivity.
Qed.

(** ** Examples *)

#[local] Existing Instance map_to_list_range.
#[local] Existing Instance mux_first.
#[local] Existing Instance mux_first_laws.

Definition ex_settings : Settings :=
  mkSettings "172.17.0.5" "kind-node-1" 11000 ["172.17.0.0/16"; "10.0.0.0/16"; "10.1.0.0/16"].

Example ex_main :
  StubServer.main (λ v, if bool_decide (v = "HOST_IP") then Some "172.17.0.5" else
                        if bool_decide (v = "K8S_NODENAME") then Some "kind-node-1" else None) (inr "")
  = Ret (Listening ex_settings).
Proof. reflexivity. Qed.

(** two pools of the host, one with an allocation of another pod *)
Definition ex_stub_pool (iface cidr vlan : string) (l : list Allocation) : IPPoolSpec :=
  mkIPPoolSpec cidr vlan network_name "kind-node-1" iface [] l.

Definition ex_stub_labels : gmap string string :=
  {["hostname" := "kind-node-1"; "netname" := network_name]}.

Definition ex_stub_w : memstore :=
  mkStore {[
    "p1" := (ex_stub_labels, ex_stub_pool "eth1" "192.168.0.0/26" "192.168.0.0/18"
               [mkAllocation "a" "ns" 1 "192.168.0.1"]);
    "p2" := (ex_stub_labels, ex_stub_pool "eth2" "192.168.64.0/26" "192.168.64.0/18" [])]} false.

Definition ex_stub : daemon memstore := mkDaemon false ∅ ex_stub_w.

Definition ex_created : daemon memstore * option string :=
  on_pod_create (H := cni_plain) (H0 := stub_post ex_settings (λ _, 0) 0 "172.17.0.5") (λ _, "")
    ex_stub 0 2 "node-1" "172.17.0.5" 11000.

Example ex_created_pools :
  (λ s, (λ a, (a_Pod a, a_Address a)) <$> p_Allocations s) <$> mem_pool_at (d_world ex_created.1) "p1"
  = Some [("a", "192.168.0.1"); ("pod-node-1-0", "192.168.0.2"); ("pod-node-1-1", "192.168.0.3")].
Proof. vm_compute. reflexivity. Qed.

Lemma getConfig_read_witness :
  ∃ n, Unmarshal (dec_conf (H := cni_plain)) (getConfig "172.17.0.5" 11000) zero_conf = (n, true) ∧
    sc_DaemonIP n = "172.17.0.5" ∧ sc_DaemonPort n = 11000 ∧ nc_Name (sc_NetConf n) = network_name ∧
    sc_MasterNetAddrs n = POOL_NETWORK_ADDRESSES ∧ sc_IsMultiNICIPAM n = true.
Proof. apply (getConfig_read "172.17.0.5" 11000); [reflexivity|lia]. Defined.

Definition ex_stub_labels_of : gmap string (gmap string string) :=
  {["p1" := ex_stub_labels; "p2" := ex_stub_labels]}.

Definition ex_p1 : IPPoolSpec :=
  ex_stub_pool "eth1" "192.168.0.0/26" "192.168.0.0/18" [mkAllocation "a" "ns" 1 "192.168.0.1"].

Definition ex_p2 : IPPoolSpec := ex_stub_pool "eth2" "192.168.64.0/26" "192.168.64.0/18" [].

Lemma ex_stub_pools n s :
  mem_pool_at ex_stub_w n = Some s → (n = "p1" ∧ s = ex_p1) ∨ (n = "p2" ∧ s = ex_p2).
Proof.
  unfold mem_pool_at. intros ([lb s'] & Hl & ->)%fmap_Some. cbn [ms_pools ex_stub_w] in Hl.
  apply lookup_insert_Some in Hl as [[<- [= <- <-]]|[_ Hl]]; [by left|right].
  by apply lookup_singleton_Some in Hl as [<- [= <- <-]].
Qed.

Lemma ex_stub_usable n s :
  mem_pool_at ex_stub_w n = Some s →
  usable (pod "node-1" 0) podNamespace "kind-node-1" network_name interfaceNames 2 s.
Proof.
  intros [[-> ->]|[-> ->]]%ex_stub_pools; split; try done.
  - split; [exists [192; 168; 0; 0], 26, "192.168.0.0", "26"|exists [192; 168; 0; 0], 18, "192.168.0.0", "18"];
      by vm_compute.
  - exists [192; 168; 0; 0], 26. split; [split; [exists "192.168.0.0", "26"; by vm_compute|by vm_compute]|].
    split; vm_compute; repeat constructor; set_solver.
  - vm_compute. set_solver.
  - intros j Hj. repeat constructor. by intros [= ?].
  - split; [exists [192; 168; 64; 0], 26, "192.168.64.0", "26"|exists [192; 168; 64; 0], 18, "192.168.64.0", "18"];
      by vm_compute.
  - exists [192; 168; 64; 0], 26. split; [split; [exists "192.168.64.0", "26"; by vm_compute|by vm_compute]|].
    split; vm_compute; constructor.
  - vm_compute. set_solver.
Qed.

Lemma stub_pods_come_and_go_witness :
  ex_created.2 = None ∧
  (∀ n s, mem_pool_at ex_stub_w n = Some s →
     mem_listed ex_stub_labels_of (host_def_selector "kind-node-1" network_name) n →
     mem_pool_at (d_world ex_created.1) n = Some (with_pods (pod "node-1" 0) podNamespace s 0 2)) ∧
  let r2 := on_pod_delete (H := cni_plain) (H0 := stub_post ex_settings (λ _, 0) 0 "172.17.0.5") (λ _, "")
              ex_created.1 0 2 "node-1" "172.17.0.5" 11000 in
  r2.2 = None ∧ (∀ n, mem_pool_at (d_world r2.1) n = mem_pool_at ex_stub_w n) ∧ d_locked r2.1 = false.
Proof.
  unfold ex_created.
  refine (stub_pods_come_and_go (laws := memstore_laws) (avail := mem_available ex_stub_labels_of)
    ex_settings (λ _, 0) 0 "172.17.0.5" (λ _, "") mem_pool_at (mem_listed ex_stub_labels_of)
    (mem_up ex_stub_labels_of) "node-1" 0 2 ex_stub_w _ _ _ _ _ ex_stub _ _ _ _ _ _ _ _ _ _ _).
  - intros n s Hs _. by eapply ex_stub_usable.
  - intros n s n' s' [[-> ->]|[-> ->]]%ex_stub_pools [[-> ->]|[-> ->]]%ex_stub_pools _ _; done.
  - exists "p1". split; [by eexists|by vm_compute].
  - reflexivity.
  - reflexivity.
  - reflexivity.
  - by split; vm_compute.
  - reflexivity.
  - by intros j _.
  - reflexivity.
  - done.
  - done.
  - cbn. lia.
  - lia.
  - lia.
  - lia.
Defined.
