(* ===== verification/Watchers.v ===== *)
(** * The daemon watcher and the start of the operator: controllers/daemon_watcher.go
    and main.go

    The pod informer calls the event handlers of the watcher; they put daemon pods
    into a buffered channel, and one goroutine takes them out and handles them
    ([HostInterface.ProcessPodQueue]).  A state of the daemon watcher is the operator
    and the pods in the channel.  The start of the process
    is the sequence of its fallible calls, the goroutines it starts and the objects
    it creates. *)

From S2P Require Import Prelude GoLib Types K8s.
From S2P Require Import IPPool Network Cidr Route CidrHandler HostInterface.

(** ** daemon_watcher.go *)

(** [vars.APIServerToleration] *)
Definition APIServerToleration : nat := 5.

Record DaemonWatcher (W : Type) := mkWatcher {
  dw_op : Operator W;
  dw_PodQueue : list KPod       (* the buffered channel *)
}.
Arguments mkWatcher {W}.
Arguments dw_op {W}.
Arguments dw_PodQueue {W}.

(** what the pod informer reports; the object of a deletion can be other than a pod *)
Inductive pod_event :=
| PodUpdate (prevPod pod : KPod)
| PodDelete (obj : option KPod).

Section watcher.
Context {W : Type} {hifs : Client W HifObject} {api : HostAPI W}.

(** the loop of the constructor; [sleep] is what happens to the cluster while the
    operator waits *)
Fixpoint list_daemons (sleep : W → W) (tries : nat) (o : Operator W) : Operator W :=
  match tries with
  | O => o
  | S tries =>
      match UpdateCurrentList o with
      | (o, None) => o
      | (o, Some _) => list_daemons sleep tries (set_w o (sleep (o_w o)))
      end
  end.

Definition NewDaemonWatcher (sleep : W → W) (o : Operator W) : DaemonWatcher W :=
  mkWatcher (list_daemons sleep APIServerToleration o) [].

(** a send into the channel; [None]: the channel is full and the sender waits *)
Definition send_pod (w : DaemonWatcher W) (pod : KPod) : option (DaemonWatcher W) :=
  if Z.of_nat (length (dw_PodQueue w)) <? MaxQueueSize
  then Some (mkWatcher (dw_op w) (dw_PodQueue w ++ [pod])) else None.

(** the handlers of the informer *)
Definition pod_handler (w : DaemonWatcher W) (e : pod_event) : option (DaemonWatcher W) :=
  match e with
  | PodUpdate prevPod pod =>
      if pod_updated (o_daemons (dw_op w)) prevPod pod then send_pod w pod else Some w
  | PodDelete None => Some w
  | PodDelete (Some pod) => if isDaemonPod pod then send_pod w pod else Some w
  end.

(** one iteration of [Run]; [None]: the channel is empty and the receiver waits *)
Definition process_pod (w : DaemonWatcher W) : option (DaemonWatcher W) :=
  match dw_PodQueue w with
  | [] => None
  | daemon :: rest => Some (mkWatcher (ProcessPodQueue (dw_op w) (Some daemon)) rest)
  end.

(** the goroutine until it waits *)
Fixpoint drain (n : nat) (w : DaemonWatcher W) : DaemonWatcher W :=
  match n with
  | O => w
  | S n => match process_pod w with Some w' => drain n w' | None => w end
  end.
End watcher.

(** ** main.go *)

Inductive controller := CIDRController | HostInterfaceController | IPPoolController
| MultiNicNetworkController | ConfigController.

(** the calls that end the process when they fail *)
Inductive call :=
| GetConfig
| BecomeLeader                   (* leader.Become *)
| NewManager
| GetNetAttachDefHandler
| NewClientset
| SetupWithManager (c : controller)
| AddHealthzCheck
| AddReadyzCheck
| StartManager.                  (* with leader election: waits for the lease first *)

Inductive goroutine := CIDRHandlerRun | DaemonWatcherRun | NamespaceWatcherRun | PeriodicUpdate.

Inductive action :=
| Called (c : call) (ok : bool)
| Started (g : goroutine)
| ListedDaemons                  (* NewDaemonWatcher *)
| CreatedDefaultConfig (ok : bool).

#[export] Instance controller_eq_dec : EqDecision controller.
Proof. solve_decision. Defined.

#[export] Instance call_eq_dec : EqDecision call.
Proof. solve_decision. Defined.

#[export] Instance goroutine_eq_dec : EqDecision goroutine.
Proof. solve_decision. Defined.

#[export] Instance action_eq_dec : EqDecision action.
Proof. solve_decision. Defined.

(** how the calls end: whether each succeeds, and whether the default
    configuration is created *)
Record Environment := mkEnv { env_ok : call → bool; env_default_config : bool }.

(** a call whose failure exits with status 1, then the rest *)
Definition must (env : Environment) (c : call) (rest : list action * Z) : list action * Z :=
  if env_ok env c then (Called c true :: rest.1, rest.2) else ([Called c false], 1).

Definition also (a : action) (rest : list action * Z) : list action * Z := (a :: rest.1, rest.2).

(** what the process does, in order, and its exit status *)
Definition main (enableLeaderElection : bool) (env : Environment) : list action * Z :=
  must env GetConfig
  (let go :=
    must env NewManager
    (must env GetNetAttachDefHandler
    (must env NewClientset
    (also (Started CIDRHandlerRun)
    (also ListedDaemons
    (also (Started DaemonWatcherRun)
    (must env (SetupWithManager CIDRController)
    (must env (SetupWithManager HostInterfaceController)
    (must env (SetupWithManager IPPoolController)
    (must env (SetupWithManager MultiNicNetworkController)
    (also (Started NamespaceWatcherRun)
    (must env (SetupWithManager ConfigController)
    (also (CreatedDefaultConfig (env_default_config env))
    (must env AddHealthzCheck
    (must env AddReadyzCheck
    (also (Started PeriodicUpdate)
    (must env StartManager ([], 0))))))))))))))))) in
   if enableLeaderElection then go else must env BecomeLeader go).
