(* ===== verification/WatcherProps.v ===== *)
(** * The watchers and the request queue

    A daemon pod that becomes ready ends up in the cache, when the worker of the
    update queue does not block on its own queue, and what the start of the operator
    does before it holds the lease. *)

From S2P Require Import Prelude GoLib Types K8s.
From S2P Require Import IPPool Network Cidr CidrSpec Route CidrHandler OperatorProps.
From S2P Require Import HostInterface HostInterfaceProps Watchers.
From S2P Require CidrProps.

(** ** The update queue *)

Section queue.
Context {W : Type} {pools : Client W IPPool} {cidrs : Client W CIDRSpec}
  {nets : Client W MultiNicNetwork} {ord : MapRange}.

(** [o'] follows [o] with at most [n] more tickets in the queue *)
Definition queued (n : Z) (o o' : Operator W) : Prop :=
  o_queue o ≤ o_queue o' ≤ o_queue o + n.

Lemma UpdateCIDRs_queue (o : Operator W) :
  o_queue o < MaxQueueSize →
  queued 1 o (fst (UpdateCIDRs o)) ∧ snd (UpdateCIDRs o) = Fin ().
Proof.
  intros Hq. unfold UpdateCIDRs, queued. destruct (o_closed o); simpl; [split; [lia|done]|].
  rewrite (proj2 (Z.ltb_lt _ _) Hq). simpl. split; [lia|done].
Qed.

Lemma sync_l3_status_queue now def spec (o : Operator W) :
  o_queue o < MaxQueueSize →
  queued 1 o (fst (sync_l3_status now def spec o)) ∧
  snd (sync_l3_status now def spec o) = Fin ().
Proof.
  intros Hq. assert (∀ o' : Operator W, o_queue o' = o_queue o → queued 1 o o') as Hid
    by (unfold queued; intros; lia).
  unfold sync_l3_status. destruct (IsL3Mode _ _); [|by auto].
  destruct (SyncAllStatus _ _ _ _ _ _ _ _ _) as [[w nh] [st [e|]]]; [by auto|].
  case_bool_decide; [by auto|]. by apply (UpdateCIDRs_queue (set_nets (set_w o w) nh)).
Qed.

Lemma store_cidr_queue new name spec (o : Operator W) :
  o_queue (fst (store_cidr new name spec o)) = o_queue o.
Proof.
  unfold store_cidr. destruct (GetCIDR _ _).
  - by destruct (cl_Update _ _ _) as [w [e|]].
  - destruct new; [|done]. by destruct (cl_Create _ _ _) as [w [e|]].
Qed.

Lemma updateCIDR_queue fuel now getNode spec new (o : Operator W) :
  plan_ok spec → fuel_ok (c_Config spec) fuel → o_queue o < MaxQueueSize →
  queued 1 o (fst (updateCIDR fuel now getNode spec new o)) ∧
  snd (updateCIDR fuel now getNode spec new o) ≠ Stuck ∧
  snd (updateCIDR fuel now getNode spec new o) ≠ OutOfFuel.
Proof.
  intros (ip & p & Hdef & Hc) Hf Hq. unfold updateCIDR.
  destruct (negb (o_ready o)); [unfold queued; simpl; split; [lia|done]|]. destruct spec as [def entries]. simpl in *.
  destruct (UpdateEntries_ok def ip p Hdef fuel Hf (hf_Spec <$> ListCache (o_hifs o)) getNode
              entries new Hc) as (m & ch & -> & _). destruct ch; [|unfold queued; simpl; split; [lia|done]].
  pose proof (store_cidr_queue new (pc_Name def) (mkCIDRSpec def (snd <$> range_map m)) o) as Hs.
  destruct (store_cidr _ _ _ o) as [o1 err]. simpl in Hs.
  destruct err; [unfold queued; simpl; split; [lia|done]|].
  destruct (sync_l3_status_queue now def (mkCIDRSpec def (snd <$> range_map m)) o1) as [H2 Hr];
    [lia|]. destruct (sync_l3_status _ _ _ o1) as [o2 r]. simpl in H2, Hr. subst r.
  unfold queued in *. destruct (UpdateIPPools _ _ _ _) as [w [|]]; simpl; split; (lia || done).
Qed.

(** the requests that the other goroutines add before the updates [i], [i+1], ... *)
Fixpoint sends_from (sends : nat → Z) (i n : nat) : Z :=
  match n with O => 0 | S n => sends i + sends_from sends (S i) n end.

Lemma sends_from_nonneg sends n : ∀ i, (∀ j, 0 ≤ sends j) → 0 ≤ sends_from sends i n.
Proof. induction n as [|n IH]; intros i H; simpl; [lia|]. pose proof (H i). pose proof (IH (S i) H). lia. Qed.

Lemma update_all_queue fuel now getNode others sends snapshot : ∀ i (o : Operator W),
  Forall (λ kv, plan_ok kv.2 ∧ fuel_ok (c_Config kv.2) fuel) snapshot →
  (∀ j o1, queued (sends j) o1 (others j o1)) → (∀ j, 0 ≤ sends j) →
  let n := length snapshot in
  o_queue o + sends_from sends i n + Z.of_nat n ≤ MaxQueueSize →
  let r := update_all fuel now getNode others i snapshot o in
  queued (sends_from sends i n + Z.of_nat n) o (fst r) ∧ snd r ≠ Stuck ∧ snd r ≠ OutOfFuel.
Proof.
  induction snapshot as [|[n spec] snapshot IH]; intros i o Hall Hoth Hs ? Hq;
    [unfold queued; simpl; split; (lia || done)|].
  apply Forall_cons in Hall as [[Hp Hf] Hall]. simpl in *.
  pose proof (Hoth i o) as Hi. pose proof (sends_from_nonneg sends (length snapshot) (S i) Hs) as Hn.
  unfold queued in Hi.
  destruct (updateCIDR_queue fuel now getNode spec false (others i o) Hp Hf) as (Hq1 & Hst & Hfuel); [lia|].
  destruct (updateCIDR fuel now getNode spec false (others i o)) as [o1 r]. unfold queued in *. simpl in *.
  destruct r; simpl; try done; [|split; [lia|done]].
  destruct (IH (S i) o1 Hall Hoth Hs) as [Hq2 ?]; [lia|]. split; [lia|done].
Qed.

(** the worker is the only receiver: when the queue is full, its own request
    after an update of an L3 network waits for ever, holding the Mutex *)
Lemma full_queue_blocks_worker now def spec (o : Operator W) w nh st :
  IsL3Mode (o_w o) def = true →
  SyncAllStatus now (o_w o) (o_nets o) (pc_Name def) spec ApplyingRoute (GetSize (o_daemons o))
    (GetInfoAvailableSize (o_hifs o)) true = (w, nh, (st, None)) →
  ds_CIDRProcessedHost (st_DiscoverStatus st) ≠ ds_InterfaceInfoAvailable (st_DiscoverStatus st) →
  o_closed o = false → o_queue o = MaxQueueSize →
  snd (sync_l3_status now def spec o) = Stuck.
Proof.
  intros Hl Hs Hne Hc Hq. unfold sync_l3_status. rewrite Hl, Hs. cbv beta iota zeta.
  rewrite bool_decide_eq_false_2 by done. unfold UpdateCIDRs. simpl. by rewrite Hc, Hq.
Qed.

(** C24: the worker of the update queue and the other senders. The worker takes
    all requests and then updates every network, and each update may ask for
    another one; meanwhile the other goroutines do whatever they like, adding at
    most sends(i) requests to the queue before the i-th update ends and taking
    none. With at least one request in the queue, cached plans that are well formed
    for configurations with a fitting subnet, and room in the queue for the
    requests of the others and one per network, ProcessUpdateRequest neither blocks
    on the queue it alone empties nor runs for ever, and it leaves at most that
    many requests. Without that room it may block (full_queue_blocks_worker). *)
Theorem ProcessUpdateRequest_never_waits fuel now getNode others sends (o : Operator W) :
  (∀ name spec, o_cidrs o !! name = Some spec → plan_ok spec ∧ fuel_ok (c_Config spec) fuel) →
  (∀ i o1, queued (sends i) o1 (others i o1)) → (∀ i, 0 ≤ sends i) →
  let bound := sends_from sends 0 (size (o_cidrs o)) + Z.of_nat (size (o_cidrs o)) in
  0 < o_queue o → bound ≤ MaxQueueSize →
  let r := ProcessUpdateRequest fuel now getNode others o in
  snd r ≠ Stuck ∧ snd r ≠ OutOfFuel ∧ 0 ≤ o_queue (fst r) ≤ bound.
Proof.
  intros Ho Hoth Hs bound Hq Hsize. unfold ProcessUpdateRequest. rewrite (proj2 (Z.leb_gt _ _) Hq).
  destruct (update_all_queue fuel now getNode others sends (range_map (o_cidrs o)) 0 (set_queue o 0))
    as (Hr & ? & ?).
  - apply Forall_forall. intros [n spec] Hin%elem_of_range_map. by eapply Ho.
  - done.
  - done.
  - rewrite length_range_map. simpl. lia.
  - unfold queued in Hr. rewrite length_range_map in Hr. simpl in Hr. split_and!; (done || lia).
Qed.
End queue.

(** ** Daemon pods *)

Section pods.
Context {W : Type} {hifs : Client W HifObject} {api : HostAPI W}.

(** the goroutine takes the pods out in the order they were put in *)
Lemma drain_all (w : DaemonWatcher W) :
  drain (length (dw_PodQueue w)) w
  = mkWatcher (foldl (λ o pod, ProcessPodQueue o (Some pod)) (dw_op w) (dw_PodQueue w)) [].
Proof.
  destruct w as [o l]. simpl. revert o. induction l as [|pod l IH]; intros o; simpl; [done|]. apply IH.
Qed.

Lemma ProcessPodQueue_running (o : Operator W) pod :
  kp_Deleted pod = false →
  o_daemons (ProcessPodQueue o (Some pod)) !! kp_NodeName pod = Some (daemon_of_pod pod) ∧
  o_w (ProcessPodQueue o (Some pod)) = fst (createHostInterfaceInfo (o_w o) pod).
Proof.
  intros Hd. unfold ProcessPodQueue. rewrite Hd. simpl. split; [|done].
  unfold SetCache. by rewrite lookup_insert_eq.
Qed.

(** without an error the node has a HostInterface *)
Lemma createHostInterfaceInfo_exists hif_at (w : W) pod :
  HifLaws W hif_at → snd (createHostInterfaceInfo w pod) = None →
  is_Some (hif_at (fst (createHostInterfaceInfo w pod)) (kp_NodeName pod)).
Proof.
  intros Hlaws. unfold createHostInterfaceInfo, GetHostInterface, CreateHostInterface.
  destruct (cl_Get w (kp_NodeName pod)) as [h|[]] eqn:Hget; try done.
  - intros _. simpl. eauto using hif_get.
  - destruct (cl_Create _ _ _) as [w' e] eqn:E. simpl. intros ->.
    by destruct (hif_create_ok _ _ _ _ E) as [_ ->].
Qed.

(** C23: a daemon that becomes ready is registered. When the informer reports a
    daemon pod that is ready and was not, or is not in the cache of daemons, and
    the channel has a place, the pod is queued behind the others; once the
    watcher has emptied the channel, the daemon of the pod's node is this pod,
    and the node has a HostInterface unless the API server refused it. *)
Theorem ready_daemon_registered hif_at (w : DaemonWatcher W) prevPod pod :
  HifLaws W hif_at →
  isDaemonPod pod = true → IsContainerReady pod = true → kp_Deleted pod = false →
  IsContainerReady prevPod = false ∨ o_daemons (dw_op w) !! kp_NodeName pod = None →
  Z.of_nat (length (dw_PodQueue w)) < MaxQueueSize →
  ∃ w1 o, pod_handler w (PodUpdate prevPod pod) = Some w1 ∧
    drain (length (dw_PodQueue w1)) w1 = mkWatcher o [] ∧
    o_daemons o !! kp_NodeName pod = Some (daemon_of_pod pod) ∧
    (is_Some (hif_at (o_w o) (kp_NodeName pod)) ∨
     ∃ w0 e, createHostInterfaceInfo w0 pod = (o_w o, Some e)).
Proof.
  intros Hlaws Hd Hr Hdel Hnew Hroom. unfold pod_handler.
  assert (pod_updated (o_daemons (dw_op w)) prevPod pod = true) as ->.
  { unfold pod_updated, Daemon_GetCache, GetCache. rewrite Hd, Hr.
    destruct Hnew as [->|Hn]; [done|]. rewrite Hn. by destruct (IsContainerReady prevPod). }
  unfold send_pod. rewrite (proj2 (Z.ltb_lt _ _) Hroom). eexists _, _. split; [done|].
  split; [apply drain_all|]. cbn [dw_op dw_PodQueue]. rewrite foldl_snoc. cbv beta.
  set (o := foldl _ (dw_op w) (dw_PodQueue w)).
  destruct (ProcessPodQueue_running o pod Hdel) as [-> ->]. split; [done|].
  destruct (createHostInterfaceInfo (o_w o) pod) as [w' [e|]] eqn:E; [right; by exists (o_w o), e|left].
  change w' with (fst (w', @None kerr)). rewrite <- E. apply createHostInterfaceInfo_exists; [done|].
  by rewrite E.
Qed.

(** a pod that is removed without a deletion timestamp (a forced deletion) is
    entered as a running daemon *)
Lemma forced_deletion_registers (w : DaemonWatcher W) pod :
  isDaemonPod pod = true → kp_Deleted pod = false →
  Z.of_nat (length (dw_PodQueue w)) < MaxQueueSize →
  ∃ w1, pod_handler w (PodDelete (Some pod)) = Some w1 ∧
    o_daemons (dw_op (drain (length (dw_PodQueue w1)) w1)) !! kp_NodeName pod
    = Some (daemon_of_pod pod).
Proof.
  intros Hd Hdel Hroom. unfold pod_handler, send_pod. rewrite Hd, (proj2 (Z.ltb_lt _ _) Hroom).
  eexists. split; [done|]. rewrite drain_all. simpl. rewrite foldl_snoc.
  by apply ProcessPodQueue_running.
Qed.

(** ** The first list of the daemons *)

(** the loop over the listed pods *)
Lemma cache_pods (pods : list KPod) (c : DaemonCache) pod :
  NoDup (kp_NodeName <$> pods) → pod ∈ pods → IsContainerReady pod = true →
  foldl (λ c pod, if IsContainerReady pod then SetCache c (kp_NodeName pod) (daemon_of_pod pod) else c)
    c pods !! kp_NodeName pod = Some (daemon_of_pod pod).
Proof.
  intros Hnd Hin Hr. induction pods as [|q pods IH] using rev_ind; [by apply elem_of_nil in Hin|].
  rewrite foldl_snoc. unfold SetCache in *. rewrite fmap_app in Hnd.
  apply NoDup_app in Hnd as (Hnd & Hne & _).
  apply elem_of_app in Hin as [Hin| ->%list_elem_of_singleton].
  - assert (kp_NodeName q ≠ kp_NodeName pod) as Hq.
    { intros Heq. apply (Hne (kp_NodeName pod)); [by apply list_elem_of_fmap_2|].
      rewrite <- Heq. apply list_elem_of_here. }
    destruct (IsContainerReady q); [rewrite lookup_insert_ne by done|]; by apply IH.
  - by rewrite Hr, lookup_insert_eq.
Qed.

(** the constructor tries five times: when the first list that the server gives is
    among these, the ready daemons of it are cached; else the cache stays empty *)
Lemma NewDaemonWatcher_caches sleep k : ∀ (o : Operator W) n pods pod,
  (k < n)%nat →
  (∀ j, (j < k)%nat → ∃ e, api_DaemonPods (Nat.iter j sleep (o_w o)) = inr e) →
  api_DaemonPods (Nat.iter k sleep (o_w o)) = inl pods → NoDup (kp_NodeName <$> pods) →
  pod ∈ pods → IsContainerReady pod = true →
  o_daemons (list_daemons sleep n o) !! kp_NodeName pod = Some (daemon_of_pod pod).
Proof.
  induction k as [|k IH]; intros o [|n] pods pod Hn Hfail Hl Hnd Hin Hr; try lia; simpl.
  - simpl in Hl. unfold UpdateCurrentList. rewrite Hl. simpl. by apply cache_pods.
  - destruct (Hfail 0%nat) as [e He]; [lia|]. simpl in He. unfold UpdateCurrentList. rewrite He.
    apply (IH _ _ pods); try done; [lia|..].
    + intros j Hj. destruct (Hfail (S j)) as [e' He']; [lia|]. exists e'.
      rewrite Nat.iter_succ_r in He'. done.
    + rewrite Nat.iter_succ_r in Hl. done.
Qed.

Lemma NewDaemonWatcher_gives_up sleep n : ∀ o : Operator W,
  (∀ j, (j < n)%nat → ∃ e, api_DaemonPods (Nat.iter j sleep (o_w o)) = inr e) →
  o_daemons (list_daemons sleep n o) = o_daemons o.
Proof.
  induction n as [|n IH]; intros o Hfail; [done|]. simpl.
  destruct (Hfail 0%nat) as [e He]; [lia|]. simpl in He. unfold UpdateCurrentList. rewrite He.
  rewrite IH; [done|]. intros j Hj. destruct (Hfail (S j)) as [e' He']; [lia|]. exists e'.
  rewrite Nat.iter_succ_r in He'. done.
Qed.
End pods.

(** ** The start of the operator *)

(** the process ends with status 0, or at the first failure *)
Definition ended (r : list action * Z) : Prop :=
  snd r = 0 ∨ (snd r = 1 ∧ ∃ t c, fst r = t ++ [Called c false]).

Lemma also_ended a r : ended r → ended (also a r).
Proof. intros [?|(? & t & c & Ht)]; [by left|right]. split; [done|]. exists (a :: t), c. simpl. by rewrite Ht. Qed.

Lemma must_ended env c r : ended r → ended (must env c r).
Proof.
  intros Hr. unfold must. destruct (env_ok env c); [by apply (also_ended (Called c true))|].
  right. split; [done|]. by exists [], c.
Qed.

Lemma main_ended lease env : ended (main lease env).
Proof.
  unfold main. destruct lease; repeat first [apply must_ended|apply also_ended]; by left.
Qed.

(** what follows a call was reached through it *)
Lemma must_through env c r d b :
  Called d b ∈ fst (must env c r) → c ≠ d →
  fst (must env c r) = Called c true :: fst r ∧ Called d b ∈ fst r.
Proof.
  unfold must. destruct (env_ok env c); simpl; rewrite elem_of_cons; intros [[= -> ->]|H] ?; try done.
  by apply elem_of_nil in H.
Qed.

Lemma also_through a r d b :
  Called d b ∈ fst (also a r) → (∀ b', a ≠ Called d b') →
  fst (also a r) = a :: fst r ∧ Called d b ∈ fst r.
Proof. simpl. rewrite elem_of_cons. intros [<-|?] Ha; [by destruct (Ha b)|done]. Qed.

(** the goroutines of the process *)
Definition goroutines : list goroutine :=
  [CIDRHandlerRun; DaemonWatcherRun; NamespaceWatcherRun; PeriodicUpdate].

(** without leader election the operator holds the lock of leader.Become
    before it starts anything: a process that did not get it has no goroutine and
    has created no default configuration. With leader election the lease is asked
    for by the last call, StartManager: every process that gets there, leader or
    not, has started the workers of the update queue, of the daemons, of the
    namespaces and of the periodic synchronisation, and has created the default
    configuration. *)
Theorem start_before_lease env :
  (env_ok env BecomeLeader = false →
     (∀ g, Started g ∉ fst (main false env)) ∧
     ∀ b, CreatedDefaultConfig b ∉ fst (main false env)) ∧
  (∀ b, Called StartManager b ∈ fst (main true env) →
     ∃ t, fst (main true env) = t ++ [Called StartManager b] ∧
       (∀ g, g ∈ goroutines → Started g ∈ t) ∧
       CreatedDefaultConfig (env_default_config env) ∈ t ∧
       ∀ b', Called BecomeLeader b' ∉ t).
Proof.
  split.
  - intros Hb. unfold main, must. rewrite Hb. destruct (env_ok env GetConfig); simpl;
      split; intros ? H; rewrite ?elem_of_cons, elem_of_nil in H; naive_solver.
  - intros b H. unfold main in *.
    repeat first [apply must_through in H as [-> H]; [|done]|apply also_through in H as [-> H]; [|done]].
    assert (fst (must env StartManager ([], 0)) = [Called StartManager b]) as ->.
    { revert H. unfold must. destruct (env_ok env StartManager); simpl;
        intros [[= ->]|[]%elem_of_nil]%elem_of_cons; done. }
    match goal with
    | |- ∃ t, ?l = t ++ _ ∧ _ => let n := eval compute in (pred (length l)) in exists (take n l)
    end. split; [reflexivity|]. simpl. split_and!.
    + intros g. unfold goroutines. set_solver.
    + set_solver.
    + intros b'. set_solver.
Qed.

(** ** Examples *)

#[local] Existing Instance map_to_list_range.

(** a second manager that waits for the lease: all calls but the last succeed *)
Definition ex_env : Environment := mkEnv (λ c, bool_decide (c ≠ StartManager)) true.

Lemma start_before_lease_witness :
  ∃ t, fst (main true ex_env) = t ++ [Called StartManager false] ∧
    (∀ g, g ∈ goroutines → Started g ∈ t) ∧ CreatedDefaultConfig true ∈ t ∧
    ∀ b', Called BecomeLeader b' ∉ t.
Proof.
  apply (proj2 (start_before_lease ex_env) false).
  apply (bool_decide_unpack _). vm_compute. reflexivity.
Defined.

(** one request in the queue of the example operator with its plan, while a
    HostInterface reconciler asks for one more *)
Definition ex_sender {W} (o : Operator W) : Operator W := fst (UpdateCIDRs o).

Lemma ex_sender_queued {W} (o : Operator W) : queued 1 o (ex_sender o).
Proof.
  unfold ex_sender, UpdateCIDRs, queued. destruct (o_closed o); simpl; [lia|].
  destruct (_ <? _); simpl; lia.
Qed.

Lemma ProcessUpdateRequest_never_waits_witness :
  let r := ProcessUpdateRequest 65 0 (λ _, NodeError) (λ _, ex_sender) (set_queue ex_operator1 1) in
  snd r ≠ Stuck ∧ snd r ≠ OutOfFuel ∧ 0 ≤ o_queue (fst r) ≤ 2.
Proof.
  apply (ProcessUpdateRequest_never_waits 65 0 (λ _, NodeError) (λ _, ex_sender) (λ _, 1)
           (set_queue ex_operator1 1)).
  - intros name spec H. assert (c_Config spec = ex_def) as Hc.
    { revert H. change (o_cidrs (set_queue ex_operator1 1)) with (o_cidrs ex_operator1).
      replace (o_cidrs ex_operator1) with
        ({["net" := mkCIDRSpec ex_def [ex_e2; ex_e1]]} : gmap string CIDRSpec) by (vm_compute; reflexivity).
      by intros [_ <-]%lookup_singleton_Some. }
    split; [|rewrite Hc; apply CidrProps.ex_fuel_ok].
    apply (plan_ok_sound spec [192; 168; 0; 0] 16); [|rewrite Hc; apply CidrProps.ex_def_ok].
    destruct (op_steps_sound _ _ ex_operator1_reachable ex_operator_sound) as [Ho _].
    by eapply Ho.
  - intros _ o1. apply ex_sender_queued.
  - done.
  - done.
  - by vm_compute.
Defined.

Definition ex_daemon_pod (ready : bool) : KPod :=
  mkKPod "multi-nicd-x" "op" "n1" "10.1.0.1" {[DaemonLabelKey := DaemonLabelValue]} [ready] false.

Lemma ready_daemon_registered_witness :
  ∃ w1 o, pod_handler (mkWatcher ex_op []) (PodUpdate (ex_daemon_pod false) (ex_daemon_pod true)) = Some w1 ∧
    drain (length (dw_PodQueue w1)) w1 = mkWatcher o [] ∧
    o_daemons o !! "n1" = Some (daemon_of_pod (ex_daemon_pod true)) ∧
    (is_Some (hw_at (o_w o) "n1") ∨
     ∃ w0 e, createHostInterfaceInfo w0 (ex_daemon_pod true) = (o_w o, Some e)).
Proof.
  apply (ready_daemon_registered hw_at (mkWatcher ex_op []) (ex_daemon_pod false) (ex_daemon_pod true)).
  - apply hw_laws.
  - reflexivity.
  - reflexivity.
  - reflexivity.
  - left. reflexivity.
  - reflexivity.
Defined.
