(* ===== verification/ConnCheck.v ===== *)
(** * connection-check: the connectivity test of a cluster

    A job outside the operator: it lists the CIDRs, starts an iperf3 server pod on
    every host of a CIDR, waits until all serve, runs one client job per host and
    reads the bandwidths out of the logs of the clients ([main.go], [cidr.go],
    [iperf3.go]).  The cluster is the interface [CheckAPI]; waiting is a step of the
    cluster, and the two loops that poll it take fuel. *)

From S2P Require Import Prelude GoLib GoText Json JsonSpec JsonText Types Backend.
Import Json.

(** ** cidr.go *)

Definition CIDR_RESOURCE : string := "cidrs.v1.multinic.fms.io".

(** [HostInterfaceInfo] without the pool of the operator's type *)
Definition zero_host : HostInterfaceInfo := mkHostInterfaceInfo 0 "" "" "" "" "".

Definition dec_host : decoder HostInterfaceInfo := dec_struct [
  field "hostIndex" dec_int h_HostIndex
    (λ x '(mkHostInterfaceInfo _ n i h p q), mkHostInterfaceInfo x n i h p q);
  field "hostName" dec_string h_HostName
    (λ x '(mkHostInterfaceInfo d _ i h p q), mkHostInterfaceInfo d x i h p q);
  field "interfaceName" dec_string h_InterfaceName
    (λ x '(mkHostInterfaceInfo d n _ h p q), mkHostInterfaceInfo d n x h p q);
  field "hostIP" dec_string h_HostIP
    (λ x '(mkHostInterfaceInfo d n i _ p q), mkHostInterfaceInfo d n i x p q);
  field "podCIDR" dec_string h_PodCIDR
    (λ x '(mkHostInterfaceInfo d n i h _ q), mkHostInterfaceInfo d n i h x q)].

Definition dec_entry : decoder CIDREntry := dec_struct [
  field "netAddress" dec_string e_NetAddress (λ x '(mkCIDREntry _ i v h), mkCIDREntry x i v h);
  field "interfaceIndex" dec_int e_InterfaceIndex (λ x '(mkCIDREntry n _ v h), mkCIDREntry n x v h);
  field "vlanCIDR" dec_string e_VlanCIDR (λ x '(mkCIDREntry n i _ h), mkCIDREntry n i x h);
  field "hosts" (dec_slice zero_host dec_host) e_Hosts
    (λ x '(mkCIDREntry n i v _), mkCIDREntry n i v x)].

Definition zero_entry : CIDREntry := mkCIDREntry "" 0 "" [].

(** the check's own [CIDRSpec] has only the entries *)
Definition dec_CIDRs : decoder (list CIDREntry) := dec_struct [
  field "cidr" (dec_slice zero_entry dec_entry) id (λ x _, x)].

(** the specification and whether the error is nil *)
Definition parse_cidr (cidr : json) : go (list CIDREntry * bool) :=
  spec ← member_object "spec" cidr; Ret (Unmarshal dec_CIDRs (print spec) []).

Definition cidr_name (cidr : json) : go string :=
  metadata ← member_object "metadata" cidr; member_string "name" metadata.

Fixpoint cidr_map (items : list json) (cidrSpecMap : gmap string (list CIDREntry))
    : go (gmap string (list CIDREntry)) :=
  match items with
  | [] => Ret cidrSpecMap
  | cidr :: rest =>
      name ← cidr_name cidr;
      parsed ← parse_cidr cidr;
      let '(cidrSpec, err_nil) := parsed : list CIDREntry * bool in
      cidr_map rest (if err_nil then <[name := cidrSpec]> cidrSpecMap else cidrSpecMap)
  end.

Definition List {W} `{DynAPI W} (w : W) : go (gmap string (list CIDREntry)) :=
  match dyn_List w CIDR_RESOURCE NamespaceAll "" with
  | inr _ => Ret ∅
  | inl items => cidr_map items ∅
  end.

Definition add_pod_cidr (podCIDRsMap : gmap string (list string)) (host : HostInterfaceInfo)
    : gmap string (list string) :=
  match podCIDRsMap !! h_HostName host with
  | Some l => <[h_HostName host := l ++ [h_PodCIDR host]]> podCIDRsMap
  | None => <[h_HostName host := [h_PodCIDR host]]> podCIDRsMap
  end.

Definition GetPodCIDRsMap (entries : list CIDREntry) : gmap string (list string) :=
  foldl (λ m entry, foldl add_pod_cidr m (e_Hosts entry)) ∅ entries.

(** ** iperf3.go: names and commands *)

Definition DEFAULT_NAMESPACE : string := "default".
Definition STREAMS_PER_IP : Z := 5.
Definition DEFAULT_LABEL_NAME : string := "multi-nic-concheck".
Definition DEFAULT_SERVER_LABEL_VALUE : string := "server".
Definition DEFAULT_CLIENT_LABEL_VALUE : string := "client".
Definition NETWORK_ANNOTATION : string := "k8s.v1.cni.cncf.io/networks".
Definition NETWORK_STATUS_ANNOTATION : string := "k8s.v1.cni.cncf.io/network-status".
Definition IPERF_IMAGE : string := "networkstatic/iperf3".
Definition MAX_NAME_LENGTH : nat := 60.
Definition START_MULTI_STREAM_PORT : Z := 30000.
Definition ERROR_KEY : string := "Bad file descriptor".

(** the slice [name[lengthOver : len(name)-1]], and without a leading hyphen *)
Definition getName (cidrName hostName labelValue : string) : string :=
  let name := cidrName +:+ "-" +:+ hostName +:+ "-" +:+ labelValue in
  let len := String.length name in
  if (MAX_NAME_LENGTH <? len)%nat then
    let lengthOver := (len - MAX_NAME_LENGTH)%nat in
    let name := String.substring lengthOver (len - 1 - lengthOver) name in
    match name with
    | String "-"%char rest => rest
    | _ => name
    end
  else name.

Definition getLabelValue (cidrName labelValue : string) : string := cidrName +:+ "-" +:+ labelValue.

Record ObjectMeta := mkMeta {
  om_Name : string;
  om_Namespace : string;
  om_Labels : gmap string string;
  om_Annotations : gmap string string
}.

Definition getMetaObject (namespace cidrName hostName labelValue : string) : ObjectMeta :=
  mkMeta (getName cidrName hostName labelValue) namespace
    {[DEFAULT_LABEL_NAME := getLabelValue cidrName labelValue]}
    {[NETWORK_ANNOTATION := cidrName]}.

(** the ports of the i-th interface share a prefix *)
Definition prefix_port (i : nat) : Z := (START_MULTI_STREAM_PORT + Z.of_nat i * 10) / 10.

(** [" 1 2 3 4 5"] *)
Definition streams : string :=
  foldl (λ s j, s +:+ " " +:+ Strconv.Itoa j) "" (seqZ 1 STREAMS_PER_IP).

Definition server_fragment (i : nat) : string :=
  " (for i in " +:+ streams +:+ "; do iperf3 -s -p " +:+ Strconv.Itoa (prefix_port i) +:+
  "$i & done) & ".

Definition generateMultiStreamServerCommand (numberOfInterface : nat) : string :=
  foldl (λ cmd i, cmd +:+ server_fragment i) "" (seq 0 numberOfInterface) +:+ "(tail -f /dev/null)".

Definition primary_fragment (ip : string) : string :=
  " until iperf3 -c " +:+ ip +:+ " -p " +:+ Strconv.Itoa (START_MULTI_STREAM_PORT / 10) +:+
  Strconv.Itoa STREAMS_PER_IP +:+ " -n 1; do sleep 1; done;".

Definition client_fragment (i : nat) (ip : string) : string :=
  " (for i in " +:+ streams +:+ "; do iperf3 -Z -t 10s -c " +:+ ip +:+ " -p " +:+
  Strconv.Itoa (prefix_port i) +:+
  "$i --connect-timeout 10s & done | grep 'receiver' | awk '{s+=$7} END{print " +:+
  quoted (ip +:+ ",") +:+ "s$8}') &".

Definition client_host (ips : list string) : string :=
  foldl (λ cmd x, cmd +:+ client_fragment x.1 x.2) "" (imap pair ips) +:+ "wait; sleep 1;echo '';".

Section commands.
Context {ord : MapRange}.

Definition generatePrimaryCheckClientCommand (hostName : string) (ipMap : gmap string string) : string :=
  foldl (λ cmd kv, if bool_decide (kv.1 = hostName) then cmd else cmd +:+ primary_fragment kv.2)
    "" (range_map ipMap).

Definition generateMultiStreamClientCommand (hostName : string) (ipMap : gmap string (list string))
    : string :=
  foldl (λ cmd kv, if bool_decide (kv.1 = hostName) then cmd else cmd +:+ client_host kv.2)
    "" (range_map ipMap).
End commands.

(** ** iperf3.go: pods and jobs *)

Record Container := mkContainer {
  ct_Name : string;
  ct_Image : string;
  ct_ImagePullPolicy : string;
  ct_Command : list string;
  ct_Args : list string
}.

Record PodSpec := mkPodSpec {
  ps_InitContainers : list Container;
  ps_Containers : list Container;
  ps_NodeName : string;
  ps_TerminationGracePeriodSeconds : option Z;
  ps_RestartPolicy : string
}.

Record Pod := mkPod { pod_Meta : ObjectMeta; pod_Spec : PodSpec; pod_Phase : string }.

Record Job := mkJob {
  job_Meta : ObjectMeta;
  job_TemplateMeta : ObjectMeta;
  job_TemplateSpec : PodSpec;
  job_Active : Z;
  job_Succeeded : Z
}.

(** the cluster: [Create] returns the stored object, or an empty one with an error;
    a list that failed has no items; [cluster_Sleep] is five seconds of the cluster *)
Class CheckAPI (W : Type) := {
  pods_Create : W → string → Pod → W * (Pod * option string);
  pods_List : W → string → string → list Pod * option string;
  pods_Log : W → string → string → string + string;
  jobs_Create : W → string → Job → W * (Job * option string);
  jobs_Get : W → string → string → Job + string;
  jobs_List : W → string → string → list Job * option string;
  cluster_Sleep : W → W
}.

Record NetworkStatus := mkStatus { ns_Name : string; ns_Interface : string; ns_IPs : list string }.

Definition dec_status : decoder NetworkStatus := dec_struct [
  field "name" dec_string ns_Name (λ x '(mkStatus _ i p), mkStatus x i p);
  field "interface" dec_string ns_Interface (λ x '(mkStatus n _ p), mkStatus n x p);
  field "ips" (dec_slice "" dec_string) ns_IPs (λ x '(mkStatus n i _), mkStatus n i x)].

Definition zero_status : NetworkStatus := mkStatus "" "" [].

Definition label_selector (cidrName labelValue : string) : string :=
  DEFAULT_LABEL_NAME +:+ "=" +:+ getLabelValue cidrName labelValue.

Section check.
Context {W : Type} `{CheckAPI W} {ord : MapRange}.

Definition CreateServerPod (w : W) (namespace cidrName hostName : string) (numberOfStreams : nat)
    : W * (Pod * option string) :=
  let container :=
    mkContainer DEFAULT_SERVER_LABEL_VALUE IPERF_IMAGE "IfNotPresent" ["/bin/sh"; "-c"]
      [generateMultiStreamServerCommand numberOfStreams] in
  pods_Create w namespace
    (mkPod (getMetaObject namespace cidrName hostName DEFAULT_SERVER_LABEL_VALUE)
       (mkPodSpec [] [container] hostName (Some 0) "") "").

(** the lines, and the error *)
Definition getLog (w : W) (pod : Pod) : list string * option string :=
  match pods_Log w (om_Namespace (pod_Meta pod)) (om_Name (pod_Meta pod)) with
  | inr err => ([], Some err)
  | inl text => (Strings.Split text "010"%char, None)
  end.

Definition ip_maps : Type := gmap string string * gmap string (list string).

(** one network status of a pod on [node]; the address of eth0 is the first one *)
Definition add_status (namespace cidrName node : string) (maps : ip_maps) (status : NetworkStatus)
    : go ip_maps :=
  let '(primaryIPMap, serverIPsMap) := maps in
  if bool_decide (ns_Name status = namespace +:+ "/" +:+ cidrName)
  then Ret (primaryIPMap, <[node := ns_IPs status]> serverIPsMap)
  else if bool_decide (ns_Interface status = "eth0") then
    match ns_IPs status with
    | [] => Panic
    | ip :: _ => Ret (<[node := ip]> primaryIPMap, serverIPsMap)
    end
  else Ret maps.

Fixpoint add_statuses (namespace cidrName node : string) (maps : ip_maps) (l : list NetworkStatus)
    : go ip_maps :=
  match l with
  | [] => Ret maps
  | status :: rest =>
      maps ← add_status namespace cidrName node maps status;
      add_statuses namespace cidrName node maps rest
  end.

(** the loop over the server pods: the maps so far, and whether all are ready *)
Fixpoint check_pods (w : W) (namespace cidrName : string) (maps : ip_maps) (pods : list Pod)
    : go (ip_maps * bool) :=
  match pods with
  | [] => Ret (maps, true)
  | pod :: rest =>
      if negb (bool_decide (pod_Phase pod = "Running")) then Ret (maps, false)
      else
        let '(lines, err) := getLog w pod in
        if bool_decide (err ≠ None) || bool_decide (lines = []) then Ret (maps, false)
        else
          match om_Annotations (pod_Meta pod) !! NETWORK_STATUS_ANNOTATION with
          | None => Ret (maps, false)
          | Some netstatus =>
              let '(statusObj, err_nil) :=
                Unmarshal (dec_slice zero_status dec_status) netstatus [] in
              if negb err_nil then Ret (maps, false)
              else
                maps ← add_statuses namespace cidrName (ps_NodeName (pod_Spec pod)) maps statusObj;
                check_pods w namespace cidrName maps rest
          end
  end.

Definition CheckServers (w : W) (namespace cidrName : string) (totalCount : Z)
    : go (ip_maps * bool) :=
  let '(items, err) :=
    pods_List w namespace (label_selector cidrName DEFAULT_SERVER_LABEL_VALUE) in
  if bool_decide (err ≠ None) || (Z.of_nat (length items) <? totalCount)
  then Ret ((∅, ∅), false)
  else check_pods w namespace cidrName (∅, ∅) items.

Definition CreateClientJob (w : W) (namespace cidrName hostName : string) (maps : ip_maps)
    : W * (Job * option string) :=
  let '(primaryIpMap, ipMap) := maps in
  let initContainer :=
    mkContainer ("inti" +:+ DEFAULT_CLIENT_LABEL_VALUE) IPERF_IMAGE "IfNotPresent"
      ["timeout"; "30s"; "/bin/sh"; "-c"]
      [generatePrimaryCheckClientCommand hostName primaryIpMap] in
  let container :=
    mkContainer DEFAULT_CLIENT_LABEL_VALUE IPERF_IMAGE "IfNotPresent" ["/bin/sh"; "-c"]
      [generateMultiStreamClientCommand hostName ipMap] in
  let meta := getMetaObject namespace cidrName hostName DEFAULT_CLIENT_LABEL_VALUE in
  jobs_Create w namespace
    (mkJob meta meta (mkPodSpec [initContainer] [container] hostName (Some 0) "Never") 0 0).

Definition CheckClient (w : W) (job : Job) : bool :=
  match jobs_Get w (om_Namespace (job_Meta job)) (om_Name (job_Meta job)) with
  | inr _ => false
  | inl getJob =>
      if 0 <? job_Active getJob then false
      else if job_Succeeded getJob <=? 0 then false
      else true
  end.

Fixpoint check_jobs (jobs items : list Job) : list Job * bool :=
  match items with
  | [] => (jobs, true)
  | job :: rest =>
      if 0 <? job_Active job then (jobs, false)
      else if 0 <? job_Succeeded job then check_jobs (jobs ++ [job]) rest
      else (jobs, false)
  end.

Definition CheckClients (w : W) (namespace cidrName : string) (totalCount : Z) : list Job * bool :=
  let '(items, err) :=
    jobs_List w namespace (label_selector cidrName DEFAULT_CLIENT_LABEL_VALUE) in
  if bool_decide (err ≠ None) || (Z.of_nat (length items) <? totalCount) then ([], false)
  else check_jobs [] items.

(** ** iperf3.go: the report *)

(** one line of a client's log *)
Definition read_value (result : gmap string string) (line : string) : gmap string string :=
  match Strings.Split line ","%char with
  | [] => result
  | [v0] => <[v0 := ERROR_KEY]> result
  | v0 :: v1 :: _ => <[v0 := v1]> result
  end.

(** the count of failures, and the bandwidths *)
Definition read_ip (result : gmap string string) (acc : Z * string) (ip : string) : Z * string :=
  let '(failCount, bps) := acc in
  match result !! ip with
  | None => acc
  | Some val =>
      if Strings.Contains val ERROR_KEY || bool_decide (val = "") then (failCount + 1, bps)
      else (failCount, bps +:+ " " +:+ val)
  end.

(** a line of the table *)
Record row := mkRow {
  row_from : string;
  row_to : string;
  row_connected : Z;
  row_total : Z;
  row_ips : list string;
  row_bps : string
}.

Definition report_row (hostName : string) (result : gmap string string)
    (target : string * list string) : option row :=
  let '(targetHost, ips) := target in
  if bool_decide (targetHost = hostName) then None
  else
    let '(failCount, bps) := foldl (read_ip result) (0, "[") ips in
    let total := Z.of_nat (length ips) in
    Some (mkRow hostName targetHost (total - failCount) total ips (bps +:+ "]")).

(** one client pod: a log that cannot be read leaves its results empty *)
Definition read_pod (w : W) (ipMap : gmap string (list string))
    (acc : gmap string (gmap string string) * list row) (pod : Pod)
    : gmap string (gmap string string) * list row :=
  let '(result, rows) := acc in
  let hostName := ps_NodeName (pod_Spec pod) in
  let '(lines, err) := getLog w pod in
  let values :=
    match err with
    | Some _ => ∅
    | None => foldl read_value ∅ lines
    end in
  (<[hostName := values]> result, rows ++ omap (report_row hostName values) (range_map ipMap)).

(** the result, and the lines that are printed *)
Definition ReadResult (w : W) (namespace cidrName : string) (ipMap : gmap string (list string))
    : gmap string (gmap string string) * list row :=
  let '(items, _) :=
    pods_List w namespace (label_selector cidrName DEFAULT_CLIENT_LABEL_VALUE) in
  foldl (read_pod w ipMap) (∅, []) items.
End check.

(** ** main.go *)

(** what [getConfig] reads its configuration from; [env] is the variable
    KUBECONFIG_FILE, the value is empty when it is not set *)
Inductive config_source := InClusterConfig | BuildConfigFromFlags (kubeconfig : string).

Definition getConfig (env : option string) : config_source :=
  let presentKube := default "" env in
  if bool_decide (env = None) && negb (bool_decide (presentKube = "")) then InClusterConfig
  else BuildConfigFromFlags presentKube.

Section main.
Context {W : Type} `{CheckAPI W} `{DynAPI W} {ord : MapRange}.

(** one server pod per host; the count of those created *)
Fixpoint create_servers (w : W) (cidrName : string) (hosts : list (string * list string))
    (totalCount : Z) : W * Z :=
  match hosts with
  | [] => (w, totalCount)
  | (host, podCIDRs) :: rest =>
      let '(w, (_, err)) := CreateServerPod w DEFAULT_NAMESPACE cidrName host (length podCIDRs) in
      create_servers w cidrName rest (match err with Some _ => totalCount | None => totalCount + 1 end)
  end.

Fixpoint wait_servers (fuel : nat) (w : W) (cidrName : string) (totalCount : Z) : W * run ip_maps :=
  match fuel with
  | O => (w, OutOfFuel)
  | S fuel' =>
      match CheckServers w DEFAULT_NAMESPACE cidrName totalCount with
      | Panic => (w, Crash)
      | Ret (maps, serversReady) =>
          let w := cluster_Sleep w in
          if serversReady then (w, Fin maps) else wait_servers fuel' w cidrName totalCount
      end
  end.

Fixpoint wait_client (fuel : nat) (w : W) (job : Job) : W * run unit :=
  match fuel with
  | O => (w, OutOfFuel)
  | S fuel' =>
      let w := cluster_Sleep w in
      if CheckClient w job then (w, Fin tt) else wait_client fuel' w job
  end.

(** one client job per host, each waited for; the count of those created *)
Fixpoint run_clients (fuel : nat) (w : W) (cidrName : string) (maps : ip_maps) (hosts : list string)
    (totalCount : Z) : W * run Z :=
  match hosts with
  | [] => (w, Fin totalCount)
  | host :: rest =>
      let '(w, (job, err)) := CreateClientJob w DEFAULT_NAMESPACE cidrName host maps in
      let totalCount := match err with Some _ => totalCount | None => totalCount + 1 end in
      match wait_client fuel w job with
      | (w, Fin _) => run_clients fuel w cidrName maps rest totalCount
      | (w, Crash) => (w, Crash)
      | (w, OutOfFuel) => (w, OutOfFuel)
      | (w, Stuck) => (w, Stuck)
      end
  end.

Definition check_cidr (fuel : nat) (w : W) (cidrName : string) (cidr : list CIDREntry)
    : W * run (list row) :=
  let podCIDRsMap := GetPodCIDRsMap cidr in
  let '(w, totalCount) := create_servers w cidrName (range_map podCIDRsMap) 0 in
  match wait_servers fuel w cidrName totalCount with
  | (w, Fin maps) =>
      match run_clients fuel w cidrName maps (range_map podCIDRsMap).*1 0 with
      | (w, Fin _) => (w, Fin (snd (ReadResult w DEFAULT_NAMESPACE cidrName (snd maps))))
      | (w, Crash) => (w, Crash)
      | (w, OutOfFuel) => (w, OutOfFuel)
      | (w, Stuck) => (w, Stuck)
      end
  | (w, Crash) => (w, Crash)
  | (w, OutOfFuel) => (w, OutOfFuel)
  | (w, Stuck) => (w, Stuck)
  end.

Fixpoint check_cidrs (fuel : nat) (w : W) (l : list (string * list CIDREntry))
    (tables : list (string * list row)) : W * run (list (string * list row)) :=
  match l with
  | [] => (w, Fin tables)
  | (cidrName, cidr) :: rest =>
      match check_cidr fuel w cidrName cidr with
      | (w, Fin rows) => check_cidrs fuel w rest (tables ++ [(cidrName, rows)])
      | (w, Crash) => (w, Crash)
      | (w, OutOfFuel) => (w, OutOfFuel)
      | (w, Stuck) => (w, Stuck)
      end
  end.

(** the tables printed, one per CIDR *)
Definition main (fuel : nat) (w : W) : W * run (list (string * list row)) :=
  match List w with
  | Panic => (w, Crash)
  | Ret cidrMap => check_cidrs fuel w (range_map cidrMap) []
  end.
End main.
