(* ===== verification/ConnCheckProps.v ===== *)
(** * The connectivity test: what it measures and when it ends *)

From S2P Require Import Prelude GoLib GoText Json JsonSpec JsonText Types Backend ConnCheck.
Import Json.

(** ** The hosts of a CIDR *)

(** the pod networks of a host, in the order of the entries *)
Definition pods_of (host : string) (hosts : list HostInterfaceInfo) : list string :=
  h_PodCIDR <$> filter (λ h, h_HostName h = host) hosts.

Lemma add_pod_cidr_lookup m h host :
  default [] (add_pod_cidr m h !! host) =
  default [] (m !! host) ++ (if bool_decide (h_HostName h = host) then [h_PodCIDR h] else []) ∧
  (is_Some (add_pod_cidr m h !! host) ↔ is_Some (m !! host) ∨ h_HostName h = host).
Proof.
  unfold add_pod_cidr. case_bool_decide as Heq.
  - subst host. destruct (m !! h_HostName h); rewrite lookup_insert_eq;
      (split; [done|]); split; eauto.
  - destruct (m !! h_HostName h); rewrite lookup_insert_ne by done; rewrite app_nil_r;
      (split; [done|]); split; [by left|by intros [?|?]|by left|by intros [?|?]].
Qed.

Lemma add_pod_cidrs_lookup hosts host : ∀ m,
  default [] (foldl add_pod_cidr m hosts !! host) = default [] (m !! host) ++ pods_of host hosts ∧
  (is_Some (foldl add_pod_cidr m hosts !! host) ↔
   is_Some (m !! host) ∨ host ∈ h_HostName <$> hosts).
Proof.
  induction hosts as [|h hosts IH]; intros m; simpl.
  { rewrite app_nil_r. split; [done|]. rewrite elem_of_nil. tauto. }
  destruct (IH (add_pod_cidr m h)) as [Hl Hs], (add_pod_cidr_lookup m h host) as [Hl0 Hs0].
  rewrite Hl, Hs, Hl0, Hs0. unfold pods_of. rewrite filter_cons, elem_of_cons.
  case_bool_decide; case_decide; try done; simpl; rewrite <- ?app_assoc; (split; [done|]);
    clear; (split; [intros [[?|<-]|?]|intros [?|[->|?]]]; auto).
Qed.

(** the map has exactly the hosts of the entries, each with its pod networks *)
Lemma GetPodCIDRsMap_exact entries host :
  GetPodCIDRsMap entries !! host =
  match pods_of host (entries ≫= e_Hosts) with [] => None | l => Some l end.
Proof.
  assert (∀ m, foldl (λ m entry, foldl add_pod_cidr m (e_Hosts entry)) m entries
    = foldl add_pod_cidr m (entries ≫= e_Hosts)) as Hflat.
  { induction entries as [|e entries IH]; intros m; [done|]. simpl. by rewrite foldl_app, IH. }
  unfold GetPodCIDRsMap. rewrite Hflat.
  destruct (add_pod_cidrs_lookup (entries ≫= e_Hosts) host ∅) as [Hl Hs].
  rewrite lookup_empty in Hl, Hs. simpl in Hl.
  destruct (foldl _ _ _ !! host) as [l|] eqn:E; simpl in Hl; rewrite <- Hl.
  - destruct l; [|done]. exfalso. destruct (proj1 Hs) as [[? ?]|Hin]; [done|done|].
    apply list_elem_of_fmap in Hin as (h & -> & Hin).
    assert (h_PodCIDR h ∈ pods_of (h_HostName h) (entries ≫= e_Hosts)) as Hp.
    { apply list_elem_of_fmap. exists h. split; [done|]. by apply list_elem_of_filter. }
    rewrite <- Hl in Hp. by apply elem_of_nil in Hp.
  - done.
Qed.

(** ** Texts that contain a piece *)

Lemma Contains_app_r a b sub : Strings.Contains b sub = true → Strings.Contains (a +:+ b) sub = true.
Proof.
  intros Hb. induction a as [|c a IH]; [done|]. rewrite str_app_cons. simpl.
  by rewrite IH, orb_true_r.
Qed.

Lemma prefix_extend p s t : String.prefix p s = true → String.prefix p (s +:+ t) = true.
Proof.
  revert s. induction p as [|c p IH]; intros s; [by destruct (s +:+ t)|].
  destruct s as [|d s]; [done|]. rewrite str_app_cons. simpl.
  destruct (Ascii.ascii_dec c d); [apply IH|done].
Qed.

Lemma Contains_app_l a b sub : Strings.Contains a sub = true → Strings.Contains (a +:+ b) sub = true.
Proof.
  induction a as [|c a IH].
  - simpl. destruct sub as [|x sub]; [intros _; by destruct b|done].
  - rewrite str_app_cons. intros [Hp|Hc]%orb_true_iff; simpl; apply orb_true_iff.
    + left. by apply (prefix_extend sub (String c a) b).
    + right. by apply IH.
Qed.

Lemma Contains_self sub t : Strings.Contains (sub +:+ t) sub = true.
Proof.
  destruct sub as [|c sub]; [by destruct t|]. rewrite str_app_cons. simpl.
  apply orb_true_iff. left. apply (prefix_app (String c sub) t).
Qed.

(** a text that grows by appending contains every piece appended *)
Lemma foldl_contains {A} (f : A → string) (g : string → A → string) l x : ∀ s,
  (∀ s y, g s y = s +:+ f y ∨ g s y = s) → (∀ s, g s x = s +:+ f x) → x ∈ l →
  ∀ sub, Strings.Contains (f x) sub = true → Strings.Contains (foldl g s l) sub = true.
Proof.
  intros s Hg Hx Hin sub Hsub.
  assert (∀ l0 s0, Strings.Contains s0 sub = true → Strings.Contains (foldl g s0 l0) sub = true)
    as Hkeep.
  { induction l0 as [|y l0 IH]; intros s0 Hs; [done|]. simpl. apply IH.
    destruct (Hg s0 y) as [-> | ->]; [|done]. by apply Contains_app_l. }
  revert s. induction l as [|y l IH]; intros s; [by apply elem_of_nil in Hin|]. simpl.
  apply elem_of_cons in Hin as [<-|Hin]; [|by apply IH]. apply Hkeep. rewrite Hx.
  by apply Contains_app_r.
Qed.

(** ** Loops of the shell *)

(** a loop over the five streams, and the commands the shell runs for it: [$i] is
    replaced by the number of the stream *)
Definition loop_text (pre post : string) : string :=
  " (for i in  1 2 3 4 5; do " +:+ pre +:+ "$i" +:+ post +:+ " & done".

Definition loop_commands (pre post : string) : list string :=
  (λ j, pre +:+ Strconv.Itoa j +:+ post) <$> [1; 2; 3; 4; 5].

Definition server_pre (i : nat) : string := "iperf3 -s -p " +:+ Strconv.Itoa (3000 + Z.of_nat i).

Definition client_pre (ip : string) (i : nat) : string :=
  "iperf3 -Z -t 10s -c " +:+ ip +:+ " -p " +:+ Strconv.Itoa (3000 + Z.of_nat i).

Definition client_post : string := " --connect-timeout 10s".

(** the ports of the i-th interface *)
Definition ports (i : nat) : list Z := (λ j, 30000 + 10 * Z.of_nat i + j) <$> [1; 2; 3; 4; 5].

Definition listen_command (port : Z) : string := "iperf3 -s -p " +:+ Strconv.Itoa port.

Definition connect_command (ip : string) (port : Z) : string :=
  "iperf3 -Z -t 10s -c " +:+ ip +:+ " -p " +:+ Strconv.Itoa port +:+ " --connect-timeout 10s".

Lemma prefix_port_eq i : prefix_port i = 3000 + Z.of_nat i.
Proof.
  unfold prefix_port, START_MULTI_STREAM_PORT.
  replace (30000 + Z.of_nat i * 10) with ((3000 + Z.of_nat i) * 10) by lia. by apply Z.div_mul.
Qed.

Lemma port_append i j :
  1 ≤ j ≤ 5 →
  Strconv.Itoa (3000 + Z.of_nat i) +:+ Strconv.Itoa j = Strconv.Itoa (30000 + 10 * Z.of_nat i + j).
Proof. intros Hj. rewrite Itoa_append by lia. f_equal. lia. Qed.

Lemma server_loop_commands i : loop_commands (server_pre i) "" = listen_command <$> ports i.
Proof.
  unfold loop_commands, ports. rewrite <- list_fmap_compose. apply list_fmap_ext.
  intros k j Hj%list_elem_of_lookup_2. unfold server_pre, listen_command. simpl.
  rewrite str_app_nil_r, str_app_assoc, port_append; [done|]. set_solver by lia.
Qed.

Lemma client_loop_commands ip i :
  loop_commands (client_pre ip i) client_post = connect_command ip <$> ports i.
Proof.
  unfold loop_commands, ports. rewrite <- list_fmap_compose. apply list_fmap_ext.
  intros k j Hj%list_elem_of_lookup_2. unfold client_pre, connect_command. simpl.
  rewrite !str_app_assoc, <- port_append; [by rewrite !str_app_assoc|]. set_solver by lia.
Qed.

Lemma ports_disjoint i i' p : p ∈ ports i → p ∈ ports i' → i = i'.
Proof.
  unfold ports. intros (j & -> & Hj)%list_elem_of_fmap (j' & Heq & Hj')%list_elem_of_fmap.
  assert (1 ≤ j ≤ 5) by set_solver by lia. assert (1 ≤ j' ≤ 5) by set_solver by lia. lia.
Qed.

Lemma Contains_middle a b c : Strings.Contains (a +:+ b +:+ c) b = true.
Proof. apply Contains_app_r, Contains_self. Qed.

Lemma streams_eq : streams = " 1 2 3 4 5".
Proof. reflexivity. Qed.

Lemma server_fragment_stream i :
  Strings.Contains (server_fragment i) (loop_text (server_pre i) "") = true.
Proof.
  replace (server_fragment i) with ("" +:+ loop_text (server_pre i) "" +:+ ") & ").
  - apply Contains_middle.
  - unfold server_fragment, loop_text, server_pre. rewrite streams_eq, prefix_port_eq.
    by rewrite !str_app_assoc.
Qed.

Lemma client_fragment_stream i ip :
  Strings.Contains (client_fragment i ip) (loop_text (client_pre ip i) client_post) = true.
Proof.
  replace (client_fragment i ip) with ("" +:+ loop_text (client_pre ip i) client_post +:+
    (" | grep 'receiver' | awk '{s+=$7} END{print " +:+ quoted (ip +:+ ",") +:+ "s$8}') &")).
  - apply Contains_middle.
  - unfold client_fragment, loop_text, client_pre. rewrite streams_eq, prefix_port_eq.
    by rewrite !str_app_assoc.
Qed.

Section theorems.
Context {W : Type} {api : CheckAPI W} {ord : MapRange}.

Lemma server_command_stream n i :
  (i < n)%nat →
  Strings.Contains (generateMultiStreamServerCommand n) (loop_text (server_pre i) "") = true.
Proof.
  intros Hi. unfold generateMultiStreamServerCommand. apply Contains_app_l.
  eapply (foldl_contains server_fragment); [by left|done| |apply server_fragment_stream].
  apply elem_of_seq. lia.
Qed.

Lemma client_command_stream host ipMap target ips i ip :
  target ≠ host → ipMap !! target = Some ips → ips !! i = Some ip →
  Strings.Contains (generateMultiStreamClientCommand host ipMap)
    (loop_text (client_pre ip i) client_post) = true.
Proof.
  intros Hne Hips Hip. unfold generateMultiStreamClientCommand.
  eapply (foldl_contains (λ kv : string * list string, client_host kv.2) _ _ (target, ips)).
  - intros s y. case_bool_decide; [by right|by left].
  - intros s. by rewrite bool_decide_eq_false_2.
  - by apply elem_of_range_map.
  - simpl. unfold client_host. apply Contains_app_l.
    eapply (foldl_contains (λ x : nat * string, client_fragment x.1 x.2) _ _ (i, ip));
      [by left|done| |apply client_fragment_stream].
    apply list_elem_of_lookup. exists i. by rewrite list_lookup_imap, Hip.
Qed.

(** what a pod runs on its node with the shell *)
Definition runs (spec : PodSpec) (node command : string) : Prop :=
  ps_NodeName spec = node ∧
  (λ c, (ct_Command c, ct_Args c)) <$> ps_Containers spec = [(["/bin/sh"; "-c"], [command])].

(** the pods that the check asks for, one per host *)
Lemma create_servers_requests c hosts : ∀ (w : W) total,
  ∃ pods, (create_servers w c hosts total).1 = foldl (λ w p, (pods_Create w DEFAULT_NAMESPACE p).1) w pods ∧
    ∀ host l, (host, l) ∈ hosts →
      ∃ p, p ∈ pods ∧ runs (pod_Spec p) host (generateMultiStreamServerCommand (length l)).
Proof.
  induction hosts as [|[h l] hosts IH]; intros w total.
  { exists []. split; [done|]. by intros ? ? ?%elem_of_nil. }
  cbn [create_servers]. unfold CreateServerPod.
  match goal with |- context [pods_Create w DEFAULT_NAMESPACE ?pod] => set (p := pod) end.
  destruct (pods_Create w DEFAULT_NAMESPACE p) as [w1 [p1 err]] eqn:Ep.
  destruct (IH w1 (match err with Some _ => total | None => total + 1 end)) as (pods & Hw & Hall).
  exists (p :: pods). split; [by simpl; rewrite Ep|].
  intros host l' [[= -> ->]|Hin]%elem_of_cons.
  - exists p. split; [by left|done].
  - destruct (Hall _ _ Hin) as (q & ? & ?). exists q. split; [by right|done].
Qed.

(** C29: clients and servers meet on the same ports. For every CIDR, the check asks
    for one server pod on each host of the entries; take a host [target] whose pod
    reports at most as many addresses as the host has pod networks in the CIDR, and its
    [i]-th address. The shell command of the server pod on [target] has a loop over the
    streams 1 to 5 whose commands are [iperf3 -s] on the ports 30001 + 10 i to
    30005 + 10 i, the job that the check creates for any other host has a loop whose
    commands connect to that address on exactly these ports, and no other address of
    [target] has one of them. *)
Theorem streams_meet (w w' : W) c entries target host maps ips i ip :
  target ≠ host → maps.2 !! target = Some ips → ips !! i = Some ip →
  (length ips ≤ length (pods_of target (entries ≫= e_Hosts)))%nat →
  ∃ pods pod job server client,
    (create_servers w c (range_map (GetPodCIDRsMap entries)) 0).1
      = foldl (λ w p, (pods_Create w DEFAULT_NAMESPACE p).1) w pods ∧
    (pod ∈ pods) ∧ runs (pod_Spec pod) target server ∧
    CreateClientJob w' DEFAULT_NAMESPACE c host maps = jobs_Create w' DEFAULT_NAMESPACE job ∧
    runs (job_TemplateSpec job) host client ∧
    Strings.Contains server (loop_text (server_pre i) "") = true ∧
    Strings.Contains client (loop_text (client_pre ip i) client_post) = true ∧
    loop_commands (server_pre i) "" = listen_command <$> ports i ∧
    loop_commands (client_pre ip i) client_post = connect_command ip <$> ports i ∧
    ∀ k p, p ∈ ports i → p ∈ ports k → k = i.
Proof.
  intros Hne Hips Hip Hlen. pose proof (lookup_lt_Some _ _ _ Hip) as Hi.
  pose proof (GetPodCIDRsMap_exact entries target) as Hm.
  destruct (pods_of target (entries ≫= e_Hosts)) as [|x l] eqn:El; [simpl in Hlen; lia|].
  destruct (create_servers_requests c (range_map (GetPodCIDRsMap entries)) w 0) as (pods & Hw & Hall).
  destruct (Hall target (x :: l)) as (pod & Hin & Hruns); [by apply elem_of_range_map|].
  destruct maps as [primary ipMap].
  eexists pods, pod, _, _, _. split; [exact Hw|]. split; [done|]. split; [exact Hruns|].
  split; [reflexivity|]. split; [by split|]. split_and!.
  - apply server_command_stream. lia.
  - by eapply client_command_stream.
  - apply server_loop_commands.
  - apply client_loop_commands.
  - intros k p Hp Hk. by eapply ports_disjoint.
Qed.
End theorems.

(** ** Names *)

(** a name has between 2 and 60 characters *)
Lemma getName_length cidrName hostName labelValue :
  (2 ≤ String.length (getName cidrName hostName labelValue) ≤ MAX_NAME_LENGTH)%nat.
Proof.
  unfold getName. cbv zeta. set (name := cidrName +:+ _).
  assert (2 ≤ String.length name)%nat.
  { subst name. rewrite !str_length_app. change (String.length "-") with 1%nat. lia. }
  destruct (Nat.ltb_spec MAX_NAME_LENGTH (String.length name)) as [Hover|]; [|lia].
  set (over := (String.length name - MAX_NAME_LENGTH)%nat).
  pose proof (length_substring (String.length name - 1 - over) name over) as Hl.
  unfold MAX_NAME_LENGTH in *.
  destruct (String.substring over _ name) as [|c rest] eqn:E; [simpl in *; lia|].
  simpl in Hl. destruct c as [[] [] [] [] [] [] [] []]; simpl; lia.
Qed.

Definition long_host : string := "worker-0.rack-12.zone-a.cluster-0123456789.example.com".

(** the cut ends one character early, and takes the network's name away first: a
    second network gets the same pod name on the same host *)
Example getName_cut :
  getName "netA" long_host "server" = "orker-0.rack-12.zone-a.cluster-0123456789.example.com-serve" ∧
  getName "other" long_host "server" = getName "netA" long_host "server".
Proof. vm_compute. done. Qed.

(** ** The report *)

(** the log of a client has a value for the address that is no bandwidth *)
Definition measured_failure (result : gmap string string) (ip : string) : bool :=
  match result !! ip with
  | Some val => Strings.Contains val ERROR_KEY || bool_decide (val = "")
  | None => false
  end.

Lemma read_ip_failure result acc ip :
  (read_ip result acc ip).1 = acc.1 + (if measured_failure result ip then 1 else 0).
Proof.
  destruct acc as [n bps]. unfold read_ip, measured_failure.
  destruct (result !! ip) as [val|]; [|simpl; lia]. destruct (_ || _); simpl; lia.
Qed.

Lemma read_ips_failures result ips : ∀ acc,
  (foldl (read_ip result) acc ips).1
  = acc.1 + Z.of_nat (length (filter (λ ip, measured_failure result ip = true) ips)).
Proof.
  induction ips as [|ip ips IH]; intros acc; simpl; [lia|].
  rewrite IH, filter_cons, read_ip_failure.
  destruct (measured_failure result ip); case_decide; simpl; congruence || lia.
Qed.

Lemma filter_split (P : string → bool) l :
  (length (filter (λ x, P x = true) l) + length (filter (λ x, P x = false) l) = length l)%nat.
Proof.
  induction l as [|x l IH]; [done|]. rewrite !filter_cons.
  destruct (P x) eqn:E; repeat case_decide; simpl; congruence || lia.
Qed.

Lemma unmeasured_all (ips : list string) : filter (λ ip, measured_failure ∅ ip = false) ips = ips.
Proof.
  induction ips as [|ip ips IH]; [done|]. rewrite filter_cons, IH.
  assert (measured_failure ∅ ip = false) by (unfold measured_failure; by rewrite lookup_empty).
  by rewrite decide_True.
Qed.

Lemma report_row_counts host values target ips r :
  report_row host values (target, ips) = Some r →
  target ≠ host ∧ row_from r = host ∧ row_to r = target ∧ row_ips r = ips ∧
  row_total r = Z.of_nat (length ips) ∧
  row_connected r = Z.of_nat (length (filter (λ ip, measured_failure values ip = false) ips)).
Proof.
  unfold report_row. case_bool_decide as Hne; [done|].
  pose proof (read_ips_failures values ips (0, "[")) as Hf.
  destruct (foldl _ _ ips) as [n bps]. simpl in Hf. intros [= <-]. simpl.
  pose proof (filter_split (measured_failure values) ips). split_and!; [done..|]. lia.
Qed.

Section report.
Context {W : Type} {api : CheckAPI W} {ord : MapRange}.

(** the values that a client's log gives; none when the log cannot be read *)
Definition log_values (w : W) (pod : Pod) : gmap string string :=
  match getLog w pod with (lines, None) => foldl read_value ∅ lines | _ => ∅ end.

(** a row tells of [pod]: as connected it counts every address without a failure in
    the pod's log *)
Definition row_of (w : W) (ipMap : gmap string (list string)) (pod : Pod) (r : row) : Prop :=
  row_from r = ps_NodeName (pod_Spec pod) ∧ row_to r ≠ row_from r ∧
  ipMap !! row_to r = Some (row_ips r) ∧ row_total r = Z.of_nat (length (row_ips r)) ∧
  row_connected r
  = Z.of_nat (length (filter (λ ip, measured_failure (log_values w pod) ip = false) (row_ips r))).

Lemma read_pod_rows (w : W) ipMap acc pod r :
  r ∈ (read_pod w ipMap acc pod).2 → r ∈ acc.2 ∨ row_of w ipMap pod r.
Proof.
  destruct acc as [result rows]. unfold read_pod.
  destruct (getLog w pod) as [lines err] eqn:El. simpl. rewrite elem_of_app.
  intros [?|Hin]; [by left|right]. apply list_elem_of_omap in Hin as ([target ips] & Hm & Hr).
  apply elem_of_range_map in Hm. apply report_row_counts in Hr as (Hne & Hf & Ht & Hi & Htot & Hc).
  unfold row_of, log_values. rewrite El, Hf, Ht, Hi. split_and!; done.
Qed.

(** what the table of the connectivity test counts: every row belongs to a
    client pod and another host's addresses, and the number it gives as connected is
    the number of addresses whose bandwidth the log of the client does not report as
    failed. An address the log does not mention counts as connected: for a client whose
    log cannot be read every row says that all addresses are connected. *)
Theorem report_counts_unmeasured (w : W) namespace cidrName ipMap r :
  r ∈ (ReadResult w namespace cidrName ipMap).2 →
  ∃ pod, (pod ∈ (pods_List w namespace (label_selector cidrName DEFAULT_CLIENT_LABEL_VALUE)).1) ∧
    row_of w ipMap pod r ∧ ((getLog w pod).2 ≠ None → row_connected r = row_total r).
Proof.
  unfold ReadResult. destruct (pods_List _ _ _) as [items err]. simpl.
  assert (∀ acc, r ∈ (foldl (read_pod w ipMap) acc items).2 →
    r ∈ acc.2 ∨ ∃ pod, (pod ∈ items) ∧ row_of w ipMap pod r) as H.
  { induction items as [|pod items IH]; intros acc; simpl; [by left|].
    intros [Hin|(p & ? & ?)]%IH; [|right; exists p; split; [by right|done]].
    apply read_pod_rows in Hin as [?|?]; [by left|right]. exists pod. split; [by left|done]. }
  intros [?%elem_of_nil|(pod & Hin & Hr)]%H; [done|]. exists pod. split_and!; [done..|].
  intros Hlog. destruct Hr as (_ & _ & _ & Htot & Hc). rewrite Hc, Htot. unfold log_values.
  destruct (getLog w pod) as [lines [e|]]; [|done].
  by rewrite unmeasured_all.
Qed.
End report.

(** ** When the check ends *)

Section ends.
Context {W : Type} {api : CheckAPI W} {dyn : DynAPI W} {ord : MapRange}.

(** the cluster after [n] waits *)
Definition after_waits (n : nat) (w : W) : W := Nat.iter n cluster_Sleep w.

Lemma after_waits_S n w : after_waits (S n) w = after_waits n (cluster_Sleep w).
Proof. unfold after_waits. induction n as [|n IH]; [done|]. simpl in *. by rewrite IH. Qed.

Lemma wait_client_never fuel w job :
  (∀ n, CheckClient (after_waits (S n) w) job = false) → snd (wait_client fuel w job) = OutOfFuel.
Proof.
  revert w. induction fuel as [|fuel IH]; intros w Hn; [done|]. simpl.
  pose proof (Hn O) as H0. unfold after_waits in H0. simpl in H0. rewrite H0.
  apply IH. intros n. rewrite <- after_waits_S. apply (Hn (S n)).
Qed.

Lemma wait_client_ready w job n :
  CheckClient (after_waits (S n) w) job = true →
  ∃ fuel w', wait_client fuel w job = (w', Fin tt).
Proof.
  revert w. induction n as [|n IH]; intros w Hn.
  - exists 1%nat. eexists. simpl. unfold after_waits in Hn. simpl in Hn. by rewrite Hn.
  - destruct (CheckClient (cluster_Sleep w) job) eqn:E.
    { exists 1%nat. eexists. simpl. by rewrite E. }
    destruct (IH (cluster_Sleep w)) as (fuel & w' & H); [by rewrite <- after_waits_S|].
    exists (S fuel), w'. simpl. by rewrite E.
Qed.

Lemma wait_client_mono fuel fuel' w job w' u :
  (fuel ≤ fuel')%nat → wait_client fuel w job = (w', Fin u) → wait_client fuel' w job = (w', Fin u).
Proof.
  revert fuel' w. induction fuel as [|fuel IH]; intros fuel' w Hle H; [done|].
  destruct fuel' as [|fuel']; [lia|]. simpl in *.
  destruct (CheckClient _ _); [done|]. apply IH; [lia|done].
Qed.

Lemma wait_servers_mono fuel fuel' w c t w' maps :
  (fuel ≤ fuel')%nat → wait_servers fuel w c t = (w', Fin maps) →
  wait_servers fuel' w c t = (w', Fin maps).
Proof.
  revert fuel' w. induction fuel as [|fuel IH]; intros fuel' w Hle H; [done|].
  destruct fuel' as [|fuel']; [lia|]. simpl in *.
  destruct (CheckServers _ _ _ _) as [[m ready]|]; [|done].
  destruct ready; [done|]. apply IH; [lia|done].
Qed.

Lemma run_clients_mono fuel fuel' c maps hosts : ∀ w total w' x,
  (fuel ≤ fuel')%nat → run_clients fuel w c maps hosts total = (w', Fin x) →
  run_clients fuel' w c maps hosts total = (w', Fin x).
Proof.
  induction hosts as [|host hosts IH]; intros w total w' x Hle H; [done|]. simpl in *.
  destruct (CreateClientJob _ _ _ _ _) as [w1 [job err]].
  destruct (wait_client fuel w1 job) as [w2 [[]| | |]] eqn:E; try done.
  rewrite (wait_client_mono _ _ _ _ _ _ Hle E). by apply IH.
Qed.

Lemma check_cidr_mono fuel fuel' w c cidr w' rows :
  (fuel ≤ fuel')%nat → check_cidr fuel w c cidr = (w', Fin rows) →
  check_cidr fuel' w c cidr = (w', Fin rows).
Proof.
  intros Hle. unfold check_cidr. destruct (create_servers _ _ _ _) as [w1 total].
  destruct (wait_servers fuel w1 c total) as [w2 [maps| | |]] eqn:E; try done.
  rewrite (wait_servers_mono _ _ _ _ _ _ _ Hle E).
  destruct (run_clients fuel w2 c maps _ 0) as [w3 [x| | |]] eqn:Er; try done.
  by rewrite (run_clients_mono _ _ _ _ _ _ _ _ _ Hle Er).
Qed.

(** a cluster in which created servers start, and client jobs are created and finish *)
Definition servers_start : Prop := ∀ w c hosts w1 t,
  create_servers w c hosts 0 = (w1, t) → ∃ fuel w' maps, wait_servers fuel w1 c t = (w', Fin maps).

Definition clients_finish : Prop := ∀ w c host maps w1 job err,
  CreateClientJob w DEFAULT_NAMESPACE c host maps = (w1, (job, err)) →
  ∃ n, CheckClient (after_waits (S n) w1) job = true.

Lemma run_clients_ends c maps hosts : clients_finish → ∀ w total,
  ∃ fuel w' x, run_clients fuel w c maps hosts total = (w', Fin x).
Proof.
  intros Hf. induction hosts as [|host hosts IH]; intros w total.
  { by exists O, w, total. }
  destruct (CreateClientJob w DEFAULT_NAMESPACE c host maps) as [w1 [job err]] eqn:Ec.
  destruct (Hf _ _ _ _ _ _ _ Ec) as [n Hn]. destruct (wait_client_ready w1 job n Hn) as (f1 & w2 & H1).
  destruct (IH w2 (match err with Some _ => total | None => total + 1 end)) as (f2 & w3 & x & H2).
  exists (Nat.max f1 f2), w3, x. simpl. rewrite Ec.
  rewrite (wait_client_mono f1 (Nat.max f1 f2) _ _ _ _ ltac:(lia) H1).
  by apply (run_clients_mono f2); [lia|].
Qed.

Lemma check_cidr_ends c cidr w :
  servers_start → clients_finish → ∃ fuel w' rows, check_cidr fuel w c cidr = (w', Fin rows).
Proof.
  intros Hs Hf. destruct (create_servers w c (range_map (GetPodCIDRsMap cidr)) 0) as [w1 total] eqn:Ec.
  destruct (Hs _ _ _ _ _ Ec) as (f1 & w2 & maps & H1).
  destruct (run_clients_ends c maps (range_map (GetPodCIDRsMap cidr)).*1 Hf w2 0)
    as (f2 & w3 & x & H2).
  exists (Nat.max f1 f2), w3. eexists. unfold check_cidr. rewrite Ec.
  rewrite (wait_servers_mono f1 (Nat.max f1 f2) _ _ _ _ _ ltac:(lia) H1).
  rewrite (run_clients_mono f2 (Nat.max f1 f2) _ _ _ _ _ _ _ ltac:(lia) H2). done.
Qed.

Lemma check_cidrs_mono fuel fuel' l : ∀ w tables w' x,
  (fuel ≤ fuel')%nat → check_cidrs fuel w l tables = (w', Fin x) →
  check_cidrs fuel' w l tables = (w', Fin x).
Proof.
  induction l as [|[c cidr] l IH]; intros w tables w' x Hle H; [done|]. simpl in *.
  destruct (check_cidr fuel w c cidr) as [w1 [rows| | |]] eqn:E; try done.
  rewrite (check_cidr_mono _ _ _ _ _ _ _ Hle E). by apply IH.
Qed.

Lemma check_cidrs_ends l : servers_start → clients_finish → ∀ w tables,
  ∃ fuel w' x, check_cidrs fuel w l tables = (w', Fin x) ∧ x.*1 = tables.*1 ++ l.*1.
Proof.
  intros Hs Hf. induction l as [|[c cidr] l IH]; intros w tables.
  { exists O, w, tables. split; [done|]. by rewrite app_nil_r. }
  destruct (check_cidr_ends c cidr w Hs Hf) as (f1 & w1 & rows & H1).
  destruct (IH w1 (tables ++ [(c, rows)])) as (f2 & w2 & x & H2 & Hx).
  exists (Nat.max f1 f2), w2, x. simpl.
  rewrite (check_cidr_mono f1 (Nat.max f1 f2) _ _ _ _ _ ltac:(lia) H1).
  split; [by apply (check_cidrs_mono f2); [lia|]|].
  by rewrite Hx, fmap_app, <- app_assoc.
Qed.

(** the check ends when the cluster does its part: if created servers get ready
    and client jobs are created and succeed, after any number of waits, then with
    enough polls the check of all CIDRs returns, with one table for each CIDR that was
    listed. *)
Theorem main_ends w cidrMap :
  servers_start → clients_finish → List w = Ret cidrMap →
  ∃ fuel w' tables, main fuel w = (w', Fin tables) ∧ tables.*1 = (range_map cidrMap).*1.
Proof.
  intros Hs Hf Hl. unfold main. rewrite Hl. by apply check_cidrs_ends.
Qed.

(** One client that does not succeed stops the whole check: when the client job
    of the first host cannot be created (the call returns an empty job, which the API
    server never finds) or never succeeds, the check of the CIDR never returns, and no
    table is printed for it. *)
Theorem failed_client_hangs fuel w c cidr w1 total w2 maps host rest w3 job err :
  create_servers w c (range_map (GetPodCIDRsMap cidr)) 0 = (w1, total) →
  wait_servers fuel w1 c total = (w2, Fin maps) →
  (range_map (GetPodCIDRsMap cidr)).*1 = host :: rest →
  CreateClientJob w2 DEFAULT_NAMESPACE c host maps = (w3, (job, err)) →
  (∀ n, match jobs_Get (after_waits (S n) w3) (om_Namespace (job_Meta job)) (om_Name (job_Meta job)) with
        | inl j => job_Succeeded j <= 0
        | inr _ => True
        end) →
  ∀ fuel', (fuel ≤ fuel')%nat → snd (check_cidr fuel' w c cidr) = OutOfFuel.
Proof.
  intros Hc Hw Hh Hj Hget fuel' Hle. unfold check_cidr. rewrite Hc.
  rewrite (wait_servers_mono _ _ _ _ _ _ _ Hle Hw), Hh. simpl. rewrite Hj.
  pose proof (wait_client_never fuel' w3 job) as Hn.
  destruct (wait_client fuel' w3 job) as [w4 r]. simpl in Hn. rewrite Hn; [done|].
  intros n. specialize (Hget n). unfold CheckClient. destruct (jobs_Get _ _ _) as [j|]; [|done].
  destruct (0 <? job_Active j); [done|]. by rewrite (proj2 (Z.leb_le _ _) Hget).
Qed.
End ends.

(** ** A cluster in memory *)

(** the CIDRs, and the pods that were created *)
Record memcluster := mkMC { mc_cidrs : list json; mc_pods : list Pod }.

Definition empty_meta : ObjectMeta := mkMeta "" "" ∅ ∅.
Definition empty_podspec : PodSpec := mkPodSpec [] [] "" None "".
Definition empty_job : Job := mkJob empty_meta empty_meta empty_podspec 0 0.

(** every address the same: one per interface of the network *)
Definition status_text : string := print (JArr [
  JObj [("name", JStr "k8s"); ("interface", JStr "eth0"); ("ips", JArr [JStr "10.1.0.1"])];
  JObj [("name", JStr "default/net"); ("interface", JStr "net1"); ("ips", JArr [JStr "192.168.1.1"])]]).

(** a created pod runs and has its network status *)
Definition started (p : Pod) : Pod :=
  let m := pod_Meta p in
  mkPod (mkMeta (om_Name m) (om_Namespace m) (om_Labels m)
           (<[NETWORK_STATUS_ANNOTATION := status_text]> (om_Annotations m)))
    (pod_Spec p) "Running".

Definition selected (selector : string) (p : Pod) : bool :=
  match om_Labels (pod_Meta p) !! DEFAULT_LABEL_NAME with
  | Some v => bool_decide (selector = DEFAULT_LABEL_NAME +:+ "=" +:+ v)
  | None => false
  end.

(** [jobs] says whether jobs are accepted, [log] what a pod has written *)
Definition mem_check (jobs : bool) (log : string → string + string) : CheckAPI memcluster := {|
  pods_Create w _ p := (mkMC (mc_cidrs w) (mc_pods w ++ [p]), (p, None));
  pods_List w _ selector := (started <$> filter (λ p, selected selector p = true) (mc_pods w), None);
  pods_Log w _ name := log name;
  jobs_Create w _ job :=
    if jobs
    then (mkMC (mc_cidrs w) (mc_pods w ++ [mkPod (job_TemplateMeta job) (job_TemplateSpec job) ""]),
          (job, None))
    else (w, (empty_job, Some "quota exceeded"));
  jobs_Get w _ name :=
    if bool_decide (name = "") then inr "resource name may not be empty"
    else inl (mkJob empty_meta empty_meta empty_podspec 0 1);
  jobs_List w _ _ := ([], None);
  cluster_Sleep w := w
|}.

#[export] Instance mem_dyn : DynAPI memcluster := {|
  dyn_Get w _ _ _ := inr "not found";
  dyn_List w _ _ _ := inl (mc_cidrs w);
  dyn_JSONPatch w _ _ _ _ := (w, Some "not found")
|}.

Definition ex_host_json (name cidr : string) : json :=
  JObj [("hostName", JStr name); ("podCIDR", JStr cidr)].

Definition ex_cidr_json : json := JObj [
  ("metadata", JObj [("name", JStr "net")]);
  ("spec", JObj [("cidr", JArr [JObj [("hosts", JArr [
    ex_host_json "hostA" "192.168.0.0/24"; ex_host_json "hostB" "192.168.1.0/24"])]])])].

#[local] Existing Instance map_to_list_range.

(** the client on hostA leaves no log *)
Definition no_log (name : string) : string + string :=
  if String.prefix "net-hostA-c" name then inr "log is gone" else inl "ready".

Definition all_log (name : string) : string + string := inl "ready".

Definition tables_of {W} (r : W * run (list (string * list row))) : list (string * list row) :=
  match snd r with Fin t => t | _ => [] end.

Definition counts (r : row) : string * string * Z * Z :=
  (row_from r, row_to r, row_connected r, row_total r).

Definition ex_check : memcluster := mkMC [ex_cidr_json] [].

Definition ex_checked : memcluster * run (list (string * list row)) :=
  main (H := mem_check true no_log) 3 ex_check.

(** the whole check on a cluster where everything starts *)
Example main_ex :
  map (λ t, (t.1, map counts t.2)) (tables_of ex_checked)
  = [("net", [("hostA", "hostB", 1, 1); ("hostB", "hostA", 1, 1)])].
Proof. vm_compute. reflexivity. Qed.

Definition ex_check_entries : list CIDREntry :=
  [mkCIDREntry "" 0 "" [mkHostInterfaceInfo 0 "hostA" "" "" "192.168.0.0/24" "";
                        mkHostInterfaceInfo 0 "hostB" "" "" "192.168.1.0/24" ""]].

Lemma streams_meet_witness :
  ∃ pods pod job server client,
    (create_servers (H := mem_check true no_log) ex_check "net"
       (range_map (GetPodCIDRsMap ex_check_entries)) 0).1
      = foldl (λ w p, (pods_Create (CheckAPI := mem_check true no_log) w DEFAULT_NAMESPACE p).1) ex_check pods ∧
    (pod ∈ pods) ∧ runs (pod_Spec pod) "hostB" server ∧
    CreateClientJob (H := mem_check true no_log) ex_check DEFAULT_NAMESPACE "net" "hostA"
      (∅, {["hostB" := ["192.168.1.1"]]})
      = jobs_Create (CheckAPI := mem_check true no_log) ex_check DEFAULT_NAMESPACE job ∧
    runs (job_TemplateSpec job) "hostA" client ∧
    Strings.Contains server (loop_text (server_pre 0) "") = true ∧
    Strings.Contains client (loop_text (client_pre "192.168.1.1" 0) client_post) = true ∧
    loop_commands (server_pre 0) "" = listen_command <$> [30001; 30002; 30003; 30004; 30005] ∧
    loop_commands (client_pre "192.168.1.1" 0) client_post
      = connect_command "192.168.1.1" <$> [30001; 30002; 30003; 30004; 30005] ∧
    ∀ k p, p ∈ [30001; 30002; 30003; 30004; 30005] → p ∈ ports k → k = 0%nat.
Proof.
  apply (streams_meet (api := mem_check true no_log) ex_check ex_check "net" ex_check_entries
           "hostB" "hostA" (∅, {["hostB" := ["192.168.1.1"]]}) ["192.168.1.1"] 0 "192.168.1.1").
  - done.
  - reflexivity.
  - reflexivity.
  - vm_compute. lia.
Defined.

Lemma report_counts_unmeasured_witness :
  ∃ pod, (pod ∈ (pods_List (CheckAPI := mem_check true no_log) ex_checked.1 "default"
                   (label_selector "net" DEFAULT_CLIENT_LABEL_VALUE)).1) ∧
    row_of (api := mem_check true no_log) ex_checked.1 {["hostB" := ["192.168.1.1"]]} pod
      (mkRow "hostA" "hostB" 1 1 ["192.168.1.1"] "[]") ∧
    ((getLog (H := mem_check true no_log) ex_checked.1 pod).2 ≠ None → 1 = 1).
Proof.
  apply (report_counts_unmeasured (api := mem_check true no_log) ex_checked.1 "default" "net"
           {["hostB" := ["192.168.1.1"]]} (mkRow "hostA" "hostB" 1 1 ["192.168.1.1"] "[]")).
  vm_compute. apply list_elem_of_here.
Defined.

Lemma failed_client_hangs_witness :
  snd (check_cidr (H := mem_check false no_log) 50 ex_check "net" ex_check_entries) = OutOfFuel.
Proof.
  eapply (failed_client_hangs (api := mem_check false no_log) 3 ex_check "net" ex_check_entries);
    [| | | | |lia].
  - vm_compute. reflexivity.
  - vm_compute. reflexivity.
  - vm_compute. reflexivity.
  - vm_compute. reflexivity.
  - intros n. vm_compute. exact I.
Defined.

(** *** Everything starts *)

Definition live : CheckAPI memcluster := mem_check true all_log.

Definition ex_statuses : list NetworkStatus :=
  [mkStatus "k8s" "eth0" ["10.1.0.1"]; mkStatus "default/net" "net1" ["192.168.1.1"]].

Lemma started_ready (w : memcluster) c pods : ∀ maps,
  ∃ maps', check_pods (H := live) w DEFAULT_NAMESPACE c maps (started <$> pods) = Ret (maps', true).
Proof.
  assert (Unmarshal (dec_slice zero_status dec_status) status_text [] = (ex_statuses, true)) as Hd
    by (vm_compute; reflexivity).
  induction pods as [|p pods IH]; intros maps; [by exists maps|]. rewrite fmap_cons.
  cbn [check_pods started pod_Phase pod_Meta om_Annotations pod_Spec].
  rewrite bool_decide_eq_true_2 by done. cbn [negb].
  rewrite (lookup_insert_eq (M := gmap string)), Hd. cbn [negb].
  change (getLog w _) with (Strings.Split "ready" "010"%char, None : option string). cbv iota beta.
  rewrite (bool_decide_eq_false_2 ((None : option string) ≠ None)) by (intros Hn; by apply Hn).
  rewrite (bool_decide_eq_false_2 (Strings.Split "ready" "010"%char = [])) by done. cbn [orb].
  assert (∃ maps1, add_statuses DEFAULT_NAMESPACE c (ps_NodeName (pod_Spec p)) maps ex_statuses
    = Ret maps1) as [maps1 ->]; [|apply IH].
  destruct maps as [m1 m2]. unfold ex_statuses. simpl.
  repeat (case_bool_decide; simpl); eauto.
Qed.

Lemma server_created (w : memcluster) c host n :
  ∃ p, CreateServerPod (H := live) w DEFAULT_NAMESPACE c host n
       = (mkMC (mc_cidrs w) (mc_pods w ++ [p]), (p, None)) ∧
    selected (label_selector c DEFAULT_SERVER_LABEL_VALUE) p = true.
Proof.
  eexists. split; [reflexivity|]. unfold selected. cbn [pod_Meta om_Labels getMetaObject].
  rewrite (lookup_singleton_eq (M := gmap string)). by apply bool_decide_eq_true_2.
Qed.

Abbreviation server_pods c w :=
  (filter (λ p, selected (label_selector c DEFAULT_SERVER_LABEL_VALUE) p = true) (mc_pods w)).

Lemma create_servers_pods c hosts : ∀ (w : memcluster) total w1 t,
  create_servers (H := live) w c hosts total = (w1, t) →
  total ≤ Z.of_nat (length (server_pods c w)) → t ≤ Z.of_nat (length (server_pods c w1)).
Proof.
  induction hosts as [|[h l] hosts IH]; intros w total w1 t H Hle; cbn [create_servers] in H.
  { by injection H as <- <-. }
  destruct (server_created w c h (length l)) as (p & Hp & Hsel). rewrite Hp in H.
  apply IH in H; [done|]. cbn [mc_pods]. rewrite filter_app, length_app, filter_cons, decide_True by done.
  cbn [length]. lia.
Qed.

Lemma live_servers_start : servers_start (api := live).
Proof.
  intros w c hosts w1 t H. apply create_servers_pods in H; [|lia]. exists 1%nat.
  destruct (started_ready w1 c (server_pods c w1) (∅, ∅)) as [maps Hm]. exists w1, maps.
  cbn [wait_servers]. unfold CheckServers.
  change (pods_List w1 DEFAULT_NAMESPACE (label_selector c DEFAULT_SERVER_LABEL_VALUE))
    with (started <$> server_pods c w1, None : option string). cbv iota beta.
  rewrite (bool_decide_eq_false_2 ((None : option string) ≠ None)) by (intros Hn; by apply Hn).
  rewrite length_fmap, (proj2 (Z.ltb_ge _ _) H). cbn [orb]. by rewrite Hm.
Qed.

Lemma live_clients_finish : clients_finish (api := live).
Proof.
  intros w c host [p m] w1 job err H. exists O.
  assert (om_Name (job_Meta job) = getName c host DEFAULT_CLIENT_LABEL_VALUE) as Hname
    by (by injection H as _ <- _).
  unfold CheckClient. cbn [live mem_check jobs_Get]. rewrite bool_decide_eq_false_2; [done|].
  rewrite Hname. intros Hn. pose proof (getName_length c host DEFAULT_CLIENT_LABEL_VALUE) as Hl.
  rewrite Hn in Hl. simpl in Hl. lia.
Qed.

Lemma main_ends_witness :
  ∃ fuel w' tables, main (H := live) fuel ex_check = (w', Fin tables) ∧
    tables.*1 = (range_map {["net" := ex_check_entries]}).*1.
Proof.
  apply (main_ends (api := live) ex_check {["net" := ex_check_entries]}).
  - apply live_servers_start.
  - apply live_clients_finish.
  - vm_compute. reflexivity.
Defined.
